(** * Blind Surfers: a shallow embedding of the game core and its properties

    The Python sources are embedded function by function.  Python [float] is
    IEEE-754 binary64, which is what Rocq's primitive floats are, so every
    float of the program is a [float] here and every arithmetic operation is
    the primitive one (same rounding).  Python [int] is unbounded: [Z].
    Sound and speech calls go to external back ends; the embedding records
    them, in order, in a log of calls.  A [KeyError], [OverflowError] or
    [ValueError] that the code can raise is a result of the embedded function.

    The embedding comes first, module by module as in the sources; the
    notions used to state the properties follow ([Spec]), then the
    properties. *)

From Stdlib Require Import ZArith List String Ascii Bool Floats Lia QArith.
From Stdlib Require Import DecimalString.
Import ListNotations.

Set Warnings "-inexact-float".

Local Open Scope Z_scope.
Local Open Scope string_scope.

(** ** Exceptions *)

Inductive exn :=
| KeyError (key : string)
| OverflowError
| ValueError.

Inductive result (A : Type) :=
| Ok (a : A)
| Raise (e : exn).
Arguments Ok {A} a.
Arguments Raise {A} e.

Definition bind {A B} (r : result A) (k : A -> result B) : result B :=
  match r with
  | Ok a => k a
  | Raise e => Raise e
  end.

Notation "x <- r ;; k" := (bind r (fun x => k))
  (at level 61, r at next level, right associativity).

(** ** Python floats *)

Module PyFloat.

Local Open Scope float_scope.

(** [max(a, b)]: the second argument wins only when it is strictly
    greater; [min(a, b)]: only when it is strictly smaller. *)
Definition pymax (a b : float) : float := if a <? b then b else a.
Definition pymin (a b : float) : float := if b <? a then b else a.

(** [float(n)] for an [int]: correctly rounded, [OverflowError] when the
    integer is too large for a binary64. *)
Definition of_int (n : Z) : result float :=
  match binary_normalize prec emax n 0 false with
  | S754_infinity _ => Raise OverflowError
  | sf => Ok (SF2Prim sf)
  end.

(** [int(x)]: truncation toward zero; [OverflowError] on an infinity,
    [ValueError] on a NaN. *)
Definition to_int (x : float) : result Z :=
  match Prim2SF x with
  | S754_zero _ => Ok 0%Z
  | S754_finite s m e =>
      Ok (cond_Zopp s (if (0 <=? e)%Z then Z.pos m * 2 ^ e
                       else Z.pos m / 2 ^ (- e)))%Z
  | S754_infinity _ => Raise OverflowError
  | S754_nan => Raise ValueError
  end.

(** The exact rational value of a finite float. *)
Definition to_Q (x : float) : Q :=
  match Prim2SF x with
  | S754_finite s m e =>
      if (0 <=? e)%Z then inject_Z (cond_Zopp s (Z.pos m * 2 ^ e))
      else Qmake (cond_Zopp s (Z.pos m)) (Z.to_pos (2 ^ (- e)))
  | _ => 0%Q
  end.

End PyFloat.

(** ** Python dictionaries

    A [dict] keeps its keys in insertion order and iteration follows that
    order, so a dictionary is an association list; a well-formed one has no
    key twice. *)

Module Dict.

Section WithValue.
Context {V : Type}.

Definition t := list (string * V).

(** Lookup of the first binding of [k]. *)
Fixpoint get (d : t) (k : string) : option V :=
  match d with
  | [] => None
  | (k', v) :: d' => if String.eqb k' k then Some v else get d' k
  end.

(** [k in d] *)
Definition mem (d : t) (k : string) : bool :=
  match get d k with Some _ => true | None => false end.

(** [d.get(k, dflt)] *)
Definition get_default (d : t) (k : string) (dflt : V) : V :=
  match get d k with Some v => v | None => dflt end.

(** [d[k]] *)
Definition subscript (d : t) (k : string) : result V :=
  match get d k with Some v => Ok v | None => Raise (KeyError k) end.

(** [d[k] = v]: an existing key keeps its position, a new one goes last. *)
Fixpoint set (d : t) (k : string) (v : V) : t :=
  match d with
  | [] => [(k, v)]
  | (k', v') :: d' =>
      if String.eqb k' k then (k', v) :: d' else (k', v') :: set d' k v
  end.

(** [del d[k]], only ever executed for a key just read from [d]. *)
Definition del (d : t) (k : string) : t :=
  filter (fun kv => negb (String.eqb (fst kv) k)) d.

Definition keys (d : t) : list string := map fst d.

(** No key occurs twice. *)
Fixpoint wf (d : t) : bool :=
  match d with
  | [] => true
  | (k, _) :: d' => negb (mem d' k) && wf d'
  end.

End WithValue.

Arguments t V : clear implicits.

End Dict.

(** ** Calls to the sound manager, the speech back end and the menus

    [SoundManager] and [TTS] wrap pygame and the speech synthesiser; whether a
    sound plays depends on assets and free channels.  The embedding records
    each call the game makes, with its arguments, oldest first:
    [play_sound], [start_loop], [update_loop], [update_loop_with_pan],
    [stop_loop], [play_loop], [play_music], [stop_music], [adjust_music_volume],
    [menu_controller.open_menu] (with the menu's title), [tts.say] and
    [time.sleep]. *)

Inductive Event :=
| PlaySound (name : string) (lane : Z) (distance : float)
| StartLoop (tag name : string) (lane : Z) (distance : float)
| UpdateLoop (tag : string) (lane : Z) (distance : float)
| UpdateLoopWithPan (tag : string) (pan distance : float)
| StopLoop (tag : string)
| PlayLoop (name : string) (lane : Z)
| PlayMusic (name : string)
| StopMusic
| AdjustMusicVolume (delta : float)
| OpenMenu (title : string)
| Say (text : string)
| Sleep (seconds : float).

Definition Log := list Event.

(** [str(n)] for an [int]. *)
Definition str_of_int (n : Z) : string := NilZero.string_of_int (Z.to_int n).

(** ** config.py: the defaults of the frozen configuration dataclasses *)

Module Config.

Local Open Scope float_scope.

(** [GameConfig] *)
Definition max_distance : float := 100.0.
Definition lanes : list Z := [0; 1; 2]%Z.
Definition lane_pan (lane : Z) : option float :=
  match lane with
  | 0%Z => Some (-0.8)
  | 1%Z => Some 0.0
  | 2%Z => Some 0.8
  | _ => None
  end.

(** [EconomyConfig] *)
Record EconomyConfig := {
  powerup_base_duration : Dict.t float;
  upgrade_costs : Dict.t Z;
  mystery_box_cost : Z
}.

Definition economy : EconomyConfig := {|
  powerup_base_duration :=
    [("jetpack", 10.0); ("super_sneakers", 10.0); ("magnet", 10.0);
     ("multiplier", 10.0); ("hoverboard", 30.0)];
  upgrade_costs :=
    [("jetpack", 500); ("super_sneakers", 400); ("magnet", 450);
     ("multiplier", 600); ("hoverboard", 700)]%Z;
  mystery_box_cost := 300
|}.

(** [AudioConfig] *)
Definition default_music_volume : float := 0.8.
Definition default_sfx_volume : float := 0.9.

(** [GameplayConfig] *)
Definition base_speed : float := 25.0.
Definition jump_duration : float := 0.7.
Definition super_jump_duration : float := 1.0.
Definition roll_duration : float := 0.7.
Definition score_rate : Z := 10.
Definition achievement_pause_seconds : float := 0.5.
Definition word_hunt_letters : list string := ["H"; "U"; "N"; "T"].

End Config.

(** ** blind_surfers/audio.py: the gain computation of [SoundManager] *)

Module SoundManager.

Import PyFloat.
Local Open Scope float_scope.

(** [self.sfx_volume] is set from the configuration and never reassigned. *)
Definition sfx_volume : float := Config.default_sfx_volume.

Definition _pan_to_stereo (pan : float) : float * float :=
  let pan := pymax (-1.0) (pymin 1.0 pan) in
  let left := 1.0 - pymax 0.0 pan in
  let right := 1.0 + pymin 0.0 pan in
  (pymax 0.0 (pymin 1.0 left), pymax 0.0 (pymin 1.0 right)).

(** The divisor is the configured [max_distance], the constant 100.0, so
    the division cannot raise. *)
Definition _distance_to_volume (distance : float) : float :=
  let distance := pymax 0.0 (pymin Config.max_distance distance) in
  pymax 0.0 (1.0 - distance / Config.max_distance).

(** [self.config.game.lane_pan.get(lane, 0.0)] *)
Definition pan_of_lane (lane : Z) : float :=
  match Config.lane_pan lane with Some p => p | None => 0.0 end.

(** The pair handed to [channel.set_volume] by [play_sound], [start_loop]
    and [update_loop_with_pan], for a pan value and a distance. *)
Definition channel_volume (pan distance : float) : float * float :=
  let '(left_gain, right_gain) := _pan_to_stereo pan in
  let volume := _distance_to_volume distance * sfx_volume in
  (left_gain * volume, right_gain * volume).

End SoundManager.


(** ** blind_surfers/models.py *)

Module Obstacle.

Record t := {
  lane : Z;
  distance : float;
  kind : string;
  height : string;
  active : bool;
  sound_tag : option string;
  honk_played : bool
}.

Definition set_distance (o : t) (d : float) : t :=
  {| lane := lane o; distance := d; kind := kind o; height := height o;
     active := active o; sound_tag := sound_tag o;
     honk_played := honk_played o |}.

Definition set_active (o : t) (b : bool) : t :=
  {| lane := lane o; distance := distance o; kind := kind o;
     height := height o; active := b; sound_tag := sound_tag o;
     honk_played := honk_played o |}.

Definition set_honk_played (o : t) (b : bool) : t :=
  {| lane := lane o; distance := distance o; kind := kind o;
     height := height o; active := active o; sound_tag := sound_tag o;
     honk_played := b |}.

(** [if obstacle.sound_tag:] holds for a tag that is neither [None] nor
    empty. *)
Definition tag (o : t) : option string :=
  match sound_tag o with
  | Some s => if String.eqb s "" then None else Some s
  | None => None
  end.

End Obstacle.

Module PowerUp.

Record t := {
  lane : Z;
  distance : float;
  kind : string;
  active : bool
}.

Definition set_distance (p : t) (d : float) : t :=
  {| lane := lane p; distance := d; kind := kind p; active := active p |}.

Definition set_active (p : t) (b : bool) : t :=
  {| lane := lane p; distance := distance p; kind := kind p; active := b |}.

End PowerUp.

Module LetterCollectible.

Record t := {
  lane : Z;
  distance : float;
  letter : string;
  active : bool
}.

Definition set_distance (l : t) (d : float) : t :=
  {| lane := lane l; distance := d; letter := letter l; active := active l |}.

Definition set_active (l : t) (b : bool) : t :=
  {| lane := lane l; distance := distance l; letter := letter l; active := b |}.

End LetterCollectible.

Module CoinCollectible.

Record t := {
  lane : Z;
  distance : float;
  active : bool
}.

Definition set_distance (c : t) (d : float) : t :=
  {| lane := lane c; distance := d; active := active c |}.

Definition set_active (c : t) (b : bool) : t :=
  {| lane := lane c; distance := distance c; active := b |}.

End CoinCollectible.

Module Player.

Local Open Scope float_scope.

Record t := {
  lane : Z;
  jumping : bool;
  rolling : bool;
  jump_timer : float;
  roll_timer : float;
  super_sneakers : bool;
  jetpack : bool;
  hoverboard_active : bool;
  hoverboard_timer : float
}.

(** [Player()] *)
Definition init : t := {|
  lane := 1;
  jumping := false;
  rolling := false;
  jump_timer := 0.0;
  roll_timer := 0.0;
  super_sneakers := false;
  jetpack := false;
  hoverboard_active := false;
  hoverboard_timer := 0.0
|}.

Definition set_lane (p : t) (l : Z) : t :=
  {| lane := l; jumping := jumping p; rolling := rolling p;
     jump_timer := jump_timer p; roll_timer := roll_timer p;
     super_sneakers := super_sneakers p; jetpack := jetpack p;
     hoverboard_active := hoverboard_active p;
     hoverboard_timer := hoverboard_timer p |}.

Definition set_jump (p : t) (b : bool) (tm : float) : t :=
  {| lane := lane p; jumping := b; rolling := rolling p;
     jump_timer := tm; roll_timer := roll_timer p;
     super_sneakers := super_sneakers p; jetpack := jetpack p;
     hoverboard_active := hoverboard_active p;
     hoverboard_timer := hoverboard_timer p |}.

Definition set_roll (p : t) (b : bool) (tm : float) : t :=
  {| lane := lane p; jumping := jumping p; rolling := b;
     jump_timer := jump_timer p; roll_timer := tm;
     super_sneakers := super_sneakers p; jetpack := jetpack p;
     hoverboard_active := hoverboard_active p;
     hoverboard_timer := hoverboard_timer p |}.

Definition set_hoverboard (p : t) (b : bool) (tm : float) : t :=
  {| lane := lane p; jumping := jumping p; rolling := rolling p;
     jump_timer := jump_timer p; roll_timer := roll_timer p;
     super_sneakers := super_sneakers p; jetpack := jetpack p;
     hoverboard_active := b;
     hoverboard_timer := tm |}.

Definition set_super_sneakers (p : t) (b : bool) : t :=
  {| lane := lane p; jumping := jumping p; rolling := rolling p;
     jump_timer := jump_timer p; roll_timer := roll_timer p;
     super_sneakers := b; jetpack := jetpack p;
     hoverboard_active := hoverboard_active p;
     hoverboard_timer := hoverboard_timer p |}.

Definition set_jetpack (p : t) (b : bool) : t :=
  {| lane := lane p; jumping := jumping p; rolling := rolling p;
     jump_timer := jump_timer p; roll_timer := roll_timer p;
     super_sneakers := super_sneakers p; jetpack := b;
     hoverboard_active := hoverboard_active p;
     hoverboard_timer := hoverboard_timer p |}.

Definition move_left (p : t) : t :=
  if (0 <? lane p)%Z then set_lane p (lane p - 1) else p.

Definition move_right (p : t) : t :=
  if (lane p <? 2)%Z then set_lane p (lane p + 1) else p.

Definition jump (p : t) (duration : float) : t := set_jump p true duration.

Definition roll (p : t) (duration : float) : t := set_roll p true duration.

Definition update (p : t) (delta_seconds : float) : t :=
  let p :=
    if jumping p then
      let tm := jump_timer p - delta_seconds in
      set_jump p (if tm <=? 0 then false else true) tm
    else p in
  let p :=
    if rolling p then
      let tm := roll_timer p - delta_seconds in
      set_roll p (if tm <=? 0 then false else true) tm
    else p in
  let p :=
    if hoverboard_active p then
      let tm := hoverboard_timer p - delta_seconds in
      set_hoverboard p (if tm <=? 0 then false else true) tm
    else p in
  p.

End Player.

(** ** blind_surfers/systems.py *)

(** [random.choice(seq)], the draw given by an index. *)
Definition choice {A} (seq : list A) (draw : nat) (dflt : A) : A :=
  nth (draw mod List.length seq) seq dflt.

Module AchievementSystem.

Local Open Scope float_scope.

Record t := { unlocked : Dict.t bool }.

Definition init : t :=
  {| unlocked := [("High Jumper", false); ("Gold Digger", false);
                  ("Marathon", false)] |}.

(** Returns the name, the updated system and the calls it made. *)
Definition unlock (a : t) (name : string) : string * t * Log :=
  (name,
   {| unlocked := Dict.set (unlocked a) name true |},
   [PlaySound "achievement_unlock" 1 0.0;
    Say ("Achievement unlocked: " ++ name)]).

(** [not self.unlocked[name] and stats[key] >= threshold] *)
Definition qualifies (a : t) (stats : Dict.t Z) (name key : string)
    (threshold : Z) : result bool :=
  u <- Dict.subscript (unlocked a) name ;;
  if negb u then
    n <- Dict.subscript stats key ;; Ok (threshold <=? n)%Z
  else Ok false.

Definition unlocking (a : t) (name : string) : result (option string * t * Log) :=
  let '(n, a', calls) := unlock a name in Ok (Some n, a', calls).

Definition check (a : t) (stats : Dict.t Z) : result (option string * t * Log) :=
  c1 <- qualifies a stats "High Jumper" "jumps" 100 ;;
  if c1 then unlocking a "High Jumper" else
  c2 <- qualifies a stats "Gold Digger" "total_coins" 5000 ;;
  if c2 then unlocking a "Gold Digger" else
  c3 <- qualifies a stats "Marathon" "score" 100000 ;;
  if c3 then unlocking a "Marathon" else
  Ok (None, a, []).

Definition list_status (a : t) : list string :=
  map (fun '(name, status) =>
         name ++ " - " ++ (if status : bool then "Unlocked" else "Locked"))
      (unlocked a).

End AchievementSystem.

Module Economy.

Local Open Scope float_scope.

Record t := {
  config : Config.EconomyConfig;
  coins : Z;
  keys : Z;
  mystery_boxes : Z;
  powerup_durations : Dict.t float
}.

(** [Economy(config)] with [__post_init__]. *)
Definition init (cfg : Config.EconomyConfig) : t := {|
  config := cfg;
  coins := 0;
  keys := 0;
  mystery_boxes := 0;
  powerup_durations := Config.powerup_base_duration cfg
|}.

Definition set_coins (e : t) (c : Z) : t :=
  {| config := config e; coins := c; keys := keys e;
     mystery_boxes := mystery_boxes e;
     powerup_durations := powerup_durations e |}.

Definition set_keys (e : t) (k : Z) : t :=
  {| config := config e; coins := coins e; keys := k;
     mystery_boxes := mystery_boxes e;
     powerup_durations := powerup_durations e |}.

Definition set_mystery_boxes (e : t) (b : Z) : t :=
  {| config := config e; coins := coins e; keys := keys e;
     mystery_boxes := b;
     powerup_durations := powerup_durations e |}.

Definition set_powerup_durations (e : t) (d : Dict.t float) : t :=
  {| config := config e; coins := coins e; keys := keys e;
     mystery_boxes := mystery_boxes e;
     powerup_durations := d |}.

Definition buy_upgrade (e : t) (powerup : string) : bool * t :=
  let cost := Dict.get_default (Config.upgrade_costs (config e)) powerup 0%Z in
  if (cost <=? coins e)%Z && (0 <? cost)%Z then
    let e := set_coins e (coins e - cost) in
    let e := set_powerup_durations e
               (Dict.set (powerup_durations e) powerup
                  (Dict.get_default (powerup_durations e) powerup 10.0 + 5.0)) in
    (true, e)
  else (false, e).

Definition buy_mystery_box (e : t) : bool * t :=
  if (Config.mystery_box_cost (config e) <=? coins e)%Z then
    let e := set_coins e (coins e - Config.mystery_box_cost (config e)) in
    let e := set_mystery_boxes e (mystery_boxes e + 1) in
    (true, e)
  else (false, e).

Definition open_mystery_box (e : t) (draw : nat) : string * t :=
  if (mystery_boxes e <=? 0)%Z then ("None", e)
  else
    let e := set_mystery_boxes e (mystery_boxes e - 1) in
    let reward := choice ["Coins"; "Keys"; "Trophies"] draw "" in
    if String.eqb reward "Coins" then (reward, set_coins e (coins e + 500))
    else if String.eqb reward "Keys" then (reward, set_keys e (keys e + 1))
    else (reward, e).

End Economy.

Module WordHunt.

Record t := {
  letters : list string;
  collected : list string
}.

(** [WordHunt(letters)] *)
Definition init (target : list string) : t :=
  {| letters := target; collected := [] |}.

Definition next_letter (w : t) : string :=
  match letters w with
  | [] => ""
  | _ => nth (List.length (collected w) mod List.length (letters w)) (letters w) ""
  end.

Definition collect (w : t) (letter : string) : bool * t :=
  let collected' := (collected w ++ [letter])%list in
  if Nat.eqb (List.length collected') (List.length (letters w)) then
    (true, {| letters := letters w; collected := [] |})
  else
    (false, {| letters := letters w; collected := collected' |}).

End WordHunt.

Module SeasonHunt.

Record t := { tokens : Z }.

Definition init : t := {| tokens := 0 |}.

Definition collect (s : t) : t := {| tokens := tokens s + 1 |}.

End SeasonHunt.

(** ** blind_surfers/game.py

  [ui.py]'s menus only move a cursor and speak; what they hand to the game
  is the action string of the selected item, taken here as an input.  The
  outcomes of [random.random() < rate] and [random.choice] are inputs too. *)

Inductive GameState := MENU | RUNNING | GAME_OVER.

Module Game.

Import PyFloat.
Local Open Scope float_scope.

Record t := {
  economy : Economy.t;
  achievement_system : AchievementSystem.t;
  word_hunt : WordHunt.t;
  season_hunt : SeasonHunt.t;
  player : Player.t;
  running : bool;
  state : GameState;
  score : Z;
  multiplier : Z;
  speed : float;
  stats : Dict.t Z;
  obstacles : list Obstacle.t;
  powerups : list PowerUp.t;
  letters : list LetterCollectible.t;
  coins : list CoinCollectible.t;
  active_powerups : Dict.t float;
  obstacle_id : Z;
  log : Log
}.

Definition set_economy (g : t) (v : Economy.t) : t :=
  {| economy := v; achievement_system := achievement_system g;
     word_hunt := word_hunt g; season_hunt := season_hunt g;
     player := player g; running := running g; state := state g;
     score := score g; multiplier := multiplier g; speed := speed g;
     stats := stats g; obstacles := obstacles g; powerups := powerups g;
     letters := letters g; coins := coins g;
     active_powerups := active_powerups g; obstacle_id := obstacle_id g;
     log := log g |}.

Definition set_achievement_system (g : t) (v : AchievementSystem.t) : t :=
  {| economy := economy g; achievement_system := v; word_hunt := word_hunt g;
     season_hunt := season_hunt g; player := player g; running := running g;
     state := state g; score := score g; multiplier := multiplier g;
     speed := speed g; stats := stats g; obstacles := obstacles g;
     powerups := powerups g; letters := letters g; coins := coins g;
     active_powerups := active_powerups g; obstacle_id := obstacle_id g;
     log := log g |}.

Definition set_word_hunt (g : t) (v : WordHunt.t) : t :=
  {| economy := economy g; achievement_system := achievement_system g;
     word_hunt := v; season_hunt := season_hunt g; player := player g;
     running := running g; state := state g; score := score g;
     multiplier := multiplier g; speed := speed g; stats := stats g;
     obstacles := obstacles g; powerups := powerups g; letters := letters g;
     coins := coins g; active_powerups := active_powerups g;
     obstacle_id := obstacle_id g; log := log g |}.

Definition set_season_hunt (g : t) (v : SeasonHunt.t) : t :=
  {| economy := economy g; achievement_system := achievement_system g;
     word_hunt := word_hunt g; season_hunt := v; player := player g;
     running := running g; state := state g; score := score g;
     multiplier := multiplier g; speed := speed g; stats := stats g;
     obstacles := obstacles g; powerups := powerups g; letters := letters g;
     coins := coins g; active_powerups := active_powerups g;
     obstacle_id := obstacle_id g; log := log g |}.

Definition set_player (g : t) (v : Player.t) : t :=
  {| economy := economy g; achievement_system := achievement_system g;
     word_hunt := word_hunt g; season_hunt := season_hunt g; player := v;
     running := running g; state := state g; score := score g;
     multiplier := multiplier g; speed := speed g; stats := stats g;
     obstacles := obstacles g; powerups := powerups g; letters := letters g;
     coins := coins g; active_powerups := active_powerups g;
     obstacle_id := obstacle_id g; log := log g |}.

Definition set_running (g : t) (v : bool) : t :=
  {| economy := economy g; achievement_system := achievement_system g;
     word_hunt := word_hunt g; season_hunt := season_hunt g;
     player := player g; running := v; state := state g; score := score g;
     multiplier := multiplier g; speed := speed g; stats := stats g;
     obstacles := obstacles g; powerups := powerups g; letters := letters g;
     coins := coins g; active_powerups := active_powerups g;
     obstacle_id := obstacle_id g; log := log g |}.

Definition set_state (g : t) (v : GameState) : t :=
  {| economy := economy g; achievement_system := achievement_system g;
     word_hunt := word_hunt g; season_hunt := season_hunt g;
     player := player g; running := running g; state := v; score := score g;
     multiplier := multiplier g; speed := speed g; stats := stats g;
     obstacles := obstacles g; powerups := powerups g; letters := letters g;
     coins := coins g; active_powerups := active_powerups g;
     obstacle_id := obstacle_id g; log := log g |}.

Definition set_score (g : t) (v : Z) : t :=
  {| economy := economy g; achievement_system := achievement_system g;
     word_hunt := word_hunt g; season_hunt := season_hunt g;
     player := player g; running := running g; state := state g; score := v;
     multiplier := multiplier g; speed := speed g; stats := stats g;
     obstacles := obstacles g; powerups := powerups g; letters := letters g;
     coins := coins g; active_powerups := active_powerups g;
     obstacle_id := obstacle_id g; log := log g |}.

Definition set_multiplier (g : t) (v : Z) : t :=
  {| economy := economy g; achievement_system := achievement_system g;
     word_hunt := word_hunt g; season_hunt := season_hunt g;
     player := player g; running := running g; state := state g;
     score := score g; multiplier := v; speed := speed g; stats := stats g;
     obstacles := obstacles g; powerups := powerups g; letters := letters g;
     coins := coins g; active_powerups := active_powerups g;
     obstacle_id := obstacle_id g; log := log g |}.

Definition set_speed (g : t) (v : float) : t :=
  {| economy := economy g; achievement_system := achievement_system g;
     word_hunt := word_hunt g; season_hunt := season_hunt g;
     player := player g; running := running g; state := state g;
     score := score g; multiplier := multiplier g; speed := v;
     stats := stats g; obstacles := obstacles g; powerups := powerups g;
     letters := letters g; coins := coins g;
     active_powerups := active_powerups g; obstacle_id := obstacle_id g;
     log := log g |}.

Definition set_stats (g : t) (v : Dict.t Z) : t :=
  {| economy := economy g; achievement_system := achievement_system g;
     word_hunt := word_hunt g; season_hunt := season_hunt g;
     player := player g; running := running g; state := state g;
     score := score g; multiplier := multiplier g; speed := speed g;
     stats := v; obstacles := obstacles g; powerups := powerups g;
     letters := letters g; coins := coins g;
     active_powerups := active_powerups g; obstacle_id := obstacle_id g;
     log := log g |}.

Definition set_obstacles (g : t) (v : list Obstacle.t) : t :=
  {| economy := economy g; achievement_system := achievement_system g;
     word_hunt := word_hunt g; season_hunt := season_hunt g;
     player := player g; running := running g; state := state g;
     score := score g; multiplier := multiplier g; speed := speed g;
     stats := stats g; obstacles := v; powerups := powerups g;
     letters := letters g; coins := coins g;
     active_powerups := active_powerups g; obstacle_id := obstacle_id g;
     log := log g |}.

Definition set_powerups (g : t) (v : list PowerUp.t) : t :=
  {| economy := economy g; achievement_system := achievement_system g;
     word_hunt := word_hunt g; season_hunt := season_hunt g;
     player := player g; running := running g; state := state g;
     score := score g; multiplier := multiplier g; speed := speed g;
     stats := stats g; obstacles := obstacles g; powerups := v;
     letters := letters g; coins := coins g;
     active_powerups := active_powerups g; obstacle_id := obstacle_id g;
     log := log g |}.

Definition set_letters (g : t) (v : list LetterCollectible.t) : t :=
  {| economy := economy g; achievement_system := achievement_system g;
     word_hunt := word_hunt g; season_hunt := season_hunt g;
     player := player g; running := running g; state := state g;
     score := score g; multiplier := multiplier g; speed := speed g;
     stats := stats g; obstacles := obstacles g; powerups := powerups g;
     letters := v; coins := coins g; active_powerups := active_powerups g;
     obstacle_id := obstacle_id g; log := log g |}.

Definition set_coins (g : t) (v : list CoinCollectible.t) : t :=
  {| economy := economy g; achievement_system := achievement_system g;
     word_hunt := word_hunt g; season_hunt := season_hunt g;
     player := player g; running := running g; state := state g;
     score := score g; multiplier := multiplier g; speed := speed g;
     stats := stats g; obstacles := obstacles g; powerups := powerups g;
     letters := letters g; coins := v; active_powerups := active_powerups g;
     obstacle_id := obstacle_id g; log := log g |}.

Definition set_active_powerups (g : t) (v : Dict.t float) : t :=
  {| economy := economy g; achievement_system := achievement_system g;
     word_hunt := word_hunt g; season_hunt := season_hunt g;
     player := player g; running := running g; state := state g;
     score := score g; multiplier := multiplier g; speed := speed g;
     stats := stats g; obstacles := obstacles g; powerups := powerups g;
     letters := letters g; coins := coins g; active_powerups := v;
     obstacle_id := obstacle_id g; log := log g |}.

Definition set_obstacle_id (g : t) (v : Z) : t :=
  {| economy := economy g; achievement_system := achievement_system g;
     word_hunt := word_hunt g; season_hunt := season_hunt g;
     player := player g; running := running g; state := state g;
     score := score g; multiplier := multiplier g; speed := speed g;
     stats := stats g; obstacles := obstacles g; powerups := powerups g;
     letters := letters g; coins := coins g;
     active_powerups := active_powerups g; obstacle_id := v; log := log g |}.

Definition set_log (g : t) (v : Log) : t :=
  {| economy := economy g; achievement_system := achievement_system g;
     word_hunt := word_hunt g; season_hunt := season_hunt g;
     player := player g; running := running g; state := state g;
     score := score g; multiplier := multiplier g; speed := speed g;
     stats := stats g; obstacles := obstacles g; powerups := powerups g;
     letters := letters g; coins := coins g;
     active_powerups := active_powerups g; obstacle_id := obstacle_id g;
     log := v |}.

(** [self.sound_manager...] and [self.tts.say(...)]: the calls are appended
    to the log. *)
Definition emit (g : t) (calls : Log) : t := set_log g (log g ++ calls)%list.

(** [Game()]: the main menu is built and opened, and the theme starts. *)
Definition init : t := {|
  economy := Economy.init Config.economy;
  achievement_system := AchievementSystem.init;
  word_hunt := WordHunt.init Config.word_hunt_letters;
  season_hunt := SeasonHunt.init;
  player := Player.init;
  running := true;
  state := MENU;
  score := 0;
  multiplier := 1;
  speed := Config.base_speed;
  stats := [("jumps", 0); ("total_coins", 0); ("score", 0)]%Z;
  obstacles := [];
  powerups := [];
  letters := [];
  coins := [];
  active_powerups := [];
  obstacle_id := 0;
  log := [OpenMenu "Main Menu"; PlayMusic "theme.ogg"]
|}.

Definition reset_run (g : t) : t :=
  let g := set_player g Player.init in
  let g := set_score g 0 in
  let g := set_multiplier g 1 in
  let g := set_speed g Config.base_speed in
  let g := set_stats g (Dict.set (stats g) "jumps" 0%Z) in
  let g := set_stats g (Dict.set (stats g) "score" 0%Z) in
  let g := set_obstacles g [] in
  let g := set_powerups g [] in
  let g := set_letters g [] in
  let g := set_coins g [] in
  let g := set_active_powerups g [] in
  let g := set_state g RUNNING in
  emit g [Say "Run started"].

Definition spawn_obstacle (g : t) (lane_draw height_draw kind_draw : nat) : t :=
  let lane := choice Config.lanes lane_draw 0%Z in
  let height := choice ["low"; "high"] height_draw "" in
  let kind := choice ["barrier"; "train"] kind_draw "" in
  let distance := Config.max_distance in
  let g := set_obstacle_id g (obstacle_id g + 1) in
  let tag := "obstacle_" ++ str_of_int (obstacle_id g) in
  let obstacle := {| Obstacle.lane := lane; Obstacle.distance := distance;
                     Obstacle.kind := kind; Obstacle.height := height;
                     Obstacle.active := true; Obstacle.sound_tag := Some tag;
                     Obstacle.honk_played := false |} in
  let g := set_obstacles g (obstacles g ++ [obstacle])%list in
  if String.eqb kind "barrier" then
    let sound_name :=
      if String.eqb height "low" then "barrier_low" else "barrier_high" in
    emit g [StartLoop tag sound_name lane distance]
  else
    emit g [StartLoop tag "train_rumble" 1 distance].

Definition spawn_powerup (g : t) (lane_draw kind_draw : nat) : t :=
  let lane := choice Config.lanes lane_draw 0%Z in
  let kind := choice ["jetpack"; "super_sneakers"; "magnet"; "multiplier";
                      "hoverboard"] kind_draw "" in
  let g := set_powerups g
             (powerups g ++ [{| PowerUp.lane := lane;
                                PowerUp.distance := Config.max_distance;
                                PowerUp.kind := kind;
                                PowerUp.active := true |}])%list in
  emit g [PlaySound "powerup_spawn" lane Config.max_distance].

Definition spawn_letter (g : t) (lane_draw : nat) : t :=
  let letter := WordHunt.next_letter (word_hunt g) in
  if String.eqb letter "" then g
  else
    let lane := choice Config.lanes lane_draw 0%Z in
    let g := set_letters g
               (letters g ++ [{| LetterCollectible.lane := lane;
                                 LetterCollectible.distance := Config.max_distance;
                                 LetterCollectible.letter := letter;
                                 LetterCollectible.active := true |}])%list in
    emit g [PlaySound "letter_spawn" lane Config.max_distance].

Definition spawn_coin (g : t) (lane_draw : nat) : t :=
  let lane := choice Config.lanes lane_draw 0%Z in
  let g := set_coins g
             (coins g ++ [{| CoinCollectible.lane := lane;
                             CoinCollectible.distance := Config.max_distance;
                             CoinCollectible.active := true |}])%list in
  emit g [PlaySound "coin_spawn" lane Config.max_distance].

Definition spawn_season_token (g : t) (lane_draw : nat) : t :=
  let lane := choice Config.lanes lane_draw 0%Z in
  let g := set_powerups g
             (powerups g ++ [{| PowerUp.lane := lane;
                                PowerUp.distance := Config.max_distance;
                                PowerUp.kind := "season_token";
                                PowerUp.active := true |}])%list in
  emit g [PlaySound "season_token" lane Config.max_distance].

Definition handle_collision (g : t) (obstacle : Obstacle.t) : t :=
  if Player.jetpack (player g) then g
  else if Player.hoverboard_active (player g) then
    let g := set_player g
               (Player.set_hoverboard (player g) false
                  (Player.hoverboard_timer (player g))) in
    emit g [PlaySound "hoverboard_break" (Obstacle.lane obstacle) 0.0]
  else
    let g := set_state g GAME_OVER in
    let g := emit g [PlaySound "crash" (Obstacle.lane obstacle) 0.0] in
    let g := emit g [StopMusic] in
    let g := emit g [Say ("Game Over. Score: " ++ str_of_int (score g))] in
    if (0 <? Economy.keys (economy g))%Z then
      emit g [Say "Press K to use a key and continue"]
    else g.

Definition activate_powerup (g : t) (powerup : PowerUp.t) : t :=
  let duration :=
    Dict.get_default (Economy.powerup_durations (economy g))
      (PowerUp.kind powerup) 10.0 in
  let kind := PowerUp.kind powerup in
  let g :=
    if String.eqb kind "jetpack" then
      let g := set_player g (Player.set_jetpack (player g) true) in
      let g := set_active_powerups g
                 (Dict.set (active_powerups g) "jetpack" duration) in
      emit g [StartLoop "jetpack" "jetpack_loop" 1 0.0]
    else if String.eqb kind "super_sneakers" then
      let g := set_player g (Player.set_super_sneakers (player g) true) in
      set_active_powerups g
        (Dict.set (active_powerups g) "super_sneakers" duration)
    else if String.eqb kind "magnet" then
      let g := set_active_powerups g
                 (Dict.set (active_powerups g) "magnet" duration) in
      emit g [StartLoop "magnet" "magnet_loop" 1 0.0]
    else if String.eqb kind "multiplier" then
      let g := set_multiplier g 2 in
      let g := set_active_powerups g
                 (Dict.set (active_powerups g) "multiplier" duration) in
      emit g [PlaySound "multiplier_on" 1 0.0]
    else if String.eqb kind "hoverboard" then
      let g := set_player g
                 (Player.set_hoverboard (player g) true duration) in
      emit g [PlaySound "hoverboard_on" 1 0.0]
    else if String.eqb kind "season_token" then
      let g := set_season_hunt g (SeasonHunt.collect (season_hunt g)) in
      emit g [Say "Season token collected"]
    else g in
  emit g [PlaySound "powerup_collect" (PowerUp.lane powerup) 0.0].

(** The first loop of [update_powerups]: every entry, in the dictionary's
    order, gets its remaining time decreased in place, and the kinds that
    reached zero are listed. *)
Fixpoint sweep (items : list (string * float)) (delta_seconds : float)
    : Dict.t float * list string :=
  match items with
  | [] => ([], [])
  | (kind, remaining) :: rest =>
      let remaining' := remaining - delta_seconds in
      let '(ledger, expired) := sweep rest delta_seconds in
      ((kind, remaining') :: ledger,
       if remaining' <=? 0 then kind :: expired else expired)
  end.

(** The body of the second loop of [update_powerups]. *)
Definition teardown (g : t) (kind : string) : t :=
  let g := set_active_powerups g (Dict.del (active_powerups g) kind) in
  if String.eqb kind "jetpack" then
    let g := set_player g (Player.set_jetpack (player g) false) in
    emit g [StopLoop "jetpack"]
  else if String.eqb kind "super_sneakers" then
    set_player g (Player.set_super_sneakers (player g) false)
  else if String.eqb kind "magnet" then
    emit g [StopLoop "magnet"]
  else if String.eqb kind "multiplier" then
    set_multiplier g 1
  else g.

Definition update_powerups (g : t) (delta_seconds : float) : t :=
  let '(ledger, expired) := sweep (active_powerups g) delta_seconds in
  let g := set_active_powerups g ledger in
  fold_left teardown expired g.

(** *** The loop body of [update_obstacles] *)

(** The loop sound follows the obstacle; a train honks once when near. *)
Definition track_obstacle (g : t) (obstacle : Obstacle.t) : t * Obstacle.t :=
  match Obstacle.tag obstacle with
  | Some tag =>
      if String.eqb (Obstacle.kind obstacle) "train" then
        let pan := SoundManager.pan_of_lane (Obstacle.lane obstacle) in
        let progress :=
          1.0 - Obstacle.distance obstacle / Config.max_distance in
        let g := emit g [UpdateLoopWithPan tag (pan * progress)
                           (Obstacle.distance obstacle)] in
        if (Obstacle.distance obstacle <=? 20)
           && negb (Obstacle.honk_played obstacle) then
          let obstacle := Obstacle.set_honk_played obstacle true in
          (emit g [PlaySound "train_honk" (Obstacle.lane obstacle)
                     (Obstacle.distance obstacle)],
           obstacle)
        else (g, obstacle)
      else
        (emit g [UpdateLoop tag (Obstacle.lane obstacle)
                   (Obstacle.distance obstacle)],
         obstacle)
  | None => (g, obstacle)
  end.

(** The block under [if obstacle.distance <= 0]. *)
Definition obstacle_arrival (g : t) (obstacle : Obstacle.t) : t * Obstacle.t :=
  let obstacle := Obstacle.set_active obstacle false in
  let g :=
    match Obstacle.tag obstacle with
    | Some tag => emit g [StopLoop tag]
    | None => g
    end in
  if (Obstacle.lane obstacle =? Player.lane (player g))%Z then
    if String.eqb (Obstacle.height obstacle) "low"
       && Player.jumping (player g) then (g, obstacle)
    else if String.eqb (Obstacle.height obstacle) "high"
            && Player.rolling (player g) then (g, obstacle)
    else (handle_collision g obstacle, obstacle)
  else (g, obstacle).

Definition update_obstacle (g : t) (obstacle : Obstacle.t)
    (delta_seconds : float) : t * Obstacle.t :=
  if negb (Obstacle.active obstacle) then (g, obstacle)
  else
    let obstacle :=
      Obstacle.set_distance obstacle
        (Obstacle.distance obstacle - speed g * delta_seconds) in
    let '(g, obstacle) := track_obstacle g obstacle in
    if Obstacle.distance obstacle <=? 0 then obstacle_arrival g obstacle
    else (g, obstacle).

(** A [for] loop over a list of mutable entities: the game and each entity
    are updated in turn. *)
Fixpoint for_each {E : Type} (body : t -> E -> t * E) (g : t) (entities : list E)
    : t * list E :=
  match entities with
  | [] => (g, [])
  | e :: rest =>
      let '(g, e') := body g e in
      let '(g, rest') := for_each body g rest in
      (g, e' :: rest')
  end.

Definition update_obstacles (g : t) (delta_seconds : float) : t :=
  let '(g, obstacles') :=
    for_each (fun g o => update_obstacle g o delta_seconds) g (obstacles g) in
  set_obstacles g (filter Obstacle.active obstacles').

Definition update_powerup_object (g : t) (powerup : PowerUp.t)
    (delta_seconds : float) : t * PowerUp.t :=
  if negb (PowerUp.active powerup) then (g, powerup)
  else
    let powerup :=
      PowerUp.set_distance powerup
        (PowerUp.distance powerup - speed g * delta_seconds) in
    if PowerUp.distance powerup <=? 0 then
      let powerup := PowerUp.set_active powerup false in
      if (PowerUp.lane powerup =? Player.lane (player g))%Z then
        (activate_powerup g powerup, powerup)
      else (g, powerup)
    else (g, powerup).

Definition update_powerup_objects (g : t) (delta_seconds : float) : t :=
  let '(g, powerups') :=
    for_each (fun g p => update_powerup_object g p delta_seconds) g
      (powerups g) in
  set_powerups g (filter PowerUp.active powerups').

Definition update_letter (g : t) (letter : LetterCollectible.t)
    (delta_seconds : float) : t * LetterCollectible.t :=
  if negb (LetterCollectible.active letter) then (g, letter)
  else
    let letter :=
      LetterCollectible.set_distance letter
        (LetterCollectible.distance letter - speed g * delta_seconds) in
    if LetterCollectible.distance letter <=? 0 then
      let letter := LetterCollectible.set_active letter false in
      if (LetterCollectible.lane letter =? Player.lane (player g))%Z then
        let '(completed, word_hunt') :=
          WordHunt.collect (word_hunt g) (LetterCollectible.letter letter) in
        let g := set_word_hunt g word_hunt' in
        let g := emit g [Say ("You collected "
                              ++ LetterCollectible.letter letter ++ "!")] in
        if completed then
          let g := emit g [Say "Word hunt complete"] in
          (set_economy g
             (Economy.set_coins (economy g) (Economy.coins (economy g) + 500)),
           letter)
        else (g, letter)
      else (g, letter)
    else (g, letter).

Definition update_letters (g : t) (delta_seconds : float) : t :=
  let '(g, letters') :=
    for_each (fun g l => update_letter g l delta_seconds) g (letters g) in
  set_letters g (filter LetterCollectible.active letters').

Definition collect_coin (g : t) (lane : Z) : result t :=
  let g := set_economy g
             (Economy.set_coins (economy g) (Economy.coins (economy g) + 1)) in
  n <- Dict.subscript (stats g) "total_coins" ;;
  let g := set_stats g (Dict.set (stats g) "total_coins" (n + 1)%Z) in
  Ok (emit g [PlaySound "coin_collect" lane 0.0]).

Definition update_coin (g : t) (coin : CoinCollectible.t)
    (delta_seconds : float) : result (t * CoinCollectible.t) :=
  if negb (CoinCollectible.active coin) then Ok (g, coin)
  else
    let coin :=
      CoinCollectible.set_distance coin
        (CoinCollectible.distance coin - speed g * delta_seconds) in
    if CoinCollectible.distance coin <=? 0 then
      let coin := CoinCollectible.set_active coin false in
      if (CoinCollectible.lane coin =? Player.lane (player g))%Z
         || Dict.mem (active_powerups g) "magnet" then
        g <- collect_coin g (CoinCollectible.lane coin) ;;
        Ok (g, coin)
      else Ok (g, coin)
    else Ok (g, coin).

(** The loop of [update_coins]; an exception leaves the loop. *)
Fixpoint update_coins_loop (g : t) (coins : list CoinCollectible.t)
    (delta_seconds : float) : result (t * list CoinCollectible.t) :=
  match coins with
  | [] => Ok (g, [])
  | coin :: rest =>
      r <- update_coin g coin delta_seconds ;;
      let '(g, coin') := r in
      r' <- update_coins_loop g rest delta_seconds ;;
      let '(g, rest') := r' in
      Ok (g, coin' :: rest')
  end.

Definition update_coins (g : t) (delta_seconds : float) : result t :=
  r <- update_coins_loop g (coins g) delta_seconds ;;
  let '(g, coins') := r in
  Ok (set_coins g (filter CoinCollectible.active coins')).

(** [score_rate * multiplier] is an [int]; multiplying by the float
    converts it. *)
Definition update_score (g : t) (delta_seconds : float) : result t :=
  rate <- of_int (Config.score_rate * multiplier g) ;;
  gain <- to_int (rate * delta_seconds * 60) ;;
  let g := set_score g (score g + gain) in
  Ok (set_stats g (Dict.set (stats g) "score" (score g))).

Definition continue_run_with_key (g : t) : t :=
  if (Economy.keys (economy g) <=? 0)%Z then g
  else
    let g := set_economy g
               (Economy.set_keys (economy g) (Economy.keys (economy g) - 1)) in
    let g := set_state g RUNNING in
    let g := set_player g (Player.set_hoverboard (player g) true 3.0) in
    let g := emit g [PlaySound "hoverboard_on" 1 0.0] in
    emit g [Say "Continuing run"].

Definition return_to_main_menu (g : t) : t :=
  let g := emit g [OpenMenu "Main Menu"] in
  emit g [PlayMusic "theme.ogg"].

Definition handle_upgrade (g : t) (powerup : string) : t :=
  let '(bought, economy') := Economy.buy_upgrade (economy g) powerup in
  let g := set_economy g economy' in
  if bought then emit g [Say "Upgrade purchased"]
  else emit g [Say "Not enough coins"].

(** [draw] is the draw of [random.choice] in [open_mystery_box]. *)
Definition handle_menu_action (g : t) (action : string) (draw : nat) : t :=
  if String.eqb action "start_run" then
    let g := reset_run g in
    emit g [StopMusic]
  else if String.eqb action "shop" then
    emit g [OpenMenu "Shop"]
  else if String.eqb action "achievements" then
    let g := emit g [PlayMusic "achmusic.ogg"] in
    emit g [OpenMenu "Achievements"]
  else if String.eqb action "quit" then
    set_running g false
  else if String.eqb action "upgrade_jetpack" then
    handle_upgrade g "jetpack"
  else if String.eqb action "upgrade_super_sneakers" then
    handle_upgrade g "super_sneakers"
  else if String.eqb action "upgrade_magnet" then
    handle_upgrade g "magnet"
  else if String.eqb action "upgrade_multiplier" then
    handle_upgrade g "multiplier"
  else if String.eqb action "upgrade_hoverboard" then
    handle_upgrade g "hoverboard"
  else if String.eqb action "buy_mystery_box" then
    let '(bought, economy') := Economy.buy_mystery_box (economy g) in
    let g := set_economy g economy' in
    if bought then emit g [Say "Mystery box purchased"]
    else emit g [Say "Not enough coins"]
  else if String.eqb action "open_mystery_box" then
    if (Economy.mystery_boxes (economy g) <=? 0)%Z then
      emit g [Say "No mystery boxes available"]
    else
      let g := emit g [PlaySound "mystery_roll" 1 0.0] in
      let '(reward, economy') := Economy.open_mystery_box (economy g) draw in
      let g := set_economy g economy' in
      emit g [Say ("You won " ++ reward)]
  else if String.eqb action "back" then
    return_to_main_menu g
  else if String.eqb action "none" then
    emit g [Say "Achievement status listed"]
  else g.

Inductive Key :=
| K_PAGEUP | K_PAGEDOWN | K_LEFT | K_RIGHT | K_UP | K_DOWN | K_k | K_ESCAPE
| K_other.

Inductive InputEvent :=
| KEYDOWN (key : Key)
| OTHER_EVENT.

(** The part of [handle_input] that runs while [RUNNING]. *)
Definition handle_run_key (g : t) (key : Key) : result t :=
  match key with
  | K_LEFT =>
      let g := set_player g (Player.move_left (player g)) in
      Ok (emit g [PlaySound "swoosh" (Player.lane (player g)) 0.0])
  | K_RIGHT =>
      let g := set_player g (Player.move_right (player g)) in
      Ok (emit g [PlaySound "swoosh" (Player.lane (player g)) 0.0])
  | K_UP =>
      let jump_duration :=
        if Player.super_sneakers (player g) then Config.super_jump_duration
        else Config.jump_duration in
      let g := set_player g (Player.jump (player g) jump_duration) in
      n <- Dict.subscript (stats g) "jumps" ;;
      let g := set_stats g (Dict.set (stats g) "jumps" (n + 1)%Z) in
      let sound :=
        if Player.super_sneakers (player g) then "super_jump" else "jump" in
      Ok (emit g [PlaySound sound (Player.lane (player g)) 0.0])
  | K_DOWN =>
      let g := set_player g (Player.roll (player g) Config.roll_duration) in
      Ok (emit g [PlaySound "roll" (Player.lane (player g)) 0.0])
  | _ => Ok g
  end.

(** [menu_action] is what [menu_controller.handle_input(event)] returns
    while a menu is shown.  What the menu does besides (its cursor, its
    sounds, the callback that reopens the main menu when a submenu is
    closed) touches no field of the game and is not logged. *)
Definition handle_input (g : t) (event : InputEvent)
    (menu_action : option string) (draw : nat) : result t :=
  match event with
  | KEYDOWN K_PAGEUP => Ok (emit g [AdjustMusicVolume 0.05])
  | KEYDOWN K_PAGEDOWN => Ok (emit g [AdjustMusicVolume (-0.05)])
  | _ =>
      match state g with
      | MENU =>
          match menu_action with
          | Some action =>
              if String.eqb action "" then Ok g
              else Ok (handle_menu_action g action draw)
          | None => Ok g
          end
      | GAME_OVER =>
          match event with
          | KEYDOWN K_k => Ok (continue_run_with_key g)
          | KEYDOWN K_ESCAPE =>
              let g := set_state g MENU in
              Ok (return_to_main_menu g)
          | _ => Ok g
          end
      | RUNNING =>
          match event with
          | KEYDOWN key => handle_run_key g key
          | OTHER_EVENT => Ok g
          end
      end
  end.

(** The random outcomes of one frame: for each kind of entity, whether it
    spawns ([random.random() < rate]) and the draws of its [random.choice]s. *)
Record FrameRandom := {
  obstacle_draw : option (nat * nat * nat);
  powerup_draw : option (nat * nat);
  letter_draw : option nat;
  season_token_draw : option nat;
  coin_draw : option nat
}.

Definition spawn (g : t) (r : FrameRandom) : t :=
  let g :=
    match obstacle_draw r with
    | Some (l, h, k) => spawn_obstacle g l h k
    | None => g
    end in
  let g :=
    match powerup_draw r with
    | Some (l, k) => spawn_powerup g l k
    | None => g
    end in
  let g :=
    match letter_draw r with Some l => spawn_letter g l | None => g end in
  let g :=
    match season_token_draw r with
    | Some l => spawn_season_token g l
    | None => g
    end in
  match coin_draw r with Some l => spawn_coin g l | None => g end.

Definition check_achievements (g : t) : result t :=
  r <- AchievementSystem.check (achievement_system g) (stats g) ;;
  let '(unlocked, system', calls) := r in
  let g := emit (set_achievement_system g system') calls in
  match unlocked with
  | Some name =>
      if String.eqb name "" then Ok g
      else Ok (emit g [Sleep Config.achievement_pause_seconds])
  | None => Ok g
  end.

Definition update (g : t) (delta_seconds : float) (r : FrameRandom) : result t :=
  match state g with
  | RUNNING =>
      let g := set_player g (Player.update (player g) delta_seconds) in
      let g := update_powerups g delta_seconds in
      let g := update_obstacles g delta_seconds in
      let g := update_powerup_objects g delta_seconds in
      let g := update_letters g delta_seconds in
      g <- update_coins g delta_seconds ;;
      g <- update_score g delta_seconds ;;
      let g := spawn g r in
      check_achievements g
  | _ => Ok g
  end.

End Game.

(** ** blind_surfers.py: the earlier single-file version of the game

    The repository also ships the game as one module.  Its mixer and its
    frame update differ from the package's; the parts the properties below
    touch are embedded here. *)

Module SingleFile.

Import PyFloat.
Local Open Scope float_scope.

Definition MAX_DISTANCE : float := 100.0.

Definition LANE_PAN (lane : Z) : option float :=
  match lane with
  | 0%Z => Some (-0.8)
  | 1%Z => Some 0.0
  | 2%Z => Some 0.8
  | _ => None
  end.

Definition sfx_volume : float := 0.9.

Definition _pan_to_stereo (pan : float) : float * float :=
  let pan := pymax (-1.0) (pymin 1.0 pan) in
  let left := if pan <=? 0 then 1.0 else 1.0 - pan in
  let right := if 0 <=? pan then 1.0 else 1.0 + pan in
  (left, right).

Definition _distance_to_volume (distance : float) : float :=
  let distance := pymax 0.0 (pymin MAX_DISTANCE distance) in
  1.0 - distance / MAX_DISTANCE.

Definition channel_volume (pan distance : float) : float * float :=
  let '(left_gain, right_gain) := _pan_to_stereo pan in
  let volume := _distance_to_volume distance * sfx_volume in
  (left_gain * volume, right_gain * volume).


(** *** The game of the single-file version *)

Record Obstacle := {
  ob_lane : Z;
  ob_distance : float;
  ob_kind : string;
  ob_height : string;
  ob_active : bool
}.

Record Economy := {
  coins : Z;
  keys : Z;
  mystery_boxes : Z;
  powerup_durations : Dict.t float
}.

Definition set_coins (e : Economy) (c : Z) : Economy :=
  {| coins := c; keys := keys e; mystery_boxes := mystery_boxes e;
     powerup_durations := powerup_durations e |}.

Record Game := {
  economy : Economy;
  achievement_system : AchievementSystem.t;
  player : Player.t;
  running : bool;
  in_game : bool;
  game_over : bool;
  score : Z;
  multiplier : Z;
  speed : float;
  stats : Dict.t Z;
  obstacles : list Obstacle;
  powerups : list PowerUp.t;
  letters : list LetterCollectible.t;
  word_hunt : list string;
  word_progress : list string;
  season_tokens : Z;
  active_powerups : Dict.t float;
  log : Log
}.

Definition set_economy (g : Game) (v : Economy) : Game :=
  {| economy := v; achievement_system := achievement_system g;
     player := player g; running := running g; in_game := in_game g;
     game_over := game_over g; score := score g; multiplier := multiplier g;
     speed := speed g; stats := stats g; obstacles := obstacles g;
     powerups := powerups g; letters := letters g; word_hunt := word_hunt g;
     word_progress := word_progress g; season_tokens := season_tokens g;
     active_powerups := active_powerups g; log := log g |}.

Definition set_achievement_system (g : Game) (v : AchievementSystem.t) : Game :=
  {| economy := economy g; achievement_system := v; player := player g;
     running := running g; in_game := in_game g; game_over := game_over g;
     score := score g; multiplier := multiplier g; speed := speed g;
     stats := stats g; obstacles := obstacles g; powerups := powerups g;
     letters := letters g; word_hunt := word_hunt g;
     word_progress := word_progress g; season_tokens := season_tokens g;
     active_powerups := active_powerups g; log := log g |}.

Definition set_player (g : Game) (v : Player.t) : Game :=
  {| economy := economy g; achievement_system := achievement_system g;
     player := v; running := running g; in_game := in_game g;
     game_over := game_over g; score := score g; multiplier := multiplier g;
     speed := speed g; stats := stats g; obstacles := obstacles g;
     powerups := powerups g; letters := letters g; word_hunt := word_hunt g;
     word_progress := word_progress g; season_tokens := season_tokens g;
     active_powerups := active_powerups g; log := log g |}.

Definition set_running (g : Game) (v : bool) : Game :=
  {| economy := economy g; achievement_system := achievement_system g;
     player := player g; running := v; in_game := in_game g;
     game_over := game_over g; score := score g; multiplier := multiplier g;
     speed := speed g; stats := stats g; obstacles := obstacles g;
     powerups := powerups g; letters := letters g; word_hunt := word_hunt g;
     word_progress := word_progress g; season_tokens := season_tokens g;
     active_powerups := active_powerups g; log := log g |}.

Definition set_in_game (g : Game) (v : bool) : Game :=
  {| economy := economy g; achievement_system := achievement_system g;
     player := player g; running := running g; in_game := v;
     game_over := game_over g; score := score g; multiplier := multiplier g;
     speed := speed g; stats := stats g; obstacles := obstacles g;
     powerups := powerups g; letters := letters g; word_hunt := word_hunt g;
     word_progress := word_progress g; season_tokens := season_tokens g;
     active_powerups := active_powerups g; log := log g |}.

Definition set_game_over (g : Game) (v : bool) : Game :=
  {| economy := economy g; achievement_system := achievement_system g;
     player := player g; running := running g; in_game := in_game g;
     game_over := v; score := score g; multiplier := multiplier g;
     speed := speed g; stats := stats g; obstacles := obstacles g;
     powerups := powerups g; letters := letters g; word_hunt := word_hunt g;
     word_progress := word_progress g; season_tokens := season_tokens g;
     active_powerups := active_powerups g; log := log g |}.

Definition set_score (g : Game) (v : Z) : Game :=
  {| economy := economy g; achievement_system := achievement_system g;
     player := player g; running := running g; in_game := in_game g;
     game_over := game_over g; score := v; multiplier := multiplier g;
     speed := speed g; stats := stats g; obstacles := obstacles g;
     powerups := powerups g; letters := letters g; word_hunt := word_hunt g;
     word_progress := word_progress g; season_tokens := season_tokens g;
     active_powerups := active_powerups g; log := log g |}.

Definition set_multiplier (g : Game) (v : Z) : Game :=
  {| economy := economy g; achievement_system := achievement_system g;
     player := player g; running := running g; in_game := in_game g;
     game_over := game_over g; score := score g; multiplier := v;
     speed := speed g; stats := stats g; obstacles := obstacles g;
     powerups := powerups g; letters := letters g; word_hunt := word_hunt g;
     word_progress := word_progress g; season_tokens := season_tokens g;
     active_powerups := active_powerups g; log := log g |}.

Definition set_speed (g : Game) (v : float) : Game :=
  {| economy := economy g; achievement_system := achievement_system g;
     player := player g; running := running g; in_game := in_game g;
     game_over := game_over g; score := score g; multiplier := multiplier g;
     speed := v; stats := stats g; obstacles := obstacles g;
     powerups := powerups g; letters := letters g; word_hunt := word_hunt g;
     word_progress := word_progress g; season_tokens := season_tokens g;
     active_powerups := active_powerups g; log := log g |}.

Definition set_stats (g : Game) (v : Dict.t Z) : Game :=
  {| economy := economy g; achievement_system := achievement_system g;
     player := player g; running := running g; in_game := in_game g;
     game_over := game_over g; score := score g; multiplier := multiplier g;
     speed := speed g; stats := v; obstacles := obstacles g;
     powerups := powerups g; letters := letters g; word_hunt := word_hunt g;
     word_progress := word_progress g; season_tokens := season_tokens g;
     active_powerups := active_powerups g; log := log g |}.

Definition set_obstacles (g : Game) (v : list Obstacle) : Game :=
  {| economy := economy g; achievement_system := achievement_system g;
     player := player g; running := running g; in_game := in_game g;
     game_over := game_over g; score := score g; multiplier := multiplier g;
     speed := speed g; stats := stats g; obstacles := v;
     powerups := powerups g; letters := letters g; word_hunt := word_hunt g;
     word_progress := word_progress g; season_tokens := season_tokens g;
     active_powerups := active_powerups g; log := log g |}.

Definition set_powerups (g : Game) (v : list PowerUp.t) : Game :=
  {| economy := economy g; achievement_system := achievement_system g;
     player := player g; running := running g; in_game := in_game g;
     game_over := game_over g; score := score g; multiplier := multiplier g;
     speed := speed g; stats := stats g; obstacles := obstacles g;
     powerups := v; letters := letters g; word_hunt := word_hunt g;
     word_progress := word_progress g; season_tokens := season_tokens g;
     active_powerups := active_powerups g; log := log g |}.

Definition set_letters (g : Game) (v : list LetterCollectible.t) : Game :=
  {| economy := economy g; achievement_system := achievement_system g;
     player := player g; running := running g; in_game := in_game g;
     game_over := game_over g; score := score g; multiplier := multiplier g;
     speed := speed g; stats := stats g; obstacles := obstacles g;
     powerups := powerups g; letters := v; word_hunt := word_hunt g;
     word_progress := word_progress g; season_tokens := season_tokens g;
     active_powerups := active_powerups g; log := log g |}.

Definition set_word_hunt (g : Game) (v : list string) : Game :=
  {| economy := economy g; achievement_system := achievement_system g;
     player := player g; running := running g; in_game := in_game g;
     game_over := game_over g; score := score g; multiplier := multiplier g;
     speed := speed g; stats := stats g; obstacles := obstacles g;
     powerups := powerups g; letters := letters g; word_hunt := v;
     word_progress := word_progress g; season_tokens := season_tokens g;
     active_powerups := active_powerups g; log := log g |}.

Definition set_word_progress (g : Game) (v : list string) : Game :=
  {| economy := economy g; achievement_system := achievement_system g;
     player := player g; running := running g; in_game := in_game g;
     game_over := game_over g; score := score g; multiplier := multiplier g;
     speed := speed g; stats := stats g; obstacles := obstacles g;
     powerups := powerups g; letters := letters g; word_hunt := word_hunt g;
     word_progress := v; season_tokens := season_tokens g;
     active_powerups := active_powerups g; log := log g |}.

Definition set_season_tokens (g : Game) (v : Z) : Game :=
  {| economy := economy g; achievement_system := achievement_system g;
     player := player g; running := running g; in_game := in_game g;
     game_over := game_over g; score := score g; multiplier := multiplier g;
     speed := speed g; stats := stats g; obstacles := obstacles g;
     powerups := powerups g; letters := letters g; word_hunt := word_hunt g;
     word_progress := word_progress g; season_tokens := v;
     active_powerups := active_powerups g; log := log g |}.

Definition set_active_powerups (g : Game) (v : Dict.t float) : Game :=
  {| economy := economy g; achievement_system := achievement_system g;
     player := player g; running := running g; in_game := in_game g;
     game_over := game_over g; score := score g; multiplier := multiplier g;
     speed := speed g; stats := stats g; obstacles := obstacles g;
     powerups := powerups g; letters := letters g; word_hunt := word_hunt g;
     word_progress := word_progress g; season_tokens := season_tokens g;
     active_powerups := v; log := log g |}.

Definition set_log (g : Game) (v : Log) : Game :=
  {| economy := economy g; achievement_system := achievement_system g;
     player := player g; running := running g; in_game := in_game g;
     game_over := game_over g; score := score g; multiplier := multiplier g;
     speed := speed g; stats := stats g; obstacles := obstacles g;
     powerups := powerups g; letters := letters g; word_hunt := word_hunt g;
     word_progress := word_progress g; season_tokens := season_tokens g;
     active_powerups := active_powerups g; log := v |}.

Definition emit (g : Game) (calls : Log) : Game :=
  set_log g (log g ++ calls)%list.

(** [Game()]: each of the two menus, when built, says its first item (the
    main menu that of its four, the achievements menu the first line of
    [list_status()]); then the theme starts. *)
Definition init : Game := {|
  economy := {| coins := 0; keys := 0; mystery_boxes := 0;
                powerup_durations :=
                  [("jetpack", 10.0); ("super_sneakers", 10.0);
                   ("magnet", 10.0); ("multiplier", 10.0);
                   ("hoverboard", 30.0)] |};
  achievement_system := AchievementSystem.init;
  player := Player.init;
  running := true;
  in_game := false;
  game_over := false;
  score := 0;
  multiplier := 1;
  speed := 25.0;
  stats := [("jumps", 0); ("total_coins", 0); ("score", 0)]%Z;
  obstacles := [];
  powerups := [];
  letters := [];
  word_hunt := ["H"; "U"; "N"; "T"];
  word_progress := [];
  season_tokens := 0;
  active_powerups := [];
  log := [Say "Start Run";
          Say (hd "" (AchievementSystem.list_status AchievementSystem.init));
          PlayMusic "theme.ogg"]
|}.

Definition reset_run (g : Game) : Game :=
  let g := set_player g Player.init in
  let g := set_score g 0 in
  let g := set_multiplier g 1 in
  let g := set_speed g 25.0 in
  let g := set_stats g (Dict.set (stats g) "jumps" 0%Z) in
  let g := set_stats g (Dict.set (stats g) "score" 0%Z) in
  let g := set_obstacles g [] in
  let g := set_powerups g [] in
  let g := set_letters g [] in
  let g := set_word_progress g [] in
  let g := set_active_powerups g [] in
  let g := set_game_over g false in
  let g := set_in_game g true in
  emit g [Say "Run started"].

Definition spawn_obstacle (g : Game) (lane_draw height_draw kind_draw : nat)
    : Game :=
  let lane := choice [0; 1; 2]%Z lane_draw 0%Z in
  let height := choice ["low"; "high"] height_draw "" in
  let kind := choice ["barrier"; "train"] kind_draw "" in
  let distance := MAX_DISTANCE in
  let g := set_obstacles g
             (obstacles g ++ [{| ob_lane := lane; ob_distance := distance;
                                 ob_kind := kind; ob_height := height;
                                 ob_active := true |}])%list in
  if String.eqb kind "barrier" then
    if String.eqb height "low" then
      emit g [PlaySound "barrier_low" lane distance]
    else emit g [PlaySound "barrier_high" lane distance]
  else emit g [PlaySound "train_rumble" 1 distance].

Definition spawn_powerup (g : Game) (lane_draw kind_draw : nat) : Game :=
  let lane := choice [0; 1; 2]%Z lane_draw 0%Z in
  let kind := choice ["jetpack"; "super_sneakers"; "magnet"; "multiplier";
                      "hoverboard"] kind_draw "" in
  let g := set_powerups g
             (powerups g ++ [{| PowerUp.lane := lane;
                                PowerUp.distance := MAX_DISTANCE;
                                PowerUp.kind := kind;
                                PowerUp.active := true |}])%list in
  emit g [PlaySound "powerup_spawn" lane MAX_DISTANCE].

Definition spawn_letter (g : Game) (lane_draw : nat) : Game :=
  match word_hunt g with
  | [] => g
  | _ =>
      let letter :=
        nth (List.length (word_progress g) mod List.length (word_hunt g))
          (word_hunt g) "" in
      let lane := choice [0; 1; 2]%Z lane_draw 0%Z in
      let g := set_letters g
                 (letters g ++ [{| LetterCollectible.lane := lane;
                                   LetterCollectible.distance := MAX_DISTANCE;
                                   LetterCollectible.letter := letter;
                                   LetterCollectible.active := true |}])%list in
      emit g [PlaySound "letter_spawn" lane MAX_DISTANCE]
  end.

Definition spawn_season_token (g : Game) (lane_draw : nat) : Game :=
  let lane := choice [0; 1; 2]%Z lane_draw 0%Z in
  let g := set_powerups g
             (powerups g ++ [{| PowerUp.lane := lane;
                                PowerUp.distance := MAX_DISTANCE;
                                PowerUp.kind := "season_token";
                                PowerUp.active := true |}])%list in
  emit g [PlaySound "season_token" lane MAX_DISTANCE].

Definition handle_collision (g : Game) (obstacle : Obstacle) : Game :=
  if Player.jetpack (player g) then g
  else if Player.hoverboard_active (player g) then
    let g := set_player g
               (Player.set_hoverboard (player g) false
                  (Player.hoverboard_timer (player g))) in
    emit g [PlaySound "hoverboard_break" (ob_lane obstacle) 0]
  else
    let g := set_game_over g true in
    let g := set_in_game g false in
    let g := emit g [PlaySound "crash" (ob_lane obstacle) 0] in
    let g := emit g [StopMusic] in
    emit g [Say ("Game Over. Score: " ++ str_of_int (score g))].

Definition activate_powerup (g : Game) (powerup : PowerUp.t) : Game :=
  let duration :=
    Dict.get_default (powerup_durations (economy g))
      (PowerUp.kind powerup) 10.0 in
  let kind := PowerUp.kind powerup in
  let g :=
    if String.eqb kind "jetpack" then
      let g := set_player g (Player.set_jetpack (player g) true) in
      let g := set_active_powerups g
                 (Dict.set (active_powerups g) "jetpack" duration) in
      emit g [PlayLoop "jetpack_loop" 1]
    else if String.eqb kind "super_sneakers" then
      let g := set_player g (Player.set_super_sneakers (player g) true) in
      set_active_powerups g
        (Dict.set (active_powerups g) "super_sneakers" duration)
    else if String.eqb kind "magnet" then
      let g := set_active_powerups g
                 (Dict.set (active_powerups g) "magnet" duration) in
      emit g [PlayLoop "magnet_loop" 1]
    else if String.eqb kind "multiplier" then
      let g := set_multiplier g 2 in
      let g := set_active_powerups g
                 (Dict.set (active_powerups g) "multiplier" duration) in
      emit g [PlaySound "multiplier_on" 1 0]
    else if String.eqb kind "hoverboard" then
      let g := set_player g
                 (Player.set_hoverboard (player g) true duration) in
      emit g [PlaySound "hoverboard_on" 1 0]
    else if String.eqb kind "season_token" then
      let g := set_season_tokens g (season_tokens g + 1) in
      emit g [Say "Season token collected"]
    else g in
  emit g [PlaySound "powerup_collect" (PowerUp.lane powerup) 0].

(** The first loop of [update_powerups], over a copy of the keys. *)
Fixpoint sweep (items : list (string * float)) (dt : float)
    : Dict.t float * list string :=
  match items with
  | [] => ([], [])
  | (kind, remaining) :: rest =>
      let remaining' := remaining - dt in
      let '(ledger, expired) := sweep rest dt in
      ((kind, remaining') :: ledger,
       if remaining' <=? 0 then kind :: expired else expired)
  end.

Definition teardown (g : Game) (kind : string) : Game :=
  let g := set_active_powerups g (Dict.del (active_powerups g) kind) in
  if String.eqb kind "jetpack" then
    let g := set_player g (Player.set_jetpack (player g) false) in
    emit g [StopLoop "jetpack_loop"]
  else if String.eqb kind "super_sneakers" then
    set_player g (Player.set_super_sneakers (player g) false)
  else if String.eqb kind "magnet" then
    emit g [StopLoop "magnet_loop"]
  else if String.eqb kind "multiplier" then
    set_multiplier g 1
  else g.

Definition update_powerups (g : Game) (dt : float) : Game :=
  let '(ledger, expired) := sweep (active_powerups g) dt in
  let g := set_active_powerups g ledger in
  fold_left teardown expired g.

Fixpoint for_each {E : Type} (body : Game -> E -> Game * E) (g : Game)
    (entities : list E) : Game * list E :=
  match entities with
  | [] => (g, [])
  | e :: rest =>
      let '(g, e') := body g e in
      let '(g, rest') := for_each body g rest in
      (g, e' :: rest')
  end.

Definition update_obstacle (g : Game) (obstacle : Obstacle) (dt : float)
    : Game * Obstacle :=
  if negb (ob_active obstacle) then (g, obstacle)
  else
    let distance := ob_distance obstacle - speed g * dt in
    let obstacle :=
      {| ob_lane := ob_lane obstacle; ob_distance := distance;
         ob_kind := ob_kind obstacle; ob_height := ob_height obstacle;
         ob_active := ob_active obstacle |} in
    let g :=
      if String.eqb (ob_kind obstacle) "barrier" then
        let sound_name :=
          if String.eqb (ob_height obstacle) "low" then "barrier_low"
          else "barrier_high" in
        emit g [PlaySound sound_name (ob_lane obstacle) distance]
      else
        let g := emit g [PlaySound "train_rumble" 1 distance] in
        let pan_lane := if (ob_lane obstacle =? 0)%Z then 0%Z else 2%Z in
        emit g [PlaySound "train_honk" pan_lane distance] in
    if distance <=? 0 then
      let obstacle :=
        {| ob_lane := ob_lane obstacle; ob_distance := distance;
           ob_kind := ob_kind obstacle; ob_height := ob_height obstacle;
           ob_active := false |} in
      if (ob_lane obstacle =? Player.lane (player g))%Z then
        if String.eqb (ob_height obstacle) "low"
           && Player.jumping (player g) then (g, obstacle)
        else if String.eqb (ob_height obstacle) "high"
                && Player.rolling (player g) then (g, obstacle)
        else (handle_collision g obstacle, obstacle)
      else (g, obstacle)
    else (g, obstacle).

Definition update_obstacles (g : Game) (dt : float) : Game :=
  let '(g, obstacles') :=
    for_each (fun g o => update_obstacle g o dt) g (obstacles g) in
  set_obstacles g (filter ob_active obstacles').

Definition update_powerup_object (g : Game) (powerup : PowerUp.t) (dt : float)
    : Game * PowerUp.t :=
  if negb (PowerUp.active powerup) then (g, powerup)
  else
    let powerup :=
      PowerUp.set_distance powerup (PowerUp.distance powerup - speed g * dt) in
    if PowerUp.distance powerup <=? 0 then
      let powerup := PowerUp.set_active powerup false in
      if (PowerUp.lane powerup =? Player.lane (player g))%Z then
        (activate_powerup g powerup, powerup)
      else (g, powerup)
    else (g, powerup).

Definition update_powerup_objects (g : Game) (dt : float) : Game :=
  let '(g, powerups') :=
    for_each (fun g p => update_powerup_object g p dt) g (powerups g) in
  set_powerups g (filter PowerUp.active powerups').

Definition update_letter (g : Game) (letter : LetterCollectible.t) (dt : float)
    : Game * LetterCollectible.t :=
  if negb (LetterCollectible.active letter) then (g, letter)
  else
    let letter :=
      LetterCollectible.set_distance letter
        (LetterCollectible.distance letter - speed g * dt) in
    if LetterCollectible.distance letter <=? 0 then
      let letter := LetterCollectible.set_active letter false in
      if (LetterCollectible.lane letter =? Player.lane (player g))%Z then
        let g := set_word_progress g
                   (word_progress g ++ [LetterCollectible.letter letter])%list in
        let g := emit g [Say ("You collected "
                              ++ LetterCollectible.letter letter ++ "!")] in
        if list_eq_dec string_dec (word_progress g) (word_hunt g) then
          let g := emit g [Say "Word hunt complete"] in
          let g := set_economy g
                     (set_coins (economy g) (coins (economy g) + 500)) in
          (set_word_progress g [], letter)
        else (g, letter)
      else (g, letter)
    else (g, letter).

Definition update_letters (g : Game) (dt : float) : Game :=
  let '(g, letters') :=
    for_each (fun g l => update_letter g l dt) g (letters g) in
  set_letters g (filter LetterCollectible.active letters').

Definition update_score (g : Game) (dt : float) : result Game :=
  rate <- of_int (10 * multiplier g) ;;
  gain <- to_int (rate * dt * 60) ;;
  let g := set_score g (score g + gain) in
  Ok (set_stats g (Dict.set (stats g) "score" (score g))).

Definition collect_coin (g : Game) (lane : Z) : result Game :=
  let g := set_economy g (set_coins (economy g) (coins (economy g) + 1)) in
  n <- Dict.subscript (stats g) "total_coins" ;;
  let g := set_stats g (Dict.set (stats g) "total_coins" (n + 1)%Z) in
  Ok (emit g [PlaySound "coin_collect" lane 0]).

(** The random outcomes of one frame (this version spawns no coins). *)
Record FrameRandom := {
  obstacle_draw : option (nat * nat * nat);
  powerup_draw : option (nat * nat);
  letter_draw : option nat;
  season_token_draw : option nat
}.

Definition spawn (g : Game) (r : FrameRandom) : Game :=
  let g :=
    match obstacle_draw r with
    | Some (l, h, k) => spawn_obstacle g l h k
    | None => g
    end in
  let g :=
    match powerup_draw r with
    | Some (l, k) => spawn_powerup g l k
    | None => g
    end in
  let g :=
    match letter_draw r with Some l => spawn_letter g l | None => g end in
  match season_token_draw r with
  | Some l => spawn_season_token g l
  | None => g
  end.

Definition check_achievements (g : Game) : result Game :=
  r <- AchievementSystem.check (achievement_system g) (stats g) ;;
  let '(unlocked, system', calls) := r in
  let g := emit (set_achievement_system g system') calls in
  match unlocked with
  | Some name =>
      if String.eqb name "" then Ok g else Ok (emit g [Sleep 0.5])
  | None => Ok g
  end.

Definition update (g : Game) (dt : float) (r : FrameRandom) : result Game :=
  if negb (in_game g) then Ok g
  else
    let g := set_player g (Player.update (player g) dt) in
    let g := update_powerups g dt in
    let g := update_obstacles g dt in
    let g := update_powerup_objects g dt in
    let g := update_letters g dt in
    g <- update_score g dt ;;
    let g := spawn g r in
    g <- (if Dict.mem (active_powerups g) "magnet" then
            collect_coin g (Player.lane (player g))
          else Ok g) ;;
    check_achievements g.

End SingleFile.

(** ** Notions used in the statements *)

Module Spec.

Import PyFloat.
Local Open Scope float_scope.

(** *** Sequences of operations on a player *)

(** The methods of [Player] that set or count down a timer, and the two
    assignments that [game.py] makes to the hoverboard fields of the player:
    a hoverboard pickup ([activate_powerup]) and a key continue
    ([continue_run_with_key]) set [hoverboard_active = True] and
    [hoverboard_timer]; a collision taken by the hoverboard
    ([handle_collision]) sets [hoverboard_active = False] and leaves the
    timer. *)
Inductive PlayerOp :=
| Jump (duration : float)
| Roll (duration : float)
| Update (delta_seconds : float)
| Hoverboard (duration : float)
| Break.

Definition apply (p : Player.t) (op : PlayerOp) : Player.t :=
  match op with
  | Jump duration => Player.jump p duration
  | Roll duration => Player.roll p duration
  | Update delta_seconds => Player.update p delta_seconds
  | Hoverboard duration => Player.set_hoverboard p true duration
  | Break => Player.set_hoverboard p false (Player.hoverboard_timer p)
  end.

(** The player reached from [Player()] by the operations, first to last. *)
Definition run (ops : list PlayerOp) : Player.t :=
  fold_left apply ops Player.init.

(** A jump, a roll or a hoverboard lasts a positive time; a frame's delta is
    a finite number. *)
Definition admissible (op : PlayerOp) : bool :=
  match op with
  | Jump duration | Roll duration | Hoverboard duration => 0 <? duration
  | Update delta_seconds => is_finite delta_seconds
  | Break => true
  end.

(** The operation neither switches the hoverboard on nor breaks it. *)
Definition keeps_hoverboard (op : PlayerOp) : bool :=
  match op with
  | Hoverboard _ | Break => false
  | _ => true
  end.

(** The deltas of the updates among the operations, in order. *)
Fixpoint deltas (ops : list PlayerOp) : list float :=
  match ops with
  | [] => []
  | Update delta_seconds :: rest => delta_seconds :: deltas rest
  | _ :: rest => deltas rest
  end.

(** A timer as [Player.update] leaves it: a number, and running exactly when
    positive. *)
Definition timer_ok (active : bool) (remaining : float) : Prop :=
  is_nan remaining = false /\ active = (0 <? remaining).

(** The jump and the roll run exactly when their time is positive; the
    hoverboard is on only when its time is. *)
Definition timers_ok (p : Player.t) : Prop :=
  timer_ok (Player.jumping p) (Player.jump_timer p) /\
  timer_ok (Player.rolling p) (Player.roll_timer p) /\
  is_nan (Player.hoverboard_timer p) = false /\
  (Player.hoverboard_active p = true ->
   (0 <? Player.hoverboard_timer p) = true).

(** *** Reading the log *)

(** The calls by which a loop sound follows its obstacle: none of them is
    made by [handle_collision]. *)
Definition tracking (e : Event) : bool :=
  match e with
  | UpdateLoop _ _ _ | UpdateLoopWithPan _ _ _ | StopLoop _ => true
  | PlaySound name _ _ => String.eqb name "train_honk"
  | _ => false
  end.

(** The crash cue, played by [handle_collision] when the run ends. *)
Definition is_crash (e : Event) : bool :=
  match e with
  | PlaySound name _ _ => String.eqb name "crash"
  | _ => false
  end.

Definition crashes (l : Log) : nat := List.length (filter is_crash l).

(** The player gets past an obstacle of this height. *)
Definition avoids (p : Player.t) (o : Obstacle.t) : bool :=
  (String.eqb (Obstacle.height o) "low" && Player.jumping p)
  || (String.eqb (Obstacle.height o) "high" && Player.rolling p).

(** *** Word hunt: a run of collected letters *)

(** The letters are collected one after the other; the completion signals
    are returned with the final word hunt. *)
Fixpoint collect_all (w : WordHunt.t) (ls : list string)
    : list bool * WordHunt.t :=
  match ls with
  | [] => ([], w)
  | l :: rest =>
      let '(completed, w') := WordHunt.collect w l in
      let '(signals, w'') := collect_all w' rest in
      (completed :: signals, w'')
  end.

(** The number of completion signals. *)
Definition completions (signals : list bool) : nat :=
  List.length (filter (fun b : bool => b) signals).

(** *** Achievements *)

(** The achievement is recorded as unlocked. *)
Definition is_unlocked (a : AchievementSystem.t) (name : string) : Prop :=
  Dict.get (AchievementSystem.unlocked a) name = Some true.

(** The system has its three achievements and the statistics their three
    counters, with these values. *)
Definition has_flags (a : AchievementSystem.t) (u1 u2 u3 : bool) : Prop :=
  Dict.get (AchievementSystem.unlocked a) "High Jumper" = Some u1 /\
  Dict.get (AchievementSystem.unlocked a) "Gold Digger" = Some u2 /\
  Dict.get (AchievementSystem.unlocked a) "Marathon" = Some u3.

Definition has_stats (stats : Dict.t Z) (jumps total_coins score : Z) : Prop :=
  Dict.get stats "jumps" = Some jumps /\
  Dict.get stats "total_coins" = Some total_coins /\
  Dict.get stats "score" = Some score.

(** What [check] returns, by priority. *)
Definition first_qualifying (u1 u2 u3 : bool) (jumps total_coins score : Z)
    : option string :=
  if negb u1 && (100 <=? jumps)%Z then Some "High Jumper"
  else if negb u2 && (5000 <=? total_coins)%Z then Some "Gold Digger"
  else if negb u3 && (100000 <=? score)%Z then Some "Marathon"
  else None.

(** The name [check] returned, if it returned. *)
Definition returned (r : result (option string * AchievementSystem.t * Log))
    : option string :=
  match r with
  | Ok (name, _, _) => name
  | Raise _ => None
  end.

(** The system [check] left, if it returned. *)
Definition after (a : AchievementSystem.t)
    (r : result (option string * AchievementSystem.t * Log))
    : AchievementSystem.t :=
  match r with
  | Ok (_, a', _) => a'
  | Raise _ => a
  end.

(** *** Power-up ledger: sweeps and effects *)

(** The game after one [update_powerups] per delta, in order. *)
Definition run_sweeps (g : Game.t) (deltas : list float) : Game.t :=
  fold_left Game.update_powerups deltas g.

(** The kinds whose teardown runs in the sweep of [g] by [delta]: the list
    [expired] of [update_powerups]. *)
Definition expired (g : Game.t) (delta : float) : list string :=
  snd (Game.sweep (Game.active_powerups g) delta).

(** How many times the teardown of [kind] runs during the sweeps. *)
Fixpoint teardowns (kind : string) (g : Game.t) (deltas : list float) : nat :=
  match deltas with
  | [] => 0
  | delta :: rest =>
      (count_occ string_dec (expired g delta) kind
       + teardowns kind (Game.update_powerups g delta) rest)%nat
  end.

(** The remaining time [d], decreased by each delta in turn, reaches zero
    or less at some sweep. *)
Fixpoint expires_within (d : float) (deltas : list float) : bool :=
  match deltas with
  | [] => false
  | delta :: rest => (d - delta <=? 0) || expires_within (d - delta) rest
  end.

(** The remaining time after all the deltas. *)
Definition remaining_after (d : float) (deltas : list float) : float :=
  fold_left PrimFloat.sub deltas d.

(** The sum of the deltas as floats, and as exact rationals. *)
Definition float_total (deltas : list float) : float :=
  fold_left PrimFloat.add deltas 0.

Definition exact_total (deltas : list float) : Q :=
  fold_left (fun q delta => Qplus q (to_Q delta)) deltas 0%Q.

(** The number of [stop_loop(tag)] calls in a log. *)
Definition is_stop_loop (tag : string) (e : Event) : bool :=
  match e with
  | StopLoop tag' => String.eqb tag' tag
  | _ => false
  end.

Definition stop_loops (tag : string) (l : Log) : nat :=
  List.length (filter (is_stop_loop tag) l).

(** The ledger and the effects agree: an entry for jetpack or super
    sneakers exists exactly when the player's flag is set, an entry for the
    multiplier exactly when the multiplier is 2 (it is 1 otherwise); the
    magnet has no flag, its effect is the entry itself. *)
Definition ledger_matches_effects (g : Game.t) : Prop :=
  Dict.wf (Game.active_powerups g) = true /\
  Dict.mem (Game.active_powerups g) "jetpack"
  = Player.jetpack (Game.player g) /\
  Dict.mem (Game.active_powerups g) "super_sneakers"
  = Player.super_sneakers (Game.player g) /\
  Game.multiplier g
  = (if Dict.mem (Game.active_powerups g) "multiplier" then 2 else 1)%Z.

(** *** The states the game can reach *)

(** One step of the event loop: an input event is handled, or a frame is
    updated, and no exception escaped. *)
Inductive step : Game.t -> Game.t -> Prop :=
| step_input (g g' : Game.t) (event : Game.InputEvent)
    (menu_action : option string) (draw : nat) :
    Game.handle_input g event menu_action draw = Ok g' -> step g g'
| step_update (g g' : Game.t) (delta_seconds : float) (r : Game.FrameRandom) :
    Game.update g delta_seconds r = Ok g' -> step g g'.

Inductive reachable : Game.t -> Prop :=
| reachable_init : reachable Game.init
| reachable_step (g g' : Game.t) : reachable g -> step g g' -> reachable g'.

(** *** Coins *)

(** The coin is still on its way and reaches the player in this frame. *)
Definition arrives (g : Game.t) (coin : CoinCollectible.t) (delta : float)
    : bool :=
  CoinCollectible.active coin
  && (CoinCollectible.distance coin - Game.speed g * delta <=? 0).

(** The number of coins collected so far: [stats["total_coins"]]. *)
Definition total_coins (g : Game.t) : option Z :=
  Dict.get (Game.stats g) "total_coins".

(** The fields that the parts of a frame are shown to leave unchanged. *)
Definition powerup_view (g : Game.t) : Dict.t float * bool * bool * Z :=
  (Game.active_powerups g, Player.jetpack (Game.player g),
   Player.super_sneakers (Game.player g), Game.multiplier g).

Definition coin_view (g : Game.t)
    : Dict.t Z * list CoinCollectible.t * float * AchievementSystem.t :=
  (Game.stats g, Game.coins g, Game.speed g, Game.achievement_system g).

Definition spawn_view (g : Game.t)
    : (Dict.t float * bool * bool * Z) * Dict.t Z * AchievementSystem.t :=
  (powerup_view g, Game.stats g, Game.achievement_system g).

(** The multiplier has one of its two values. *)
Definition multiplier_ok (g : Game.t) : Prop :=
  Game.multiplier g = 1%Z \/ Game.multiplier g = 2%Z.

(** The ledger after the first loop of a sweep, and the entries that ran
    out. *)
Definition decreased (dt : float) (kr : string * float) : string * float :=
  (fst kr, snd kr - dt).

Definition runs_out (dt : float) (kr : string * float) : bool :=
  snd kr - dt <=? 0.

(** A frame in which nothing spawns. *)
Definition no_spawn : Game.FrameRandom :=
  {| Game.obstacle_draw := None; Game.powerup_draw := None;
     Game.letter_draw := None; Game.season_token_draw := None;
     Game.coin_draw := None |}.

(** The same for the single-file version, and the number of coins
    collected so far there. *)
Definition single_file_no_spawn : SingleFile.FrameRandom :=
  {| SingleFile.obstacle_draw := None; SingleFile.powerup_draw := None;
     SingleFile.letter_draw := None; SingleFile.season_token_draw := None |}.

(** [n] frames of [delta] seconds in which nothing spawns. *)
Fixpoint single_file_frames (g : SingleFile.Game) (delta : float) (n : nat)
    : result SingleFile.Game :=
  match n with
  | O => Ok g
  | S n' =>
      g' <- SingleFile.update g delta single_file_no_spawn ;;
      single_file_frames g' delta n'
  end.

Definition single_file_total_coins (r : result SingleFile.Game) : option Z :=
  match r with
  | Ok g => Dict.get (SingleFile.stats g) "total_coins"
  | Raise _ => None
  end.

(** The game right after "Start Run" is selected in the main menu. *)
Definition started : Game.t := Game.handle_menu_action Game.init "start_run" 0.

(** A magnet power-up in the player's lane, about to arrive. *)
Definition magnet_pickup : PowerUp.t :=
  {| PowerUp.lane := 1; PowerUp.distance := 0.25; PowerUp.kind := "magnet";
     PowerUp.active := true |}.

End Spec.

(** ** Invariants of the event loop *)

Module Invariant.

Import Spec.
Local Open Scope float_scope.

(** One of the three lanes of [GameConfig.lanes]. *)
Definition lane_ok (lane : Z) : Prop := (0 <= lane <= 2)%Z.

(** No balance of the economy is negative. *)
Definition solvent (e : Economy.t) : Prop :=
  (0 <= Economy.coins e)%Z /\ (0 <= Economy.keys e)%Z /\
  (0 <= Economy.mystery_boxes e)%Z.

(** The statistics have their three counters, and ["score"] is the score. *)
Definition stats_ok (g : Game.t) : Prop :=
  exists jumps total, has_stats (Game.stats g) jumps total (Game.score g).

(** The achievement system has its three achievements. *)
Definition achievements_ok (a : AchievementSystem.t) : Prop :=
  exists u1 u2 u3, has_flags a u1 u2 u3.

Definition sound (g : Game.t) : Prop :=
  lane_ok (Player.lane (Game.player g)) /\
  solvent (Game.economy g) /\
  stats_ok g /\
  achievements_ok (Game.achievement_system g).

(** The fields [sound] reads. *)
Definition core_view (g : Game.t)
    : Z * Economy.t * Dict.t Z * Z * AchievementSystem.t :=
  (Player.lane (Game.player g), Game.economy g, Game.stats g, Game.score g,
   Game.achievement_system g).

(** A frame time for which [update_score] can convert its gain, whichever
    multiplier is on. *)
Definition delta_ok (delta_seconds : float) : Prop :=
  is_finite (10 * delta_seconds * 60) = true /\
  is_finite (20 * delta_seconds * 60) = true.

(** The entity is on the track and has not reached the player. *)
Definition ahead (active : bool) (distance : float) : Prop :=
  active = true /\ (distance <=? 0) = false.

(** An obstacle as [spawn_obstacle] builds it. *)
Definition obstacle_ok (o : Obstacle.t) : Prop :=
  ahead (Obstacle.active o) (Obstacle.distance o) /\
  lane_ok (Obstacle.lane o) /\
  (Obstacle.height o = "low" \/ Obstacle.height o = "high") /\
  (Obstacle.kind o = "barrier" \/ Obstacle.kind o = "train").

Definition world_ok (g : Game.t) : Prop :=
  Forall obstacle_ok (Game.obstacles g) /\
  Forall (fun p => ahead (PowerUp.active p) (PowerUp.distance p) /\
                   lane_ok (PowerUp.lane p)) (Game.powerups g) /\
  Forall (fun l => ahead (LetterCollectible.active l)
                     (LetterCollectible.distance l) /\
                   lane_ok (LetterCollectible.lane l)) (Game.letters g) /\
  Forall (fun c => ahead (CoinCollectible.active c)
                     (CoinCollectible.distance c) /\
                   lane_ok (CoinCollectible.lane c)) (Game.coins g).

(** The entities on the track. *)
Definition lists_view (g : Game.t)
    : list Obstacle.t * list PowerUp.t * list LetterCollectible.t
      * list CoinCollectible.t :=
  (Game.obstacles g, Game.powerups g, Game.letters g, Game.coins g).

(** What [world_ok] asks of each kind of entity. *)
Definition powerup_ok (p : PowerUp.t) : Prop :=
  ahead (PowerUp.active p) (PowerUp.distance p) /\ lane_ok (PowerUp.lane p).

Definition letter_ok (l : LetterCollectible.t) : Prop :=
  ahead (LetterCollectible.active l) (LetterCollectible.distance l) /\
  lane_ok (LetterCollectible.lane l).

Definition coin_ok (c : CoinCollectible.t) : Prop :=
  ahead (CoinCollectible.active c) (CoinCollectible.distance c) /\
  lane_ok (CoinCollectible.lane c).

Definition lists_ok
    (v : list Obstacle.t * list PowerUp.t * list LetterCollectible.t
         * list CoinCollectible.t) : Prop :=
  let '(os, ps, ls, cs) := v in
  Forall obstacle_ok os /\ Forall powerup_ok ps /\ Forall letter_ok ls /\
  Forall coin_ok cs.

(** *** Runs of the event loop *)

(** One turn of the loop of [Game.run]: an event is handled or a frame is
    updated. *)
Inductive Turn :=
| Input (event : Game.InputEvent) (menu_action : option string) (draw : nat)
| Frame (delta_seconds : float) (r : Game.FrameRandom).

Definition turn (g : Game.t) (t : Turn) : result Game.t :=
  match t with
  | Input event menu_action draw => Game.handle_input g event menu_action draw
  | Frame delta_seconds r => Game.update g delta_seconds r
  end.

(** The turns in order; an exception ends the run. *)
Fixpoint play (g : Game.t) (turns : list Turn) : result Game.t :=
  match turns with
  | [] => Ok g
  | t :: rest => g' <- turn g t ;; play g' rest
  end.

(** Selecting an item of a menu, a key press during a run, and a frame of
    16 ms in which nothing spawns. *)
Definition select (action : string) : Turn :=
  Input (Game.KEYDOWN Game.K_other) (Some action) 0.

Definition press (key : Game.Key) : Turn := Input (Game.KEYDOWN key) None 0.

Definition tick : Turn := Frame 0.016 no_spawn.

(** *** The state machine *)

(** What only the menus and a crash change. *)
Definition mode_view (g : Game.t) : GameState * bool * float :=
  (Game.state g, Game.running g, Game.speed g).

End Invariant.

(** ** blind_surfers/ui.py

    A menu raises [IndexError] when it reads [self.items[self.index]] out of
    range; the other exceptions are the ones above. *)

Inductive fault :=
| IndexError
| Other (e : exn).

Inductive outcome (A : Type) :=
| Returns (a : A)
| Fails (f : fault).
Arguments Returns {A} a.
Arguments Fails {A} f.

(** [s.lower()] for a string of characters with code below 256: the
    letters A to Z and the capital letters of Latin-1 (192 to 222, without
    the multiplication sign 215) are moved up by 32. *)
Definition lower_char (c : ascii) : ascii :=
  let n := nat_of_ascii c in
  if ((65 <=? n) && (n <=? 90)
      || (192 <=? n) && (n <=? 222) && negb (n =? 215))%nat
  then ascii_of_nat (n + 32) else c.

Fixpoint lower (s : string) : string :=
  match s with
  | EmptyString => EmptyString
  | String c rest => String (lower_char c) (lower rest)
  end.

Module MenuItem.

Record t := {
  label : string;
  action : string
}.

End MenuItem.

Module Menu.

Record t := {
  title : string;
  items : list MenuItem.t;
  index : Z
}.

Definition set_index (m : t) (i : Z) : t :=
  {| title := title m; items := items m; index := i |}.

(** [len(self.items)] *)
Definition len (m : t) : Z := Z.of_nat (List.length (items m)).

(** [self.items[i]]: a negative index counts from the end. *)
Definition item_at (m : t) (i : Z) : outcome MenuItem.t :=
  let i := if (i <? 0)%Z then (i + len m)%Z else i in
  if ((i <? 0) || (len m <=? i))%Z then Fails IndexError
  else
    match nth_error (items m) (Z.to_nat i) with
    | Some item => Returns item
    | None => Fails IndexError
    end.

(** [sound_manager.play_sound(name)], with the default lane and distance. *)
Definition cue (name : string) : Event := PlaySound name 1 0.0.

(** [Menu(title, items, tts, sound_manager)]: the first label is spoken
    when there is one. *)
Definition init (title : string) (items : list MenuItem.t) : t * Log :=
  ({| title := title; items := items; index := 0 |},
   match items with
   | [] => []
   | item :: _ => [Say (MenuItem.label item)]
   end).

(** The end of [move], [jump_first], [jump_last] and of the loop body of
    [jump_letter]: the index is set, the cue is played and the label is
    spoken. *)
Definition go_to (m : t) (i : Z) : outcome (t * Log) :=
  let m := set_index m i in
  match item_at m (index m) with
  | Returns item => Returns (m, [cue "menumove"; Say (MenuItem.label item)])
  | Fails f => Fails f
  end.

Definition move (m : t) (direction : Z) : outcome (t * Log) :=
  let new_index := (index m + direction)%Z in
  if ((new_index <? 0) || (len m <=? new_index))%Z then
    Returns (m, [cue "menuedge"])
  else go_to m new_index.

Definition jump_first (m : t) : outcome (t * Log) :=
  if (index m =? 0)%Z then Returns (m, [cue "menuedge"])
  else go_to m 0.

Definition jump_last (m : t) : outcome (t * Log) :=
  if (index m =? len m - 1)%Z then Returns (m, [cue "menuedge"])
  else go_to m (len m - 1).

(** The index of the first item whose lowered label starts with [letter],
    counting from [idx]. *)
Fixpoint find_letter (items : list MenuItem.t) (letter : string) (idx : Z)
    : option Z :=
  match items with
  | [] => None
  | item :: rest =>
      if String.prefix letter (lower (MenuItem.label item)) then Some idx
      else find_letter rest letter (idx + 1)
  end.

Definition jump_letter (m : t) (letter : string) : outcome (t * Log) :=
  let letter := lower letter in
  match find_letter (items m) letter 0 with
  | Some idx => go_to m idx
  | None => Returns (m, [cue "menuedge"])
  end.

Definition select (m : t) : outcome (MenuItem.t * Log) :=
  match item_at m (index m) with
  | Returns item => Returns (item, [cue "menuenter"])
  | Fails f => Fails f
  end.

End Menu.

(** *** Notions used in the statements about menus *)

Module MenuSpec.

(** The cursor of the menu is on an item. *)
Definition cursor_ok (m : Menu.t) : Prop :=
  (0 <= Menu.index m < Menu.len m)%Z.

(** The moves of the cursor that the keys trigger. *)
Inductive Nav :=
| Move (direction : Z)
| First
| Last
| Letter (letter : string).

Definition nav (m : Menu.t) (op : Nav) : outcome (Menu.t * Log) :=
  match op with
  | Move direction => Menu.move m direction
  | First => Menu.jump_first m
  | Last => Menu.jump_last m
  | Letter letter => Menu.jump_letter m letter
  end.

(** The label, lowered, starts with the letter, lowered. *)
Definition starts_with (letter : string) (item : MenuItem.t) : bool :=
  String.prefix (lower letter) (lower (MenuItem.label item)).

End MenuSpec.

(** The keys that the menus and the game tell apart; [K_char c] is a key
    whose code is the code of the character [c], as for [K_a] to [K_z]. *)
Inductive UiKey :=
| UK_PAGEUP | UK_PAGEDOWN | UK_LEFT | UK_RIGHT | UK_UP | UK_DOWN
| UK_HOME | UK_END | UK_RETURN | UK_ESCAPE
| UK_char (c : ascii)
| UK_other.

Inductive UiEvent :=
| UI_KEYDOWN (key : UiKey)
| UI_OTHER.

(** [pygame.K_a <= event.key <= pygame.K_z] *)
Definition is_letter_key (c : ascii) : bool :=
  ((nat_of_ascii "a" <=? nat_of_ascii c)
   && (nat_of_ascii c <=? nat_of_ascii "z"))%nat.

Module MenuController.

Section WithCallback.

(** The callables given as [on_close], and what calling one does to the
    controller, with the calls it makes. *)
Context {Callback : Type}.

Record t := {
  active_menu : option Menu.t;
  on_close : option Callback
}.

Variable call : Callback -> t -> t * Log.

Definition set_active_menu (c : t) (m : option Menu.t) : t :=
  {| active_menu := m; on_close := on_close c |}.

Definition set_on_close (c : t) (f : option Callback) : t :=
  {| active_menu := active_menu c; on_close := f |}.

(** [MenuController(tts, sound_manager)] *)
Definition init : t := {| active_menu := None; on_close := None |}.

Definition open_menu (c : t) (menu : Menu.t) (f : option Callback) : t * Log :=
  let c := set_active_menu c (Some menu) in
  let c := set_on_close c f in
  (c, [Menu.cue "menuopen"]).

Definition close_menu (c : t) : t * Log :=
  let calls := [Menu.cue "menuclose"] in
  let '(c, calls) :=
    match on_close c with
    | Some f => let '(c, calls') := call f c in (c, (calls ++ calls')%list)
    | None => (c, calls)
    end in
  let c := set_active_menu c None in
  let c := set_on_close c None in
  (c, calls).

(** The rest of [handle_input] once a menu is known to be active: the
    menu after the key, with what is returned. *)
Definition with_menu (c : t) (r : outcome (Menu.t * Log))
    : outcome (option string * t * Log) :=
  match r with
  | Returns (m, calls) => Returns (None, set_active_menu c (Some m), calls)
  | Fails f => Fails f
  end.

Definition handle_input (c : t) (event : UiEvent)
    : outcome (option string * t * Log) :=
  match active_menu c with
  | None => Returns (None, c, [])
  | Some menu =>
      match event with
      | UI_OTHER => Returns (None, c, [])
      | UI_KEYDOWN UK_UP => with_menu c (Menu.move menu (-1))
      | UI_KEYDOWN UK_DOWN => with_menu c (Menu.move menu 1)
      | UI_KEYDOWN UK_HOME => with_menu c (Menu.jump_first menu)
      | UI_KEYDOWN UK_END => with_menu c (Menu.jump_last menu)
      | UI_KEYDOWN UK_RETURN =>
          match Menu.select menu with
          | Returns (item, calls) => Returns (Some (MenuItem.action item), c, calls)
          | Fails f => Fails f
          end
      | UI_KEYDOWN UK_ESCAPE =>
          let '(c, calls) := close_menu c in Returns (None, c, calls)
      | UI_KEYDOWN (UK_char ch) =>
          if is_letter_key ch then
            with_menu c (Menu.jump_letter menu (String ch EmptyString))
          else Returns (None, c, [])
      | UI_KEYDOWN _ => Returns (None, c, [])
      end
  end.

End WithCallback.

Arguments t Callback : clear implicits.

End MenuController.

(** ** blind_surfers/game.py: the game with its menus

    [Game] above takes what the menu controller answers as an input and
    records only that a menu was opened.  Here the controller is part of
    the state, the menus are built as [game.py] builds them, and the log
    holds the calls that are really made: the menus' cues and speech in
    place of the [OpenMenu] marks. *)

Module Session.

Import Spec.

(** The only callable the game gives as [on_close]. *)
Inductive Callback := ReturnToMainMenu.

Record t := {
  game : Game.t;
  menu_controller : MenuController.t Callback
}.

Definition set_game (s : t) (g : Game.t) : t :=
  {| game := g; menu_controller := menu_controller s |}.

Definition set_menu_controller (s : t) (c : MenuController.t Callback) : t :=
  {| game := game s; menu_controller := c |}.

Definition emit (s : t) (calls : Log) : t :=
  set_game s (Game.emit (game s) calls).

Definition item (label action : string) : MenuItem.t :=
  {| MenuItem.label := label; MenuItem.action := action |}.

Definition build_main_menu : Menu.t * Log :=
  Menu.init "Main Menu"
    [item "Start Run" "start_run"; item "Shop" "shop";
     item "Achievements" "achievements"; item "Quit" "quit"].

Definition build_shop_menu : Menu.t * Log :=
  Menu.init "Shop"
    [item "Upgrade Jetpack Duration" "upgrade_jetpack";
     item "Upgrade Super Sneakers Duration" "upgrade_super_sneakers";
     item "Upgrade Coin Magnet Duration" "upgrade_magnet";
     item "Upgrade Multiplier Duration" "upgrade_multiplier";
     item "Upgrade Hoverboard Duration" "upgrade_hoverboard";
     item "Buy Mystery Box" "buy_mystery_box";
     item "Open Mystery Box" "open_mystery_box";
     item "Back" "back"].

Definition build_achievements_menu (a : AchievementSystem.t) : Menu.t * Log :=
  Menu.init "Achievements"
    (map (fun label => item label "none") (AchievementSystem.list_status a)
     ++ [item "Back" "back"])%list.

(** What [return_to_main_menu] does to the controller, and its calls: the
    main menu is built, opened with no [on_close], and the theme starts. *)
Definition reopen_main_menu (c : MenuController.t Callback)
    : MenuController.t Callback * Log :=
  let '(menu, built) := build_main_menu in
  let '(c, opened) := MenuController.open_menu c menu None in
  (c, (built ++ opened ++ [PlayMusic "theme.ogg"])%list).

Definition call (f : Callback) (c : MenuController.t Callback)
    : MenuController.t Callback * Log :=
  match f with
  | ReturnToMainMenu => reopen_main_menu c
  end.

Definition return_to_main_menu (s : t) : t :=
  let '(c, calls) := reopen_main_menu (menu_controller s) in
  emit (set_menu_controller s c) calls.

(** [menu_controller.open_menu(menu, on_close=self.return_to_main_menu)]
    for a menu just built. *)
Definition open_submenu (s : t) (built : Menu.t * Log) : t :=
  let '(menu, calls) := built in
  let s := emit s calls in
  let '(c, calls) :=
    MenuController.open_menu (menu_controller s) menu (Some ReturnToMainMenu) in
  emit (set_menu_controller s c) calls.

(** [Game()] *)
Definition init : t :=
  let '(menu, built) := build_main_menu in
  let '(c, opened) := MenuController.open_menu MenuController.init menu None in
  {| game := Game.set_log Game.init
               (built ++ opened ++ [PlayMusic "theme.ogg"])%list;
     menu_controller := c |}.

(** The cases of [handle_menu_action] that touch the menu controller come
    first; the others are those of [Game.handle_menu_action]. *)
Definition handle_menu_action (s : t) (action : string) (draw : nat) : t :=
  if String.eqb action "start_run" then
    let s := set_game s (Game.reset_run (game s)) in
    let s := set_menu_controller s
               (MenuController.set_active_menu (menu_controller s) None) in
    emit s [StopMusic]
  else if String.eqb action "shop" then
    open_submenu s build_shop_menu
  else if String.eqb action "achievements" then
    let s := emit s [PlayMusic "achmusic.ogg"] in
    open_submenu s
      (build_achievements_menu (Game.achievement_system (game s)))
  else if String.eqb action "back" then
    return_to_main_menu s
  else set_game s (Game.handle_menu_action (game s) action draw).

(** The key as [Game.handle_input] tells keys apart. *)
Definition game_key (key : UiKey) : Game.Key :=
  match key with
  | UK_PAGEUP => Game.K_PAGEUP
  | UK_PAGEDOWN => Game.K_PAGEDOWN
  | UK_LEFT => Game.K_LEFT
  | UK_RIGHT => Game.K_RIGHT
  | UK_UP => Game.K_UP
  | UK_DOWN => Game.K_DOWN
  | UK_ESCAPE => Game.K_ESCAPE
  | UK_char c => if Ascii.eqb c "k" then Game.K_k else Game.K_other
  | _ => Game.K_other
  end.

Definition game_event (event : UiEvent) : Game.InputEvent :=
  match event with
  | UI_KEYDOWN key => Game.KEYDOWN (game_key key)
  | UI_OTHER => Game.OTHER_EVENT
  end.

Definition lift (s : t) (r : result Game.t) : outcome t :=
  match r with
  | Ok g => Returns (set_game s g)
  | Raise e => Fails (Other e)
  end.

Definition handle_input (s : t) (event : UiEvent) (draw : nat) : outcome t :=
  match event with
  | UI_KEYDOWN UK_PAGEUP =>
      Returns (emit s [AdjustMusicVolume 0.05])
  | UI_KEYDOWN UK_PAGEDOWN =>
      Returns (emit s [AdjustMusicVolume (-0.05)])
  | _ =>
      match Game.state (game s) with
      | MENU =>
          match MenuController.handle_input call (menu_controller s) event with
          | Returns (action, c, calls) =>
              let s := emit (set_menu_controller s c) calls in
              match action with
              | Some action =>
                  if String.eqb action "" then Returns s
                  else Returns (handle_menu_action s action draw)
              | None => Returns s
              end
          | Fails f => Fails f
          end
      | GAME_OVER =>
          match game_event event with
          | Game.KEYDOWN Game.K_k =>
              Returns (set_game s (Game.continue_run_with_key (game s)))
          | Game.KEYDOWN Game.K_ESCAPE =>
              let s := set_game s (Game.set_state (game s) MENU) in
              Returns (return_to_main_menu s)
          | _ => Returns s
          end
      | RUNNING =>
          match game_event event with
          | Game.KEYDOWN key => lift s (Game.handle_run_key (game s) key)
          | Game.OTHER_EVENT => Returns s
          end
      end
  end.

Definition update (s : t) (delta_seconds : float) (r : Game.FrameRandom)
    : outcome t :=
  lift s (Game.update (game s) delta_seconds r).

(** *** Notions used in the statements *)

(** One turn of the loop of [Game.run], with no exception. *)
Inductive step : t -> t -> Prop :=
| step_input (s s' : t) (event : UiEvent) (draw : nat) :
    handle_input s event draw = Returns s' -> step s s'
| step_update (s s' : t) (delta_seconds : float) (r : Game.FrameRandom) :
    update s delta_seconds r = Returns s' -> step s s'.

(** The sessions reached from [s] by any number of turns. *)
Inductive reaches (s : t) : t -> Prop :=
| reaches_here : reaches s s
| reaches_step (s' s'' : t) : reaches s s' -> step s' s'' -> reaches s s''.

(** What the menu controller answers to the event: the [action] of
    [Game.handle_input]. *)
Definition answer (s : t) (event : UiEvent) : option string :=
  match MenuController.handle_input call (menu_controller s) event with
  | Returns (action, _, _) => action
  | Fails _ => None
  end.

(** The game without its log. *)
Definition silent (g : Game.t) : Game.t := Game.set_log g [].

(** The menu shown, if any, has its cursor on an item. *)
Definition menu_ok (c : MenuController.t Callback) : Prop :=
  match MenuController.active_menu c with
  | Some m => MenuSpec.cursor_ok m
  | None => True
  end.

(** What every session reached from the start satisfies. *)
Definition well_formed (s : t) : Prop :=
  Invariant.sound (game s) /\
  ledger_matches_effects (game s) /\
  menu_ok (menu_controller s).

(** The game shows a menu state and no menu is active. *)
Definition locked_out (s : t) : Prop :=
  Game.state (game s) = MENU /\
  MenuController.active_menu (menu_controller s) = None.

End Session.

(** ** blind_surfers/audio.py: the state of [SoundManager]

    The manager keeps the sounds it has loaded, the loops that play, by tag,
    and the music volume.  Whether an asset can be loaded and which channel
    the mixer hands out are inputs; the calls to pygame and to the speech
    back end are returned, in order. *)

Module Mixer.

Import PyFloat.
Local Open Scope float_scope.

Record SoundInstance := {
  name : string;
  channel : nat;
  lane : Z;
  distance : float
}.

Record t := {
  sounds : list string;
  looping_instances : Dict.t SoundInstance;
  music_volume : float
}.

Inductive Call :=
| ChannelSetVolume (channel : nat) (left_gain right_gain : float)
| ChannelPlay (channel : nat) (name : string) (loops : Z)
| ChannelStop (channel : nat)
| MusicSetVolume (volume : float)
| Speak (text : string).

Definition set_sounds (m : t) (s : list string) : t :=
  {| sounds := s; looping_instances := looping_instances m;
     music_volume := music_volume m |}.

Definition set_looping_instances (m : t) (d : Dict.t SoundInstance) : t :=
  {| sounds := sounds m; looping_instances := d;
     music_volume := music_volume m |}.

Definition set_music_volume (m : t) (v : float) : t :=
  {| sounds := sounds m; looping_instances := looping_instances m;
     music_volume := v |}.

(** [SoundManager(config, tts)] *)
Definition init : t :=
  {| sounds := []; looping_instances := [];
     music_volume := Config.default_music_volume |}.

(** [load_sound(name)]: whether a sound is returned; [loads] tells whether
    the asset is found and pygame loads it, and is not looked at when the
    sound is cached. *)
Definition load_sound (m : t) (loads : bool) (name : string) : bool * t :=
  if existsb (String.eqb name) (sounds m) then (true, m)
  else if loads then (true, set_sounds m (sounds m ++ [name])%list)
  else (false, m).

(** [channel.set_volume(left * volume, right * volume)] for a pan and a
    distance. *)
Definition set_volume (channel : nat) (pan distance : float) : Call :=
  let '(left_gain, right_gain) := SoundManager.channel_volume pan distance in
  ChannelSetVolume channel left_gain right_gain.

(** [free] is what [pygame.mixer.find_channel(True)] returns. *)
Definition play_sound (m : t) (loads : bool) (free : option nat)
    (name : string) (lane : Z) (distance : float) (loops : Z)
    : t * list Call :=
  let '(sound, m) := load_sound m loads name in
  if negb sound then (m, [])
  else
    match free with
    | None => (m, [])
    | Some channel =>
        (m, [set_volume channel (SoundManager.pan_of_lane lane) distance;
             ChannelPlay channel name loops])
    end.

Definition start_loop (m : t) (loads : bool) (free : option nat)
    (tag name : string) (lane : Z) (distance : float) : t * list Call :=
  if Dict.mem (looping_instances m) tag then (m, [])
  else
    let '(sound, m) := load_sound m loads name in
    if negb sound then (m, [])
    else
      match free with
      | None => (m, [])
      | Some channel =>
          (set_looping_instances m
             (Dict.set (looping_instances m) tag
                {| name := name; channel := channel; lane := lane;
                   distance := distance |}),
           [set_volume channel (SoundManager.pan_of_lane lane) distance;
            ChannelPlay channel name (-1)])
      end.

Definition stop_loop (m : t) (tag : string) : t * list Call :=
  match Dict.get (looping_instances m) tag with
  | Some instance =>
      (set_looping_instances m (Dict.del (looping_instances m) tag),
       [ChannelStop (channel instance)])
  | None => (m, [])
  end.

Definition update_loop (m : t) (tag : string) (lane : Z) (distance : float)
    : t * list Call :=
  match Dict.get (looping_instances m) tag with
  | None => (m, [])
  | Some instance =>
      (set_looping_instances m
         (Dict.set (looping_instances m) tag
            {| name := name instance; channel := channel instance;
               lane := lane; distance := distance |}),
       [set_volume (channel instance) (SoundManager.pan_of_lane lane) distance])
  end.

Definition update_loop_with_pan (m : t) (tag : string) (pan distance : float)
    : t * list Call :=
  match Dict.get (looping_instances m) tag with
  | None => (m, [])
  | Some instance =>
      (set_looping_instances m
         (Dict.set (looping_instances m) tag
            {| name := name instance; channel := channel instance;
               lane := Mixer.lane instance; distance := distance |}),
       [set_volume (channel instance) pan distance])
  end.

(** The volume is assigned before the percentage is computed, so the
    manager is changed even when [int] raises. *)
Definition adjust_music_volume (m : t) (delta : float)
    : t * result (list Call) :=
  let m := set_music_volume m (pymax 0.0 (pymin 1.0 (music_volume m + delta))) in
  (m,
   percent <- to_int (music_volume m * 100) ;;
   Ok [MusicSetVolume (music_volume m);
       Speak ("Music volume " ++ str_of_int percent ++ " percent")]).

(** *** Notions used in the statements *)

(** A gain or a volume between 0 and 1; a NaN is not. *)
Definition unit_range (x : float) : Prop :=
  (0 <=? x) = true /\ (x <=? 1) = true.

(** The tags of the loops that play. *)
Definition looping (m : t) : list string := Dict.keys (looping_instances m).

End Mixer.

(** ** Notions used in the statements about the systems *)

Module SystemsSpec.

(** [n] letters are collected, each the one that [next_letter] names when
    it is collected; the completion signals come with the final word hunt. *)
Fixpoint collect_next (w : WordHunt.t) (n : nat) : list bool * WordHunt.t :=
  match n with
  | O => ([], w)
  | S n' =>
      let '(completed, w') := WordHunt.collect w (WordHunt.next_letter w) in
      let '(signals, w'') := collect_next w' n' in
      (completed :: signals, w'')
  end.

(** The word hunt for [target] with its first [c] letters collected. *)
Definition spelled (target : list string) (c : nat) : WordHunt.t :=
  {| WordHunt.letters := target; WordHunt.collected := firstn c target |}.

(** What only [update_score], [reset_run] and [check] change. *)
Definition record_view (g : Game.t) : Z * AchievementSystem.t :=
  (Game.score g, Game.achievement_system g).

(** A float that is not negative, as a specification float: a zero of
    either sign, a positive number or plus infinity. *)
Definition nonneg_sf (sf : spec_float) : bool :=
  match sf with
  | S754_zero _ | S754_finite false _ _ | S754_infinity false => true
  | _ => false
  end.

End SystemsSpec.

(** ** Notions used in the statements about the single-file version *)

Module SingleFileSpec.

(** The letters collected so far are the first letters of the word. *)
Definition on_track (g : SingleFile.Game) : Prop :=
  exists rest,
    SingleFile.word_hunt g = (SingleFile.word_progress g ++ rest)%list.

(** The letter reaches the player, in the player's lane, in this frame. *)
Definition picked_up (g : SingleFile.Game) (letter : LetterCollectible.t)
    (dt : float) : Prop :=
  LetterCollectible.active letter = true /\
  (LetterCollectible.distance letter - SingleFile.speed g * dt <=? 0)%float
  = true /\
  LetterCollectible.lane letter = Player.lane (SingleFile.player g).

(** A run in which the letter H was spawned twice, both in the player's
    lane, before either was collected. *)
Definition doubled_letter : SingleFile.Game :=
  SingleFile.spawn_letter
    (SingleFile.spawn_letter (SingleFile.reset_run SingleFile.init) 1) 1.

End SingleFileSpec.

(** ** Notions used in the statements about arrivals *)

Module Arrival.

Import PyFloat Spec.
Local Open Scope float_scope.

(** *** Obstacles *)

(** The obstacle is on the track and, after a frame of [delta] seconds, its
    distance is at or below zero. *)
Definition reaches_player (g : Game.t) (delta : float) (o : Obstacle.t)
    : bool :=
  Obstacle.active o && (Obstacle.distance o - Game.speed g * delta <=? 0).

(** The obstacle is on the track and still ahead after the frame. *)
Definition stays_ahead (g : Game.t) (delta : float) (o : Obstacle.t) : bool :=
  Obstacle.active o
  && negb (Obstacle.distance o - Game.speed g * delta <=? 0).

(** The obstacle arrives in the player's lane and the player does not get
    past it: the arrivals for which [handle_collision] is called. *)
Definition collides (g : Game.t) (delta : float) (o : Obstacle.t) : bool :=
  reaches_player g delta o
  && (Obstacle.lane o =? Player.lane (Game.player g))%Z
  && negb (avoids (Game.player g) o).

(** The game at the moment [update] calls [update_obstacles]: the player's
    timers and the power-up ledger have been updated for the frame. *)
Definition before_obstacles (g : Game.t) (delta : float) : Game.t :=
  Game.update_powerups
    (Game.set_player g (Player.update (Game.player g) delta)) delta.

(** *** Coins *)

(** The coin arrives in the frame and is collected: it is in the player's
    lane, or a magnet is in the ledger. *)
Definition collected (g : Game.t) (delta : float) (coin : CoinCollectible.t)
    : bool :=
  arrives g coin delta
  && ((CoinCollectible.lane coin =? Player.lane (Game.player g))%Z
      || Dict.mem (Game.active_powerups g) "magnet").

(** The coin is on the track and still ahead after the frame. *)
Definition on_its_way (g : Game.t) (delta : float) (coin : CoinCollectible.t)
    : bool :=
  CoinCollectible.active coin && negb (arrives g coin delta).

(** The game at the moment [update] calls [update_coins]. *)
Definition before_coins (g : Game.t) (delta : float) : Game.t :=
  Game.update_letters
    (Game.update_powerup_objects
       (Game.update_obstacles (before_obstacles g delta) delta) delta) delta.

(** *** The single-file version *)

(** The ledger of the single-file game at the moment its [update] tests
    ["magnet" in self.active_powerups]: the stages that follow
    [update_powerup_objects] leave the ledger alone. *)
Definition single_file_ledger (s : SingleFile.Game) (delta : float)
    : Dict.t float :=
  SingleFile.active_powerups
    (SingleFile.update_powerup_objects
       (SingleFile.update_obstacles
          (SingleFile.update_powerups
             (SingleFile.set_player s
                (Player.update (SingleFile.player s) delta)) delta)
          delta) delta).

End Arrival.

(** * Properties *)

(** ** Python floats *)

Module PyFloatFacts.

Import PyFloat.
Local Open Scope float_scope.

(** *** Facts about comparisons with zero *)

Lemma Prim2SF_nan_iff (x : float) : Prim2SF x = S754_nan <-> is_nan x = true.
Proof.
  unfold Prim2SF.
  destruct (is_nan x); [tauto|].
  destruct (is_zero x); [split; discriminate|].
  destruct (is_infinity x); [split; discriminate|].
  destruct (Z.frexp x) as [r ex].
  destruct (shr_fexp _ _ _ _ _) as [sh e'].
  destruct (shr_m sh); split; discriminate.
Qed.

Lemma Prim2SF_finite_cases (x : float) :
  is_finite x = true ->
  (exists s, Prim2SF x = S754_zero s) \/
  (exists s m e, Prim2SF x = S754_finite s m e).
Proof.
  unfold is_finite, Prim2SF.
  destruct (is_nan x); [discriminate|].
  destruct (is_infinity x); [discriminate|]. intros _.
  destruct (is_zero x); [left; eauto|].
  destruct (Z.frexp x) as [r ex].
  destruct (shr_fexp _ _ _ _ _) as [sh e'].
  destruct (shr_m sh); [left|right|left]; eauto.
Qed.

Lemma leb_zero_not_pos (x : float) : (x <=? 0) = true -> (0 <? x) = false.
Proof.
  rewrite leb_spec, ltb_spec.
  change (Prim2SF 0) with (S754_zero false).
  unfold SFleb, SFltb.
  destruct (Prim2SF x) as [s|s| |s m e]; simpl; try reflexivity;
    destruct s; simpl; congruence.
Qed.

Lemma not_leb_zero_pos (x : float) :
  is_nan x = false -> (x <=? 0) = false -> (0 <? x) = true.
Proof.
  intros Hn. rewrite leb_spec, ltb_spec.
  change (Prim2SF 0) with (S754_zero false).
  unfold SFleb, SFltb.
  destruct (Prim2SF x) as [s|s| |s m e] eqn:E; simpl; try discriminate;
    try (destruct s; simpl; congruence).
  apply Prim2SF_nan_iff in E. congruence.
Qed.

Lemma pos_not_nan (x : float) : (0 <? x) = true -> is_nan x = false.
Proof.
  rewrite ltb_spec. intros H.
  destruct (is_nan x) eqn:E; [|reflexivity].
  apply Prim2SF_nan_iff in E. rewrite E in H. discriminate.
Qed.

(** *** Rounding never produces a NaN *)

Lemma shr_1_nonneg (mrs : shr_record) :
  (0 <= shr_m mrs)%Z -> (0 <= shr_m (shr_1 mrs))%Z.
Proof.
  destruct mrs as [m r s]. simpl.
  destruct m as [|p|p]; simpl; intros H; try lia.
  - destruct p; simpl; lia.
Qed.

Lemma iter_shr_1_nonneg (p : positive) (mrs : shr_record) :
  (0 <= shr_m mrs)%Z -> (0 <= shr_m (SpecFloat.iter_pos shr_1 p mrs))%Z.
Proof.
  revert mrs. induction p as [p IH|p IH|]; simpl; intros mrs H.
  - apply IH, IH, shr_1_nonneg, H.
  - apply IH, IH, H.
  - apply shr_1_nonneg, H.
Qed.

Lemma shr_fexp_nonneg (m e : Z) (l : location) :
  (0 <= m)%Z -> (0 <= shr_m (fst (shr_fexp prec emax m e l)))%Z.
Proof.
  intros H. unfold shr_fexp, shr.
  assert (H0 : (0 <= shr_m (shr_record_of_loc m l))%Z).
  { destruct l as [|[ | | ]]; simpl; exact H. }
  destruct (_ - e)%Z; simpl; auto using iter_shr_1_nonneg.
Qed.

Lemma round_nearest_even_nonneg (m : Z) (l : location) :
  (0 <= m)%Z -> (0 <= round_nearest_even m l)%Z.
Proof.
  intros H. destruct l as [|[ | | ]]; simpl; try lia.
  destruct (Z.even m); lia.
Qed.

Lemma binary_round_aux_not_nan (sx : bool) (mx ex : Z) (lx : location) :
  (0 <= mx)%Z -> binary_round_aux prec emax sx mx ex lx <> S754_nan.
Proof.
  intros H. unfold binary_round_aux.
  pose proof (shr_fexp_nonneg mx ex lx H) as H1.
  destruct (shr_fexp prec emax mx ex lx) as [mrs' e']. simpl in H1.
  pose proof (shr_fexp_nonneg _ e' loc_Exact
                (round_nearest_even_nonneg _ (loc_of_shr_record mrs') H1)) as H2.
  destruct (shr_fexp prec emax _ e' loc_Exact) as [mrs'' e'']. simpl in H2.
  destruct (shr_m mrs''); try discriminate; try lia.
  destruct (Z.leb _ _); discriminate.
Qed.

Lemma binary_normalize_not_nan (m e : Z) (sz : bool) :
  binary_normalize prec emax m e sz <> S754_nan.
Proof.
  unfold binary_normalize, binary_round.
  destruct m as [|p|p]; try discriminate;
    destruct (shl_align _ _ _) as [mz ez];
    apply binary_round_aux_not_nan; lia.
Qed.

(** Subtracting a finite number from a number gives a number. *)
Lemma sub_not_nan (x y : float) :
  is_nan x = false -> is_finite y = true -> is_nan (x - y) = false.
Proof.
  intros Hx Hy.
  destruct (is_nan (x - y)) eqn:E; [|reflexivity].
  apply Prim2SF_nan_iff in E. rewrite sub_spec in E.
  assert (Hx' : Prim2SF x <> S754_nan).
  { intros C. apply Prim2SF_nan_iff in C. congruence. }
  exfalso.
  destruct (Prim2SF_finite_cases y Hy) as [[sy Ey]|[sy [my [ey Ey]]]];
    rewrite Ey in E; unfold SF64sub, SFsub in E;
    destruct (Prim2SF x) as [sx|sx| |sx mx ex]; try congruence;
    try (destruct sx, sy; discriminate).
  revert E. apply binary_normalize_not_nan.
Qed.

(** A number strictly between 0 and 1 times zero is (positive) zero. *)
Lemma mul_zero_of_unit (x : float) :
  (0 <? x) = true -> (x <? 1) = true -> x * 0 = 0.
Proof.
  rewrite !ltb_spec. intros H0 H1.
  apply Prim2SF_inj. rewrite mul_spec.
  change (Prim2SF 0) with (S754_zero false) in *.
  unfold SFltb in *.
  destruct (Prim2SF x) as [s|s| |s m e].
  - discriminate H0.
  - destruct s; [discriminate H0|].
    revert H1. destruct (Prim2SF 1) as [s|s| |s m e]; try destruct s; discriminate.
  - discriminate H0.
  - destruct s; [discriminate H0|]. reflexivity.
Qed.

End PyFloatFacts.

(** ** Dictionaries *)

Module DictFacts.

Import Dict.

Section WithValue.
Context {V : Type}.
Implicit Types d : Dict.t V.

Lemma get_set_same (d : Dict.t V) (k : string) (v : V) : get (set d k v) k = Some v.
Proof.
  induction d as [|[k' v'] d IH]; simpl.
  - now rewrite String.eqb_refl.
  - destruct (String.eqb k' k) eqn:E; simpl; now rewrite E.
Qed.

Lemma get_set_other (d : Dict.t V) (k k' : string) (v : V) :
  k <> k' -> get (set d k v) k' = get d k'.
Proof.
  intros Hne. induction d as [|[k0 v0] d IH]; simpl.
  - destruct (String.eqb_spec k k'); [contradiction|reflexivity].
  - destruct (String.eqb_spec k0 k) as [->|Hk]; simpl.
    + destruct (String.eqb_spec k k'); [contradiction|reflexivity].
    + now rewrite IH.
Qed.

Lemma mem_set_same (d : Dict.t V) (k : string) (v : V) : mem (set d k v) k = true.
Proof. unfold mem. now rewrite get_set_same. Qed.

Lemma mem_set_other (d : Dict.t V) (k k' : string) (v : V) :
  k <> k' -> mem (set d k v) k' = mem d k'.
Proof. intros H. unfold mem. now rewrite get_set_other. Qed.

Lemma get_del_same (d : Dict.t V) (k : string) : get (del d k) k = None.
Proof.
  induction d as [|[k' v'] d IH]; simpl; [reflexivity|].
  destruct (String.eqb k' k) eqn:E; simpl; [exact IH|].
  now rewrite E.
Qed.

Lemma get_del_other (d : Dict.t V) (k k' : string) :
  k <> k' -> get (del d k) k' = get d k'.
Proof.
  intros Hne. induction d as [|[k0 v0] d IH]; simpl; [reflexivity|].
  destruct (String.eqb_spec k0 k) as [->|Hk]; simpl.
  - destruct (String.eqb_spec k k'); [contradiction|exact IH].
  - now rewrite IH.
Qed.

Lemma mem_del_same (d : Dict.t V) (k : string) : mem (del d k) k = false.
Proof. unfold mem. now rewrite get_del_same. Qed.

Lemma mem_del_other (d : Dict.t V) (k k' : string) :
  k <> k' -> mem (del d k) k' = mem d k'.
Proof. intros H. unfold mem. now rewrite get_del_other. Qed.

Lemma mem_keys (d : Dict.t V) (k : string) : mem d k = true <-> In k (keys d).
Proof.
  unfold mem. induction d as [|[k' v'] d IH]; simpl.
  - split; [discriminate|tauto].
  - destruct (String.eqb_spec k' k) as [->|Hk].
    + split; auto.
    + rewrite IH. split; [tauto|]. intros [H|H]; [contradiction|exact H].
Qed.

Lemma wf_NoDup (d : Dict.t V) : wf d = true -> NoDup (keys d).
Proof.
  induction d as [|[k v] d IH]; simpl; intros H; [constructor|].
  apply andb_prop in H as [H1 H2]. constructor; [|auto].
  intros C. apply mem_keys in C. rewrite C in H1. discriminate.
Qed.

End WithValue.

End DictFacts.

(** ** The mixer's gains (audio.py and the single-file version) *)

Module MixerFacts.

Import PyFloat PyFloatFacts.
Local Open Scope float_scope.

(** Comparisons of floats are antisymmetric: [a <= b] excludes [b < a]. *)
Lemma SFcompare_antisym (x y : spec_float) (c : comparison) :
  SFcompare x y = Some c -> SFcompare y x = Some (CompOpp c).
Proof.
  destruct x as [sx|sx| |sx mx ex], y as [sy|sy| |sy my ey]; simpl;
    try discriminate;
    try (intros [= <-]; try destruct sx; try destruct sy; reflexivity).
  intros [= <-]. f_equal.
  destruct sx, sy; simpl; try reflexivity;
    rewrite (Z.compare_antisym ex ey);
    destruct (ex ?= ey)%Z; simpl; try reflexivity;
    rewrite ?CompOpp_involutive, Pos.compare_cont_antisym; reflexivity.
Qed.

Lemma leb_not_ltb (a b : float) : (a <=? b) = true -> (b <? a) = false.
Proof.
  rewrite leb_spec, ltb_spec. unfold SFleb, SFltb.
  destruct (SFcompare (Prim2SF a) (Prim2SF b)) as [c|] eqn:E; [|discriminate].
  rewrite (SFcompare_antisym _ _ _ E).
  destruct c; simpl; congruence.
Qed.

(** Anything at most zero is below the maximal distance. *)
Lemma nonpos_below_max (d : float) :
  (d <=? 0) = true -> (d <? Config.max_distance) = true.
Proof.
  rewrite leb_spec, ltb_spec.
  change (Prim2SF 0) with (S754_zero false).
  change (Prim2SF Config.max_distance)
    with (S754_finite false 7036874417766400 (-46)).
  unfold SFleb, SFltb.
  destruct (Prim2SF d) as [s|s| |s m e]; intros H.
  - reflexivity.
  - destruct s; [reflexivity|discriminate H].
  - discriminate H.
  - destruct s; [reflexivity|discriminate H].
Qed.

(** The clamp of the gains: a clamped value times zero is zero. *)
Lemma clamped_times_zero (x : float) : pymax 0.0 (pymin 1.0 x) * 0 = 0.
Proof.
  unfold pymax, pymin.
  destruct (x <? 1) eqn:H1.
  - destruct (0 <? x) eqn:H0; [|reflexivity].
    now apply mul_zero_of_unit.
  - reflexivity.
Qed.

Lemma silent_at_max_distance :
  SoundManager._distance_to_volume Config.max_distance = 0.
Proof. reflexivity. Qed.

Lemma package_silent (pan : float) :
  SoundManager.channel_volume pan Config.max_distance = (0, 0).
Proof.
  unfold SoundManager.channel_volume, SoundManager._pan_to_stereo.
  rewrite silent_at_max_distance.
  change (0 * SoundManager.sfx_volume) with 0.
  now rewrite !clamped_times_zero.
Qed.

Lemma package_full_volume_at_or_before_arrival (d : float) :
  (d <=? 0) = true -> SoundManager._distance_to_volume d = 1.
Proof.
  intros H. unfold SoundManager._distance_to_volume.
  unfold pymin at 1. rewrite (nonpos_below_max d H).
  unfold pymax at 2. rewrite (leb_zero_not_pos d H).
  reflexivity.
Qed.

Lemma package_silent_beyond_max (d : float) :
  (Config.max_distance <=? d) = true -> SoundManager._distance_to_volume d = 0.
Proof.
  intros H. unfold SoundManager._distance_to_volume.
  unfold pymin at 1. rewrite (leb_not_ltb _ _ H).
  reflexivity.
Qed.

Lemma single_file_silent (lane : Z) :
  SingleFile.channel_volume
    (match SingleFile.LANE_PAN lane with Some p => p | None => 0.0 end)
    SingleFile.MAX_DISTANCE = (0, 0).
Proof.
  destruct lane as [|p|p]; try reflexivity.
  destruct p as [p|p|]; try reflexivity; destruct p; reflexivity.
Qed.

(** C6, as stated, fails by one rounding: the right gain for pan -0.8 is the
    binary64 sum 1.0 + (-0.8), which is not the float 0.2. *)
Lemma right_gain_is_not_one_fifth :
  SoundManager._pan_to_stereo (-0.8) <> (1.0, 0.2) /\
  SingleFile._pan_to_stereo (-0.8) <> (1.0, 0.2) /\
  (snd (SoundManager._pan_to_stereo (-0.8)) =? 0.2) = false.
Proof.
  repeat split; try reflexivity; intros H; discriminate H.
Qed.

(** C6 (amended): for pan -0.8 the gain pair is left = 1.0 and
    right = 1.0 + (-0.8) = 0.19999999999999996 in binary64, which is 0.2 less
    2^-54, in the package and in the single-file version alike; at distance 0
    the volume factor is 1; at distance [max_distance] the volume factor is 0
    and both channel volumes are 0 whatever the pan (in the single-file
    version: whatever the lane); the distance is clamped to
    [[0, max_distance]] first, so any distance at most 0 sounds at full
    volume and any distance from [max_distance] on is silent. *)
Theorem mixer_gains :
  SoundManager._pan_to_stereo (-0.8) = (1.0, 0.19999999999999996) /\
  SingleFile._pan_to_stereo (-0.8) = (1.0, 0.19999999999999996) /\
  0.2 - 0.19999999999999996 = 0x1p-54 /\
  SoundManager._distance_to_volume 0 = 1 /\
  SingleFile._distance_to_volume 0 = 1 /\
  SoundManager._distance_to_volume Config.max_distance = 0 /\
  SingleFile._distance_to_volume SingleFile.MAX_DISTANCE = 0 /\
  (forall pan, SoundManager.channel_volume pan Config.max_distance = (0, 0)) /\
  (forall lane,
     SingleFile.channel_volume
       (match SingleFile.LANE_PAN lane with Some p => p | None => 0.0 end)
       SingleFile.MAX_DISTANCE = (0, 0)) /\
  (forall d, (d <=? 0) = true -> SoundManager._distance_to_volume d = 1) /\
  (forall d, (Config.max_distance <=? d) = true ->
             SoundManager._distance_to_volume d = 0).
Proof.
  repeat split; try reflexivity.
  - apply package_silent.
  - apply single_file_silent.
  - apply package_full_volume_at_or_before_arrival.
  - apply package_silent_beyond_max.
Qed.

(** The clamp at work on a distance behind the player and on one beyond the
    range. *)
Lemma mixer_gains_witness :
  (-3 <=? 0) = true /\ (Config.max_distance <=? 250) = true /\
  SoundManager._distance_to_volume (-3) = 1 /\
  SoundManager._distance_to_volume 250 = 0.
Proof.
  destruct mixer_gains as (_ & _ & _ & _ & _ & _ & _ & _ & _ & H1 & H2).
  split; [reflexivity|]. split; [reflexivity|].
  split; [apply H1|apply H2]; reflexivity.
Defined.

End MixerFacts.

(** ** The player's timers (models.py) *)

Module PlayerFacts.

Import PyFloat PyFloatFacts Spec.
Local Open Scope float_scope.

Lemma countdown_ok (remaining delta : float) :
  is_nan remaining = false -> is_finite delta = true ->
  timer_ok (if remaining - delta <=? 0 then false else true)
           (remaining - delta).
Proof.
  intros Hn Hd. pose proof (sub_not_nan _ _ Hn Hd) as Hs.
  split; [exact Hs|].
  destruct (remaining - delta <=? 0) eqn:E.
  - symmetry. now apply leb_zero_not_pos.
  - symmetry. now apply not_leb_zero_pos.
Qed.

(** What [Player.update] does to each timer. *)
Lemma update_jump (p : Player.t) (dt : float) :
  (Player.jumping (Player.update p dt), Player.jump_timer (Player.update p dt))
  = if Player.jumping p
    then (if Player.jump_timer p - dt <=? 0 then false else true,
          Player.jump_timer p - dt)
    else (false, Player.jump_timer p).
Proof.
  unfold Player.update.
  destruct (Player.jumping p) eqn:Ej, (Player.rolling p) eqn:Er,
    (Player.hoverboard_active p) eqn:Eh; cbn; rewrite ?Er, ?Eh; cbn;
    rewrite ?Eh; cbn; try reflexivity; now rewrite Ej.
Qed.

Lemma update_roll (p : Player.t) (dt : float) :
  (Player.rolling (Player.update p dt), Player.roll_timer (Player.update p dt))
  = if Player.rolling p
    then (if Player.roll_timer p - dt <=? 0 then false else true,
          Player.roll_timer p - dt)
    else (false, Player.roll_timer p).
Proof.
  unfold Player.update.
  destruct (Player.jumping p) eqn:Ej, (Player.rolling p) eqn:Er,
    (Player.hoverboard_active p) eqn:Eh; cbn; rewrite ?Er, ?Eh; cbn;
    rewrite ?Eh; cbn; try reflexivity; now rewrite Er.
Qed.

Lemma update_hoverboard (p : Player.t) (dt : float) :
  (Player.hoverboard_active (Player.update p dt),
   Player.hoverboard_timer (Player.update p dt))
  = if Player.hoverboard_active p
    then (if Player.hoverboard_timer p - dt <=? 0 then false else true,
          Player.hoverboard_timer p - dt)
    else (false, Player.hoverboard_timer p).
Proof.
  unfold Player.update.
  destruct (Player.jumping p) eqn:Ej, (Player.rolling p) eqn:Er,
    (Player.hoverboard_active p) eqn:Eh; cbn; rewrite ?Er, ?Eh; cbn;
    rewrite ?Eh; cbn; try reflexivity; now rewrite Eh.
Qed.

Lemma timers_ok_init : timers_ok Player.init.
Proof. repeat split. discriminate. Qed.

Lemma timers_ok_apply (p : Player.t) (op : PlayerOp) :
  admissible op = true -> timers_ok p -> timers_ok (apply p op).
Proof.
  intros Ha (Hj & Hr & Hn & Hh).
  destruct op as [d|d|dt|d|]; simpl in Ha.
  - split; [|split; [exact Hr|split; [exact Hn|exact Hh]]].
    split; simpl; [now apply pos_not_nan|now symmetry].
  - split; [exact Hj|split; [|split; [exact Hn|exact Hh]]].
    split; simpl; [now apply pos_not_nan|now symmetry].
  - simpl apply.
    pose proof (update_jump p dt) as Uj.
    pose proof (update_roll p dt) as Ur.
    pose proof (update_hoverboard p dt) as Uh.
    destruct Hj as [Hjn Hjf], Hr as [Hrn Hrf].
    split; [|split; [|split]].
    + destruct (Player.jumping p); injection Uj as -> ->.
      * now apply countdown_ok.
      * now split.
    + destruct (Player.rolling p); injection Ur as -> ->.
      * now apply countdown_ok.
      * now split.
    + destruct (Player.hoverboard_active p); injection Uh as _ ->.
      * now apply sub_not_nan.
      * exact Hn.
    + destruct (Player.hoverboard_active p); injection Uh as -> ->;
        [|discriminate].
      destruct (Player.hoverboard_timer p - dt <=? 0) eqn:E;
        [intros C; discriminate C|]. intros _.
      apply not_leb_zero_pos; [now apply sub_not_nan|exact E].
  - split; [exact Hj|split; [exact Hr|]]. simpl.
    split; [now apply pos_not_nan|intros _; exact Ha].
  - split; [exact Hj|split; [exact Hr|]]. simpl.
    split; [exact Hn|discriminate].
Qed.

Lemma timers_ok_run_from (ops : list PlayerOp) (p : Player.t) :
  forallb admissible ops = true -> timers_ok p ->
  timers_ok (fold_left apply ops p).
Proof.
  revert p. induction ops as [|op ops IH]; simpl; intros p Ha Hp; [exact Hp|].
  apply andb_prop in Ha as [Ha1 Ha2].
  apply IH; [exact Ha2|]. now apply timers_ok_apply.
Qed.

(** *** The hoverboard between a pickup and a collision *)

(** A hoverboard that is off stays off, with its time as it is, until the
    next pickup. *)
Lemma hoverboard_off_stays (rest : list PlayerOp) (p : Player.t) :
  forallb keeps_hoverboard rest = true ->
  Player.hoverboard_active p = false ->
  Player.hoverboard_active (fold_left apply rest p) = false /\
  Player.hoverboard_timer (fold_left apply rest p) = Player.hoverboard_timer p.
Proof.
  revert p. induction rest as [|op rest IH]; simpl; intros p Hk Hp; [auto|].
  apply andb_prop in Hk as [Hk1 Hk2].
  assert (H : Player.hoverboard_active (apply p op) = false /\
              Player.hoverboard_timer (apply p op) = Player.hoverboard_timer p).
  { destruct op as [d|d|dt|d|]; try discriminate Hk1; simpl; auto.
    pose proof (update_hoverboard p dt) as Uh. rewrite Hp in Uh.
    injection Uh as -> ->. auto. }
  destruct H as [H1 H2]. destruct (IH _ Hk2 H1) as [H3 H4].
  split; [exact H3|congruence].
Qed.

(** A hoverboard that is on stays on until its time, decreased by each
    delta in turn, is at or below zero. *)
Lemma hoverboard_countdown (rest : list PlayerOp) (p : Player.t) :
  forallb keeps_hoverboard rest = true ->
  Player.hoverboard_active p = true ->
  Player.hoverboard_active (fold_left apply rest p)
  = negb (expires_within (Player.hoverboard_timer p) (deltas rest)).
Proof.
  revert p. induction rest as [|op rest IH]; simpl; intros p Hk Hp; [exact Hp|].
  apply andb_prop in Hk as [Hk1 Hk2].
  destruct op as [d|d|dt|d|]; try discriminate Hk1.
  - apply (IH (Player.jump p d) Hk2 Hp).
  - apply (IH (Player.roll p d) Hk2 Hp).
  - simpl apply. pose proof (update_hoverboard p dt) as Uh. rewrite Hp in Uh.
    injection Uh as Ua Ut.
    destruct (Player.hoverboard_timer p - dt <=? 0) eqn:E.
    + simpl. rewrite E. exact (proj1 (hoverboard_off_stays rest _ Hk2 Ua)).
    + simpl. rewrite E, (IH _ Hk2 Ua), Ut. reflexivity.
Qed.

(** C5, as stated, fails: after a jump of 0.7 s and a frame of 1.0 s the
    jump is over and its timer is negative (nothing clamps it); and a jump of
    duration 0 is active with no time remaining. *)
Lemma jump_timer_goes_negative :
  (let p := run [Jump 0.7; Update 1.0] in
   Player.jumping p = false /\
   Player.jump_timer p = -0.30000000000000004 /\
   (Player.jump_timer p <? 0) = true) /\
  (let p := run [Jump 0] in
   Player.jumping p = true /\ (0 <? Player.jump_timer p) = false).
Proof. repeat split. Qed.

(** C5 (amended): in every player state reached from [Player()] by jumps,
    rolls and hoverboard pickups of positive duration, updates by a finite
    delta and collisions taken by the hoverboard, the jump and the roll
    flags are true if and only if the remaining time is strictly positive,
    and the hoverboard flag is true only if its remaining time is.  The
    hoverboard, once switched on, is on exactly until its time, decreased
    by each delta in turn, is at or below zero.  The converse fails for the
    hoverboard: a collision clears the flag and leaves the time, which is
    positive and no longer counts down.  The last three parts tie the
    operations to the game: they are what [handle_collision],
    [activate_powerup] and [continue_run_with_key] do to the player.  (The
    remaining time of a timer that ran out is left at or below zero; it is
    not clamped.) *)
Theorem timer_active_iff_positive (ops : list PlayerOp) :
  forallb admissible ops = true ->
  (Player.jumping (run ops) = true <->
   (0 <? Player.jump_timer (run ops)) = true) /\
  (Player.rolling (run ops) = true <->
   (0 <? Player.roll_timer (run ops)) = true) /\
  (Player.hoverboard_active (run ops) = true ->
   (0 <? Player.hoverboard_timer (run ops)) = true) /\
  (forall (duration : float) (rest : list PlayerOp),
     forallb keeps_hoverboard rest = true ->
     Player.hoverboard_active (run (ops ++ Hoverboard duration :: rest))
     = negb (expires_within duration (deltas rest))) /\
  (Player.hoverboard_active (run ops) = true ->
   forall rest : list PlayerOp,
     forallb keeps_hoverboard rest = true ->
     Player.hoverboard_active (run (ops ++ Break :: rest)) = false /\
     Player.hoverboard_timer (run (ops ++ Break :: rest))
     = Player.hoverboard_timer (run ops) /\
     (0 <? Player.hoverboard_timer (run (ops ++ Break :: rest))) = true) /\
  (forall (g : Game.t) (obstacle : Obstacle.t),
     Player.jetpack (Game.player g) = false ->
     Player.hoverboard_active (Game.player g) = true ->
     Game.player (Game.handle_collision g obstacle)
     = apply (Game.player g) Break) /\
  (forall (g : Game.t) (powerup : PowerUp.t),
     PowerUp.kind powerup = "hoverboard" ->
     Game.player (Game.activate_powerup g powerup)
     = apply (Game.player g)
         (Hoverboard (Dict.get_default
                        (Economy.powerup_durations (Game.economy g))
                        "hoverboard" 10.0))) /\
  (forall g : Game.t,
     (0 < Economy.keys (Game.economy g))%Z ->
     Game.player (Game.continue_run_with_key g)
     = apply (Game.player g) (Hoverboard 3.0)).
Proof.
  intros Ha.
  destruct (timers_ok_run_from ops Player.init Ha timers_ok_init)
    as ([_ Hj] & [_ Hr] & _ & Hh).
  fold (run ops) in Hj, Hr, Hh.
  split; [rewrite Hj; split; auto|].
  split; [rewrite Hr; split; auto|].
  split; [exact Hh|].
  split; [|split; [|split; [|split]]].
  - intros d rest Hk. unfold run. rewrite fold_left_app. simpl fold_left.
    apply (hoverboard_countdown rest); [exact Hk|reflexivity].
  - intros Hon rest Hk. unfold run. rewrite fold_left_app. simpl fold_left.
    fold (run ops).
    destruct (hoverboard_off_stays rest
                (Player.set_hoverboard (run ops) false
                   (Player.hoverboard_timer (run ops))) Hk eq_refl)
      as [H1 H2].
    simpl in H2. split; [exact H1|]. split; [exact H2|].
    rewrite H2. exact (Hh Hon).
  - intros g obstacle Hjet Hon. unfold Game.handle_collision.
    rewrite Hjet, Hon. reflexivity.
  - intros g powerup Hkind. unfold Game.activate_powerup. rewrite Hkind.
    reflexivity.
  - intros g Hkeys. unfold Game.continue_run_with_key.
    apply Z.leb_gt in Hkeys. rewrite Hkeys. reflexivity.
Qed.

(** A jump, a frame, a hoverboard pickup, two frames, a collision and a
    long frame: the hoverboard is off with 29.968 s left.  And a run of the
    game: a hoverboard is picked up, a low barrier arrives in the player's
    lane and breaks it; the run goes on with the flag off and 26 s left. *)
Lemma timer_active_iff_positive_witness :
  let ops := [Jump 0.7; Update 0.016; Hoverboard 30; Update 0.016;
              Update 0.016] in
  let pickup :=
    {| Game.obstacle_draw := None; Game.powerup_draw := Some (1%nat, 4%nat);
       Game.letter_draw := None; Game.season_token_draw := None;
       Game.coin_draw := None |} in
  let barrier :=
    {| Game.obstacle_draw := Some (1%nat, 0%nat, 0%nat);
       Game.powerup_draw := None; Game.letter_draw := None;
       Game.season_token_draw := None; Game.coin_draw := None |} in
  forallb admissible ops = true /\
  Player.hoverboard_active (run ops) = true /\
  Player.hoverboard_active (run (ops ++ [Break; Update 1.0])) = false /\
  Player.hoverboard_timer (run (ops ++ [Break; Update 1.0]))
  = 29.968000000000004 /\
  (0 <? Player.hoverboard_timer (run (ops ++ [Break; Update 1.0]))) = true /\
  Player.hoverboard_active (run (ops ++ [Hoverboard 1; Update 0.5; Roll 0.7;
                                         Update 0.5]))
  = false /\
  exists g g',
    Invariant.play Game.init
      [Invariant.select "start_run"; Invariant.Frame 0.016 pickup;
       Invariant.Frame 4.0 barrier] = Ok g /\
    Player.hoverboard_active (Game.player g) = true /\
    Game.update g 4.0 no_spawn = Ok g' /\
    Game.state g' = RUNNING /\
    Player.hoverboard_active (Game.player g') = false /\
    Player.hoverboard_timer (Game.player g') = 26.
Proof.
  intros ops pickup barrier.
  destruct (timer_active_iff_positive ops eq_refl)
    as (_ & _ & _ & Hcount & Hbreak & _).
  destruct (Hbreak eq_refl [Update 1.0] eq_refl) as (H1 & H2 & H3).
  split; [reflexivity|]. split; [reflexivity|]. split; [exact H1|].
  split; [rewrite H2; reflexivity|]. split; [exact H3|].
  split; [exact (Hcount 1 [Update 0.5; Roll 0.7; Update 0.5] eq_refl)|].
  eexists _, _. split; [vm_compute; reflexivity|].
  split; [reflexivity|]. split; [vm_compute; reflexivity|].
  repeat split.
Defined.

End PlayerFacts.

(** ** Collisions (game.py) *)

Module CollisionFacts.

Import PyFloat Spec Game.
Local Open Scope float_scope.

Lemma emit_emit (g : Game.t) (a b : Log) :
  emit (emit g a) b = emit g (a ++ b)%list.
Proof. unfold emit, set_log. simpl. now rewrite app_assoc. Qed.

Lemma emit_nil (g : Game.t) : emit g [] = g.
Proof. unfold emit, set_log. rewrite app_nil_r. now destruct g. Qed.

(** C2: collision resolution is prioritised.  With the jetpack on, nothing
    changes at all.  Otherwise, with the hoverboard active, exactly that flag
    is cleared (one "hoverboard_break" cue, the state as it was), so the next
    collision ends the run.  Otherwise the state becomes [GAME_OVER], and the
    key-continue option is announced if and only if the player holds at
    least one key. *)
Theorem collision_priority (g : Game.t) (obstacle : Obstacle.t) :
  (Player.jetpack (player g) = true -> handle_collision g obstacle = g) /\
  (Player.jetpack (player g) = false ->
   Player.hoverboard_active (player g) = true ->
   handle_collision g obstacle
   = emit (set_player g (Player.set_hoverboard (player g) false
                           (Player.hoverboard_timer (player g))))
       [PlaySound "hoverboard_break" (Obstacle.lane obstacle) 0] /\
   state (handle_collision g obstacle) = state g /\
   Player.hoverboard_active (player (handle_collision g obstacle)) = false /\
   forall next : Obstacle.t,
     state (handle_collision (handle_collision g obstacle) next) = GAME_OVER) /\
  (Player.jetpack (player g) = false ->
   Player.hoverboard_active (player g) = false ->
   state (handle_collision g obstacle) = GAME_OVER /\
   player (handle_collision g obstacle) = player g /\
   economy (handle_collision g obstacle) = economy g /\
   exists calls,
     log (handle_collision g obstacle) = (log g ++ calls)%list /\
     (In (Say "Press K to use a key and continue") calls
      <-> (0 < Economy.keys (economy g))%Z)).
Proof.
  split; [|split].
  - intros Hj. unfold handle_collision. now rewrite Hj.
  - intros Hj Hh.
    assert (E : handle_collision g obstacle
                = emit (set_player g (Player.set_hoverboard (player g) false
                                        (Player.hoverboard_timer (player g))))
                    [PlaySound "hoverboard_break" (Obstacle.lane obstacle) 0]).
    { unfold handle_collision. now rewrite Hj, Hh. }
    rewrite E. repeat split.
    intros next. unfold handle_collision. simpl. rewrite Hj.
    destruct (0 <? _)%Z; reflexivity.
  - intros Hj Hh. unfold handle_collision. rewrite Hj, Hh. simpl.
    destruct (0 <? Economy.keys (economy g))%Z eqn:Ek; simpl;
      repeat split; try reflexivity.
    + eexists. rewrite <- !app_assoc. split; [reflexivity|].
      simpl. split; [intros _; now apply Z.ltb_lt|]. intros _. tauto.
    + eexists. rewrite <- !app_assoc. split; [reflexivity|].
      simpl. split.
      * intros [H|[H|[H|[]]]]; discriminate H.
      * intros H. apply Z.ltb_lt in H. congruence.
Qed.

(** A started game holding one key: an unshielded collision ends the run
    and announces the key; after a hoverboard pickup the same collision does
    not end it. *)
Lemma collision_priority_witness :
  let g := set_economy (set_state Game.init RUNNING)
             (Economy.set_keys (economy Game.init) 1) in
  let o := {| Obstacle.lane := 1; Obstacle.distance := 0;
              Obstacle.kind := "barrier"; Obstacle.height := "low";
              Obstacle.active := true; Obstacle.sound_tag := None;
              Obstacle.honk_played := false |} in
  state (handle_collision g o) = GAME_OVER /\
  In (Say "Press K to use a key and continue") (log (handle_collision g o)) /\
  state (handle_collision
           (fst (update_powerup_object g
                   {| PowerUp.lane := 1; PowerUp.distance := 0;
                      PowerUp.kind := "hoverboard"; PowerUp.active := true |}
                   0.016)) o) = RUNNING.
Proof.
  intros g o.
  destruct (collision_priority g o) as (_ & _ & H).
  destruct (H eq_refl eq_refl) as (Hs & _ & _ & _).
  split; [exact Hs|]. split; [|reflexivity].
  simpl. tauto.
Defined.


(** C10: with no key, continuing is a no-op (a game that is over stays
    over); with at least one key it takes exactly one key, sets the state to
    [RUNNING] and activates the hoverboard with a timer of 3.0 s, whatever
    the economy's duration table says. *)
Theorem continue_with_key (g : Game.t) :
  ((Economy.keys (economy g) <= 0)%Z ->
   continue_run_with_key g = g) /\
  ((0 < Economy.keys (economy g))%Z ->
   Economy.keys (economy (continue_run_with_key g))
   = (Economy.keys (economy g) - 1)%Z /\
   Economy.coins (economy (continue_run_with_key g))
   = Economy.coins (economy g) /\
   state (continue_run_with_key g) = RUNNING /\
   Player.hoverboard_active (player (continue_run_with_key g)) = true /\
   Player.hoverboard_timer (player (continue_run_with_key g)) = 3.0 /\
   forall durations : Dict.t float,
     Player.hoverboard_timer
       (player (continue_run_with_key
                  (set_economy g
                     (Economy.set_powerup_durations (economy g) durations))))
     = 3.0).
Proof.
  unfold continue_run_with_key. split.
  - intros H. apply Z.leb_le in H. now rewrite H.
  - intros H. apply Z.leb_gt in H. rewrite H. simpl. rewrite H.
    repeat split.
Qed.

(** A finished game with no key, and with two. *)
Lemma continue_with_key_witness :
  let over := set_state Game.init GAME_OVER in
  let g := set_economy over (Economy.set_keys (economy over) 2) in
  continue_run_with_key over = over /\
  state over = GAME_OVER /\
  Economy.keys (economy (continue_run_with_key g)) = 1%Z /\
  state (continue_run_with_key g) = RUNNING.
Proof.
  intros over g.
  destruct (continue_with_key over) as [H0 _].
  destruct (continue_with_key g) as [_ H1].
  split; [apply H0; simpl; lia|]. split; [reflexivity|].
  destruct H1 as (Hk & _ & Hs & _); [simpl; lia|].
  split; [exact Hk|exact Hs].
Defined.

End CollisionFacts.

(** ** Achievements, economy and word hunt (systems.py) *)

Module SystemsFacts.

Import PyFloat Spec DictFacts.
Local Open Scope float_scope.

(** *** Achievements *)

Ltac dict_simpl :=
  repeat (rewrite get_set_same || rewrite get_set_other by discriminate).

Lemma qualifies_true_locked (a : AchievementSystem.t) (stats : Dict.t Z)
    (name key : string) (threshold : Z) :
  AchievementSystem.qualifies a stats name key threshold = Ok true ->
  Dict.get (AchievementSystem.unlocked a) name = Some false.
Proof.
  unfold AchievementSystem.qualifies, Dict.subscript.
  destruct (Dict.get (AchievementSystem.unlocked a) name) as [[|]|]; simpl;
    try discriminate.
  reflexivity.
Qed.

Lemma check_by_priority (a : AchievementSystem.t) (stats : Dict.t Z)
    (u1 u2 u3 : bool) (j c s : Z) :
  has_flags a u1 u2 u3 -> has_stats stats j c s ->
  exists calls,
    AchievementSystem.check a stats
    = Ok (first_qualifying u1 u2 u3 j c s,
          match first_qualifying u1 u2 u3 j c s with
          | Some name =>
              {| AchievementSystem.unlocked :=
                   Dict.set (AchievementSystem.unlocked a) name true |}
          | None => a
          end,
          calls).
Proof.
  intros (F1 & F2 & F3) (S1 & S2 & S3).
  unfold AchievementSystem.check, AchievementSystem.qualifies,
    AchievementSystem.unlocking, AchievementSystem.unlock,
    Dict.subscript, first_qualifying.
  rewrite F1, F2, F3, S1, S2, S3. simpl.
  destruct u1; simpl; [|destruct (100 <=? j)%Z; simpl; [eauto|]];
    (destruct u2; simpl; [|destruct (5000 <=? c)%Z; simpl; [eauto|]]);
    (destruct u3; simpl; [|destruct (100000 <=? s)%Z; simpl]); eauto.
Qed.

Lemma check_never_again (a : AchievementSystem.t) (stats : Dict.t Z)
    (name : string) :
  is_unlocked a name ->
  returned (AchievementSystem.check a stats) <> Some name /\
  is_unlocked (after a (AchievementSystem.check a stats)) name.
Proof.
  unfold is_unlocked. intros Hu.
  assert (Hset : forall n,
             Dict.get (Dict.set (AchievementSystem.unlocked a) n true) name
             = Some true).
  { intros n. destruct (string_dec n name) as [->|Hn].
    - apply get_set_same.
    - now rewrite get_set_other. }
  assert (Hq : forall key t,
             AchievementSystem.qualifies a stats name key t <> Ok true).
  { intros key t C. apply qualifies_true_locked in C. congruence. }
  unfold AchievementSystem.check, AchievementSystem.unlocking,
    AchievementSystem.unlock.
  destruct (AchievementSystem.qualifies a stats "High Jumper" "jumps" 100)
    as [[|]|] eqn:E1; simpl; try (split; [discriminate|exact Hu]).
  { split; [|apply Hset]. intros [= <-]. now apply Hq in E1. }
  destruct (AchievementSystem.qualifies a stats "Gold Digger" "total_coins" 5000)
    as [[|]|] eqn:E2; simpl; try (split; [discriminate|exact Hu]).
  { split; [|apply Hset]. intros [= <-]. now apply Hq in E2. }
  destruct (AchievementSystem.qualifies a stats "Marathon" "score" 100000)
    as [[|]|] eqn:E3; simpl; try (split; [discriminate|exact Hu]).
  split; [|apply Hset]. intros [= <-]. now apply Hq in E3.
Qed.

(** C8: [check] looks at the jump count, then the coin total, then the
    score, and unlocks at most the first achievement that is still locked
    and has reached its threshold; when all three thresholds are crossed at
    once the first call unlocks only "High Jumper", the second "Gold Digger",
    the third "Marathon" and the fourth nothing; and an achievement that is
    unlocked is never returned again, whatever the statistics. *)
Theorem achievement_priority (a : AchievementSystem.t) (stats : Dict.t Z)
    (u1 u2 u3 : bool) (j c s : Z) :
  has_flags a u1 u2 u3 ->
  has_stats stats j c s ->
  (exists calls,
     AchievementSystem.check a stats
     = Ok (first_qualifying u1 u2 u3 j c s,
           match first_qualifying u1 u2 u3 j c s with
           | Some name =>
               {| AchievementSystem.unlocked :=
                    Dict.set (AchievementSystem.unlocked a) name true |}
           | None => a
           end,
           calls)) /\
  (u1 = false -> u2 = false -> u3 = false ->
   (100 <= j)%Z -> (5000 <= c)%Z -> (100000 <= s)%Z ->
   let r1 := AchievementSystem.check a stats in
   let r2 := AchievementSystem.check (after a r1) stats in
   let r3 := AchievementSystem.check (after (after a r1) r2) stats in
   let a3 := after (after (after a r1) r2) r3 in
   returned r1 = Some "High Jumper" /\
   has_flags (after a r1) true false false /\
   returned r2 = Some "Gold Digger" /\
   has_flags (after (after a r1) r2) true true false /\
   returned r3 = Some "Marathon" /\
   has_flags a3 true true true /\
   returned (AchievementSystem.check a3 stats) = None) /\
  (forall (name : string) (any_stats : Dict.t Z),
     is_unlocked a name ->
     returned (AchievementSystem.check a any_stats) <> Some name /\
     is_unlocked (after a (AchievementSystem.check a any_stats)) name).
Proof.
  intros Hf Hs. split; [now apply check_by_priority|]. split.
  - intros -> -> -> Hj Hc Hsc.
    apply Z.leb_le in Hj, Hc, Hsc.
    destruct Hf as (F1 & F2 & F3).
    destruct (check_by_priority a stats false false false j c s
                (conj F1 (conj F2 F3)) Hs) as [calls1 E1].
    unfold first_qualifying in E1. rewrite Hj in E1. simpl in E1.
    cbv zeta. rewrite E1. simpl after.
    set (a1 := {| AchievementSystem.unlocked := _ |}).
    assert (Hf1 : has_flags a1 true false false).
    { subst a1. unfold has_flags. simpl.
      dict_simpl. auto. }
    destruct (check_by_priority a1 stats true false false j c s Hf1 Hs)
      as [calls2 E2].
    unfold first_qualifying in E2. rewrite Hc in E2. simpl in E2.
    rewrite E2. simpl after.
    set (a2 := {| AchievementSystem.unlocked := _ |}).
    assert (Hf2 : has_flags a2 true true false).
    { subst a2. destruct Hf1 as (G1 & G2 & G3). unfold has_flags. simpl.
      dict_simpl. auto. }
    destruct (check_by_priority a2 stats true true false j c s Hf2 Hs)
      as [calls3 E3].
    unfold first_qualifying in E3. rewrite Hsc in E3. simpl in E3.
    rewrite E3. simpl after.
    set (a3 := {| AchievementSystem.unlocked := _ |}).
    assert (Hf3 : has_flags a3 true true true).
    { subst a3. destruct Hf2 as (G1 & G2 & G3). unfold has_flags. simpl.
      dict_simpl. auto. }
    destruct (check_by_priority a3 stats true true true j c s Hf3 Hs)
      as [calls4 E4].
    rewrite E4. simpl. auto 10.
  - intros name any_stats. apply check_never_again.
Qed.

(** A fresh system and statistics that cross all three thresholds. *)
Lemma achievement_priority_witness :
  let stats := [("jumps", 120); ("total_coins", 6000); ("score", 100000)]%Z in
  let r1 := AchievementSystem.check AchievementSystem.init stats in
  let r2 := AchievementSystem.check (after AchievementSystem.init r1) stats in
  has_flags AchievementSystem.init false false false /\
  has_stats stats 120 6000 100000 /\
  returned r1 = Some "High Jumper" /\
  returned r2 = Some "Gold Digger" /\
  returned
    (AchievementSystem.check (after AchievementSystem.init r1)
       [("jumps", 500); ("total_coins", 0); ("score", 0)]%Z) = None.
Proof.
  intros stats r1 r2.
  assert (Hf : has_flags AchievementSystem.init false false false)
    by (repeat split).
  assert (Hs : has_stats stats 120 6000 100000) by (repeat split).
  destruct (achievement_priority AchievementSystem.init stats
              false false false 120 6000 100000 Hf Hs) as (_ & H & _).
  destruct H as (H1 & _ & H2 & _); try reflexivity; try lia.
  repeat split; try assumption.
Defined.

(** *** Economy *)

(** C9, as stated, fails: a power-up without a configured positive cost
    cannot be upgraded however many coins there are (the cost looked up is 0,
    so the coins do cover it); nothing is debited and no duration changes. *)
Lemma upgrade_needs_a_positive_cost :
  let e := Economy.set_coins (Economy.init Config.economy) 1000 in
  Dict.get_default (Config.upgrade_costs (Economy.config e)) "season_token" 0%Z
  = 0%Z /\
  (0 <= Economy.coins e)%Z /\
  Economy.buy_upgrade e "season_token" = (false, e).
Proof. repeat split. discriminate. Qed.

(** C9 (amended): [buy_upgrade] succeeds exactly when the power-up has a
    configured cost that is positive and covered by the coins; it then debits
    exactly the cost and raises that power-up's duration (10.0 if it had
    none) by 5.0, leaving every other entry alone; otherwise it fails and
    changes nothing.  [buy_mystery_box] succeeds exactly when the coins cover
    the box cost, debits that cost and adds one box; otherwise it fails and
    changes nothing.  No purchase makes coins, keys or boxes negative. *)
Theorem purchases (e : Economy.t) (powerup : string) :
  let cost :=
    Dict.get_default (Config.upgrade_costs (Economy.config e)) powerup 0%Z in
  let box := Config.mystery_box_cost (Economy.config e) in
  let up := Economy.buy_upgrade e powerup in
  let bx := Economy.buy_mystery_box e in
  (fst up = true <-> (0 < cost <= Economy.coins e)%Z) /\
  (fst up = false -> snd up = e) /\
  (fst up = true ->
   Economy.coins (snd up) = (Economy.coins e - cost)%Z /\
   Dict.get (Economy.powerup_durations (snd up)) powerup
   = Some (Dict.get_default (Economy.powerup_durations e) powerup 10.0 + 5.0) /\
   (forall other, powerup <> other ->
      Dict.get (Economy.powerup_durations (snd up)) other
      = Dict.get (Economy.powerup_durations e) other) /\
   Economy.keys (snd up) = Economy.keys e /\
   Economy.mystery_boxes (snd up) = Economy.mystery_boxes e) /\
  (fst bx = true <-> (box <= Economy.coins e)%Z) /\
  (fst bx = false -> snd bx = e) /\
  (fst bx = true ->
   Economy.coins (snd bx) = (Economy.coins e - box)%Z /\
   Economy.mystery_boxes (snd bx) = (Economy.mystery_boxes e + 1)%Z /\
   Economy.keys (snd bx) = Economy.keys e /\
   Economy.powerup_durations (snd bx) = Economy.powerup_durations e) /\
  ((0 <= Economy.coins e)%Z ->
   (0 <= Economy.coins (snd up))%Z /\ (0 <= Economy.coins (snd bx))%Z) /\
  ((0 <= Economy.keys e)%Z ->
   (0 <= Economy.keys (snd up))%Z /\ (0 <= Economy.keys (snd bx))%Z) /\
  ((0 <= Economy.mystery_boxes e)%Z ->
   (0 <= Economy.mystery_boxes (snd up))%Z /\
   (0 <= Economy.mystery_boxes (snd bx))%Z).
Proof.
  cbv zeta. unfold Economy.buy_upgrade, Economy.buy_mystery_box.
  set (cost := Dict.get_default _ powerup 0%Z).
  set (box := Config.mystery_box_cost _).
  destruct (cost <=? Economy.coins e)%Z eqn:E1;
    destruct (0 <? cost)%Z eqn:E2;
    destruct (box <=? Economy.coins e)%Z eqn:E3;
    simpl;
    try apply Z.leb_le in E1; try apply Z.leb_gt in E1;
    try apply Z.ltb_lt in E2; try apply Z.ltb_ge in E2;
    try apply Z.leb_le in E3; try apply Z.leb_gt in E3;
    repeat split; intros; try reflexivity; try discriminate; try lia;
    try apply get_set_same; try (now apply get_set_other).
Qed.

(** 600 coins buy the jetpack upgrade (500) but not the hoverboard's (700). *)
Lemma purchases_witness :
  let e := Economy.set_coins (Economy.init Config.economy) 600 in
  Economy.coins (snd (Economy.buy_upgrade e "jetpack")) = 100%Z /\
  Dict.get (Economy.powerup_durations (snd (Economy.buy_upgrade e "jetpack")))
    "jetpack" = Some 15.0 /\
  snd (Economy.buy_upgrade e "hoverboard") = e.
Proof.
  intros e.
  destruct (purchases e "jetpack") as (_ & _ & H & _).
  destruct (H eq_refl) as (Hc & Hd & _).
  destruct (purchases e "hoverboard") as (_ & H' & _).
  split; [exact Hc|]. split; [exact Hd|]. apply H'. reflexivity.
Defined.

End SystemsFacts.

(** ** Word hunt (systems.py and game.py) *)

Module WordHuntFacts.

Import PyFloat Spec Game.
Local Open Scope float_scope.
Local Open Scope nat_scope.

Lemma collect_spec (w : WordHunt.t) (l : string) :
  (fst (WordHunt.collect w l) = true
   <-> S (List.length (WordHunt.collected w)) = List.length (WordHunt.letters w)) /\
  (fst (WordHunt.collect w l) = true ->
   WordHunt.collected (snd (WordHunt.collect w l)) = []) /\
  (fst (WordHunt.collect w l) = false ->
   WordHunt.collected (snd (WordHunt.collect w l))
   = (WordHunt.collected w ++ [l])%list) /\
  WordHunt.letters (snd (WordHunt.collect w l)) = WordHunt.letters w.
Proof.
  unfold WordHunt.collect. rewrite length_app. simpl List.length.
  rewrite Nat.add_1_r.
  destruct (Nat.eqb_spec (S (List.length (WordHunt.collected w)))
              (List.length (WordHunt.letters w))) as [E|E]; simpl;
    repeat split; auto; try discriminate; congruence.
Qed.

Lemma collect_all_counts (ls : list string) :
  forall (w : WordHunt.t),
    List.length (WordHunt.collected w) < List.length (WordHunt.letters w) ->
    let n := List.length (WordHunt.letters w) in
    let c0 := List.length (WordHunt.collected w) in
    List.length (fst (collect_all w ls)) = List.length ls /\
    completions (fst (collect_all w ls)) = (c0 + List.length ls) / n /\
    List.length (WordHunt.collected (snd (collect_all w ls)))
    = (c0 + List.length ls) mod n /\
    WordHunt.letters (snd (collect_all w ls)) = WordHunt.letters w /\
    forall i, i < List.length ls ->
      nth i (fst (collect_all w ls)) false = ((c0 + i + 1) mod n =? 0).
Proof.
  induction ls as [|l rest IH]; intros w Hlt; cbv zeta.
  - simpl. rewrite Nat.add_0_r, Nat.div_small, Nat.mod_small by exact Hlt.
    repeat split; auto. intros i Hi. inversion Hi.
  - simpl collect_all.
    destruct (collect_spec w l) as (Hiff & Ht & Hf & Hl).
    destruct (WordHunt.collect w l) as [completed w1] eqn:Ec.
    simpl fst in *; simpl snd in *.
    set (n := List.length (WordHunt.letters w)) in *.
    set (c0 := List.length (WordHunt.collected w)) in *.
    assert (Hn : n <> 0) by lia.
    destruct completed.
    + assert (E : S c0 = n) by (now apply Hiff).
      assert (Hlt1 : List.length (WordHunt.collected w1)
                     < List.length (WordHunt.letters w1)).
      { rewrite Ht, Hl by reflexivity. simpl. lia. }
      specialize (IH w1 Hlt1). cbv zeta in IH.
      rewrite Ht, Hl in IH by reflexivity. simpl List.length in IH.
      fold n in IH.
      destruct (collect_all w1 rest) as [signals w2].
      simpl fst in *; simpl snd in *.
      destruct IH as (I1 & I2 & I3 & I4 & I5).
      simpl List.length.
      replace (c0 + S (List.length rest)) with (List.length rest + 1 * n)
        by lia.
      rewrite Nat.div_add, Nat.Div0.mod_add by exact Hn.
      unfold completions in *. simpl filter. simpl List.length.
      rewrite ?I1, ?I2, ?I3, ?I4, ?Hl.
      cbn [Nat.add] in *.
      repeat split; auto; try lia.
      intros [|i] Hi; simpl nth.
      * replace (c0 + 0 + 1) with n by lia.
        now rewrite Nat.Div0.mod_same.
      * rewrite I5 by lia. cbn [Nat.add].
        replace (c0 + S i + 1) with (i + 1 + 1 * n) by lia.
        now rewrite Nat.Div0.mod_add.
    + assert (E : S c0 <> n).
      { intros C. apply Hiff in C. discriminate. }
      assert (Hc1 : List.length (WordHunt.collected w1) = c0 + 1).
      { rewrite Hf, length_app by reflexivity. reflexivity. }
      assert (Hlt1 : List.length (WordHunt.collected w1)
                     < List.length (WordHunt.letters w1)).
      { rewrite Hc1, Hl. fold n. lia. }
      specialize (IH w1 Hlt1). cbv zeta in IH.
      rewrite Hc1, Hl in IH. fold n in IH.
      destruct (collect_all w1 rest) as [signals w2].
      simpl fst in *; simpl snd in *.
      destruct IH as (I1 & I2 & I3 & I4 & I5).
      simpl List.length.
      replace (c0 + S (List.length rest)) with (c0 + 1 + List.length rest)
        by lia.
      unfold completions in *. simpl filter.
      rewrite ?I1, ?I2, ?I3, ?I4, ?Hl.
      repeat split; auto.
      intros [|i] Hi; simpl nth.
      * rewrite Nat.add_0_r, Nat.mod_small by lia.
        symmetry. apply Nat.eqb_neq. lia.
      * rewrite I5 by lia. f_equal. f_equal. lia.
Qed.

Lemma letter_reward (g : Game.t) (letter : LetterCollectible.t) (dt : float) :
  LetterCollectible.active letter = true ->
  (LetterCollectible.distance letter - speed g * dt <=? 0)%float = true ->
  LetterCollectible.lane letter = Player.lane (player g) ->
  word_hunt (fst (update_letter g letter dt))
  = snd (WordHunt.collect (word_hunt g) (LetterCollectible.letter letter)) /\
  Economy.coins (economy (fst (update_letter g letter dt)))
  = (Economy.coins (economy g)
     + (if fst (WordHunt.collect (word_hunt g)
                  (LetterCollectible.letter letter))
        then 500 else 0))%Z.
Proof.
  intros Ha Hd Hl. unfold update_letter. rewrite Ha. simpl. rewrite Hd.
  rewrite Hl, Z.eqb_refl.
  destruct (WordHunt.collect (word_hunt g) (LetterCollectible.letter letter))
    as [[|] w']; simpl; split; auto; lia.
Qed.

(** C7, as stated, fails: four letters that are not the target word
    complete the hunt, because only their number is compared. *)
Lemma wrong_letters_complete :
  collect_all (WordHunt.init ["H"; "U"; "N"; "T"]) ["X"; "X"; "X"; "X"]
  = ([false; false; false; true], WordHunt.init ["H"; "U"; "N"; "T"]) /\
  ["X"; "X"; "X"; "X"] <> ["H"; "U"; "N"; "T"].
Proof. split; [reflexivity|discriminate]. Qed.

(** C7 (amended): a collected letter signals completion exactly when the
    number of letters collected so far reaches the length of the target (the
    letters themselves are not compared); the progress is then reset to
    empty, and otherwise the letter is appended.  So from an empty progress
    with a target of [n > 0] letters, the letters number [n], [2n], ... and
    only those signal: a run of [k] letters completes [k / n] times and leaves
    [k mod n] letters, and fewer than [n] letters never complete.  In the
    game, a letter collected on arrival adds 500 coins exactly when it
    signals completion. *)
Theorem word_hunt_completion (target ls : list string) (w : WordHunt.t)
    (l : string) (g : Game.t) (letter : LetterCollectible.t) (dt : float) :
  target <> [] ->
  LetterCollectible.active letter = true ->
  (LetterCollectible.distance letter - speed g * dt <=? 0)%float = true ->
  LetterCollectible.lane letter = Player.lane (player g) ->
  ((fst (WordHunt.collect w l) = true
    <-> S (List.length (WordHunt.collected w))
        = List.length (WordHunt.letters w)) /\
   (fst (WordHunt.collect w l) = true ->
    WordHunt.collected (snd (WordHunt.collect w l)) = []) /\
   (fst (WordHunt.collect w l) = false ->
    WordHunt.collected (snd (WordHunt.collect w l))
    = (WordHunt.collected w ++ [l])%list)) /\
  (completions (fst (collect_all (WordHunt.init target) ls))
   = List.length ls / List.length target /\
   List.length (WordHunt.collected (snd (collect_all (WordHunt.init target) ls)))
   = List.length ls mod List.length target /\
   (forall i, i < List.length ls ->
      nth i (fst (collect_all (WordHunt.init target) ls)) false
      = ((i + 1) mod List.length target =? 0)) /\
   (List.length ls < List.length target ->
    completions (fst (collect_all (WordHunt.init target) ls)) = 0)) /\
  (word_hunt (fst (update_letter g letter dt))
   = snd (WordHunt.collect (word_hunt g) (LetterCollectible.letter letter)) /\
   Economy.coins (economy (fst (update_letter g letter dt)))
   = (Economy.coins (economy g)
      + (if fst (WordHunt.collect (word_hunt g)
                   (LetterCollectible.letter letter))
         then 500 else 0))%Z).
Proof.
  intros Ht Ha Hd Hl. split; [|split].
  - destruct (collect_spec w l) as (H1 & H2 & H3 & _). auto.
  - assert (Hlt : List.length (WordHunt.collected (WordHunt.init target))
                  < List.length (WordHunt.letters (WordHunt.init target))).
    { simpl. destruct target; [contradiction|simpl; lia]. }
    destruct (collect_all_counts ls (WordHunt.init target) Hlt)
      as (_ & H2 & H3 & _ & H5).
    simpl in H2, H3, H5.
    repeat split; auto.
    intros Hlt'. rewrite H2. now apply Nat.div_small.
  - now apply letter_reward.
Qed.

(** Six letters complete the four-letter hunt once; a first letter brings
    no reward. *)
Lemma word_hunt_completion_witness :
  let g := set_state Game.init RUNNING in
  let letter := {| LetterCollectible.lane := 1;
                   LetterCollectible.distance := 0.25;
                   LetterCollectible.letter := "H";
                   LetterCollectible.active := true |} in
  completions
    (fst (collect_all (WordHunt.init ["H"; "U"; "N"; "T"])
            ["H"; "U"; "N"; "T"; "H"; "U"])) = 1 /\
  Economy.coins (economy (fst (update_letter g letter 0.016)))
  = Economy.coins (economy g).
Proof.
  intros g letter.
  assert (Ht : ["H"; "U"; "N"; "T"] <> []) by discriminate.
  destruct (word_hunt_completion ["H"; "U"; "N"; "T"]
              ["H"; "U"; "N"; "T"; "H"; "U"]
              (WordHunt.init ["H"; "U"; "N"; "T"]) "H" g letter 0.016
              Ht eq_refl eq_refl eq_refl) as (_ & (H1 & _) & (_ & H2)).
  split; [exact H1|].
  rewrite H2. simpl. lia.
Defined.

End WordHuntFacts.

(** ** What the parts of a frame leave unchanged (game.py) *)

Module FrameFacts.

Import PyFloat DictFacts Spec Game.
Local Open Scope float_scope.

(** Case analysis on every test of a goal. *)
Ltac cases :=
  repeat (match goal with
          | |- context [if ?c then _ else _] => destruct c
          | |- context [match ?x with Some _ => _ | None => _ end] =>
              destruct x
          end; simpl).

(** *** Loops keep what their bodies keep *)

Lemma for_each_keeps {E A : Type} (view : Game.t -> A)
    (body : Game.t -> E -> Game.t * E) :
  (forall g e, view (fst (body g e)) = view g) ->
  forall es g, view (fst (for_each body g es)) = view g.
Proof.
  intros Hb. induction es as [|e es IH]; intros g; simpl; [reflexivity|].
  specialize (Hb g e). destruct (body g e) as [g1 e1]. simpl in Hb.
  specialize (IH g1). destruct (for_each body g1 es) as [g2 es2].
  simpl in *. congruence.
Qed.

Lemma for_each_invariant {E : Type} (P : Game.t -> Prop)
    (body : Game.t -> E -> Game.t * E) :
  (forall g e, P g -> P (fst (body g e))) ->
  forall es g, P g -> P (fst (for_each body g es)).
Proof.
  intros Hb. induction es as [|e es IH]; intros g Hg; simpl; [exact Hg|].
  specialize (Hb g e Hg). destruct (body g e) as [g1 e1]. simpl in Hb.
  specialize (IH g1 Hb). destruct (for_each body g1 es) as [g2 es2].
  exact IH.
Qed.

Lemma coins_loop_keeps {A : Type} (view : Game.t -> A) (dt : float) :
  (forall g c r, update_coin g c dt = Ok r -> view (fst r) = view g) ->
  forall cs g r, update_coins_loop g cs dt = Ok r -> view (fst r) = view g.
Proof.
  intros Hb. induction cs as [|c cs IH]; intros g r; simpl.
  - intros [= <-]. reflexivity.
  - destruct (update_coin g c dt) as [[g1 c1]|] eqn:E1; simpl; [|discriminate].
    destruct (update_coins_loop g1 cs dt) as [[g2 cs2]|] eqn:E2; simpl;
      [|discriminate].
    intros [= <-]. simpl.
    pose proof (IH _ _ E2) as H2. pose proof (Hb _ _ _ E1) as H1.
    simpl in H1, H2. congruence.
Qed.

(** *** The power-up view *)

Lemma player_update_flags (p : Player.t) (dt : float) :
  Player.jetpack (Player.update p dt) = Player.jetpack p /\
  Player.super_sneakers (Player.update p dt) = Player.super_sneakers p /\
  Player.lane (Player.update p dt) = Player.lane p.
Proof.
  unfold Player.update.
  destruct (Player.jumping p), (Player.rolling p) eqn:Er,
    (Player.hoverboard_active p) eqn:Eh; cbn; rewrite ?Er, ?Eh; cbn;
    rewrite ?Eh; cbn; auto.
Qed.

Lemma update_obstacle_powerup_view (g : Game.t) (o : Obstacle.t) (dt : float) :
  powerup_view (fst (update_obstacle g o dt)) = powerup_view g.
Proof.
  unfold update_obstacle, track_obstacle, obstacle_arrival, handle_collision,
    powerup_view.
  cases; reflexivity.
Qed.


Lemma update_obstacles_powerup_view (g : Game.t) (dt : float) :
  powerup_view (update_obstacles g dt) = powerup_view g.
Proof.
  unfold update_obstacles.
  pose proof (for_each_keeps powerup_view
                (fun g o => update_obstacle g o dt)
                (fun g o => update_obstacle_powerup_view g o dt)
                (obstacles g) g) as H.
  destruct (for_each _ g (obstacles g)) as [g1 os]. exact H.
Qed.

Lemma update_letter_powerup_view (g : Game.t) (l : LetterCollectible.t)
    (dt : float) :
  powerup_view (fst (update_letter g l dt)) = powerup_view g.
Proof.
  unfold update_letter, powerup_view. cases; try reflexivity.
  destruct (WordHunt.collect _ _) as [[|] w]; reflexivity.
Qed.

Lemma update_letters_powerup_view (g : Game.t) (dt : float) :
  powerup_view (update_letters g dt) = powerup_view g.
Proof.
  unfold update_letters.
  pose proof (for_each_keeps powerup_view
                (fun g l => update_letter g l dt)
                (fun g l => update_letter_powerup_view g l dt)
                (letters g) g) as H.
  destruct (for_each _ g (letters g)) as [g1 ls]. exact H.
Qed.

Lemma collect_coin_powerup_view (g g' : Game.t) (lane : Z) :
  collect_coin g lane = Ok g' -> powerup_view g' = powerup_view g.
Proof.
  unfold collect_coin, Dict.subscript. simpl.
  destruct (Dict.get (stats g) "total_coins"); simpl; [|discriminate].
  intros [= <-]. reflexivity.
Qed.

Lemma update_coin_powerup_view (g : Game.t) (c : CoinCollectible.t)
    (dt : float) (r : Game.t * CoinCollectible.t) :
  update_coin g c dt = Ok r -> powerup_view (fst r) = powerup_view g.
Proof.
  unfold update_coin.
  destruct (negb _); [intros [= <-]; reflexivity|].
  destruct (_ <=? 0); [|intros [= <-]; reflexivity].
  destruct (_ || _); [|intros [= <-]; reflexivity].
  destruct (collect_coin g _) as [g1|] eqn:E; simpl; [|discriminate].
  intros [= <-]. simpl. now apply collect_coin_powerup_view in E.
Qed.

Lemma update_coins_powerup_view (g g' : Game.t) (dt : float) :
  update_coins g dt = Ok g' -> powerup_view g' = powerup_view g.
Proof.
  unfold update_coins.
  destruct (update_coins_loop g (coins g) dt) as [[g1 cs]|] eqn:E; simpl;
    [|discriminate].
  intros [= <-].
  exact (coins_loop_keeps powerup_view dt
           (fun g c r => update_coin_powerup_view g c dt r) _ _ _ E).
Qed.


Lemma update_score_powerup_view (g g' : Game.t) (dt : float) :
  update_score g dt = Ok g' -> powerup_view g' = powerup_view g.
Proof.
  unfold update_score.
  destruct (of_int _) as [rate|]; simpl; [|discriminate].
  destruct (to_int _) as [gain|]; simpl; [|discriminate].
  intros [= <-]. reflexivity.
Qed.

Lemma spawn_keeps (g : Game.t) (r : FrameRandom) :
  spawn_view (spawn g r) = spawn_view g.
Proof.
  unfold spawn.
  set (g1 := match obstacle_draw r with Some _ => _ | None => g end).
  assert (H1 : spawn_view g1 = spawn_view g).
  { subst g1. destruct (obstacle_draw r) as [[[l h] k]|]; [|reflexivity].
    unfold spawn_obstacle. cases; reflexivity. }
  clearbody g1.
  set (g2 := match powerup_draw r with Some _ => _ | None => g1 end).
  assert (H2 : spawn_view g2 = spawn_view g1).
  { subst g2. destruct (powerup_draw r) as [[l k]|]; reflexivity. }
  clearbody g2.
  set (g3 := match letter_draw r with Some _ => _ | None => g2 end).
  assert (H3 : spawn_view g3 = spawn_view g2).
  { subst g3. destruct (letter_draw r); [|reflexivity].
    unfold spawn_letter. cases; reflexivity. }
  clearbody g3.
  set (g4 := match season_token_draw r with Some _ => _ | None => g3 end).
  assert (H4 : spawn_view g4 = spawn_view g3).
  { subst g4. destruct (season_token_draw r); reflexivity. }
  clearbody g4.
  assert (H5 : spawn_view (match coin_draw r with
                           | Some l => spawn_coin g4 l
                           | None => g4
                           end) = spawn_view g4)
    by (destruct (coin_draw r); reflexivity).
  congruence.
Qed.

Lemma spawn_powerup_view (g : Game.t) (r : FrameRandom) :
  powerup_view (spawn g r) = powerup_view g.
Proof.
  pose proof (spawn_keeps g r) as H. unfold spawn_view in H. congruence.
Qed.

Lemma check_achievements_powerup_view (g g' : Game.t) :
  check_achievements g = Ok g' -> powerup_view g' = powerup_view g.
Proof.
  unfold check_achievements.
  destruct (AchievementSystem.check _ _) as [[[u a] calls]|]; simpl;
    [|discriminate].
  destruct u as [name|]; [destruct (String.eqb name "")|];
    intros [= <-]; reflexivity.
Qed.

Lemma handle_run_key_powerup_view (g g' : Game.t) (key : Key) :
  handle_run_key g key = Ok g' -> powerup_view g' = powerup_view g.
Proof.
  unfold handle_run_key, Dict.subscript, Player.move_left, Player.move_right.
  destruct key; simpl; try (intros [= <-]; cases; reflexivity).
  destruct (Dict.get (stats g) "jumps"); simpl; [|discriminate].
  intros [= <-]. reflexivity.
Qed.

Lemma continue_powerup_view (g : Game.t) :
  powerup_view (continue_run_with_key g) = powerup_view g.
Proof. unfold continue_run_with_key. cases; reflexivity. Qed.

Lemma matches_of_view (g g' : Game.t) :
  powerup_view g' = powerup_view g ->
  ledger_matches_effects g -> ledger_matches_effects g'.
Proof.
  unfold powerup_view, ledger_matches_effects.
  intros [= -> -> -> ->]. auto.
Qed.

Lemma matches_handle_menu_action (g : Game.t) (action : string) (draw : nat) :
  ledger_matches_effects g ->
  ledger_matches_effects (handle_menu_action g action draw).
Proof.
  intros H. unfold handle_menu_action.
  destruct (String.eqb action "start_run"); [repeat split|].
  apply (matches_of_view g); [|exact H].
  unfold handle_upgrade, return_to_main_menu, powerup_view.
  cases; try reflexivity;
    repeat match goal with
           | |- context [Economy.buy_upgrade ?e ?p] =>
               destruct (Economy.buy_upgrade e p) as [[|] ?]
           | |- context [Economy.buy_mystery_box ?e] =>
               destruct (Economy.buy_mystery_box e) as [[|] ?]
           | |- context [Economy.open_mystery_box ?e ?d] =>
               destruct (Economy.open_mystery_box e d) as [? ?]
           end; reflexivity.
Qed.


(** *** The coin view *)

Lemma teardown_coin_view (g : Game.t) (k : string) :
  coin_view (teardown g k) = coin_view g.
Proof. unfold teardown, coin_view. cases; reflexivity. Qed.

Lemma update_powerups_coin_view (g : Game.t) (dt : float) :
  coin_view (update_powerups g dt) = coin_view g.
Proof.
  unfold update_powerups.
  destruct (sweep (active_powerups g) dt) as [ledger ex].
  change (coin_view g) with (coin_view (set_active_powerups g ledger)).
  generalize (set_active_powerups g ledger). clear g ledger.
  induction ex as [|k ex IH]; intros g; simpl; [reflexivity|].
  rewrite IH. apply teardown_coin_view.
Qed.

Lemma update_obstacles_coin_view (g : Game.t) (dt : float) :
  coin_view (update_obstacles g dt) = coin_view g.
Proof.
  unfold update_obstacles.
  assert (Hb : forall g o,
             coin_view (fst (update_obstacle g o dt)) = coin_view g).
  { intros g0 o. unfold update_obstacle, track_obstacle, obstacle_arrival,
      handle_collision, coin_view. cases; reflexivity. }
  pose proof (for_each_keeps coin_view _ Hb (obstacles g) g) as H.
  destruct (for_each _ g (obstacles g)) as [g1 os]. exact H.
Qed.

Lemma activate_powerup_coin_view (g : Game.t) (p : PowerUp.t) :
  coin_view (activate_powerup g p) = coin_view g.
Proof. unfold activate_powerup, coin_view. cases; reflexivity. Qed.

Lemma update_powerup_objects_coin_view (g : Game.t) (dt : float) :
  coin_view (update_powerup_objects g dt) = coin_view g.
Proof.
  unfold update_powerup_objects.
  assert (Hb : forall g p,
             coin_view (fst (update_powerup_object g p dt)) = coin_view g).
  { intros g0 p. unfold update_powerup_object.
    cases; try reflexivity. apply activate_powerup_coin_view. }
  pose proof (for_each_keeps coin_view _ Hb (powerups g) g) as H.
  destruct (for_each _ g (powerups g)) as [g1 ps]. exact H.
Qed.

Lemma update_letters_coin_view (g : Game.t) (dt : float) :
  coin_view (update_letters g dt) = coin_view g.
Proof.
  unfold update_letters.
  assert (Hb : forall g l,
             coin_view (fst (update_letter g l dt)) = coin_view g).
  { intros g0 l. unfold update_letter, coin_view. cases; try reflexivity.
    destruct (WordHunt.collect _ _) as [[|] w]; reflexivity. }
  pose proof (for_each_keeps coin_view _ Hb (letters g) g) as H.
  destruct (for_each _ g (letters g)) as [g1 ls]. exact H.
Qed.

(** *** The multiplier is 1 or 2 *)

Lemma update_powerups_multiplier (g : Game.t) (dt : float) :
  multiplier_ok g -> multiplier_ok (update_powerups g dt).
Proof.
  unfold update_powerups, multiplier_ok.
  destruct (sweep (active_powerups g) dt) as [ledger ex].
  change (multiplier g) with (multiplier (set_active_powerups g ledger)).
  generalize (set_active_powerups g ledger). clear g ledger.
  induction ex as [|k ex IH]; intros g H; simpl; [exact H|].
  apply IH. unfold teardown. cases; auto.
Qed.

Lemma update_powerup_objects_multiplier (g : Game.t) (dt : float) :
  multiplier_ok g -> multiplier_ok (update_powerup_objects g dt).
Proof.
  unfold update_powerup_objects. intros H.
  assert (Hb : forall g p,
             multiplier_ok g ->
             multiplier_ok (fst (update_powerup_object g p dt))).
  { intros g0 p H0. unfold update_powerup_object, activate_powerup,
      multiplier_ok in *. cases; auto. }
  pose proof (for_each_invariant multiplier_ok _ Hb (powerups g) g H) as H'.
  destruct (for_each _ g (powerups g)) as [g1 ps]. exact H'.
Qed.

End FrameFacts.

(** ** The power-up ledger (game.py) *)

Module LedgerFacts.

Import PyFloat PyFloatFacts DictFacts FrameFacts Spec Game.
Local Open Scope float_scope.

(** *** The two loops of [update_powerups] on the ledger *)

Lemma sweep_ledger (items : list (string * float)) (dt : float) :
  fst (sweep items dt) = map (decreased dt) items.
Proof.
  induction items as [|[k r] items IH]; simpl; [reflexivity|].
  destruct (sweep items dt) as [ledger ex]. simpl in *. now rewrite IH.
Qed.

Lemma sweep_expired (items : list (string * float)) (dt : float) :
  snd (sweep items dt) = map fst (filter (runs_out dt) items).
Proof.
  induction items as [|[k r] items IH]; simpl; [reflexivity|].
  destruct (sweep items dt) as [ledger ex]. simpl in *.
  unfold runs_out at 1. simpl. destruct (r - dt <=? 0); simpl; now rewrite IH.
Qed.

Lemma get_decreased (d : Dict.t float) (dt : float) (k : string) :
  Dict.get (map (decreased dt) d) k
  = option_map (fun r => r - dt) (Dict.get d k).
Proof.
  induction d as [|[k' r] d IH]; simpl; [reflexivity|].
  destruct (String.eqb k' k); [reflexivity|exact IH].
Qed.

Lemma mem_decreased (d : Dict.t float) (dt : float) (k : string) :
  Dict.mem (map (decreased dt) d) k = Dict.mem d k.
Proof. unfold Dict.mem. rewrite get_decreased. now destruct (Dict.get d k). Qed.

Lemma wf_decreased (d : Dict.t float) (dt : float) :
  Dict.wf (map (decreased dt) d) = Dict.wf d.
Proof.
  induction d as [|[k r] d IH]; simpl; [reflexivity|].
  now rewrite mem_decreased, IH.
Qed.

Lemma wf_del {V : Type} (d : Dict.t V) (k : string) :
  Dict.wf d = true -> Dict.wf (Dict.del d k) = true.
Proof.
  induction d as [|[k' v] d IH]; simpl; [reflexivity|].
  intros H. apply andb_prop in H as [H1 H2].
  destruct (String.eqb_spec k' k) as [->|Hne]; simpl; [now apply IH|].
  fold (Dict.del d k). rewrite mem_del_other by congruence.
  rewrite H1. simpl. now apply IH.
Qed.

Lemma wf_fold_del {V : Type} (ks : list string) (d : Dict.t V) :
  Dict.wf d = true -> Dict.wf (fold_left Dict.del ks d) = true.
Proof.
  revert d. induction ks as [|k ks IH]; simpl; intros d H; [exact H|].
  apply IH. now apply wf_del.
Qed.

Lemma get_fold_del {V : Type} (ks : list string) (d : Dict.t V) (k : string) :
  Dict.get (fold_left Dict.del ks d) k
  = if Nat.eqb (count_occ string_dec ks k) 0 then Dict.get d k else None.
Proof.
  revert d. induction ks as [|k0 ks IH]; simpl; intros d; [reflexivity|].
  rewrite IH. destruct (string_dec k0 k) as [->|Hne]; simpl.
  - rewrite get_del_same. now destruct (Nat.eqb _ 0).
  - now rewrite get_del_other.
Qed.

(** In a well-formed ledger a kind expires at most once per sweep, and does
    so exactly when its remaining time runs out. *)
Lemma count_expired (d : Dict.t float) (dt : float) (k : string) :
  Dict.wf d = true ->
  count_occ string_dec (map fst (filter (runs_out dt) d)) k
  = match Dict.get d k with
    | Some r => if r - dt <=? 0 then 1%nat else 0%nat
    | None => 0%nat
    end.
Proof.
  induction d as [|[k' r] d IH]; simpl; [reflexivity|].
  intros H. apply andb_prop in H as [H1 H2]. apply negb_true_iff in H1.
  specialize (IH H2).
  destruct (String.eqb_spec k' k) as [->|Hne].
  - unfold Dict.mem in H1. destruct (Dict.get d k); [discriminate|].
    unfold runs_out at 1. simpl.
    destruct (r - dt <=? 0); simpl; rewrite ?IH; [|reflexivity].
    destruct (string_dec k k); [reflexivity|contradiction].
  - destruct (runs_out dt (k', r)); simpl; rewrite ?IH; [|reflexivity].
    destruct (string_dec k' k); [contradiction|reflexivity].
Qed.


(** *** The teardown loop *)

Lemma stop_loops_app (tag : string) (l1 l2 : Log) :
  stop_loops tag (l1 ++ l2)%list = (stop_loops tag l1 + stop_loops tag l2)%nat.
Proof. unfold stop_loops. now rewrite filter_app, length_app. Qed.

Lemma teardown_effects (g : Game.t) (k : string) :
  active_powerups (teardown g k) = Dict.del (active_powerups g) k /\
  Player.jetpack (player (teardown g k))
  = Player.jetpack (player g)
    && Nat.eqb (count_occ string_dec [k] "jetpack") 0 /\
  Player.super_sneakers (player (teardown g k))
  = Player.super_sneakers (player g)
    && Nat.eqb (count_occ string_dec [k] "super_sneakers") 0 /\
  multiplier (teardown g k)
  = (if Nat.eqb (count_occ string_dec [k] "multiplier") 0
     then multiplier g else 1%Z) /\
  stop_loops "jetpack" (log (teardown g k))
  = (stop_loops "jetpack" (log g)
     + count_occ string_dec [k] "jetpack")%nat /\
  stop_loops "magnet" (log (teardown g k))
  = (stop_loops "magnet" (log g) + count_occ string_dec [k] "magnet")%nat.
Proof.
  unfold teardown. simpl count_occ.
  destruct (String.eqb_spec k "jetpack") as [->|H1]; simpl.
  { rewrite !stop_loops_app, andb_false_r, andb_true_r. simpl.
    repeat split; lia. }
  destruct (String.eqb_spec k "super_sneakers") as [->|H2]; simpl.
  { rewrite andb_false_r, andb_true_r. repeat split; lia. }
  destruct (String.eqb_spec k "magnet") as [->|H3]; simpl.
  { rewrite !stop_loops_app, !andb_true_r. simpl. repeat split; lia. }
  destruct (String.eqb_spec k "multiplier") as [->|H4]; simpl.
  { rewrite !andb_true_r. repeat split; lia. }
  destruct (string_dec k "jetpack"), (string_dec k "super_sneakers"),
    (string_dec k "multiplier"), (string_dec k "magnet"); try contradiction.
  simpl. rewrite !andb_true_r. repeat split; lia.
Qed.

Lemma count_cons (k : string) (ks : list string) (kind : string) :
  count_occ string_dec (k :: ks) kind
  = (count_occ string_dec [k] kind + count_occ string_dec ks kind)%nat.
Proof. simpl. destruct (string_dec k kind); reflexivity. Qed.

Lemma teardown_loop_effects (ks : list string) :
  forall g : Game.t,
    active_powerups (fold_left teardown ks g)
    = fold_left Dict.del ks (active_powerups g) /\
    Player.jetpack (player (fold_left teardown ks g))
    = Player.jetpack (player g)
      && Nat.eqb (count_occ string_dec ks "jetpack") 0 /\
    Player.super_sneakers (player (fold_left teardown ks g))
    = Player.super_sneakers (player g)
      && Nat.eqb (count_occ string_dec ks "super_sneakers") 0 /\
    multiplier (fold_left teardown ks g)
    = (if Nat.eqb (count_occ string_dec ks "multiplier") 0
       then multiplier g else 1%Z) /\
    stop_loops "jetpack" (log (fold_left teardown ks g))
    = (stop_loops "jetpack" (log g)
       + count_occ string_dec ks "jetpack")%nat /\
    stop_loops "magnet" (log (fold_left teardown ks g))
    = (stop_loops "magnet" (log g) + count_occ string_dec ks "magnet")%nat.
Proof.
  induction ks as [|k ks IH]; intros g.
  - simpl. rewrite !andb_true_r. repeat split; lia.
  - change (fold_left teardown (k :: ks) g)
      with (fold_left teardown ks (teardown g k)).
    destruct (IH (teardown g k)) as (I1 & I2 & I3 & I4 & I5 & I6).
    destruct (teardown_effects g k) as (T1 & T2 & T3 & T4 & T5 & T6).
    rewrite I1, I2, I3, I4, I5, I6, T1, T2, T3, T4, T5, T6.
    rewrite !(count_cons k ks).
    split; [reflexivity|].
    split; [|split; [|split; [|split]]].
    + destruct (count_occ string_dec [k] "jetpack"),
        (count_occ string_dec ks "jetpack");
        simpl; rewrite ?andb_true_r, ?andb_false_r; reflexivity.
    + destruct (count_occ string_dec [k] "super_sneakers"),
        (count_occ string_dec ks "super_sneakers");
        simpl; rewrite ?andb_true_r, ?andb_false_r; reflexivity.
    + destruct (count_occ string_dec [k] "multiplier"),
        (count_occ string_dec ks "multiplier"); reflexivity.
    + lia.
    + lia.
Qed.

(** *** One sweep *)

Lemma update_powerups_effects (g : Game.t) (dt : float) :
  active_powerups (update_powerups g dt)
  = fold_left Dict.del (expired g dt)
      (map (decreased dt) (active_powerups g)) /\
  Player.jetpack (player (update_powerups g dt))
  = Player.jetpack (player g)
    && Nat.eqb (count_occ string_dec (expired g dt) "jetpack") 0 /\
  Player.super_sneakers (player (update_powerups g dt))
  = Player.super_sneakers (player g)
    && Nat.eqb (count_occ string_dec (expired g dt) "super_sneakers") 0 /\
  multiplier (update_powerups g dt)
  = (if Nat.eqb (count_occ string_dec (expired g dt) "multiplier") 0
     then multiplier g else 1%Z) /\
  stop_loops "jetpack" (log (update_powerups g dt))
  = (stop_loops "jetpack" (log g)
     + count_occ string_dec (expired g dt) "jetpack")%nat /\
  stop_loops "magnet" (log (update_powerups g dt))
  = (stop_loops "magnet" (log g)
     + count_occ string_dec (expired g dt) "magnet")%nat.
Proof.
  unfold update_powerups, expired.
  pose proof (sweep_ledger (active_powerups g) dt) as Hl.
  destruct (sweep (active_powerups g) dt) as [ledger ex]. simpl in Hl.
  simpl snd. subst ledger.
  exact (teardown_loop_effects ex (set_active_powerups g _)).
Qed.

(** What a sweep does to one kind of a well-formed ledger. *)
Lemma sweep_kind (g : Game.t) (dt : float) (k : string) :
  Dict.wf (active_powerups g) = true ->
  Dict.wf (active_powerups (update_powerups g dt)) = true /\
  match Dict.get (active_powerups g) k with
  | Some r =>
      if r - dt <=? 0
      then Dict.get (active_powerups (update_powerups g dt)) k = None /\
           count_occ string_dec (expired g dt) k = 1%nat
      else Dict.get (active_powerups (update_powerups g dt)) k = Some (r - dt) /\
           count_occ string_dec (expired g dt) k = 0%nat
  | None =>
      Dict.get (active_powerups (update_powerups g dt)) k = None /\
      count_occ string_dec (expired g dt) k = 0%nat
  end.
Proof.
  intros Hwf.
  destruct (update_powerups_effects g dt) as (E & _). rewrite E.
  split.
  { apply wf_fold_del. now rewrite wf_decreased. }
  rewrite get_fold_del, get_decreased.
  unfold expired. rewrite sweep_expired, (count_expired _ dt k Hwf).
  destruct (Dict.get (active_powerups g) k) as [r|]; simpl.
  - destruct (r - dt <=? 0); simpl; auto.
  - auto.
Qed.


(** *** A run of sweeps *)

Lemma sweeps_kind (dts : list float) :
  forall (g : Game.t) (k : string),
    Dict.wf (active_powerups g) = true ->
    Dict.wf (active_powerups (run_sweeps g dts)) = true /\
    match Dict.get (active_powerups g) k with
    | Some d =>
        if expires_within d dts
        then Dict.get (active_powerups (run_sweeps g dts)) k = None /\
             teardowns k g dts = 1%nat
        else Dict.get (active_powerups (run_sweeps g dts)) k
             = Some (remaining_after d dts) /\
             teardowns k g dts = 0%nat
    | None =>
        Dict.get (active_powerups (run_sweeps g dts)) k = None /\
        teardowns k g dts = 0%nat
    end.
Proof.
  induction dts as [|dt rest IH]; intros g k Hwf.
  - simpl. split; [exact Hwf|]. destruct (Dict.get _ k); auto.
  - change (run_sweeps g (dt :: rest))
      with (run_sweeps (update_powerups g dt) rest).
    destruct (sweep_kind g dt k Hwf) as [Hwf1 H1].
    destruct (IH (update_powerups g dt) k Hwf1) as [Hwf2 H2].
    split; [exact Hwf2|].
    simpl teardowns. simpl expires_within.
    change (remaining_after ?d (dt :: rest))
      with (remaining_after (d - dt) rest).
    destruct (Dict.get (active_powerups g) k) as [d|].
    + destruct (d - dt <=? 0).
      * destruct H1 as [G1 C1]. rewrite G1 in H2. destruct H2 as [G2 C2].
        simpl. rewrite C1, C2. auto.
      * destruct H1 as [G1 C1]. rewrite G1 in H2. simpl orb.
        rewrite C1. exact H2.
    + destruct H1 as [G1 C1]. rewrite G1 in H2. rewrite C1. exact H2.
Qed.

Lemma sweeps_effects (dts : list float) :
  forall g : Game.t,
    Player.jetpack (player (run_sweeps g dts))
    = Player.jetpack (player g) && Nat.eqb (teardowns "jetpack" g dts) 0 /\
    Player.super_sneakers (player (run_sweeps g dts))
    = Player.super_sneakers (player g)
      && Nat.eqb (teardowns "super_sneakers" g dts) 0 /\
    multiplier (run_sweeps g dts)
    = (if Nat.eqb (teardowns "multiplier" g dts) 0
       then multiplier g else 1%Z) /\
    stop_loops "jetpack" (log (run_sweeps g dts))
    = (stop_loops "jetpack" (log g) + teardowns "jetpack" g dts)%nat /\
    stop_loops "magnet" (log (run_sweeps g dts))
    = (stop_loops "magnet" (log g) + teardowns "magnet" g dts)%nat.
Proof.
  induction dts as [|dt rest IH]; intros g.
  - simpl. rewrite !andb_true_r. repeat split; lia.
  - change (run_sweeps g (dt :: rest))
      with (run_sweeps (update_powerups g dt) rest).
    destruct (IH (update_powerups g dt)) as (I2 & I3 & I4 & I5 & I6).
    destruct (update_powerups_effects g dt) as (_ & T2 & T3 & T4 & T5 & T6).
    rewrite I2, I3, I4, I5, I6, T2, T3, T4, T5, T6.
    simpl teardowns.
    split; [|split; [|split; [|split]]].
    + destruct (count_occ string_dec (expired g dt) "jetpack"),
        (teardowns "jetpack" (update_powerups g dt) rest);
        simpl; rewrite ?andb_true_r, ?andb_false_r; reflexivity.
    + destruct (count_occ string_dec (expired g dt) "super_sneakers"),
        (teardowns "super_sneakers" (update_powerups g dt) rest);
        simpl; rewrite ?andb_true_r, ?andb_false_r; reflexivity.
    + destruct (count_occ string_dec (expired g dt) "multiplier"),
        (teardowns "multiplier" (update_powerups g dt) rest); reflexivity.
    + lia.
    + lia.
Qed.

(** *** The ledger agrees with the effects *)

Lemma wf_set {V : Type} (d : Dict.t V) (k : string) (v : V) :
  Dict.wf d = true -> Dict.wf (Dict.set d k v) = true.
Proof.
  induction d as [|[k' v'] d IH]; simpl; [reflexivity|].
  intros H. apply andb_prop in H as [H1 H2].
  destruct (String.eqb_spec k' k) as [->|Hne]; simpl.
  - now rewrite H1, H2.
  - rewrite mem_set_other by congruence. rewrite H1. simpl. now apply IH.
Qed.

Lemma matches_init : ledger_matches_effects Game.init.
Proof. repeat split. Qed.

Lemma matches_update_powerups (g : Game.t) (dt : float) :
  ledger_matches_effects g -> ledger_matches_effects (update_powerups g dt).
Proof.
  intros (Hwf & Hj & Hs & Hm).
  destruct (update_powerups_effects g dt) as (_ & T2 & T3 & T4 & _).
  destruct (sweep_kind g dt "jetpack" Hwf) as [Hwf' Kj].
  destruct (sweep_kind g dt "super_sneakers" Hwf) as [_ Ks].
  destruct (sweep_kind g dt "multiplier" Hwf) as [_ Km].
  unfold ledger_matches_effects, Dict.mem in *.
  rewrite T2, T3, T4, Hm. split; [exact Hwf'|].
  split; [|split].
  - rewrite <- Hj.
    destruct (Dict.get (active_powerups g) "jetpack") as [r|];
      [destruct (r - dt <=? 0)|]; destruct Kj as [-> ->]; reflexivity.
  - rewrite <- Hs.
    destruct (Dict.get (active_powerups g) "super_sneakers") as [r|];
      [destruct (r - dt <=? 0)|]; destruct Ks as [-> ->]; reflexivity.
  - destruct (Dict.get (active_powerups g) "multiplier") as [r|];
      [destruct (r - dt <=? 0)|]; destruct Km as [-> ->]; reflexivity.
Qed.

Lemma matches_activate_powerup (g : Game.t) (p : PowerUp.t) :
  ledger_matches_effects g -> ledger_matches_effects (activate_powerup g p).
Proof.
  intros (Hwf & Hj & Hs & Hm).
  unfold activate_powerup, ledger_matches_effects.
  destruct (String.eqb (PowerUp.kind p) "jetpack"); simpl.
  { rewrite mem_set_same, !mem_set_other by discriminate.
    repeat split; auto using wf_set. }
  destruct (String.eqb (PowerUp.kind p) "super_sneakers"); simpl.
  { rewrite mem_set_same, !mem_set_other by discriminate.
    repeat split; auto using wf_set. }
  destruct (String.eqb (PowerUp.kind p) "magnet"); simpl.
  { rewrite !mem_set_other by discriminate.
    repeat split; auto using wf_set. }
  destruct (String.eqb (PowerUp.kind p) "multiplier"); simpl.
  { rewrite mem_set_same, !mem_set_other by discriminate.
    repeat split; auto using wf_set. }
  destruct (String.eqb (PowerUp.kind p) "hoverboard"); simpl.
  { repeat split; auto. }
  destruct (String.eqb (PowerUp.kind p) "season_token"); simpl;
    repeat split; auto.
Qed.

(** *** Every reachable state *)

Lemma matches_update_powerup_objects (g : Game.t) (dt : float) :
  ledger_matches_effects g ->
  ledger_matches_effects (update_powerup_objects g dt).
Proof.
  intros H. unfold update_powerup_objects.
  assert (Hb : forall g p,
             ledger_matches_effects g ->
             ledger_matches_effects (fst (update_powerup_object g p dt))).
  { intros g0 p H0. unfold update_powerup_object.
    FrameFacts.cases; auto. now apply matches_activate_powerup. }
  pose proof (for_each_invariant ledger_matches_effects _ Hb (powerups g) g H)
    as H'.
  destruct (for_each _ g (powerups g)) as [g1 ps]. exact H'.
Qed.

Lemma matches_update (g g' : Game.t) (dt : float) (r : FrameRandom) :
  update g dt r = Ok g' ->
  ledger_matches_effects g -> ledger_matches_effects g'.
Proof.
  unfold update. intros Hu H.
  destruct (state g); try (injection Hu as <-; exact H).
  set (g1 := set_player g (Player.update (player g) dt)) in Hu.
  assert (H1 : ledger_matches_effects g1).
  { apply (matches_of_view g); [|exact H]. unfold powerup_view. subst g1.
    simpl. destruct (player_update_flags (player g) dt) as (-> & -> & _).
    reflexivity. }
  clearbody g1.
  apply (matches_update_powerups _ dt) in H1.
  set (g2 := update_powerups g1 dt) in *. clearbody g2.
  apply (matches_of_view _ (update_obstacles g2 dt)
           (update_obstacles_powerup_view g2 dt)) in H1.
  set (g3 := update_obstacles g2 dt) in *. clearbody g3.
  apply (matches_update_powerup_objects _ dt) in H1.
  set (g4 := update_powerup_objects g3 dt) in *. clearbody g4.
  apply (matches_of_view _ (update_letters g4 dt)
           (update_letters_powerup_view g4 dt)) in H1.
  set (g5 := update_letters g4 dt) in *. clearbody g5.
  destruct (update_coins g5 dt) as [g6|] eqn:E6; simpl in Hu; [|discriminate].
  apply (matches_of_view _ g6 (update_coins_powerup_view _ _ _ E6)) in H1.
  destruct (update_score g6 dt) as [g7|] eqn:E7; simpl in Hu; [|discriminate].
  apply (matches_of_view _ g7 (update_score_powerup_view _ _ _ E7)) in H1.
  apply (matches_of_view _ (spawn g7 r) (spawn_powerup_view g7 r)) in H1.
  exact (matches_of_view _ g' (check_achievements_powerup_view _ _ Hu) H1).
Qed.

Lemma matches_handle_input (g g' : Game.t) (event : InputEvent)
    (menu_action : option string) (draw : nat) :
  handle_input g event menu_action draw = Ok g' ->
  ledger_matches_effects g -> ledger_matches_effects g'.
Proof.
  unfold handle_input. intros Hi H.
  assert (Hkey : forall key, handle_run_key g key = Ok g' ->
                             ledger_matches_effects g').
  { intros key Hk.
    exact (matches_of_view _ _ (handle_run_key_powerup_view _ _ _ Hk) H). }
  assert (Hmenu : match menu_action with
                  | Some action =>
                      if String.eqb action "" then Ok g
                      else Ok (handle_menu_action g action draw)
                  | None => Ok g
                  end = Ok g' -> ledger_matches_effects g').
  { destruct menu_action as [action|]; [destruct (String.eqb action "")|];
      intros [= <-]; auto using matches_handle_menu_action. }
  assert (Hcont : ledger_matches_effects (continue_run_with_key g)).
  { exact (matches_of_view _ _ (continue_powerup_view g) H). }
  destruct event as [key|]; [destruct key|]; destruct (state g);
    first [ exact (Hkey _ Hi)
          | exact (Hmenu Hi)
          | injection Hi as <-;
            first [ exact H
                  | exact Hcont
                  | apply (matches_of_view g); [reflexivity|exact H] ] ].
Qed.

Lemma reachable_matches (g : Game.t) :
  reachable g -> ledger_matches_effects g.
Proof.
  induction 1 as [|g g' _ IH Hstep]; [exact matches_init|].
  destruct Hstep as [g g' event action draw Hi|g g' dt r Hu].
  - exact (matches_handle_input _ _ _ _ _ Hi IH).
  - exact (matches_update _ _ _ _ Hu IH).
Qed.

(** C4, as stated, fails by rounding: a magnet with 0.5 s remaining
    (reached from a pickup of 10.0 s after a sweep of 9.5 s) is swept five
    times by 0.1 s; the deltas total 0.5 as floats, and more as exact
    numbers, yet the entry is still in the ledger (2.78e-17 s remain) and no
    teardown has run. *)
Lemma magnet_outlives_its_duration :
  let g := update_powerups
             (activate_powerup started magnet_pickup) 9.5 in
  let deltas := [0.1; 0.1; 0.1; 0.1; 0.1] in
  reachable started /\
  Dict.get (active_powerups g) "magnet" = Some 0.5 /\
  float_total deltas = 0.5 /\
  Qle_bool (to_Q 0.5) (exact_total deltas) = true /\
  Dict.get (active_powerups (run_sweeps g deltas)) "magnet"
  = Some 2.7755575615628914e-17 /\
  teardowns "magnet" g deltas = 0%nat /\
  stop_loops "magnet" (log (run_sweeps g deltas)) = 0%nat.
Proof.
  split.
  { apply (reachable_step Game.init); [constructor|].
    apply (step_input _ _ (KEYDOWN K_other) (Some "start_run") 0).
    reflexivity. }
  repeat split; vm_compute; reflexivity.
Qed.

(** C4 (amended): an entry with remaining time [d] is removed, and its
    teardown run exactly once, by the first sweep at which [d], decreased by
    each delta in turn in binary64, is at most zero; before that sweep the
    entry stays, with the decreased time, and no teardown runs.  (With exact
    numbers that sweep is the first at which the deltas total at least [d];
    with rounding it can be a later one.)  The teardown of jetpack clears the
    player's flag and stops the "jetpack" loop once, that of super sneakers
    clears the flag, that of magnet stops the "magnet" loop once, that of
    the multiplier resets it to 1.  In every reachable state an entry for
    jetpack or super sneakers exists if and only if the player's flag is
    set, and an entry for the multiplier if and only if the multiplier is
    2. *)
Theorem powerup_expiry (g : Game.t) (kind : string) (d : float)
    (deltas : list float) :
  Dict.wf (active_powerups g) = true ->
  Dict.get (active_powerups g) kind = Some d ->
  (expires_within d deltas = true ->
   Dict.mem (active_powerups (run_sweeps g deltas)) kind = false /\
   teardowns kind g deltas = 1%nat /\
   (kind = "jetpack" ->
    Player.jetpack (player (run_sweeps g deltas)) = false /\
    stop_loops "jetpack" (log (run_sweeps g deltas))
    = S (stop_loops "jetpack" (log g))) /\
   (kind = "super_sneakers" ->
    Player.super_sneakers (player (run_sweeps g deltas)) = false) /\
   (kind = "magnet" ->
    stop_loops "magnet" (log (run_sweeps g deltas))
    = S (stop_loops "magnet" (log g))) /\
   (kind = "multiplier" -> multiplier (run_sweeps g deltas) = 1%Z)) /\
  (expires_within d deltas = false ->
   Dict.get (active_powerups (run_sweeps g deltas)) kind
   = Some (remaining_after d deltas) /\
   teardowns kind g deltas = 0%nat) /\
  (forall g' : Game.t, reachable g' -> ledger_matches_effects g').
Proof.
  intros Hwf Hget.
  destruct (sweeps_kind deltas g kind Hwf) as [_ Hk]. rewrite Hget in Hk.
  destruct (sweeps_effects deltas g) as (E2 & E3 & E4 & E5 & E6).
  split; [|split].
  - intros He. rewrite He in Hk. destruct Hk as [Hg Hc].
    split; [unfold Dict.mem; now rewrite Hg|]. split; [exact Hc|].
    split; [|split; [|split]].
    + intros ->. rewrite E2, E5, Hc. split; [apply andb_false_r|lia].
    + intros ->. rewrite E3, Hc. apply andb_false_r.
    + intros ->. rewrite E6, Hc. lia.
    + intros ->. rewrite E4, Hc. reflexivity.
  - intros He. rewrite He in Hk. exact Hk.
  - exact reachable_matches.
Qed.

(** A magnet of 10 s is still there after two sweeps of 4 s and gone, with
    one teardown, after the third. *)
Lemma powerup_expiry_witness :
  let g := activate_powerup started magnet_pickup in
  Dict.mem (active_powerups (run_sweeps g [4.0; 4.0; 4.0])) "magnet" = false /\
  teardowns "magnet" g [4.0; 4.0; 4.0] = 1%nat /\
  stop_loops "magnet" (log (run_sweeps g [4.0; 4.0; 4.0])) = 1%nat /\
  Dict.get (active_powerups (run_sweeps g [4.0; 4.0])) "magnet" = Some 2.0.
Proof.
  intros g.
  destruct (powerup_expiry g "magnet" 10.0 [4.0; 4.0; 4.0] eq_refl eq_refl)
    as (H & _ & _).
  destruct (H eq_refl) as (H1 & H2 & _ & _ & H3 & _).
  destruct (powerup_expiry g "magnet" 10.0 [4.0; 4.0] eq_refl eq_refl)
    as (_ & H' & _).
  destruct (H' eq_refl) as (H4 & _).
  split; [exact H1|]. split; [exact H2|]. split; [exact (H3 eq_refl)|].
  exact H4.
Defined.

End LedgerFacts.

(** ** Coins (game.py, and the frame update of the single-file version) *)

Module CoinFacts.

Import PyFloat PyFloatFacts DictFacts FrameFacts SystemsFacts Spec Game.
Local Open Scope float_scope.

(** *** The score of a frame *)

Lemma to_int_finite (x : float) :
  is_finite x = true -> exists n, to_int x = Ok n.
Proof.
  intros H. unfold to_int.
  destruct (Prim2SF_finite_cases x H) as [[s ->]|(s & m & e & ->)]; eauto.
Qed.

Lemma update_score_returns (g : Game.t) (dt : float) :
  multiplier_ok g ->
  is_finite (10 * dt * 60) = true ->
  is_finite (20 * dt * 60) = true ->
  exists gain,
    update_score g dt
    = Ok (set_stats (set_score g (score g + gain))
            (Dict.set (stats g) "score" (score g + gain)%Z)).
Proof.
  intros [Hm|Hm] H1 H2; unfold update_score; rewrite Hm.
  - change (of_int (Config.score_rate * 1)) with (Ok 10). simpl bind.
    destruct (to_int_finite _ H1) as [gain ->]. simpl. eauto.
  - change (of_int (Config.score_rate * 2)) with (Ok 20). simpl bind.
    destruct (to_int_finite _ H2) as [gain ->]. simpl. eauto.
Qed.

(** *** The single-file version *)

(** C3, as stated, fails on the single-file version of the game, which has
    no coin entities: while a magnet is in the ledger its frame update
    collects one coin per frame, with no coin arriving. *)
Lemma single_file_magnet_collects_every_frame :
  let g := SingleFile.activate_powerup (SingleFile.reset_run SingleFile.init)
             magnet_pickup in
  Dict.mem (SingleFile.active_powerups g) "magnet" = true /\
  single_file_total_coins (Ok g) = Some 0%Z /\
  single_file_total_coins (single_file_frames g 0.016 1) = Some 1%Z /\
  single_file_total_coins (single_file_frames g 0.016 2) = Some 2%Z /\
  single_file_total_coins (single_file_frames g 0.016 60) = Some 60%Z.
Proof. repeat split; vm_compute; reflexivity. Qed.

End CoinFacts.

(** ** The event loop keeps the game sound *)

Module InvariantFacts.

Import PyFloat DictFacts Spec Game Invariant FrameFacts SystemsFacts.
Local Open Scope float_scope.

(** *** Generic decompositions *)

Lemma coins_loop_invariant (P : Game.t -> Prop) (dt : float) :
  (forall g c r, update_coin g c dt = Ok r -> P g -> P (fst r)) ->
  forall cs g r, update_coins_loop g cs dt = Ok r -> P g -> P (fst r).
Proof.
  intros Hb. induction cs as [|c cs IH]; intros g r; simpl.
  - intros [= <-]. auto.
  - destruct (update_coin g c dt) as [[g1 c1]|] eqn:E1; simpl; [|discriminate].
    destruct (update_coins_loop g1 cs dt) as [[g2 cs2]|] eqn:E2; simpl;
      [|discriminate].
    intros [= <-] Hg. simpl.
    exact (IH _ _ E2 (Hb _ _ _ E1 Hg)).
Qed.

Lemma spawn_invariant (P : Game.t -> Prop) :
  (forall g l h k, P g -> P (spawn_obstacle g l h k)) ->
  (forall g l k, P g -> P (spawn_powerup g l k)) ->
  (forall g l, P g -> P (spawn_letter g l)) ->
  (forall g l, P g -> P (spawn_season_token g l)) ->
  (forall g l, P g -> P (spawn_coin g l)) ->
  forall g r, P g -> P (spawn g r).
Proof.
  intros H1 H2 H3 H4 H5 g r Hg. unfold spawn.
  destruct (coin_draw r); [apply H5|];
    (destruct (season_token_draw r); [apply H4|]);
    (destruct (letter_draw r); [apply H3|]);
    (destruct (powerup_draw r) as [[? ?]|]; [apply H2|]);
    (destruct (obstacle_draw r) as [[[? ?] ?]|]; [apply H1|]); exact Hg.
Qed.

Lemma update_invariant (P : Game.t -> Prop) (dt : float) (r : FrameRandom) :
  (forall g, P g -> P (set_player g (Player.update (player g) dt))) ->
  (forall g, P g -> P (update_powerups g dt)) ->
  (forall g, P g -> P (update_obstacles g dt)) ->
  (forall g, P g -> P (update_powerup_objects g dt)) ->
  (forall g, P g -> P (update_letters g dt)) ->
  (forall g g', update_coins g dt = Ok g' -> P g -> P g') ->
  (forall g g', update_score g dt = Ok g' -> P g -> P g') ->
  (forall g, P g -> P (spawn g r)) ->
  (forall g g', check_achievements g = Ok g' -> P g -> P g') ->
  forall g g', update g dt r = Ok g' -> P g -> P g'.
Proof.
  intros H1 H2 H3 H4 H5 H6 H7 H8 H9 g g'. unfold update.
  destruct (state g); try (intros [= <-]; auto; fail).
  intros Hu Hg.
  apply H1, H2, H3, H4, H5 in Hg.
  destruct (update_coins _ dt) as [g6|] eqn:E6; simpl in Hu; [|discriminate].
  apply (H6 _ _ E6) in Hg.
  destruct (update_score g6 dt) as [g7|] eqn:E7; simpl in Hu; [|discriminate].
  apply (H7 _ _ E7) in Hg. apply H8 in Hg.
  exact (H9 _ _ Hu Hg).
Qed.

(** *** What the stages of a frame leave alone *)

Lemma sound_of_view (g g' : Game.t) :
  core_view g' = core_view g -> sound g -> sound g'.
Proof.
  unfold core_view, sound, stats_ok. intros [= -> -> -> -> ->]. auto.
Qed.

Lemma player_update_core_view (g : Game.t) (dt : float) :
  core_view (set_player g (Player.update (player g) dt)) = core_view g.
Proof.
  unfold core_view. simpl.
  destruct (player_update_flags (player g) dt) as (_ & _ & ->). reflexivity.
Qed.

Lemma update_powerups_core_view (g : Game.t) (dt : float) :
  core_view (update_powerups g dt) = core_view g.
Proof.
  unfold update_powerups.
  destruct (sweep (active_powerups g) dt) as [ledger ex].
  change (core_view g) with (core_view (set_active_powerups g ledger)).
  generalize (set_active_powerups g ledger). clear g ledger.
  induction ex as [|k ex IH]; intros g; simpl; [reflexivity|].
  rewrite IH. unfold teardown, core_view. cases; reflexivity.
Qed.

Lemma update_obstacles_core_view (g : Game.t) (dt : float) :
  core_view (update_obstacles g dt) = core_view g.
Proof.
  unfold update_obstacles.
  pose proof (for_each_keeps core_view
                (fun g o => update_obstacle g o dt)) as H.
  specialize (H (fun g o => ltac:(
    unfold update_obstacle, track_obstacle, obstacle_arrival,
      handle_collision, core_view; cases; reflexivity)) (obstacles g) g).
  destruct (for_each _ g (obstacles g)) as [g1 os]. exact H.
Qed.

Lemma update_powerup_objects_core_view (g : Game.t) (dt : float) :
  core_view (update_powerup_objects g dt) = core_view g.
Proof.
  unfold update_powerup_objects.
  pose proof (for_each_keeps core_view
                (fun g p => update_powerup_object g p dt)) as H.
  specialize (H (fun g p => ltac:(
    unfold update_powerup_object, activate_powerup, core_view;
      cases; reflexivity)) (powerups g) g).
  destruct (for_each _ g (powerups g)) as [g1 ps]. exact H.
Qed.

Lemma spawn_core_view (g : Game.t) (r : FrameRandom) :
  core_view (spawn g r) = core_view g.
Proof.
  apply (spawn_invariant (fun g' => core_view g' = core_view g));
    try reflexivity; intros g0; intros; rewrite <- H;
    unfold spawn_obstacle, spawn_powerup, spawn_letter, spawn_season_token,
      spawn_coin; cases; reflexivity.
Qed.

(** *** The stages that touch what [sound] reads *)

Lemma sound_update_letters (g : Game.t) (dt : float) :
  sound g -> sound (update_letters g dt).
Proof.
  intros Hg. unfold update_letters.
  pose proof (for_each_invariant sound
                (fun g l => update_letter g l dt)) as H.
  assert (Hb : forall g l, sound g -> sound (fst (update_letter g l dt))).
  { clear. intros g l (Hl & (Hc & Hk & Hb) & Hs & Ha).
    unfold update_letter.
    destruct (WordHunt.collect (word_hunt g) (LetterCollectible.letter _))
      as [[|] w]; cases;
      (split; [|split; [|split]]); simpl; auto; repeat split; simpl; auto;
      lia. }
  specialize (H Hb (letters g) g Hg).
  destruct (for_each _ g (letters g)) as [g1 ls]. exact H.
Qed.

Lemma sound_collect_coin (g g' : Game.t) (lane : Z) :
  collect_coin g lane = Ok g' -> sound g -> sound g'.
Proof.
  unfold collect_coin, Dict.subscript. simpl.
  destruct (Dict.get (stats g) "total_coins") as [n|]; simpl; [|discriminate].
  intros [= <-] (Hl & (Hc & Hk & Hb) & (j & c & S1 & S2 & S3) & Ha).
  split; [|split; [|split]]; simpl; auto; [repeat split; simpl; lia|].
  exists j, (n + 1)%Z. unfold has_stats. simpl. dict_simpl. auto.
Qed.

Lemma sound_update_coin (g : Game.t) (c : CoinCollectible.t) (dt : float)
    (r : Game.t * CoinCollectible.t) :
  update_coin g c dt = Ok r -> sound g -> sound (fst r).
Proof.
  unfold update_coin.
  destruct (negb (CoinCollectible.active c)); [intros [= <-]; auto|].
  destruct (_ <=? 0); [|intros [= <-]; auto].
  destruct (_ || _); [|intros [= <-]; auto].
  destruct (collect_coin g _) as [g1|] eqn:E; simpl; [|discriminate].
  intros [= <-]. exact (sound_collect_coin _ _ _ E).
Qed.

Lemma sound_update_coins (g g' : Game.t) (dt : float) :
  update_coins g dt = Ok g' -> sound g -> sound g'.
Proof.
  unfold update_coins.
  destruct (update_coins_loop g (coins g) dt) as [[g1 cs]|] eqn:E; simpl;
    [|discriminate].
  intros [= <-] Hg.
  apply (sound_of_view g1); [reflexivity|].
  exact (coins_loop_invariant sound dt (fun g c r => sound_update_coin g c dt r)
           _ _ _ E Hg).
Qed.

Lemma update_score_shape (g g' : Game.t) (dt : float) :
  update_score g dt = Ok g' ->
  exists gain,
    g' = set_stats (set_score g (score g + gain))
           (Dict.set (stats g) "score" (score g + gain)%Z).
Proof.
  unfold update_score.
  destruct (of_int _) as [rate|]; simpl; [|discriminate].
  destruct (to_int _) as [gain|]; simpl; [|discriminate].
  intros [= <-]. eauto.
Qed.

Lemma sound_update_score (g g' : Game.t) (dt : float) :
  update_score g dt = Ok g' -> sound g -> sound g'.
Proof.
  intros H (Hl & He & (j & c & S1 & S2 & S3) & Ha).
  destruct (update_score_shape _ _ _ H) as [gain ->].
  split; [|split; [|split]]; simpl; auto.
  exists j, c. unfold has_stats. simpl. dict_simpl. auto.
Qed.

Lemma has_flags_unlock (a : AchievementSystem.t) (name : string) :
  achievements_ok a ->
  achievements_ok
    {| AchievementSystem.unlocked :=
         Dict.set (AchievementSystem.unlocked a) name true |}.
Proof.
  intros (u1 & u2 & u3 & F1 & F2 & F3). unfold achievements_ok, has_flags.
  simpl.
  destruct (string_dec name "High Jumper") as [->|N1];
    [|destruct (string_dec name "Gold Digger") as [->|N2];
      [|destruct (string_dec name "Marathon") as [->|N3]]].
  - exists true, u2, u3. dict_simpl. auto.
  - exists u1, true, u3. dict_simpl. auto.
  - exists u1, u2, true. dict_simpl. auto.
  - exists u1, u2, u3. rewrite !get_set_other by assumption. auto.
Qed.

Lemma check_shape (a a' : AchievementSystem.t) (stats : Dict.t Z)
    (name : option string) (calls : Log) :
  AchievementSystem.check a stats = Ok (name, a', calls) ->
  a' = a \/
  exists n, a' = {| AchievementSystem.unlocked :=
                      Dict.set (AchievementSystem.unlocked a) n true |}.
Proof.
  unfold AchievementSystem.check, AchievementSystem.unlocking,
    AchievementSystem.unlock.
  repeat (destruct (AchievementSystem.qualifies a stats _ _ _) as [[|]|];
          simpl; try discriminate; try (intros [= <- <- <-]; eauto; fail)).
Qed.

Lemma sound_check_achievements (g g' : Game.t) :
  check_achievements g = Ok g' -> sound g -> sound g'.
Proof.
  unfold check_achievements.
  destruct (AchievementSystem.check _ _) as [[[u a] calls]|] eqn:E; simpl;
    [|discriminate].
  intros H (Hl & He & Hs & Ha).
  assert (Ha' : achievements_ok a).
  { destruct (check_shape _ _ _ _ _ E) as [->|[n ->]];
      auto using has_flags_unlock. }
  destruct u as [name|]; [destruct (String.eqb name "")|];
    injection H as <-; (split; [|split; [|split]]); simpl; auto.
Qed.

(** *** A frame and an input keep the game sound *)

Lemma sound_update (g g' : Game.t) (dt : float) (r : FrameRandom) :
  update g dt r = Ok g' -> sound g -> sound g'.
Proof.
  apply update_invariant.
  - intros g0. apply sound_of_view, player_update_core_view.
  - intros g0. apply sound_of_view, update_powerups_core_view.
  - intros g0. apply sound_of_view, update_obstacles_core_view.
  - intros g0. apply sound_of_view, update_powerup_objects_core_view.
  - intros g0. apply sound_update_letters.
  - intros g0 g1. apply sound_update_coins.
  - intros g0 g1. apply sound_update_score.
  - intros g0. apply sound_of_view, spawn_core_view.
  - intros g0 g1. apply sound_check_achievements.
Qed.

Lemma sound_buy_upgrade (e : Economy.t) (powerup : string) :
  solvent e -> solvent (snd (Economy.buy_upgrade e powerup)).
Proof.
  intros (Hc & Hk & Hb). unfold Economy.buy_upgrade.
  destruct (_ && _) eqn:E; [|repeat split; assumption].
  apply andb_prop in E as [E _]. apply Z.leb_le in E.
  repeat split; simpl; lia.
Qed.

Lemma sound_buy_mystery_box (e : Economy.t) :
  solvent e -> solvent (snd (Economy.buy_mystery_box e)).
Proof.
  intros (Hc & Hk & Hb). unfold Economy.buy_mystery_box.
  destruct (_ <=? _)%Z eqn:E; [|repeat split; assumption].
  apply Z.leb_le in E. repeat split; simpl; lia.
Qed.

Lemma sound_open_mystery_box (e : Economy.t) (draw : nat) :
  solvent e -> solvent (snd (Economy.open_mystery_box e draw)).
Proof.
  intros (Hc & Hk & Hb). unfold Economy.open_mystery_box.
  destruct (_ <=? 0)%Z eqn:E; [repeat split; assumption|].
  apply Z.leb_gt in E.
  destruct (String.eqb _ "Coins"); [|destruct (String.eqb _ "Keys")];
    repeat split; simpl; lia.
Qed.

Lemma emit_core_view (g : Game.t) (calls : Log) :
  core_view (emit g calls) = core_view g.
Proof. reflexivity. Qed.

Lemma sound_reset_run (g : Game.t) : sound g -> sound (reset_run g).
Proof.
  intros (Hl & He & (j & c & S1 & S2 & S3) & Ha).
  split; [|split; [|split]]; simpl; auto; [unfold lane_ok; lia|].
  exists 0%Z, c. unfold has_stats. simpl. dict_simpl. auto.
Qed.

Lemma sound_with_economy (g g' : Game.t) :
  (Player.lane (player g'), stats g', score g', achievement_system g')
  = (Player.lane (player g), stats g, score g, achievement_system g) ->
  solvent (economy g') -> sound g -> sound g'.
Proof.
  unfold sound, stats_ok. intros [= -> -> -> ->] He (Hl & _ & Hs & Ha). auto.
Qed.

Lemma sound_handle_menu_action (g : Game.t) (action : string) (draw : nat) :
  sound g -> sound (handle_menu_action g action draw).
Proof.
  intros Hg. pose proof Hg as (_ & He & _).
  unfold handle_menu_action, handle_upgrade, return_to_main_menu.
  repeat match goal with
         | |- context [if String.eqb action ?s then _ else _] =>
             destruct (String.eqb action s)
         end;
    try (apply (sound_of_view g); [reflexivity|exact Hg]).
  - apply (sound_of_view (reset_run g)); [apply emit_core_view|].
    exact (sound_reset_run g Hg).
  - pose proof (sound_buy_upgrade _ "jetpack" He) as H.
    destruct (Economy.buy_upgrade _ _) as [[|] e];
      apply (sound_with_economy g); auto.
  - pose proof (sound_buy_upgrade _ "super_sneakers" He) as H.
    destruct (Economy.buy_upgrade _ _) as [[|] e];
      apply (sound_with_economy g); auto.
  - pose proof (sound_buy_upgrade _ "magnet" He) as H.
    destruct (Economy.buy_upgrade _ _) as [[|] e];
      apply (sound_with_economy g); auto.
  - pose proof (sound_buy_upgrade _ "multiplier" He) as H.
    destruct (Economy.buy_upgrade _ _) as [[|] e];
      apply (sound_with_economy g); auto.
  - pose proof (sound_buy_upgrade _ "hoverboard" He) as H.
    destruct (Economy.buy_upgrade _ _) as [[|] e];
      apply (sound_with_economy g); auto.
  - pose proof (sound_buy_mystery_box _ He) as H.
    destruct (Economy.buy_mystery_box _) as [[|] e];
      apply (sound_with_economy g); auto.
  - destruct (_ <=? 0)%Z;
      [apply (sound_of_view g); [reflexivity|exact Hg]|].
    pose proof (sound_open_mystery_box _ draw He) as H. simpl.
    destruct (Economy.open_mystery_box _ _) as [reward e].
    apply (sound_with_economy g); auto.
Qed.

Lemma sound_handle_run_key (g g' : Game.t) (key : Key) :
  handle_run_key g key = Ok g' -> sound g -> sound g'.
Proof.
  intros H Hg. pose proof Hg as (Hl & He & Hs & Ha).
  pose proof Hs as (j & c & S1 & S2 & S3).
  unfold lane_ok in Hl.
  destruct key; simpl in H;
    try (injection H as <-; apply (sound_of_view g); [reflexivity|exact Hg]).
  - injection H as <-. split; [|split; [|split]]; simpl; auto.
    unfold Player.move_left, lane_ok.
    destruct (0 <? _)%Z eqn:E; simpl; [apply Z.ltb_lt in E|]; lia.
  - injection H as <-. split; [|split; [|split]]; simpl; auto.
    unfold Player.move_right, lane_ok.
    destruct (_ <? 2)%Z eqn:E; simpl; [apply Z.ltb_lt in E|]; lia.
  - unfold Dict.subscript in H. simpl in H. rewrite S1 in H. simpl in H.
    injection H as <-. split; [|split; [|split]]; simpl; auto.
    exists (j + 1)%Z, c. unfold has_stats. simpl. dict_simpl. auto.
Qed.

Lemma sound_handle_input (g g' : Game.t) (event : InputEvent)
    (menu_action : option string) (draw : nat) :
  handle_input g event menu_action draw = Ok g' -> sound g -> sound g'.
Proof.
  unfold handle_input. intros Hi H.
  pose proof H as (Hl & (Hc & Hk & Hb) & Hs & Ha).
  assert (Hmenu : match menu_action with
                  | Some action =>
                      if String.eqb action "" then Ok g
                      else Ok (handle_menu_action g action draw)
                  | None => Ok g
                  end = Ok g' -> sound g').
  { destruct menu_action as [action|]; [destruct (String.eqb action "")|];
      intros [= <-]; auto using sound_handle_menu_action. }
  assert (Hcont : sound (continue_run_with_key g)).
  { unfold continue_run_with_key.
    destruct (_ <=? 0)%Z eqn:E; [exact H|]. apply Z.leb_gt in E.
    apply (sound_with_economy g); [reflexivity| |exact H].
    repeat split; simpl; lia. }
  destruct event as [key|]; [destruct key|]; destruct (state g);
    first [ exact (sound_handle_run_key _ _ _ Hi H)
          | exact (Hmenu Hi)
          | injection Hi as <-;
            first [ exact H
                  | exact Hcont
                  | apply (sound_of_view g); [reflexivity|exact H] ] ].
Qed.

Lemma sound_init : sound Game.init.
Proof.
  split; [|split; [|split]]; simpl.
  - unfold lane_ok. lia.
  - repeat split; simpl; lia.
  - exists 0%Z, 0%Z. repeat split.
  - exists false, false, false. repeat split.
Qed.

Lemma reachable_sound (g : Game.t) : reachable g -> sound g.
Proof.
  induction 1 as [|g g' _ IH Hstep]; [exact sound_init|].
  destruct Hstep as [g g' event action draw Hi|g g' dt r Hu].
  - exact (sound_handle_input _ _ _ _ _ Hi IH).
  - exact (sound_update _ _ _ _ Hu IH).
Qed.

Lemma play_reachable (turns : list Turn) :
  forall g g', reachable g -> play g turns = Ok g' -> reachable g'.
Proof.
  induction turns as [|t turns IH]; intros g g' Hg; simpl.
  - intros [= <-]. exact Hg.
  - destruct (turn g t) as [g1|] eqn:E; simpl; [|discriminate].
    apply IH. apply (reachable_step g); [exact Hg|].
    destruct t; simpl in E; econstructor; exact E.
Qed.

Lemma reachable_multiplier (g : Game.t) : reachable g -> multiplier_ok g.
Proof.
  intros H. destruct (LedgerFacts.reachable_matches g H) as (_ & _ & _ & Hm).
  unfold multiplier_ok. rewrite Hm.
  destruct (Dict.mem _ _); auto.
Qed.

(** *** Nothing raises *)

Lemma update_coin_returns (g : Game.t) (c : CoinCollectible.t) (dt : float) :
  sound g -> exists r, update_coin g c dt = Ok r.
Proof.
  intros (_ & _ & (j & n & _ & S2 & _) & _).
  unfold update_coin, collect_coin, Dict.subscript. simpl. rewrite S2. simpl.
  cases; eauto.
Qed.

Lemma coins_loop_returns (dt : float) (cs : list CoinCollectible.t) :
  forall g, sound g -> exists r, update_coins_loop g cs dt = Ok r.
Proof.
  induction cs as [|c cs IH]; intros g Hg; simpl; [eauto|].
  destruct (update_coin_returns g c dt Hg) as [[g1 c1] E]. rewrite E. simpl.
  destruct (IH g1 (sound_update_coin _ _ _ _ E Hg)) as [[g2 cs2] E2].
  rewrite E2. simpl. eauto.
Qed.

Lemma update_coins_returns (g : Game.t) (dt : float) :
  sound g -> exists g', update_coins g dt = Ok g'.
Proof.
  intros Hg. unfold update_coins.
  destruct (coins_loop_returns dt (coins g) g Hg) as [[g1 cs] ->]. simpl. eauto.
Qed.

Lemma check_achievements_returns (g : Game.t) :
  sound g -> exists g', check_achievements g = Ok g'.
Proof.
  intros (_ & _ & (j & c & Hs) & (u1 & u2 & u3 & Ha)).
  unfold check_achievements.
  destruct (check_by_priority _ _ _ _ _ _ _ _ Ha Hs) as [calls ->]. simpl.
  destruct (first_qualifying _ _ _ _ _ _) as [name|];
    [destruct (String.eqb name "")|]; eauto.
Qed.

Lemma multiplier_of_view (g g' : Game.t) :
  powerup_view g' = powerup_view g -> multiplier_ok g -> multiplier_ok g'.
Proof. unfold powerup_view, multiplier_ok. intros [= _ _ _ ->]. auto. Qed.

Lemma update_returns (g : Game.t) (dt : float) (r : FrameRandom) :
  sound g -> multiplier_ok g -> delta_ok dt ->
  exists g', update g dt r = Ok g'.
Proof.
  intros Hs Hm (D1 & D2). unfold update.
  destruct (state g); eauto.
  apply (sound_of_view _ _ (player_update_core_view g dt)) in Hs.
  assert (Hm1 : multiplier_ok (set_player g (Player.update (player g) dt)))
    by exact Hm.
  set (g1 := set_player g _) in *. clearbody g1.
  apply (sound_of_view _ _ (update_powerups_core_view g1 dt)) in Hs.
  apply (update_powerups_multiplier _ dt) in Hm1.
  set (g2 := update_powerups g1 dt) in *. clearbody g2.
  apply (sound_of_view _ _ (update_obstacles_core_view g2 dt)) in Hs.
  apply (multiplier_of_view _ _ (update_obstacles_powerup_view g2 dt)) in Hm1.
  set (g3 := update_obstacles g2 dt) in *. clearbody g3.
  apply (sound_of_view _ _ (update_powerup_objects_core_view g3 dt)) in Hs.
  apply (update_powerup_objects_multiplier _ dt) in Hm1.
  set (g4 := update_powerup_objects g3 dt) in *. clearbody g4.
  apply (sound_update_letters _ dt) in Hs.
  apply (multiplier_of_view _ _ (update_letters_powerup_view g4 dt)) in Hm1.
  set (g5 := update_letters g4 dt) in *. clearbody g5.
  destruct (update_coins_returns g5 dt Hs) as [g6 E6]. rewrite E6. simpl.
  apply (sound_update_coins _ _ _ E6) in Hs.
  apply (multiplier_of_view _ _ (update_coins_powerup_view _ _ _ E6)) in Hm1.
  destruct (CoinFacts.update_score_returns g6 dt Hm1 D1 D2) as [gain E7].
  rewrite E7. simpl.
  apply (sound_update_score _ _ _ E7) in Hs.
  apply (sound_of_view _ _ (spawn_core_view _ r)) in Hs.
  exact (check_achievements_returns _ Hs).
Qed.

(** X1: whatever keys are pressed and whatever happens in the frames, the
    player is in lane 0, 1 or 2: [move_left] stops at lane 0, [move_right]
    at lane 2, and nothing else moves the player. *)
Theorem lane_stays_on_track (g : Game.t) :
  reachable g -> lane_ok (Player.lane (player g)).
Proof. intros H. apply (reachable_sound g H). Qed.

Lemma lane_stays_on_track_witness :
  exists g,
    play Game.init [select "start_run"; press K_LEFT; press K_LEFT;
                    press K_LEFT; tick] = Ok g /\
    Player.lane (player g) = 0%Z /\
    lane_ok (Player.lane (player g)).
Proof.
  eexists. split; [vm_compute; reflexivity|]. split; [reflexivity|].
  apply lane_stays_on_track.
  apply (play_reachable
           [select "start_run"; press K_LEFT; press K_LEFT; press K_LEFT; tick]
           Game.init); [constructor|vm_compute; reflexivity].
Defined.

(** X2: the coins, the keys and the mystery boxes of the economy are never
    negative: every purchase checks the price against the coins, a box is
    opened only when there is one, and a key is spent only when there is
    one. *)
Theorem balances_never_negative (g : Game.t) :
  reachable g -> solvent (economy g).
Proof. intros H. apply (reachable_sound g H). Qed.

Lemma balances_never_negative_witness :
  exists g,
    play Game.init [select "upgrade_jetpack"; select "buy_mystery_box";
                    select "open_mystery_box"] = Ok g /\
    economy g = economy Game.init /\
    solvent (economy g).
Proof.
  eexists. split; [vm_compute; reflexivity|]. split; [reflexivity|].
  apply balances_never_negative.
  apply (play_reachable
           [select "upgrade_jetpack"; select "buy_mystery_box";
            select "open_mystery_box"]
           Game.init); [constructor|vm_compute; reflexivity].
Defined.

(** X3: [handle_input] raises no exception, whatever the event, in any state
    the game can reach: the only lookup it makes, [stats["jumps"]], always
    finds its key. *)
Theorem input_never_raises (g : Game.t) (event : InputEvent)
    (menu_action : option string) (draw : nat) :
  reachable g -> exists g', handle_input g event menu_action draw = Ok g'.
Proof.
  intros H. pose proof (reachable_sound g H) as (_ & _ & (j & c & S1 & _) & _).
  unfold handle_input, handle_run_key, Dict.subscript. simpl. rewrite S1.
  destruct event as [[]|]; destruct (state g); simpl; eauto;
    destruct menu_action as [action|]; eauto;
    destruct (String.eqb action ""); eauto.
Qed.

Lemma input_never_raises_witness :
  reachable started /\
  exists g', handle_input started (KEYDOWN K_UP) None 0 = Ok g'.
Proof.
  assert (Hr : reachable started).
  { apply (reachable_step Game.init); [constructor|].
    apply (step_input _ _ (KEYDOWN K_other) (Some "start_run") 0).
    reflexivity. }
  split; [exact Hr|].
  exact (input_never_raises started (KEYDOWN K_UP) None 0 Hr).
Defined.

(** X4: a frame raises no exception in any state the game can reach, as
    long as the frame time is a number for which the score gain is finite:
    the statistics and the achievements always have the keys that the frame
    looks up. *)
Theorem frame_never_raises (g : Game.t) (dt : float) (r : FrameRandom) :
  reachable g -> delta_ok dt -> exists g', update g dt r = Ok g'.
Proof.
  intros H Hd.
  exact (update_returns g dt r (reachable_sound g H) (reachable_multiplier g H)
           Hd).
Qed.

Lemma frame_never_raises_witness :
  reachable started /\ delta_ok 0.016 /\
  exists g', update started 0.016 no_spawn = Ok g'.
Proof.
  assert (Hr : reachable started).
  { apply (reachable_step Game.init); [constructor|].
    apply (step_input _ _ (KEYDOWN K_other) (Some "start_run") 0).
    reflexivity. }
  assert (Hd : delta_ok 0.016) by (split; vm_compute; reflexivity).
  split; [exact Hr|]. split; [exact Hd|].
  exact (frame_never_raises started 0.016 no_spawn Hr Hd).
Defined.

(** X5: the ["score"] counter of the statistics, which the Marathon
    achievement reads, always equals the score of the game: both are reset
    together when a run starts and set together by [update_score]. *)
Theorem score_counter_mirrors_score (g : Game.t) :
  reachable g -> Dict.get (stats g) "score" = Some (score g).
Proof.
  intros H. pose proof (reachable_sound g H) as (_ & _ & (j & c & _ & _ & S3) & _).
  exact S3.
Qed.

Lemma score_counter_mirrors_score_witness :
  exists g,
    play Game.init [select "start_run"; tick; tick; tick] = Ok g /\
    score g = 27%Z /\
    Dict.get (stats g) "score" = Some (score g).
Proof.
  eexists. split; [vm_compute; reflexivity|]. split; [reflexivity|].
  apply score_counter_mirrors_score.
  apply (play_reachable [select "start_run"; tick; tick; tick] Game.init);
    [constructor|vm_compute; reflexivity].
Defined.

End InvariantFacts.

(** ** The state machine of the game *)

Module TransitionFacts.

Import PyFloat DictFacts Spec Game Invariant FrameFacts InvariantFacts.
Local Open Scope float_scope.

(** *** What the stages of a frame do to the mode *)

Lemma update_powerups_mode_view (g : Game.t) (dt : float) :
  mode_view (update_powerups g dt) = mode_view g.
Proof.
  unfold update_powerups.
  destruct (sweep (active_powerups g) dt) as [ledger ex].
  change (mode_view g) with (mode_view (set_active_powerups g ledger)).
  generalize (set_active_powerups g ledger). clear g ledger.
  induction ex as [|k ex IH]; intros g; simpl; [reflexivity|].
  rewrite IH. unfold teardown, mode_view. cases; reflexivity.
Qed.

Lemma update_obstacle_mode (g : Game.t) (o : Obstacle.t) (dt : float) :
  (running (fst (update_obstacle g o dt)), speed (fst (update_obstacle g o dt)))
  = (running g, speed g) /\
  (state (fst (update_obstacle g o dt)) = state g \/
   state (fst (update_obstacle g o dt)) = GAME_OVER).
Proof.
  unfold update_obstacle, track_obstacle, obstacle_arrival, handle_collision.
  cases; auto.
Qed.

Lemma update_obstacles_mode (g : Game.t) (dt : float) :
  (running (update_obstacles g dt), speed (update_obstacles g dt))
  = (running g, speed g) /\
  (state (update_obstacles g dt) = state g \/
   state (update_obstacles g dt) = GAME_OVER).
Proof.
  unfold update_obstacles.
  pose proof (for_each_invariant
                (fun g' => (running g', speed g') = (running g, speed g) /\
                           (state g' = state g \/ state g' = GAME_OVER))
                (fun g o => update_obstacle g o dt)) as H.
  assert (Hb : forall g0 o,
             (running g0, speed g0) = (running g, speed g) /\
             (state g0 = state g \/ state g0 = GAME_OVER) ->
             (running (fst (update_obstacle g0 o dt)),
              speed (fst (update_obstacle g0 o dt))) = (running g, speed g) /\
             (state (fst (update_obstacle g0 o dt)) = state g \/
              state (fst (update_obstacle g0 o dt)) = GAME_OVER)).
  { intros g0 o (H1 & H2).
    destruct (update_obstacle_mode g0 o dt) as (H3 & H4).
    split; [congruence|]. destruct H4 as [H4|H4]; [rewrite H4|]; auto. }
  specialize (H Hb (obstacles g) g (conj eq_refl (or_introl eq_refl))).
  destruct (for_each _ g (obstacles g)) as [g1 os]. exact H.
Qed.

Lemma update_powerup_objects_mode_view (g : Game.t) (dt : float) :
  mode_view (update_powerup_objects g dt) = mode_view g.
Proof.
  unfold update_powerup_objects.
  pose proof (for_each_keeps mode_view
                (fun g p => update_powerup_object g p dt)) as H.
  specialize (H (fun g p => ltac:(
    unfold update_powerup_object, activate_powerup, mode_view;
      cases; reflexivity)) (powerups g) g).
  destruct (for_each _ g (powerups g)) as [g1 ps]. exact H.
Qed.

Lemma update_letters_mode_view (g : Game.t) (dt : float) :
  mode_view (update_letters g dt) = mode_view g.
Proof.
  unfold update_letters.
  pose proof (for_each_keeps mode_view
                (fun g l => update_letter g l dt)) as H.
  assert (Hb : forall g l, mode_view (fst (update_letter g l dt)) = mode_view g).
  { clear. intros g l. unfold update_letter.
    destruct (WordHunt.collect (word_hunt g) (LetterCollectible.letter _))
      as [[|] w]; cases; reflexivity. }
  specialize (H Hb (letters g) g).
  destruct (for_each _ g (letters g)) as [g1 ls]. exact H.
Qed.

Lemma update_coins_mode_view (g g' : Game.t) (dt : float) :
  update_coins g dt = Ok g' -> mode_view g' = mode_view g.
Proof.
  unfold update_coins.
  destruct (update_coins_loop g (coins g) dt) as [[g1 cs]|] eqn:E; simpl;
    [|discriminate].
  intros [= <-].
  apply (coins_loop_keeps mode_view dt) in E; [exact E|].
  clear. intros g c r. unfold update_coin, collect_coin, Dict.subscript. simpl.
  destruct (Dict.get (stats g) "total_coins"); simpl; cases;
    intros [= <-]; reflexivity.
Qed.

Lemma update_score_mode_view (g g' : Game.t) (dt : float) :
  update_score g dt = Ok g' -> mode_view g' = mode_view g.
Proof.
  intros H. destruct (update_score_shape _ _ _ H) as [gain ->]. reflexivity.
Qed.

Lemma spawn_mode_view (g : Game.t) (r : FrameRandom) :
  mode_view (spawn g r) = mode_view g.
Proof.
  apply (spawn_invariant (fun g' => mode_view g' = mode_view g));
    try reflexivity; intros g0; intros; rewrite <- H;
    unfold spawn_obstacle, spawn_powerup, spawn_letter, spawn_season_token,
      spawn_coin; cases; reflexivity.
Qed.

Lemma check_achievements_mode_view (g g' : Game.t) :
  check_achievements g = Ok g' -> mode_view g' = mode_view g.
Proof.
  unfold check_achievements.
  destruct (AchievementSystem.check _ _) as [[[u a] calls]|]; simpl;
    [|discriminate].
  destruct u as [name|]; [destruct (String.eqb name "")|];
    intros [= <-]; reflexivity.
Qed.

Lemma update_mode (g g' : Game.t) (dt : float) (r : FrameRandom) :
  update g dt r = Ok g' ->
  (running g', speed g') = (running g, speed g) /\
  (state g' = state g \/ state g = RUNNING /\ state g' = GAME_OVER).
Proof.
  intros Hu.
  destruct (state g) eqn:Es;
    try (unfold update in Hu; rewrite Es in Hu; injection Hu as <-; auto; fail).
  assert (H : (running g', speed g') = (running g, speed g) /\
              (state g' = state g \/ state g' = GAME_OVER)).
  { apply (fun H1 H2 H3 H4 H5 H6 H7 H8 H9 =>
             update_invariant
               (fun g0 => (running g0, speed g0) = (running g, speed g) /\
                          (state g0 = state g \/ state g0 = GAME_OVER))
               dt r H1 H2 H3 H4 H5 H6 H7 H8 H9 g g' Hu
               (conj eq_refl (or_introl eq_refl))).
    - intros g0 H. exact H.
    - intros g0. pose proof (update_powerups_mode_view g0 dt) as [= -> -> ->].
      auto.
    - intros g0 (H1 & H2). destruct (update_obstacles_mode g0 dt) as (H3 & H4).
      split; [congruence|]. destruct H4 as [H4|H4]; [rewrite H4|]; auto.
    - intros g0.
      pose proof (update_powerup_objects_mode_view g0 dt) as [= -> -> ->]. auto.
    - intros g0. pose proof (update_letters_mode_view g0 dt) as [= -> -> ->].
      auto.
    - intros g0 g1 E. pose proof (update_coins_mode_view _ _ _ E) as [= -> -> ->].
      auto.
    - intros g0 g1 E. pose proof (update_score_mode_view _ _ _ E) as [= -> -> ->].
      auto.
    - intros g0. pose proof (spawn_mode_view g0 r) as [= -> -> ->]. auto.
    - intros g0 g1 E.
      pose proof (check_achievements_mode_view _ _ E) as [= -> -> ->]. auto. }
  destruct H as (H1 & H2). split; [exact H1|].
  rewrite Es in *. destruct H2; auto.
Qed.

(** *** What an input does to the mode *)

Lemma handle_menu_action_mode (g : Game.t) (action : string) (draw : nat) :
  (action = "start_run" /\
   state (handle_menu_action g action draw) = RUNNING /\
   running (handle_menu_action g action draw) = running g /\
   speed (handle_menu_action g action draw) = Config.base_speed) \/
  (action = "quit" /\
   state (handle_menu_action g action draw) = state g /\
   running (handle_menu_action g action draw) = false /\
   speed (handle_menu_action g action draw) = speed g) \/
  mode_view (handle_menu_action g action draw) = mode_view g.
Proof.
  unfold handle_menu_action, handle_upgrade, return_to_main_menu.
  destruct (String.eqb action "start_run") eqn:E1.
  { left. apply String.eqb_eq in E1. auto. }
  destruct (String.eqb action "shop"); [auto|].
  destruct (String.eqb action "achievements"); [auto|].
  destruct (String.eqb action "quit") eqn:E2.
  { right. left. apply String.eqb_eq in E2. auto. }
  right. right.
  cases; try reflexivity;
    repeat match goal with
           | |- context [Economy.buy_upgrade ?e ?p] =>
               destruct (Economy.buy_upgrade e p) as [[|] ?]
           | |- context [Economy.buy_mystery_box ?e] =>
               destruct (Economy.buy_mystery_box e) as [[|] ?]
           | |- context [Economy.open_mystery_box ?e ?d] =>
               destruct (Economy.open_mystery_box e d) as [? ?]
           end; reflexivity.
Qed.

Lemma handle_run_key_mode_view (g g' : Game.t) (key : Key) :
  handle_run_key g key = Ok g' -> mode_view g' = mode_view g.
Proof.
  unfold handle_run_key, Dict.subscript.
  destruct key; simpl; try (intros [= <-]; reflexivity).
  destruct (Dict.get (stats g) "jumps"); simpl; [|discriminate].
  intros [= <-]. reflexivity.
Qed.

Lemma continue_mode (g : Game.t) :
  (running (continue_run_with_key g), speed (continue_run_with_key g))
  = (running g, speed g) /\
  (state (continue_run_with_key g) = state g \/
   (0 < Economy.keys (economy g))%Z /\
   state (continue_run_with_key g) = RUNNING).
Proof.
  unfold continue_run_with_key.
  destruct (_ <=? 0)%Z eqn:E; [auto|]. apply Z.leb_gt in E. auto.
Qed.

(** X6: a frame can change the state of the game in one way only, from
    [RUNNING] to [GAME_OVER]; in every other case the state after the frame
    is the state before; and a frame never clears the [running] flag of the
    main loop. *)
Theorem frame_transitions (g g' : Game.t) (dt : float) (r : FrameRandom) :
  update g dt r = Ok g' ->
  running g' = running g /\
  (state g' = state g \/ state g = RUNNING /\ state g' = GAME_OVER).
Proof.
  intros H. destruct (update_mode _ _ _ _ H) as ([= -> _] & H2). auto.
Qed.

Lemma frame_transitions_witness :
  let g := set_obstacles started
             [{| Obstacle.lane := 1; Obstacle.distance := 0.25;
                 Obstacle.kind := "barrier"; Obstacle.height := "low";
                 Obstacle.active := true; Obstacle.sound_tag := Some "obstacle_1";
                 Obstacle.honk_played := false |}] in
  exists g',
    update g 0.016 no_spawn = Ok g' /\
    state g = RUNNING /\ state g' = GAME_OVER /\ running g' = true.
Proof.
  intros g. eexists. split; [vm_compute; reflexivity|].
  split; [reflexivity|]. split; [reflexivity|].
  match goal with
  | |- running ?g' = _ =>
      destruct (frame_transitions g g' 0.016 no_spawn) as (H & _);
        [vm_compute; reflexivity|rewrite H; reflexivity]
  end.
Defined.

(** X7: an input changes the state of the game in three ways only: from
    [MENU] to [RUNNING] when "Start Run" is selected, from [GAME_OVER] to
    [RUNNING] when K is pressed and a key is left, and from [GAME_OVER] to
    [MENU] when Escape is pressed.  In particular no input leaves a run
    that is on.  The [running] flag of the main loop is cleared only by
    "Quit" selected in a menu. *)
Theorem input_transitions (g g' : Game.t) (event : InputEvent)
    (menu_action : option string) (draw : nat) :
  handle_input g event menu_action draw = Ok g' ->
  (state g' = state g \/
   state g = MENU /\ menu_action = Some "start_run" /\ state g' = RUNNING \/
   state g = GAME_OVER /\ event = KEYDOWN K_k /\
   (0 < Economy.keys (economy g))%Z /\ state g' = RUNNING \/
   state g = GAME_OVER /\ event = KEYDOWN K_ESCAPE /\ state g' = MENU) /\
  (running g' = running g \/
   state g = MENU /\ menu_action = Some "quit" /\ running g' = false).
Proof.
  unfold handle_input. intros Hi.
  assert (Hmenu : state g = MENU ->
                  match menu_action with
                  | Some action =>
                      if String.eqb action "" then Ok g
                      else Ok (handle_menu_action g action draw)
                  | None => Ok g
                  end = Ok g' ->
                  (state g' = state g \/
                   state g = MENU /\ menu_action = Some "start_run" /\
                   state g' = RUNNING \/
                   state g = GAME_OVER /\ event = KEYDOWN K_k /\
                   (0 < Economy.keys (economy g))%Z /\ state g' = RUNNING \/
                   state g = GAME_OVER /\ event = KEYDOWN K_ESCAPE /\
                   state g' = MENU) /\
                  (running g' = running g \/
                   state g = MENU /\ menu_action = Some "quit" /\
                   running g' = false)).
  { intros Es.
    destruct menu_action as [action|]; [destruct (String.eqb action "")|];
      intros [= <-]; auto.
    destruct (handle_menu_action_mode g action draw)
      as [(-> & H1 & H2 & _)|[(-> & H1 & H2 & _)|[= H1 H2 _]]]; auto 7. }
  assert (Hkey : forall key, handle_run_key g key = Ok g' ->
                             state g' = state g /\ running g' = running g).
  { intros key Hk.
    pose proof (handle_run_key_mode_view _ _ _ Hk) as [= -> -> _]. auto. }
  destruct (continue_mode g) as ([= Hc1 _] & Hc2).
  destruct event as [key|]; [destruct key|]; destruct (state g) eqn:Es;
    try exact (Hmenu eq_refl Hi);
    try (destruct (Hkey _ Hi) as (-> & ->); auto; fail);
    try (injection Hi as <-; simpl; rewrite ?Es; auto; fail).
  - injection Hi as <-. split; [|left; exact Hc1].
    destruct Hc2 as [H|(H1 & H2)]; [left; exact H|right; right; left; auto].
  - injection Hi as <-. split; [right; right; right; auto|left; reflexivity].
Qed.

Lemma input_transitions_witness :
  let over := set_state started GAME_OVER in
  state (continue_run_with_key over) = GAME_OVER /\
  exists g',
    handle_input over (KEYDOWN K_ESCAPE) None 0 = Ok g' /\ state g' = MENU.
Proof.
  intros over. split; [reflexivity|].
  eexists. split; [reflexivity|].
  match goal with
  | |- state ?g' = _ =>
      destruct (input_transitions over g' (KEYDOWN K_ESCAPE) None 0 eq_refl)
        as ([H|[(H & _)|[(_ & H & _)|(_ & _ & H)]]] & _);
        [reflexivity|discriminate H|discriminate H|exact H]
  end.
Defined.

(** *** The speed *)

Lemma speed_handle_input (g g' : Game.t) (event : InputEvent)
    (menu_action : option string) (draw : nat) :
  handle_input g event menu_action draw = Ok g' ->
  speed g = Config.base_speed -> speed g' = Config.base_speed.
Proof.
  unfold handle_input. intros Hi Hs.
  assert (Hmenu : match menu_action with
                  | Some action =>
                      if String.eqb action "" then Ok g
                      else Ok (handle_menu_action g action draw)
                  | None => Ok g
                  end = Ok g' -> speed g' = Config.base_speed).
  { destruct menu_action as [action|]; [destruct (String.eqb action "")|];
      intros [= <-]; auto.
    destruct (handle_menu_action_mode g action draw)
      as [(_ & _ & _ & H)|[(_ & _ & _ & H)|[= _ _ H]]]; congruence. }
  assert (Hkey : forall key, handle_run_key g key = Ok g' ->
                             speed g' = Config.base_speed).
  { intros key Hk.
    pose proof (handle_run_key_mode_view _ _ _ Hk) as [= _ _ H]. congruence. }
  destruct (continue_mode g) as ([= _ Hc] & _).
  destruct event as [key|]; [destruct key|]; destruct (state g);
    first [ exact (Hmenu Hi)
          | exact (Hkey _ Hi)
          | injection Hi as <-; first [exact Hs | congruence] ].
Qed.

(** X8: the scroll speed never changes: in every state the game can reach
    it is the configured base speed; the only assignments to it are the
    ones of the constructor and of [reset_run], both to that value. *)
Theorem speed_is_constant (g : Game.t) :
  reachable g -> speed g = Config.base_speed.
Proof.
  induction 1 as [|g g' _ IH Hstep]; [reflexivity|].
  destruct Hstep as [g g' event action draw Hi|g g' dt r Hu].
  - exact (speed_handle_input _ _ _ _ _ Hi IH).
  - destruct (update_mode _ _ _ _ Hu) as ([= _ ->] & _). exact IH.
Qed.

Lemma speed_is_constant_witness :
  exists g,
    play Game.init [select "start_run"; tick; press K_UP; tick; tick] = Ok g /\
    score g = 27%Z /\ speed g = Config.base_speed.
Proof.
  eexists. split; [vm_compute; reflexivity|]. split; [reflexivity|].
  apply speed_is_constant.
  apply (play_reachable [select "start_run"; tick; press K_UP; tick; tick]
           Game.init); [constructor|vm_compute; reflexivity].
Defined.

End TransitionFacts.

(** ** The menus *)

Module MenuFacts.

Import Menu MenuSpec.

Lemma item_at_cursor (m : Menu.t) (i : Z) :
  (0 <= i < len m)%Z ->
  exists item,
    item_at m i = Returns item /\
    nth_error (items m) (Z.to_nat i) = Some item.
Proof.
  intros Hi. unfold item_at.
  destruct (Z.ltb_spec i 0); [lia|].
  destruct (Z.ltb_spec i 0); [lia|]. destruct (Z.leb_spec (len m) i); [lia|].
  simpl.
  destruct (nth_error (items m) (Z.to_nat i)) as [item|] eqn:E; [eauto|].
  apply nth_error_None in E. unfold len in Hi. lia.
Qed.

Lemma go_to_cursor (m : Menu.t) (i : Z) :
  (0 <= i < len m)%Z ->
  exists item,
    nth_error (items m) (Z.to_nat i) = Some item /\
    go_to m i
    = Returns (set_index m i, [cue "menumove"; Say (MenuItem.label item)]).
Proof.
  intros Hi. unfold go_to.
  destruct (item_at_cursor (set_index m i) i Hi) as (item & E & Hn).
  simpl. rewrite E. eauto.
Qed.

Lemma find_letter_spec (letter : string) (items : list MenuItem.t) :
  forall idx,
    match find_letter items letter idx with
    | Some i =>
        (idx <= i < idx + Z.of_nat (List.length items))%Z /\
        (exists item,
           nth_error items (Z.to_nat (i - idx)) = Some item /\
           String.prefix letter (lower (MenuItem.label item)) = true) /\
        forall j item,
          (j < Z.to_nat (i - idx))%nat -> nth_error items j = Some item ->
          String.prefix letter (lower (MenuItem.label item)) = false
    | None =>
        forall item, In item items ->
          String.prefix letter (lower (MenuItem.label item)) = false
    end.
Proof.
  induction items as [|it rest IH]; intros idx; simpl; [tauto|].
  destruct (String.prefix letter (lower (MenuItem.label it))) eqn:E.
  - split; [lia|]. rewrite Z.sub_diag. simpl. split; [eauto|].
    intros j item Hj. lia.
  - specialize (IH (idx + 1)%Z).
    destruct (find_letter rest letter (idx + 1)) as [i|].
    + destruct IH as (Hr & (item & Hn & Hp) & Hmin).
      replace (Z.to_nat (i - idx)) with (S (Z.to_nat (i - (idx + 1)))) by lia.
      split; [lia|]. split; [exists item; auto|].
      intros [|j] item' Hj; simpl.
      * intros [= <-]. exact E.
      * apply Hmin. lia.
    + intros item [<-|Hin]; auto.
Qed.

Lemma nav_cursor (m : Menu.t) (op : Nav) :
  cursor_ok m ->
  exists m' calls,
    nav m op = Returns (m', calls) /\
    cursor_ok m' /\ items m' = items m /\ title m' = title m.
Proof.
  unfold cursor_ok. intros Hm.
  assert (Hgo : forall i, (0 <= i < len m)%Z ->
                  exists m' calls,
                    go_to m i = Returns (m', calls) /\
                    (0 <= index m' < len m')%Z /\ items m' = items m /\
                    title m' = title m).
  { intros i Hi. destruct (go_to_cursor m i Hi) as (item & _ & ->).
    eexists _, _. split; [reflexivity|]. simpl. auto. }
  assert (Hedge : exists m' calls,
             Returns (m, [cue "menuedge"]) = Returns (m', calls) /\
             (0 <= index m' < len m')%Z /\ items m' = items m /\
             title m' = title m) by eauto 6.
  destruct op as [direction| | |letter]; simpl.
  - unfold move. destruct (Z.ltb_spec (index m + direction) 0); [exact Hedge|].
    destruct (Z.leb_spec (len m) (index m + direction)); [exact Hedge|].
    apply Hgo. lia.
  - unfold jump_first. destruct (index m =? 0)%Z; [exact Hedge|].
    apply Hgo. lia.
  - unfold jump_last. destruct (index m =? len m - 1)%Z; [exact Hedge|].
    apply Hgo. lia.
  - unfold jump_letter.
    pose proof (find_letter_spec (lower letter) (items m) 0) as H.
    destruct (find_letter (items m) (lower letter) 0) as [i|]; [|exact Hedge].
    apply Hgo. unfold len. lia.
Qed.

(** X9: in a menu whose cursor is on an item, every move of the cursor (a
    step up or down, or by any other amount, Home, End, a letter) returns
    without an exception and leaves the cursor on an item of the same
    list; Return then gives an item of the list. *)
Theorem cursor_stays_on_an_item (m : Menu.t) (op : Nav) :
  cursor_ok m ->
  exists m' calls item,
    nav m op = Returns (m', calls) /\
    cursor_ok m' /\ items m' = items m /\
    select m' = Returns (item, [cue "menuenter"]) /\
    In item (items m).
Proof.
  intros Hm. destruct (nav_cursor m op Hm) as (m' & calls & E & Hc & Hi & _).
  destruct (item_at_cursor m' (index m') Hc) as (item & Ei & Hn).
  exists m', calls, item. repeat split; try assumption; try apply Hc.
  - unfold select. rewrite Ei. reflexivity.
  - rewrite <- Hi. exact (nth_error_In _ _ Hn).
Qed.

Lemma cursor_stays_on_an_item_witness :
  let m := fst (Menu.init "Main Menu"
                  [{| MenuItem.label := "Start Run";
                      MenuItem.action := "start_run" |};
                   {| MenuItem.label := "Quit"; MenuItem.action := "quit" |}]) in
  cursor_ok m /\
  exists m' calls item,
    nav m (Move 1) = Returns (m', calls) /\
    cursor_ok m' /\ items m' = items m /\
    select m' = Returns (item, [cue "menuenter"]) /\
    In item (items m).
Proof.
  intros m.
  assert (H : cursor_ok m) by (unfold cursor_ok; simpl; unfold len; simpl; lia).
  split; [exact H|]. exact (cursor_stays_on_an_item m (Move 1) H).
Defined.

(** X10: a menu with no item, as [Menu(title, [])] builds it, raises
    [IndexError] on End and on Return: End sets the index to -1 and reads
    the item there, Return reads the item at index 0.  Up, Down, Home and
    the letters only play the edge cue. *)
Theorem empty_menu_raises (title : string) :
  let m := fst (Menu.init title []) in
  snd (Menu.init title []) = [] /\
  jump_last m = Fails IndexError /\
  select m = Fails IndexError /\
  (forall direction, move m direction = Returns (m, [cue "menuedge"])) /\
  jump_first m = Returns (m, [cue "menuedge"]) /\
  (forall letter, jump_letter m letter = Returns (m, [cue "menuedge"])).
Proof.
  simpl. repeat split.
  intros direction. unfold move, len. simpl.
  destruct (Z.ltb_spec direction 0); [reflexivity|].
  destruct (Z.leb_spec 0 direction); [reflexivity|lia].
Qed.

(** X11: a letter key moves the cursor to the first item whose label
    starts with the letter, whatever the case of either, says its label
    and plays the move cue; when no label starts with the letter the
    cursor stays and the edge cue is played. *)
Theorem letter_jumps_to_first_match (m : Menu.t) (letter : string) :
  (forall i item,
     nth_error (items m) i = Some item ->
     starts_with letter item = true ->
     (forall j other, (j < i)%nat -> nth_error (items m) j = Some other ->
                      starts_with letter other = false) ->
     jump_letter m letter
     = Returns (set_index m (Z.of_nat i),
                [cue "menumove"; Say (MenuItem.label item)])) /\
  ((forall item, In item (items m) -> starts_with letter item = false) ->
   jump_letter m letter = Returns (m, [cue "menuedge"])).
Proof.
  unfold starts_with, jump_letter.
  pose proof (find_letter_spec (lower letter) (items m) 0) as H.
  destruct (find_letter (items m) (lower letter) 0) as [k|].
  - destruct H as (Hr & (it & Hn & Hp) & Hmin). rewrite Z.sub_0_r in *.
    split.
    + intros i item Hi Hs Hfirst.
      assert (Hk : Z.to_nat k = i).
      { destruct (Nat.lt_trichotomy (Z.to_nat k) i) as [Hlt|[Heq|Hgt]];
          [|exact Heq|].
        - rewrite (Hfirst _ _ Hlt Hn) in Hp. discriminate.
        - rewrite (Hmin _ _ Hgt Hi) in Hs. discriminate. }
      subst i. rewrite Z2Nat.id by lia.
      destruct (go_to_cursor m k) as (it' & Hn' & ->); [unfold len; lia|].
      congruence.
    + intros Hnone. apply nth_error_In in Hn. rewrite (Hnone _ Hn) in Hp.
      discriminate.
  - split; [|reflexivity].
    intros i item Hi Hs _. apply nth_error_In in Hi.
    rewrite (H _ Hi) in Hs. discriminate.
Qed.

Lemma letter_jumps_to_first_match_witness :
  let m := fst (Menu.init "Main Menu"
                  [{| MenuItem.label := "Start Run";
                      MenuItem.action := "start_run" |};
                   {| MenuItem.label := "Shop"; MenuItem.action := "shop" |};
                   {| MenuItem.label := "Quit"; MenuItem.action := "quit" |}]) in
  jump_letter m "S" = Returns (m, [cue "menumove"; Say "Start Run"]) /\
  jump_letter m "q"
  = Returns (set_index m 2, [cue "menumove"; Say "Quit"]) /\
  jump_letter m "x" = Returns (m, [cue "menuedge"]).
Proof.
  intros m. destruct (letter_jumps_to_first_match m "S") as (H1 & _).
  destruct (letter_jumps_to_first_match m "q") as (H2 & _).
  destruct (letter_jumps_to_first_match m "x") as (_ & H3).
  split; [|split].
  - apply (H1 0%nat _ eq_refl eq_refl). intros j other Hj. inversion Hj.
  - apply (H2 2%nat _ eq_refl eq_refl).
    intros [|[|j]] other Hj; simpl; try (intros [= <-]; reflexivity). lia.
  - apply H3. simpl. intros item [<-|[<-|[<-|[]]]]; reflexivity.
Defined.

End MenuFacts.

(** ** The game with its menus *)

Module SessionFacts.

Import DictFacts Spec Invariant MenuSpec MenuFacts InvariantFacts.
Local Open Scope float_scope.

(** *** The log does not matter to the game *)

Lemma silent_emit (g : Game.t) (calls : Log) :
  Session.silent (Game.emit g calls) = Session.silent g.
Proof. reflexivity. Qed.

Lemma silent_set_log (g : Game.t) (l : Log) :
  Session.silent (Game.set_log g l) = Session.silent g.
Proof. reflexivity. Qed.

Lemma core_view_silent (g : Game.t) :
  core_view (Session.silent g) = core_view g.
Proof. reflexivity. Qed.

Lemma powerup_view_silent (g : Game.t) :
  powerup_view (Session.silent g) = powerup_view g.
Proof. reflexivity. Qed.

Lemma mode_view_silent (g : Game.t) :
  mode_view (Session.silent g) = mode_view g.
Proof. reflexivity. Qed.

Lemma handle_upgrade_silent (g : Game.t) (calls : Log) (powerup : string) :
  Session.silent (Game.handle_upgrade (Game.emit g calls) powerup)
  = Session.silent (Game.handle_upgrade g powerup).
Proof.
  unfold Game.handle_upgrade. simpl.
  destruct (Economy.buy_upgrade (Game.economy g) powerup) as [[|] e];
    reflexivity.
Qed.

Lemma handle_menu_action_silent (g : Game.t) (calls : Log) (action : string)
    (draw : nat) :
  Session.silent (Game.handle_menu_action (Game.emit g calls) action draw)
  = Session.silent (Game.handle_menu_action g action draw).
Proof.
  unfold Game.handle_menu_action.
  repeat match goal with
         | |- context [if String.eqb action ?s then _ else _] =>
             destruct (String.eqb action s)
         end;
    try apply handle_upgrade_silent; try reflexivity.
  - simpl. destruct (Economy.buy_mystery_box _) as [[|] e]; reflexivity.
  - simpl. destruct (_ <=? 0)%Z; [reflexivity|].
    destruct (Economy.open_mystery_box _ _) as [reward e]. reflexivity.
Qed.

(** *** The menu controller *)

Lemma controller_without_menu (c : MenuController.t Session.Callback)
    (event : UiEvent) :
  MenuController.active_menu c = None ->
  MenuController.handle_input Session.call c event = Returns (None, c, []).
Proof. unfold MenuController.handle_input. intros ->. reflexivity. Qed.

Lemma close_menu_closes (c : MenuController.t Session.Callback) :
  exists calls,
    MenuController.close_menu Session.call c
    = ({| MenuController.active_menu := None;
          MenuController.on_close := None |}, calls).
Proof.
  unfold MenuController.close_menu.
  destruct (MenuController.on_close c) as [f|]; [|eauto].
  destruct (Session.call f c) as [c' calls']. eauto.
Qed.

Lemma controller_escape (c : MenuController.t Session.Callback) :
  exists c' calls,
    MenuController.handle_input Session.call c (UI_KEYDOWN UK_ESCAPE)
    = Returns (None, c', calls) /\
    MenuController.active_menu c' = None.
Proof.
  unfold MenuController.handle_input.
  destruct (MenuController.active_menu c) as [m|] eqn:E; [|eauto].
  destruct (close_menu_closes c) as [calls ->]. eauto.
Qed.

Lemma controller_returns (c : MenuController.t Session.Callback)
    (event : UiEvent) :
  Session.menu_ok c ->
  exists action c' calls,
    MenuController.handle_input Session.call c event
    = Returns (action, c', calls) /\
    Session.menu_ok c'.
Proof.
  unfold Session.menu_ok, MenuController.handle_input. intros Hc.
  destruct (MenuController.active_menu c) as [m|] eqn:E;
    [|exists None, c, []; rewrite E; auto].
  assert (Hsame : exists action c' calls,
            Returns (@None string, c, @nil Event) = Returns (action, c', calls) /\
            match MenuController.active_menu c' with
            | Some m => cursor_ok m
            | None => True
            end).
  { exists None, c, []. rewrite E. auto. }
  assert (Hnav : forall op,
            exists action c' calls,
              MenuController.with_menu c (nav m op)
              = Returns (action, c', calls) /\
              match MenuController.active_menu c' with
              | Some m => cursor_ok m
              | None => True
              end).
  { intros op. destruct (nav_cursor m op Hc) as (m' & calls & -> & Hm' & _).
    simpl. eauto 6. }
  destruct event as [key|]; [|exact Hsame].
  destruct key; try exact Hsame.
  - exact (Hnav (Move (-1))).
  - exact (Hnav (Move 1)).
  - exact (Hnav First).
  - exact (Hnav Last).
  - destruct (item_at_cursor m (Menu.index m) Hc) as (item & Ei & _).
    unfold Menu.select. rewrite Ei.
    exists (Some (MenuItem.action item)), c, [Menu.cue "menuenter"].
    rewrite E. auto.
  - destruct (close_menu_closes c) as [calls ->].
    eexists _, _, _. split; [reflexivity|]. exact I.
  - destruct (is_letter_key c0); [|exact Hsame].
    exact (Hnav (Letter (String c0 EmptyString))).
Qed.

(** *** The game of a session is the game of [Game] *)

Lemma handle_menu_action_refines (s : Session.t) (action : string) (draw : nat) :
  Session.silent (Session.game (Session.handle_menu_action s action draw))
  = Session.silent (Game.handle_menu_action (Session.game s) action draw).
Proof.
  unfold Session.handle_menu_action.
  destruct (String.eqb action "start_run") eqn:E1.
  { apply String.eqb_eq in E1. subst action. reflexivity. }
  destruct (String.eqb action "shop") eqn:E2.
  { apply String.eqb_eq in E2. subst action. reflexivity. }
  destruct (String.eqb action "achievements") eqn:E3.
  { apply String.eqb_eq in E3. subst action. reflexivity. }
  destruct (String.eqb action "back") eqn:E4.
  { apply String.eqb_eq in E4. subst action. reflexivity. }
  reflexivity.
Qed.

Lemma handle_input_refines (s s' : Session.t) (event : UiEvent) (draw : nat) :
  Session.handle_input s event draw = Returns s' ->
  exists g',
    Game.handle_input (Session.game s) (Session.game_event event)
      (Session.answer s event) draw = Ok g' /\
    Session.silent (Session.game s') = Session.silent g'.
Proof.
  unfold Session.handle_input, Session.answer, Game.handle_input.
  intros H.
  assert (Hmenu :
            Game.state (Session.game s) = MENU ->
            match MenuController.handle_input Session.call
                    (Session.menu_controller s) event with
            | Returns (action, c, calls) =>
                let s0 := Session.emit (Session.set_menu_controller s c) calls in
                match action with
                | Some action =>
                    if String.eqb action "" then Returns s0
                    else Returns (Session.handle_menu_action s0 action draw)
                | None => Returns s0
                end
            | Fails f => Fails f
            end = Returns s' ->
            exists g',
              match
                match MenuController.handle_input Session.call
                        (Session.menu_controller s) event with
                | Returns (action, _, _) => action
                | Fails _ => None
                end
              with
              | Some action =>
                  if String.eqb action "" then Ok (Session.game s)
                  else Ok (Game.handle_menu_action (Session.game s) action draw)
              | None => Ok (Session.game s)
              end = Ok g' /\
              Session.silent (Session.game s') = Session.silent g').
  { intros _.
    destruct (MenuController.handle_input _ _ _) as [[[action c] calls]|f];
      [|discriminate].
    destruct action as [action|]; [destruct (String.eqb action "")|];
      intros [= <-]; eexists; (split; [reflexivity|]); try reflexivity.
    rewrite handle_menu_action_refines. apply handle_menu_action_silent. }
  destruct event as [key|]; [destruct key|]; simpl in *;
    try (injection H as <-; eexists; split; reflexivity);
    try (destruct (Ascii.eqb c "k"));
    destruct (Game.state (Session.game s)) eqn:Es;
    try exact (Hmenu eq_refl H);
    try (injection H as <-; eexists; split; reflexivity);
    try (unfold Session.lift in H;
         match type of H with
         | match ?r with Ok _ => _ | Raise _ => _ end = _ =>
             destruct r as [g1|e] eqn:Er; [|discriminate]
         end;
         injection H as <-; eexists; split; [first [exact Er|reflexivity]|];
         reflexivity).
Qed.

Lemma update_refines (s s' : Session.t) (dt : float) (r : Game.FrameRandom) :
  Session.update s dt r = Returns s' ->
  Game.update (Session.game s) dt r = Ok (Session.game s') /\
  Session.menu_controller s' = Session.menu_controller s.
Proof.
  unfold Session.update, Session.lift.
  destruct (Game.update _ _ _) as [g|e]; [|discriminate].
  intros [= <-]. auto.
Qed.

(** *** Every session is well formed *)

Lemma sound_silent (g g' : Game.t) :
  Session.silent g = Session.silent g' -> sound g' -> sound g.
Proof.
  intros H. apply sound_of_view.
  rewrite <- (core_view_silent g), H. apply core_view_silent.
Qed.

Lemma matches_silent (g g' : Game.t) :
  Session.silent g = Session.silent g' ->
  ledger_matches_effects g' -> ledger_matches_effects g.
Proof.
  intros H. apply FrameFacts.matches_of_view.
  rewrite <- (powerup_view_silent g), H. apply powerup_view_silent.
Qed.

Lemma menu_ok_built (title : string) (items : list MenuItem.t) (it : MenuItem.t) :
  cursor_ok (fst (Menu.init title (items ++ [it])%list)).
Proof.
  unfold cursor_ok, Menu.len. simpl. rewrite length_app. simpl. lia.
Qed.

Lemma menu_ok_handle_menu_action (s : Session.t) (action : string) (draw : nat) :
  Session.menu_ok (Session.menu_controller s) ->
  Session.menu_ok
    (Session.menu_controller (Session.handle_menu_action s action draw)).
Proof.
  intros H. unfold Session.handle_menu_action.
  destruct (String.eqb action "start_run"); [exact I|].
  destruct (String.eqb action "shop");
    [unfold Session.menu_ok, cursor_ok, Menu.len; simpl; lia|].
  destruct (String.eqb action "achievements").
  { unfold Session.menu_ok, Session.open_submenu,
      Session.build_achievements_menu.
    simpl. apply (menu_ok_built "Achievements"). }
  destruct (String.eqb action "back");
    [unfold Session.menu_ok, cursor_ok, Menu.len; simpl; lia|].
  exact H.
Qed.

Lemma menu_ok_handle_input (s s' : Session.t) (event : UiEvent) (draw : nat) :
  Session.handle_input s event draw = Returns s' ->
  Session.menu_ok (Session.menu_controller s) ->
  Session.menu_ok (Session.menu_controller s').
Proof.
  unfold Session.handle_input. intros H Hm.
  assert (Hmain : Session.menu_ok
                    (Session.menu_controller
                       (Session.return_to_main_menu
                          (Session.set_game s
                             (Game.set_state (Session.game s) MENU)))))
    by (unfold Session.menu_ok, cursor_ok, Menu.len; simpl; lia).
  assert (Hmenu :
            match MenuController.handle_input Session.call
                    (Session.menu_controller s) event with
            | Returns (action, c, calls) =>
                let s0 := Session.emit (Session.set_menu_controller s c) calls in
                match action with
                | Some action =>
                    if String.eqb action "" then Returns s0
                    else Returns (Session.handle_menu_action s0 action draw)
                | None => Returns s0
                end
            | Fails f => Fails f
            end = Returns s' ->
            Session.menu_ok (Session.menu_controller s')).
  { destruct (controller_returns _ event Hm) as (action & c & calls & -> & Hc).
    destruct action as [action|]; [destruct (String.eqb action "")|];
      intros [= <-]; try exact Hc.
    apply menu_ok_handle_menu_action. exact Hc. }
  destruct event as [key|]; [destruct key|]; simpl in *;
    try (injection H as <-; exact Hm);
    try (destruct (Ascii.eqb c "k"));
    destruct (Game.state (Session.game s)) eqn:Es;
    try exact (Hmenu H);
    try (injection H as <-; first [exact Hm | exact Hmain]);
    try (unfold Session.lift in H;
         match type of H with
         | match ?r with Ok _ => _ | Raise _ => _ end = _ =>
             destruct r as [g1|e]; [|discriminate]
         end;
         injection H as <-; exact Hm).
Qed.

Lemma well_formed_init : Session.well_formed Session.init.
Proof.
  split; [|split].
  - apply (sound_of_view Game.init); [reflexivity|exact sound_init].
  - apply (FrameFacts.matches_of_view Game.init);
      [reflexivity|exact LedgerFacts.matches_init].
  - unfold Session.menu_ok, cursor_ok, Menu.len. simpl. lia.
Qed.

Lemma well_formed_step (s s' : Session.t) :
  Session.step s s' -> Session.well_formed s -> Session.well_formed s'.
Proof.
  intros Hstep (Hs & Hl & Hm).
  destruct Hstep as [s s' event draw Hi|s s' dt r Hu].
  - destruct (handle_input_refines _ _ _ _ Hi) as (g' & Hg & Heq).
    split; [|split].
    + exact (sound_silent _ _ Heq (sound_handle_input _ _ _ _ _ Hg Hs)).
    + exact (matches_silent _ _ Heq
               (LedgerFacts.matches_handle_input _ _ _ _ _ Hg Hl)).
    + exact (menu_ok_handle_input _ _ _ _ Hi Hm).
  - destruct (update_refines _ _ _ _ Hu) as (Hg & Hc).
    split; [|split].
    + exact (sound_update _ _ _ _ Hg Hs).
    + exact (LedgerFacts.matches_update _ _ _ _ Hg Hl).
    + rewrite Hc. exact Hm.
Qed.

Lemma reaches_well_formed (s s' : Session.t) :
  Session.reaches s s' -> Session.well_formed s -> Session.well_formed s'.
Proof.
  induction 1 as [|s1 s2 _ IH Hstep]; [auto|].
  intros H. exact (well_formed_step _ _ Hstep (IH H)).
Qed.

Lemma handle_run_key_returns (g : Game.t) (key : Game.Key) :
  sound g -> exists g', Game.handle_run_key g key = Ok g'.
Proof.
  intros (_ & _ & (j & c & S1 & _) & _).
  unfold Game.handle_run_key, Dict.subscript. simpl. rewrite S1.
  destruct key; simpl; eauto.
Qed.

Lemma well_formed_returns (s : Session.t) (event : UiEvent) (draw : nat) :
  Session.well_formed s ->
  exists s', Session.handle_input s event draw = Returns s'.
Proof.
  intros (Hs & _ & Hm). unfold Session.handle_input.
  assert (Hmenu :
            exists s',
              match MenuController.handle_input Session.call
                      (Session.menu_controller s) event with
              | Returns (action, c, calls) =>
                  let s0 :=
                    Session.emit (Session.set_menu_controller s c) calls in
                  match action with
                  | Some action =>
                      if String.eqb action "" then Returns s0
                      else Returns (Session.handle_menu_action s0 action draw)
                  | None => Returns s0
                  end
              | Fails f => Fails f
              end = Returns s').
  { destruct (controller_returns _ event Hm) as (action & c & calls & -> & _).
    destruct action as [action|]; [destruct (String.eqb action "")|]; eauto. }
  assert (Hkey : forall key,
            exists s',
              Session.lift s (Game.handle_run_key (Session.game s) key)
              = Returns s').
  { intros key. destruct (handle_run_key_returns _ key Hs) as [g' ->].
    simpl. eauto. }
  destruct event as [key|]; [destruct key|];
    cbn [Session.game_event Session.game_key]; eauto;
    try (destruct (Ascii.eqb c "k"));
    destruct (Game.state (Session.game s));
    first [exact Hmenu | apply Hkey | eauto].
Qed.

Lemma matches_multiplier (g : Game.t) :
  ledger_matches_effects g -> multiplier_ok g.
Proof.
  intros (_ & _ & _ & Hm). unfold multiplier_ok. rewrite Hm.
  destruct (Dict.mem _ _); auto.
Qed.

(** *** The player is locked out after Escape *)

Lemma escape_locks (s s' : Session.t) (draw : nat) :
  Game.state (Session.game s) = MENU ->
  Session.handle_input s (UI_KEYDOWN UK_ESCAPE) draw = Returns s' ->
  Session.locked_out s' /\
  Session.silent (Session.game s') = Session.silent (Session.game s).
Proof.
  unfold Session.handle_input. intros Es. rewrite Es.
  destruct (controller_escape (Session.menu_controller s))
    as (c' & calls & -> & Hc).
  intros [= <-]. unfold Session.locked_out. simpl. auto.
Qed.

Lemma locked_out_step (s s' : Session.t) :
  Session.step s s' -> Session.locked_out s ->
  Session.locked_out s' /\
  Session.silent (Session.game s') = Session.silent (Session.game s).
Proof.
  intros Hstep (Es & Hc).
  destruct Hstep as [s s' event draw Hi|s s' dt r Hu].
  - unfold Session.handle_input in Hi. rewrite Es in Hi.
    rewrite (controller_without_menu _ event Hc) in Hi.
    unfold Session.locked_out.
    destruct event as [key|]; [destruct key|]; injection Hi as <-; simpl;
      auto.
  - unfold Session.update, Game.update in Hu. rewrite Es in Hu. simpl in Hu.
    injection Hu as <-. unfold Session.locked_out. auto.
Qed.

Lemma locked_out_forever (s s' : Session.t) :
  Session.reaches s s' -> Session.locked_out s ->
  Session.locked_out s' /\
  Session.silent (Session.game s') = Session.silent (Session.game s).
Proof.
  induction 1 as [|s1 s2 _ IH Hstep]; [auto|].
  intros H. destruct (IH H) as (H1 & E1).
  destruct (locked_out_step _ _ Hstep H1) as (H2 & E2).
  split; [exact H2|congruence].
Qed.

(** X12: Escape in a menu locks the player out.  [close_menu] calls
    [on_close], which reopens the main menu, and then clears the active
    menu; so after Escape, in the main menu, the shop or the achievements,
    the game is in its menu state with no menu.  From then on, whatever
    events and frames follow, no menu is active and nothing of the game
    changes but the log of its calls: no run can be started and Quit cannot
    be selected. *)
Theorem escape_locks_the_player_out (s s1 s2 : Session.t) (draw : nat) :
  Game.state (Session.game s) = MENU ->
  Session.handle_input s (UI_KEYDOWN UK_ESCAPE) draw = Returns s1 ->
  Session.reaches s1 s2 ->
  Session.locked_out s2 /\
  Session.silent (Session.game s2) = Session.silent (Session.game s).
Proof.
  intros Es H1 H2.
  destruct (escape_locks _ _ _ Es H1) as (L1 & E1).
  destruct (locked_out_forever _ _ H2 L1) as (L2 & E2).
  split; [exact L2|congruence].
Qed.

Lemma escape_locks_the_player_out_witness :
  exists s1 s2,
    Session.handle_input Session.init (UI_KEYDOWN UK_ESCAPE) 0 = Returns s1 /\
    Session.handle_input s1 (UI_KEYDOWN UK_RETURN) 0 = Returns s2 /\
    Session.locked_out s2 /\
    Game.state (Session.game s2) = MENU /\
    Game.running (Session.game s2) = true.
Proof.
  eexists. eexists. split; [vm_compute; reflexivity|].
  split; [vm_compute; reflexivity|].
  split; [|split; reflexivity].
  match goal with
  | |- Session.locked_out ?s2 =>
      refine (proj1 (escape_locks_the_player_out Session.init _ s2 0 eq_refl
                       _ (Session.reaches_step _ _ _ (Session.reaches_here _)
                            (Session.step_input _ _ (UI_KEYDOWN UK_RETURN) 0
                               _))));
        vm_compute; reflexivity
  end.
Defined.

(** X13: in every session reached from the start, no event makes
    [handle_input] raise, and no frame makes [update] raise as long as the
    frame time gives a finite score gain: the menu shown always has its
    cursor on one of its items, so the menus never raise [IndexError], and
    the counters looked up are always there. *)
Theorem session_never_raises (s : Session.t) (event : UiEvent) (draw : nat)
    (dt : float) (r : Game.FrameRandom) :
  Session.reaches Session.init s ->
  (exists s', Session.handle_input s event draw = Returns s') /\
  (delta_ok dt -> exists s', Session.update s dt r = Returns s').
Proof.
  intros H.
  pose proof (reaches_well_formed _ _ H well_formed_init) as Hw.
  split; [exact (well_formed_returns s event draw Hw)|].
  intros Hd. destruct Hw as (Hs & Hl & _).
  destruct (update_returns _ dt r Hs (matches_multiplier _ Hl) Hd) as [g' Hg].
  unfold Session.update. rewrite Hg. simpl. eauto.
Qed.

Lemma session_never_raises_witness :
  delta_ok 0.016 /\
  exists s,
    Session.handle_input Session.init (UI_KEYDOWN UK_RETURN) 0 = Returns s /\
    Game.state (Session.game s) = RUNNING /\
    (exists s', Session.handle_input s (UI_KEYDOWN UK_UP) 0 = Returns s') /\
    (exists s', Session.update s 0.016 no_spawn = Returns s').
Proof.
  assert (Hd : delta_ok 0.016) by (split; vm_compute; reflexivity).
  split; [exact Hd|].
  eexists. split; [vm_compute; reflexivity|]. split; [reflexivity|].
  match goal with
  | |- (exists s', Session.handle_input ?s _ _ = _) /\ _ =>
      assert (Hr : Session.reaches Session.init s)
  end.
  { refine (Session.reaches_step _ _ _ (Session.reaches_here _)
              (Session.step_input _ _ (UI_KEYDOWN UK_RETURN) 0 _)).
    vm_compute; reflexivity. }
  destruct (session_never_raises _ (UI_KEYDOWN UK_UP) 0 0.016 no_spawn Hr)
    as (H1 & H2).
  split; [exact H1|exact (H2 Hd)].
Defined.

(** X14: the game of a session is the game of [Game.handle_input] for the
    action that the menu controller answers: what the menus do besides
    (cursor, cues, speech, the callback on Escape) changes nothing of the
    game but its log. *)
Theorem session_agrees_with_game (s s' : Session.t) (event : UiEvent)
    (draw : nat) :
  Session.handle_input s event draw = Returns s' ->
  exists g',
    Game.handle_input (Session.game s) (Session.game_event event)
      (Session.answer s event) draw = Ok g' /\
    Session.silent (Session.game s') = Session.silent g'.
Proof. exact (handle_input_refines s s' event draw). Qed.

Lemma session_agrees_with_game_witness :
  exists s' g',
    Session.handle_input Session.init (UI_KEYDOWN UK_RETURN) 0 = Returns s' /\
    Session.answer Session.init (UI_KEYDOWN UK_RETURN) = Some "start_run" /\
    Game.handle_input (Session.game Session.init)
      (Session.game_event (UI_KEYDOWN UK_RETURN))
      (Session.answer Session.init (UI_KEYDOWN UK_RETURN)) 0 = Ok g' /\
    Session.silent (Session.game s') = Session.silent g'.
Proof.
  eexists.
  assert (H : Session.handle_input Session.init (UI_KEYDOWN UK_RETURN) 0
              = Returns
                  (Session.handle_menu_action
                     (Session.emit Session.init [Menu.cue "menuenter"])
                     "start_run" 0)) by reflexivity.
  destruct (session_agrees_with_game _ _ _ _ H) as (g' & Hg & Heq).
  exists g'. split; [exact H|]. split; [reflexivity|]. split; assumption.
Defined.

End SessionFacts.

(** ** The sound manager *)

Module SoundFacts.

Import PyFloat PyFloatFacts DictFacts MixerFacts.
Local Open Scope float_scope.

(** *** Comparisons *)

Lemma ltb_leb (a b : float) : (a <? b) = true -> (a <=? b) = true.
Proof.
  rewrite ltb_spec, leb_spec. unfold SFltb, SFleb.
  destruct (SFcompare (Prim2SF a) (Prim2SF b)) as [[| |]|]; congruence.
Qed.

Lemma ltb_asym (a b : float) : (a <? b) = true -> (b <? a) = false.
Proof. intros H. apply leb_not_ltb, ltb_leb, H. Qed.

Lemma nan_ltb (x y : float) : is_nan x = true -> (x <? y) = false.
Proof.
  intros H. apply Prim2SF_nan_iff in H. rewrite ltb_spec, H. reflexivity.
Qed.

Lemma add_nan (x y : float) : is_nan y = true -> is_nan (x + y) = true.
Proof.
  intros H. apply Prim2SF_nan_iff in H. apply Prim2SF_nan_iff.
  rewrite add_spec, H. destruct (Prim2SF x); reflexivity.
Qed.

(** [max(0.0, min(1.0, x))] is between 0 and 1, whatever [x] is. *)
Lemma clamp_unit (x : float) : Mixer.unit_range (pymax 0.0 (pymin 1.0 x)).
Proof.
  unfold Mixer.unit_range, pymin.
  destruct (x <? 1) eqn:E1.
  - unfold pymax. destruct (0 <? x) eqn:E0.
    + split; apply ltb_leb; assumption.
    + split; reflexivity.
  - split; reflexivity.
Qed.

Lemma clamp_one : pymax 0.0 (pymin 1.0 1.0) = 1.
Proof. reflexivity. Qed.

(** X15: the gains that [_pan_to_stereo] returns are between 0 and 1 and
    one of them is exactly 1, for every pan: a finite one, an infinity or a
    NaN (a NaN pans fully to the right).  The volume that
    [_distance_to_volume] returns is never negative and never a NaN,
    whatever the distance. *)
Theorem gains_are_well_formed (pan distance : float) :
  Mixer.unit_range (fst (SoundManager._pan_to_stereo pan)) /\
  Mixer.unit_range (snd (SoundManager._pan_to_stereo pan)) /\
  (fst (SoundManager._pan_to_stereo pan) = 1 \/
   snd (SoundManager._pan_to_stereo pan) = 1) /\
  (is_nan pan = true -> SoundManager._pan_to_stereo pan = (0, 1)) /\
  (0 <=? SoundManager._distance_to_volume distance) = true.
Proof.
  unfold SoundManager._pan_to_stereo. cbv zeta.
  split; [apply clamp_unit|]. split; [apply clamp_unit|].
  split; [|split].
  - simpl fst. simpl snd.
    set (p := pymax (-1.0) (pymin 1.0 pan)). clearbody p.
    destruct (0 <? p) eqn:Ep.
    + right. unfold pymin at 2. rewrite (ltb_asym _ _ Ep). reflexivity.
    + left. unfold pymax at 2. rewrite Ep. reflexivity.
  - intros Hn.
    assert (Hp : pymin 1.0 pan = 1.0)
      by (unfold pymin; rewrite (nan_ltb pan 1 Hn); reflexivity).
    rewrite Hp. reflexivity.
  - unfold SoundManager._distance_to_volume. cbv zeta.
    set (y := 1.0 - _). clearbody y. unfold pymax.
    destruct (0 <? y) eqn:Ey; [apply ltb_leb; exact Ey|reflexivity].
Qed.

Lemma gains_are_well_formed_witness :
  is_nan nan = true /\
  SoundManager._pan_to_stereo nan = (0, 1) /\
  SoundManager._pan_to_stereo (-0.5) = (1, 0.5) /\
  (0 <=? SoundManager._distance_to_volume 50) = true.
Proof.
  destruct (gains_are_well_formed nan 50) as (_ & _ & _ & H & H').
  split; [reflexivity|]. split; [exact (H eq_refl)|].
  split; [vm_compute; reflexivity|exact H'].
Defined.

(** X16: [adjust_music_volume] leaves the music volume between 0 and 1,
    whatever it was and whatever the delta is, an infinity or a NaN
    included; a NaN delta sets it to 1. *)
Theorem music_volume_stays_in_range (m : Mixer.t) (delta : float) :
  Mixer.unit_range
    (Mixer.music_volume (fst (Mixer.adjust_music_volume m delta))) /\
  (is_nan delta = true ->
   Mixer.music_volume (fst (Mixer.adjust_music_volume m delta)) = 1).
Proof.
  unfold Mixer.adjust_music_volume. cbv zeta. simpl fst.
  unfold Mixer.set_music_volume, Mixer.music_volume at 1 3.
  split; [apply clamp_unit|].
  intros Hn. unfold pymin.
  rewrite (nan_ltb _ 1 (add_nan (Mixer.music_volume m) delta Hn)).
  reflexivity.
Qed.

Lemma music_volume_stays_in_range_witness :
  is_nan nan = true /\
  Mixer.music_volume (fst (Mixer.adjust_music_volume Mixer.init nan)) = 1 /\
  Mixer.music_volume (fst (Mixer.adjust_music_volume Mixer.init 0.05))
  = 0.8500000000000001 /\
  snd (Mixer.adjust_music_volume Mixer.init 0.05)
  = Ok [Mixer.MusicSetVolume 0.8500000000000001;
        Mixer.Speak "Music volume 85 percent"].
Proof.
  split; [reflexivity|].
  split; [exact (proj2 (music_volume_stays_in_range Mixer.init nan) eq_refl)|].
  split; vm_compute; reflexivity.
Defined.

(** *** Loops *)

Lemma del_set_fresh {V : Type} (d : Dict.t V) (k : string) (v : V) :
  Dict.mem d k = false -> Dict.del (Dict.set d k v) k = d.
Proof.
  unfold Dict.mem, Dict.del.
  induction d as [|[k' v'] d IH]; simpl.
  - intros _. rewrite String.eqb_refl. reflexivity.
  - destruct (String.eqb k' k) eqn:E; [discriminate|].
    intros H. simpl. rewrite E. simpl. f_equal. exact (IH H).
Qed.

(** X17: the loops are kept by tag.  Starting a loop whose tag already
    plays does nothing, whatever sound is asked for.  Starting a loop with a
    fresh tag, when the sound loads and a channel is handed out, plays the
    sound on that channel without end and records it; stopping it then
    stops that channel and leaves the loops as they were before.  Stopping
    or updating a tag that does not play does nothing. *)
Theorem loops_are_kept_by_tag (m : Mixer.t) (loads : bool) (free : option nat)
    (tag name : string) (lane : Z) (distance : float) :
  (Dict.mem (Mixer.looping_instances m) tag = true ->
   Mixer.start_loop m loads free tag name lane distance = (m, [])) /\
  (Dict.mem (Mixer.looping_instances m) tag = false ->
   Mixer.stop_loop m tag = (m, []) /\
   Mixer.update_loop m tag lane distance = (m, []) /\
   (forall pan, Mixer.update_loop_with_pan m tag pan distance = (m, [])) /\
   forall channel,
     free = Some channel ->
     fst (Mixer.load_sound m loads name) = true ->
     let started := Mixer.start_loop m loads free tag name lane distance in
     snd started
     = [Mixer.set_volume channel (SoundManager.pan_of_lane lane) distance;
        Mixer.ChannelPlay channel name (-1)] /\
     Dict.get (Mixer.looping_instances (fst started)) tag
     = Some {| Mixer.name := name; Mixer.channel := channel;
               Mixer.lane := lane; Mixer.distance := distance |} /\
     snd (Mixer.stop_loop (fst started) tag) = [Mixer.ChannelStop channel] /\
     Mixer.looping_instances (fst (Mixer.stop_loop (fst started) tag))
     = Mixer.looping_instances m).
Proof.
  split.
  - intros H. unfold Mixer.start_loop. rewrite H. reflexivity.
  - intros H. pose proof H as Hget. unfold Dict.mem in Hget.
    destruct (Dict.get (Mixer.looping_instances m) tag) eqn:E;
      [discriminate|].
    split; [unfold Mixer.stop_loop; rewrite E; reflexivity|].
    split; [unfold Mixer.update_loop; rewrite E; reflexivity|].
    split; [intros pan; unfold Mixer.update_loop_with_pan; rewrite E;
            reflexivity|].
    intros channel -> Hl started. subst started.
    unfold Mixer.start_loop. rewrite H.
    destruct (Mixer.load_sound m loads name) as [sound m1] eqn:El.
    simpl in Hl. subst sound. simpl.
    assert (Hm1 : Mixer.looping_instances m1 = Mixer.looping_instances m).
    { unfold Mixer.load_sound in El.
      destruct (existsb _ _); [|destruct loads];
        first [discriminate El | injection El as <-; reflexivity]. }
    rewrite Hm1. split; [reflexivity|].
    split; [apply get_set_same|].
    unfold Mixer.stop_loop. simpl. rewrite get_set_same. simpl.
    split; [reflexivity|]. apply del_set_fresh. exact H.
Qed.

Lemma loops_are_kept_by_tag_witness :
  let started :=
    Mixer.start_loop Mixer.init true (Some 3%nat) "obstacle_1" "barrier_low"
      0 100 in
  Mixer.looping (fst started) = ["obstacle_1"] /\
  Mixer.start_loop (fst started) true (Some 4%nat) "obstacle_1" "train_rumble"
    1 50 = (fst started, []) /\
  snd (Mixer.stop_loop (fst started) "obstacle_1") = [Mixer.ChannelStop 3] /\
  Mixer.looping_instances (fst (Mixer.stop_loop (fst started) "obstacle_1"))
  = [].
Proof.
  intros started.
  destruct (loops_are_kept_by_tag Mixer.init true (Some 3%nat) "obstacle_1"
              "barrier_low" 0 100) as (_ & H).
  destruct (H eq_refl) as (_ & _ & _ & H').
  destruct (H' 3%nat eq_refl eq_refl) as (_ & _ & H3 & H4).
  destruct (loops_are_kept_by_tag (fst started) true (Some 4%nat) "obstacle_1"
              "train_rumble" 1 50) as (H2 & _).
  split; [reflexivity|]. split; [exact (H2 eq_refl)|].
  split; [exact H3|exact H4].
Defined.

End SoundFacts.

(** ** The systems, beyond the claims *)

Module ProgressFacts.

Import PyFloat PyFloatFacts DictFacts Spec Game Invariant SystemsSpec.
Import FrameFacts InvariantFacts.
Local Open Scope float_scope.

(** X18: opening a mystery box with none owned returns "None" and changes
    nothing.  With a box owned it uses up exactly one box and gives one of
    three rewards, by the draw: 500 coins, one key, or "Trophies", which adds
    nothing to the economy. *)
Theorem mystery_box_outcomes (e : Economy.t) (draw : nat) :
  let opened := Economy.open_mystery_box e draw in
  ((Economy.mystery_boxes e <= 0)%Z -> opened = ("None", e)) /\
  ((0 < Economy.mystery_boxes e)%Z ->
   Economy.mystery_boxes (snd opened) = (Economy.mystery_boxes e - 1)%Z /\
   Economy.powerup_durations (snd opened) = Economy.powerup_durations e /\
   ((draw mod 3 = 0)%nat /\ fst opened = "Coins" /\
    Economy.coins (snd opened) = (Economy.coins e + 500)%Z /\
    Economy.keys (snd opened) = Economy.keys e \/
    (draw mod 3 = 1)%nat /\ fst opened = "Keys" /\
    Economy.coins (snd opened) = Economy.coins e /\
    Economy.keys (snd opened) = (Economy.keys e + 1)%Z \/
    (draw mod 3 = 2)%nat /\ fst opened = "Trophies" /\
    Economy.coins (snd opened) = Economy.coins e /\
    Economy.keys (snd opened) = Economy.keys e)).
Proof.
  unfold Economy.open_mystery_box, choice. cbv zeta. split.
  - intros H. apply Z.leb_le in H. rewrite H. reflexivity.
  - intros H. apply Z.leb_gt in H. rewrite H.
    change (List.length ["Coins"; "Keys"; "Trophies"]) with 3%nat.
    pose proof (Nat.mod_upper_bound draw 3 ltac:(discriminate)) as Hb.
    destruct (draw mod 3)%nat as [|[|[|n]]]; simpl; auto 10. lia.
Qed.

Lemma mystery_box_outcomes_witness :
  let e := Economy.set_mystery_boxes (Economy.init Config.economy) 1 in
  (0 < Economy.mystery_boxes e)%Z /\
  Economy.open_mystery_box e 4 = ("Keys", Economy.set_keys (Economy.set_mystery_boxes e 0) 1) /\
  Economy.open_mystery_box (snd (Economy.open_mystery_box e 4)) 0
  = ("None", snd (Economy.open_mystery_box e 4)).
Proof.
  intros e. split; [reflexivity|]. split; [reflexivity|].
  exact (proj1 (mystery_box_outcomes (snd (Economy.open_mystery_box e 4)) 0)
           ltac:(discriminate)).
Defined.

(** *** The word hunt, letters collected in order *)

Lemma firstn_snoc (target : list string) (c : nat) :
  (c < List.length target)%nat ->
  (firstn c target ++ [nth c target ""])%list = firstn (S c) target.
Proof.
  revert c. induction target as [|x xs IH]; intros c Hc; simpl in Hc; [lia|].
  destruct c as [|c]; [reflexivity|].
  simpl. f_equal. apply IH. lia.
Qed.

Lemma next_letter_spelled (target : list string) (c : nat) :
  (c < List.length target)%nat ->
  WordHunt.next_letter (spelled target c) = nth c target "".
Proof.
  intros Hc. unfold WordHunt.next_letter, spelled. simpl.
  destruct target as [|x xs]; [simpl in Hc; lia|].
  rewrite length_firstn, Nat.min_l by lia.
  rewrite Nat.mod_small by exact Hc. reflexivity.
Qed.

Lemma collect_spelled (target : list string) (c : nat) :
  (c < List.length target)%nat ->
  WordHunt.collect (spelled target c) (nth c target "")
  = if Nat.eqb (S c) (List.length target)
    then (true, WordHunt.init target)
    else (false, spelled target (S c)).
Proof.
  intros Hc. unfold WordHunt.collect, spelled. simpl.
  rewrite firstn_snoc by exact Hc.
  rewrite length_firstn, Nat.min_l by lia. reflexivity.
Qed.

Lemma collect_next_prefix (target : list string) (n : nat) :
  forall c, (c + n < List.length target)%nat ->
    collect_next (spelled target c) n
    = (repeat false n, spelled target (c + n)%nat).
Proof.
  induction n as [|n IH]; intros c Hc; simpl.
  - rewrite Nat.add_0_r. reflexivity.
  - rewrite next_letter_spelled, collect_spelled by lia.
    destruct (Nat.eqb_spec (S c) (List.length target)) as [E|_]; [lia|].
    rewrite IH by lia. rewrite Nat.add_succ_r. reflexivity.
Qed.

Lemma collect_next_complete (target : list string) (n : nat) :
  forall c, (c + S n = List.length target)%nat ->
    collect_next (spelled target c) (S n)
    = ((repeat false n ++ [true])%list, WordHunt.init target).
Proof.
  induction n as [|n IH]; intros c Hc.
  - simpl. rewrite next_letter_spelled, collect_spelled by lia.
    destruct (Nat.eqb_spec (S c) (List.length target)) as [_|E]; [|lia].
    reflexivity.
  - change (collect_next (spelled target c) (S (S n)))
      with (let '(completed, w') :=
              WordHunt.collect (spelled target c)
                (WordHunt.next_letter (spelled target c)) in
            let '(signals, w'') := collect_next w' (S n) in
            (completed :: signals, w'')).
    rewrite next_letter_spelled, collect_spelled by lia.
    destruct (Nat.eqb_spec (S c) (List.length target)) as [E|_]; [lia|].
    rewrite IH by lia. reflexivity.
Qed.

(** X19: when every letter collected is the one that [next_letter] names
    at that moment, the letters collected so far are always the first
    letters of the word, in order; no completion is signalled before the
    last letter, and the last letter signals it and empties the collection.
    A word hunt with an empty word names the empty letter and never
    completes. *)
Theorem letters_in_order_spell_the_word (target : list string) :
  (forall k, (k < List.length target)%nat ->
     collect_next (WordHunt.init target) k
     = (repeat false k, spelled target k) /\
     WordHunt.next_letter (spelled target k) = nth k target "") /\
  (target <> [] ->
   collect_next (WordHunt.init target) (List.length target)
   = ((repeat false (List.length target - 1) ++ [true])%list,
      WordHunt.init target)) /\
  (forall (w : WordHunt.t) (l : string),
     WordHunt.letters w = [] ->
     WordHunt.next_letter w = "" /\ fst (WordHunt.collect w l) = false).
Proof.
  split; [|split].
  - intros k Hk. split; [|apply next_letter_spelled; exact Hk].
    exact (collect_next_prefix target k 0 Hk).
  - intros Hne. destruct (List.length target) as [|n] eqn:E.
    + destruct target; [congruence|discriminate].
    + replace (S n - 1)%nat with n by lia.
      apply (collect_next_complete target n 0). simpl. congruence.
  - intros w l Hw. unfold WordHunt.next_letter, WordHunt.collect.
    rewrite Hw. split; [reflexivity|].
    rewrite length_app. simpl. rewrite Nat.add_1_r. reflexivity.
Qed.

Lemma letters_in_order_spell_the_word_witness :
  collect_next (WordHunt.init Config.word_hunt_letters) 3
  = ([false; false; false],
     {| WordHunt.letters := ["H"; "U"; "N"; "T"];
        WordHunt.collected := ["H"; "U"; "N"] |}) /\
  collect_next (WordHunt.init Config.word_hunt_letters) 4
  = ([false; false; false; true], WordHunt.init Config.word_hunt_letters).
Proof.
  destruct (letters_in_order_spell_the_word Config.word_hunt_letters)
    as (H1 & H2 & _).
  split.
  - exact (proj1 (H1 3%nat ltac:(simpl; lia))).
  - exact (H2 ltac:(discriminate)).
Defined.

(** *** What the stages of a frame do to the score and the achievements *)

Lemma record_of_core (g g' : Game.t) :
  core_view g' = core_view g -> record_view g' = record_view g.
Proof. unfold core_view, record_view. intros [= _ _ _ -> ->]. reflexivity. Qed.

Lemma update_letters_record_view (g : Game.t) (dt : float) :
  record_view (update_letters g dt) = record_view g.
Proof.
  unfold update_letters.
  pose proof (for_each_keeps record_view
                (fun g l => update_letter g l dt)) as H.
  assert (Hb : forall g l,
             record_view (fst (update_letter g l dt)) = record_view g).
  { clear. intros g l. unfold update_letter.
    destruct (WordHunt.collect (word_hunt g) (LetterCollectible.letter _))
      as [[|] w]; cases; reflexivity. }
  specialize (H Hb (letters g) g).
  destruct (for_each _ g (letters g)) as [g1 ls]. exact H.
Qed.

Lemma update_coins_record_view (g g' : Game.t) (dt : float) :
  update_coins g dt = Ok g' -> record_view g' = record_view g.
Proof.
  unfold update_coins.
  destruct (update_coins_loop g (coins g) dt) as [[g1 cs]|] eqn:E; simpl;
    [|discriminate].
  intros [= <-].
  apply (coins_loop_keeps record_view dt) in E; [exact E|].
  clear. intros g c r. unfold update_coin, collect_coin, Dict.subscript. simpl.
  destruct (Dict.get (stats g) "total_coins"); simpl; cases;
    intros [= <-]; reflexivity.
Qed.

Lemma check_achievements_shape (g g' : Game.t) :
  check_achievements g = Ok g' ->
  score g' = score g /\
  (achievement_system g' = achievement_system g \/
   exists n,
     achievement_system g'
     = {| AchievementSystem.unlocked :=
            Dict.set (AchievementSystem.unlocked (achievement_system g)) n
              true |}).
Proof.
  unfold check_achievements.
  destruct (AchievementSystem.check _ _) as [[[u a] calls]|] eqn:E; simpl;
    [|discriminate].
  pose proof (check_shape _ _ _ _ _ E) as Ha.
  destruct u as [name|]; [destruct (String.eqb name "")|];
    intros [= <-]; simpl; auto.
Qed.

Lemma unlock_keeps (a : AchievementSystem.t) (n name : string) :
  is_unlocked a name ->
  is_unlocked
    {| AchievementSystem.unlocked :=
         Dict.set (AchievementSystem.unlocked a) n true |} name.
Proof.
  unfold is_unlocked. simpl. intros H.
  destruct (string_dec n name) as [->|Hn];
    [apply get_set_same|rewrite get_set_other by exact Hn; exact H].
Qed.

Lemma handle_menu_action_achievements (g : Game.t) (action : string)
    (draw : nat) :
  achievement_system (handle_menu_action g action draw) = achievement_system g.
Proof.
  unfold handle_menu_action, handle_upgrade, return_to_main_menu.
  repeat match goal with
         | |- context [if String.eqb action ?s then _ else _] =>
             destruct (String.eqb action s)
         end;
    cases; try reflexivity;
    repeat match goal with
           | |- context [Economy.buy_upgrade ?e ?p] =>
               destruct (Economy.buy_upgrade e p) as [[|] ?]
           | |- context [Economy.buy_mystery_box ?e] =>
               destruct (Economy.buy_mystery_box e) as [[|] ?]
           | |- context [Economy.open_mystery_box ?e ?d] =>
               destruct (Economy.open_mystery_box e d) as [? ?]
           end; reflexivity.
Qed.

Lemma handle_input_achievements (g g' : Game.t) (event : InputEvent)
    (menu_action : option string) (draw : nat) :
  handle_input g event menu_action draw = Ok g' ->
  achievement_system g' = achievement_system g.
Proof.
  unfold handle_input. intros Hi.
  assert (Hmenu : match menu_action with
                  | Some action =>
                      if String.eqb action "" then Ok g
                      else Ok (handle_menu_action g action draw)
                  | None => Ok g
                  end = Ok g' -> achievement_system g' = achievement_system g).
  { destruct menu_action as [action|]; [destruct (String.eqb action "")|];
      intros [= <-]; auto using handle_menu_action_achievements. }
  assert (Hkey : forall key, handle_run_key g key = Ok g' ->
                             achievement_system g' = achievement_system g).
  { intros key. unfold handle_run_key, Dict.subscript.
    destruct key; simpl; try (intros [= <-]; reflexivity).
    destruct (Dict.get (stats g) "jumps"); simpl; [|discriminate].
    intros [= <-]. reflexivity. }
  assert (Hcont : achievement_system (continue_run_with_key g)
                  = achievement_system g)
    by (unfold continue_run_with_key; cases; reflexivity).
  destruct event as [key|]; [destruct key|]; destruct (state g);
    first [ exact (Hmenu Hi)
          | exact (Hkey _ Hi)
          | injection Hi as <-; first [reflexivity | exact Hcont] ].
Qed.

(** X20: an achievement that is unlocked stays unlocked through every
    event and every frame, so also when a new run starts: nothing in the
    event loop writes [False] into the table, and [reset_run] leaves it
    alone. *)
Theorem achievements_are_permanent (g g' : Game.t) (name : string) :
  step g g' ->
  is_unlocked (achievement_system g) name ->
  is_unlocked (achievement_system g') name.
Proof.
  intros Hstep Hu.
  destruct Hstep as [g g' event action draw Hi|g g' dt r Hu'].
  - rewrite (handle_input_achievements _ _ _ _ _ Hi). exact Hu.
  - revert Hu.
    apply (fun H1 H2 H3 H4 H5 H6 H7 H8 H9 =>
             update_invariant
               (fun g0 => is_unlocked (achievement_system g0) name)
               dt r H1 H2 H3 H4 H5 H6 H7 H8 H9 g g' Hu').
    + intros g0 H. exact H.
    + intros g0.
      pose proof (record_of_core _ _ (update_powerups_core_view g0 dt))
        as [= _ ->]. auto.
    + intros g0.
      pose proof (record_of_core _ _ (update_obstacles_core_view g0 dt))
        as [= _ ->]. auto.
    + intros g0.
      pose proof (record_of_core _ _ (update_powerup_objects_core_view g0 dt))
        as [= _ ->]. auto.
    + intros g0. pose proof (update_letters_record_view g0 dt) as [= _ ->].
      auto.
    + intros g0 g1 E.
      pose proof (update_coins_record_view _ _ _ E) as [= _ ->]. auto.
    + intros g0 g1 E. destruct (update_score_shape _ _ _ E) as [gain ->].
      auto.
    + intros g0. pose proof (record_of_core _ _ (spawn_core_view g0 r))
        as [= _ ->]. auto.
    + intros g0 g1 E H.
      destruct (check_achievements_shape _ _ E) as (_ & [->|[n ->]]);
        [exact H|apply unlock_keeps; exact H].
Qed.

Lemma achievements_are_permanent_witness :
  let g := set_achievement_system started
             (snd (fst (AchievementSystem.unlock AchievementSystem.init
                          "Gold Digger"))) in
  is_unlocked (achievement_system g) "Gold Digger" /\
  exists g', update g 0.016 no_spawn = Ok g' /\
             is_unlocked (achievement_system g') "Gold Digger".
Proof.
  intros g. split; [reflexivity|].
  eexists. split; [vm_compute; reflexivity|].
  match goal with
  | |- is_unlocked (achievement_system ?g') _ =>
      refine (achievements_are_permanent g g' "Gold Digger"
                (step_update g g' 0.016 no_spawn _) eq_refl);
        vm_compute; reflexivity
  end.
Defined.

(** *** The score *)

Lemma binary_round_aux_nonneg (mx ex : Z) (lx : location) :
  (0 <= mx)%Z ->
  nonneg_sf (binary_round_aux prec emax false mx ex lx) = true.
Proof.
  intros H. unfold binary_round_aux.
  pose proof (shr_fexp_nonneg mx ex lx H) as H1.
  destruct (shr_fexp prec emax mx ex lx) as [mrs' e']. simpl in H1.
  pose proof (shr_fexp_nonneg _ e' loc_Exact
                (round_nearest_even_nonneg _ (loc_of_shr_record mrs') H1)) as H2.
  destruct (shr_fexp prec emax _ e' loc_Exact) as [mrs'' e'']. simpl in H2.
  destruct (shr_m mrs''); [reflexivity| |lia].
  destruct (Z.leb _ _); reflexivity.
Qed.

Lemma leb_zero_nonneg (x : float) :
  (0 <=? x) = true -> nonneg_sf (Prim2SF x) = true.
Proof.
  rewrite leb_spec. change (Prim2SF 0) with (S754_zero false).
  unfold SFleb, SFcompare.
  destruct (Prim2SF x) as [s|[|]| |[|] m e]; try reflexivity; discriminate.
Qed.

Lemma mul_nonneg (x y : float) :
  nonneg_sf (Prim2SF x) = true -> nonneg_sf (Prim2SF y) = true ->
  is_nan (x * y) = true \/ nonneg_sf (Prim2SF (x * y)) = true.
Proof.
  intros Hx Hy.
  destruct (is_nan (x * y)) eqn:En; [left; reflexivity|right].
  assert (Hn : Prim2SF (x * y) <> S754_nan).
  { intros C. apply Prim2SF_nan_iff in C. congruence. }
  revert Hn. rewrite mul_spec. unfold SF64mul, SFmul.
  destruct (Prim2SF x) as [sx|[|]| |[|] mx ex]; try discriminate Hx;
    destruct (Prim2SF y) as [sy|[|]| |[|] my ey]; try discriminate Hy;
    intros Hn; try reflexivity; try congruence.
  apply binary_round_aux_nonneg. lia.
Qed.

Lemma truncation_nonneg (m : positive) (e : Z) :
  (0 <= if 0 <=? e then Z.pos m * 2 ^ e else Z.pos m / 2 ^ (- e))%Z.
Proof.
  destruct (0 <=? e)%Z eqn:E.
  - apply Z.leb_le in E. apply Z.mul_nonneg_nonneg; [lia|].
    apply Z.pow_nonneg. lia.
  - apply Z.leb_gt in E. apply Z.div_pos; [lia|].
    apply Z.pow_pos_nonneg; lia.
Qed.

Lemma to_int_nonneg (x : float) (n : Z) :
  nonneg_sf (Prim2SF x) = true -> to_int x = Ok n -> (0 <= n)%Z.
Proof.
  unfold to_int.
  destruct (Prim2SF x) as [s|[|]| |[|] m e]; try discriminate;
    intros _ H; injection H as <-; [lia|].
  exact (truncation_nonneg m e).
Qed.

Lemma to_int_nan (x : float) (n : Z) :
  is_nan x = true -> to_int x = Ok n -> False.
Proof.
  intros H. apply Prim2SF_nan_iff in H. unfold to_int. rewrite H.
  discriminate.
Qed.

Lemma gain_nonneg (rate dt : float) (gain : Z) :
  nonneg_sf (Prim2SF rate) = true ->
  (0 <=? dt) = true ->
  to_int (rate * dt * 60) = Ok gain -> (0 <= gain)%Z.
Proof.
  intros Hr Hd Hg. apply leb_zero_nonneg in Hd.
  destruct (mul_nonneg rate dt Hr Hd) as [Hn|Hp].
  - exfalso. apply (to_int_nan (rate * dt * 60) gain); [|exact Hg].
    apply Prim2SF_nan_iff. rewrite mul_spec.
    apply Prim2SF_nan_iff in Hn. rewrite Hn. reflexivity.
  - assert (H60 : nonneg_sf (Prim2SF 60) = true) by (vm_compute; reflexivity).
    destruct (mul_nonneg (rate * dt) 60 Hp H60) as [Hn|Hp'].
    + exfalso. exact (to_int_nan _ _ Hn Hg).
    + exact (to_int_nonneg _ _ Hp' Hg).
Qed.

Lemma update_score_grows (g g' : Game.t) (dt : float) :
  multiplier_ok g -> (0 <=? dt) = true ->
  update_score g dt = Ok g' -> (score g <= score g')%Z.
Proof.
  intros Hm Hd. unfold update_score.
  assert (Hrate : forall rate,
            nonneg_sf (Prim2SF rate) = true ->
            (gain <- to_int (rate * dt * 60) ;;
             Ok (set_stats (set_score g (score g + gain))
                   (Dict.set (stats g) "score" (score g + gain)%Z)))
            = Ok g' -> (score g <= score g')%Z).
  { intros rate Hr.
    destruct (to_int (rate * dt * 60)) as [gain|] eqn:E; simpl;
      [|discriminate].
    intros [= <-]. simpl. pose proof (gain_nonneg _ _ _ Hr Hd E). lia. }
  destruct Hm as [Hm|Hm]; rewrite Hm.
  - change (of_int (Config.score_rate * 1)) with (Ok 10). simpl bind.
    apply Hrate. vm_compute. reflexivity.
  - change (of_int (Config.score_rate * 2)) with (Ok 20). simpl bind.
    apply Hrate. vm_compute. reflexivity.
Qed.

(** X21: in a state the game can reach, a frame whose time is not negative
    never lowers the score: the gain [int(rate * delta * 60)] is not
    negative, and no other stage of the frame touches the score. *)
Theorem score_never_decreases (g g' : Game.t) (dt : float) (r : FrameRandom) :
  reachable g ->
  (0 <=? dt) = true ->
  update g dt r = Ok g' ->
  (score g <= score g')%Z.
Proof.
  intros Hr Hd Hu. pose proof (reachable_multiplier g Hr) as Hm.
  assert (H : (score g <= score g')%Z /\ multiplier_ok g');
    [|exact (proj1 H)].
  apply (fun H1 H2 H3 H4 H5 H6 H7 H8 H9 =>
           update_invariant
             (fun g0 => (score g <= score g0)%Z /\ multiplier_ok g0)
             dt r H1 H2 H3 H4 H5 H6 H7 H8 H9 g g' Hu
             (conj (Z.le_refl _) Hm)).
  - intros g0 H. exact H.
  - intros g0 (H1 & H2).
    pose proof (record_of_core _ _ (update_powerups_core_view g0 dt))
      as [= -> _].
    split; [exact H1|exact (update_powerups_multiplier _ dt H2)].
  - intros g0 (H1 & H2).
    pose proof (record_of_core _ _ (update_obstacles_core_view g0 dt))
      as [= -> _].
    split; [exact H1|].
    exact (multiplier_of_view _ _ (update_obstacles_powerup_view g0 dt) H2).
  - intros g0 (H1 & H2).
    pose proof (record_of_core _ _ (update_powerup_objects_core_view g0 dt))
      as [= -> _].
    split; [exact H1|exact (update_powerup_objects_multiplier _ dt H2)].
  - intros g0 (H1 & H2).
    pose proof (update_letters_record_view g0 dt) as [= -> _].
    split; [exact H1|].
    exact (multiplier_of_view _ _ (update_letters_powerup_view g0 dt) H2).
  - intros g0 g1 E (H1 & H2).
    pose proof (update_coins_record_view _ _ _ E) as [= -> _].
    split; [exact H1|].
    exact (multiplier_of_view _ _ (update_coins_powerup_view _ _ _ E) H2).
  - intros g0 g1 E (H1 & H2).
    pose proof (update_score_grows _ _ _ H2 Hd E).
    split; [lia|].
    exact (multiplier_of_view _ _ (update_score_powerup_view _ _ _ E) H2).
  - intros g0 (H1 & H2).
    pose proof (record_of_core _ _ (spawn_core_view g0 r)) as [= -> _].
    split; [exact H1|].
    exact (multiplier_of_view _ _ (spawn_powerup_view g0 r) H2).
  - intros g0 g1 E (H1 & H2).
    destruct (check_achievements_shape _ _ E) as (-> & _).
    split; [exact H1|].
    exact (multiplier_of_view _ _ (check_achievements_powerup_view _ _ E) H2).
Qed.

Lemma score_never_decreases_witness :
  reachable started /\ (0 <=? 0.25) = true /\
  exists g',
    update started 0.25 no_spawn = Ok g' /\
    score g' = 150%Z /\ (score started <= score g')%Z.
Proof.
  assert (Hr : reachable started).
  { apply (reachable_step Game.init); [constructor|].
    apply (step_input _ _ (KEYDOWN K_other) (Some "start_run") 0).
    reflexivity. }
  split; [exact Hr|]. split; [reflexivity|].
  eexists. split; [vm_compute; reflexivity|]. split; [reflexivity|].
  match goal with
  | |- (_ <= score ?g')%Z =>
      refine (score_never_decreases started g' 0.25 no_spawn Hr eq_refl _);
        vm_compute; reflexivity
  end.
Defined.

End ProgressFacts.

(** ** The entities on the track *)

Module WorldFacts.

Import PyFloat DictFacts Spec Game Invariant FrameFacts InvariantFacts.
Local Open Scope float_scope.

Lemma world_of_lists (g : Game.t) : world_ok g <-> lists_ok (lists_view g).
Proof. reflexivity. Qed.

Lemma world_of_view (g g' : Game.t) :
  lists_view g' = lists_view g -> world_ok g -> world_ok g'.
Proof.
  intros H. rewrite !world_of_lists, H. auto.
Qed.

(** *** Loops *)

Lemma for_each_outputs {E : Type} (body : Game.t -> E -> Game.t * E)
    (P Q : E -> Prop) :
  (forall g e, P e -> Q (snd (body g e))) ->
  forall es g, Forall P es -> Forall Q (snd (for_each body g es)).
Proof.
  intros Hb. induction es as [|e es IH]; intros g Hes; simpl; [constructor|].
  inversion Hes as [|? ? He Hes']; subst.
  specialize (Hb g e He). destruct (body g e) as [g1 e1]. simpl in Hb.
  specialize (IH g1 Hes'). destruct (for_each body g1 es) as [g2 es2].
  simpl in *. constructor; assumption.
Qed.

Lemma coins_loop_outputs (dt : float) (P Q : CoinCollectible.t -> Prop) :
  (forall g c r, P c -> update_coin g c dt = Ok r -> Q (snd r)) ->
  forall cs g r, Forall P cs -> update_coins_loop g cs dt = Ok r ->
                 Forall Q (snd r).
Proof.
  intros Hb. induction cs as [|c cs IH]; intros g r Hcs; simpl.
  - intros [= <-]. constructor.
  - inversion Hcs as [|? ? Hc Hcs']; subst.
    destruct (update_coin g c dt) as [[g1 c1]|] eqn:E1; simpl; [|discriminate].
    destruct (update_coins_loop g1 cs dt) as [[g2 cs2]|] eqn:E2; simpl;
      [|discriminate].
    intros [= <-]. simpl. constructor.
    + exact (Hb _ _ _ Hc E1).
    + exact (IH _ _ Hcs' E2).
Qed.

Lemma filter_ok {E : Type} (active : E -> bool) (Q R : E -> Prop) (es : list E) :
  (forall e, Q e -> active e = true -> R e) ->
  Forall Q es -> Forall R (filter active es).
Proof.
  intros H Hes. apply Forall_forall. intros e He.
  apply filter_In in He as (Hin & Ha).
  rewrite Forall_forall in Hes. auto.
Qed.

(** *** Draws *)

Lemma choice_lane (draw : nat) : lane_ok (choice Config.lanes draw 0%Z).
Proof.
  unfold choice, Config.lanes, lane_ok.
  generalize (draw mod List.length [0; 1; 2]%Z)%nat. intros k.
  destruct k as [|[|[|[|n]]]]; simpl; lia.
Qed.

Lemma choice_of_two (a b : string) (draw : nat) :
  choice [a; b] draw "" = a \/ choice [a; b] draw "" = b.
Proof.
  unfold choice. change (List.length [a; b]) with 2%nat.
  pose proof (Nat.mod_upper_bound draw 2 ltac:(discriminate)) as Hb.
  destruct (draw mod 2)%nat as [|[|n]]; simpl; auto. lia.
Qed.

Lemma spawned_ahead : ahead true Config.max_distance.
Proof. split; reflexivity. Qed.

(** *** The four loops of a frame *)

Ltac tests :=
  repeat (match goal with
          | |- context [if ?c then _ else _] => destruct c eqn:?
          | |- context [match ?x with Some _ => _ | None => _ end] =>
              destruct x
          end; simpl).

Lemma update_obstacle_output (g : Game.t) (o : Obstacle.t) (dt : float) :
  obstacle_ok o ->
  Obstacle.active (snd (update_obstacle g o dt)) = true ->
  obstacle_ok (snd (update_obstacle g o dt)).
Proof.
  intros (_ & Hl & Hh & Hk).
  unfold update_obstacle, track_obstacle, obstacle_arrival, obstacle_ok, ahead.
  destruct (negb (Obstacle.active o)) eqn:Ea; simpl.
  { intros H. rewrite H in Ea. discriminate. }
  tests; intros H; try discriminate H; auto.
Qed.

Lemma update_obstacles_world (g : Game.t) (dt : float) :
  world_ok g -> world_ok (update_obstacles g dt).
Proof.
  intros (Ho & Hp & Hl & Hc). unfold update_obstacles.
  pose proof (for_each_keeps (fun g => (powerups g, letters g, coins g))
                (fun g o => update_obstacle g o dt)) as Hk.
  specialize (Hk (fun g o => ltac:(
    unfold update_obstacle, track_obstacle, obstacle_arrival,
      handle_collision; cases; reflexivity)) (obstacles g) g).
  pose proof (for_each_outputs (fun g o => update_obstacle g o dt)
                obstacle_ok
                (fun o' => Obstacle.active o' = true -> obstacle_ok o')
                (fun g o => update_obstacle_output g o dt)
                (obstacles g) g Ho) as Hq.
  destruct (for_each _ g (obstacles g)) as [g1 os]. simpl in Hk, Hq.
  injection Hk as E1 E2 E3.
  split; [|split; [|split]]; simpl; try congruence.
  apply (filter_ok _ _ _ _ (fun e H => H) Hq).
Qed.

Lemma update_powerup_object_output (g : Game.t) (p : PowerUp.t) (dt : float) :
  powerup_ok p ->
  PowerUp.active (snd (update_powerup_object g p dt)) = true ->
  powerup_ok (snd (update_powerup_object g p dt)).
Proof.
  intros (_ & Hl). unfold update_powerup_object, powerup_ok, ahead.
  destruct (negb (PowerUp.active p)) eqn:Ea; simpl.
  { intros H. rewrite H in Ea. discriminate. }
  tests; intros H; try discriminate H; auto.
Qed.

Lemma update_powerup_objects_world (g : Game.t) (dt : float) :
  world_ok g -> world_ok (update_powerup_objects g dt).
Proof.
  intros (Ho & Hp & Hl & Hc). unfold update_powerup_objects.
  pose proof (for_each_keeps (fun g => (obstacles g, letters g, coins g))
                (fun g p => update_powerup_object g p dt)) as Hk.
  specialize (Hk (fun g p => ltac:(
    unfold update_powerup_object, activate_powerup; cases; reflexivity))
    (powerups g) g).
  pose proof (for_each_outputs (fun g p => update_powerup_object g p dt)
                powerup_ok
                (fun p' => PowerUp.active p' = true -> powerup_ok p')
                (fun g p => update_powerup_object_output g p dt)
                (powerups g) g Hp) as Hq.
  destruct (for_each _ g (powerups g)) as [g1 ps]. simpl in Hk, Hq.
  injection Hk as E1 E2 E3.
  split; [|split; [|split]]; simpl; try congruence.
  apply (filter_ok _ _ _ _ (fun e H => H) Hq).
Qed.

Lemma update_letter_output (g : Game.t) (l : LetterCollectible.t) (dt : float) :
  letter_ok l ->
  LetterCollectible.active (snd (update_letter g l dt)) = true ->
  letter_ok (snd (update_letter g l dt)).
Proof.
  intros (_ & Hl). unfold update_letter, letter_ok, ahead.
  destruct (negb (LetterCollectible.active l)) eqn:Ea; simpl.
  { intros H. rewrite H in Ea. discriminate. }
  destruct (WordHunt.collect (word_hunt g) (LetterCollectible.letter _))
    as [[|] w];
    tests; intros H; try discriminate H; auto.
Qed.

Lemma update_letters_world (g : Game.t) (dt : float) :
  world_ok g -> world_ok (update_letters g dt).
Proof.
  intros (Ho & Hp & Hl & Hc). unfold update_letters.
  pose proof (for_each_keeps (fun g => (obstacles g, powerups g, coins g))
                (fun g l => update_letter g l dt)) as Hk.
  assert (Hb : forall g l,
             (fun g => (obstacles g, powerups g, coins g))
               (fst (update_letter g l dt))
             = (obstacles g, powerups g, coins g)).
  { clear. intros g l. unfold update_letter.
    destruct (WordHunt.collect (word_hunt g) (LetterCollectible.letter _))
      as [[|] w]; cases; reflexivity. }
  specialize (Hk Hb (letters g) g).
  pose proof (for_each_outputs (fun g l => update_letter g l dt)
                letter_ok
                (fun l' => LetterCollectible.active l' = true -> letter_ok l')
                (fun g l => update_letter_output g l dt)
                (letters g) g Hl) as Hq.
  destruct (for_each _ g (letters g)) as [g1 ls]. simpl in Hk, Hq.
  injection Hk as E1 E2 E3.
  split; [|split; [|split]]; simpl; try congruence.
  apply (filter_ok _ _ _ _ (fun e H => H) Hq).
Qed.

Lemma update_coin_output (g : Game.t) (c : CoinCollectible.t) (dt : float)
    (r : Game.t * CoinCollectible.t) :
  coin_ok c -> update_coin g c dt = Ok r ->
  CoinCollectible.active (snd r) = true -> coin_ok (snd r).
Proof.
  intros (_ & Hl). unfold update_coin, collect_coin, Dict.subscript, coin_ok,
    ahead.
  destruct (negb (CoinCollectible.active c)) eqn:Ea; simpl.
  { intros [= <-] H. simpl in H. rewrite H in Ea. discriminate. }
  destruct (Dict.get (stats g) "total_coins"); simpl;
    tests; intros [= <-]; simpl; intros H; try discriminate H; auto.
Qed.

Lemma update_coins_world (g g' : Game.t) (dt : float) :
  update_coins g dt = Ok g' -> world_ok g -> world_ok g'.
Proof.
  unfold update_coins. intros H (Ho & Hp & Hl & Hc).
  destruct (update_coins_loop g (coins g) dt) as [[g1 cs]|] eqn:E; simpl in H;
    [|discriminate].
  injection H as <-.
  pose proof (coins_loop_keeps (fun g => (obstacles g, powerups g, letters g))
                dt) as Hk.
  assert (Hb : forall g c r, update_coin g c dt = Ok r ->
                 (fun g => (obstacles g, powerups g, letters g)) (fst r)
                 = (obstacles g, powerups g, letters g)).
  { clear. intros g c r. unfold update_coin, collect_coin, Dict.subscript.
    simpl. destruct (Dict.get (stats g) "total_coins"); simpl; cases;
      intros [= <-]; reflexivity. }
  specialize (Hk Hb _ _ _ E). simpl in Hk. injection Hk as E1 E2 E3.
  pose proof (coins_loop_outputs dt coin_ok
                (fun c' => CoinCollectible.active c' = true -> coin_ok c')
                (fun g c r => update_coin_output g c dt r) _ _ _ Hc E) as Hq.
  simpl in Hq.
  split; [|split; [|split]]; simpl; try congruence.
  apply (filter_ok _ _ _ _ (fun e H => H) Hq).
Qed.

(** *** The other stages, and the inputs *)

Lemma update_powerups_lists_view (g : Game.t) (dt : float) :
  lists_view (update_powerups g dt) = lists_view g.
Proof.
  unfold update_powerups.
  destruct (sweep (active_powerups g) dt) as [ledger ex].
  change (lists_view g) with (lists_view (set_active_powerups g ledger)).
  generalize (set_active_powerups g ledger). clear g ledger.
  induction ex as [|k ex IH]; intros g; simpl; [reflexivity|].
  rewrite IH. unfold teardown, lists_view. cases; reflexivity.
Qed.

Lemma check_achievements_lists_view (g g' : Game.t) :
  check_achievements g = Ok g' -> lists_view g' = lists_view g.
Proof.
  unfold check_achievements.
  destruct (AchievementSystem.check _ _) as [[[u a] calls]|]; simpl;
    [|discriminate].
  destruct u as [name|]; [destruct (String.eqb name "")|];
    intros [= <-]; reflexivity.
Qed.

Lemma Forall_snoc {A : Type} (P : A -> Prop) (l : list A) (x : A) :
  Forall P l -> P x -> Forall P (l ++ [x])%list.
Proof. intros Hl Hx. apply Forall_app. auto. Qed.

Lemma spawn_world (g : Game.t) (r : FrameRandom) :
  world_ok g -> world_ok (spawn g r).
Proof.
  apply spawn_invariant; clear g.
  - intros g l h k (Ho & Hp & Hl & Hc). unfold spawn_obstacle. cbv zeta.
    destruct (String.eqb _ "barrier");
      (split; [|split; [|split]]); simpl; auto;
      (apply Forall_snoc; [exact Ho|]);
      (split; [exact spawned_ahead|]); (split; [apply choice_lane|]);
      split; apply choice_of_two.
  - intros g l k (Ho & Hp & Hl & Hc). unfold spawn_powerup.
    split; [|split; [|split]]; simpl; auto.
    apply Forall_snoc; [exact Hp|].
    split; [exact spawned_ahead|apply choice_lane].
  - intros g l (Ho & Hp & Hl & Hc). unfold spawn_letter.
    destruct (String.eqb _ ""); [repeat split; assumption|].
    split; [|split; [|split]]; simpl; auto.
    apply Forall_snoc; [exact Hl|].
    split; [exact spawned_ahead|apply choice_lane].
  - intros g l (Ho & Hp & Hl & Hc). unfold spawn_season_token.
    split; [|split; [|split]]; simpl; auto.
    apply Forall_snoc; [exact Hp|].
    split; [exact spawned_ahead|apply choice_lane].
  - intros g l (Ho & Hp & Hl & Hc). unfold spawn_coin.
    split; [|split; [|split]]; simpl; auto.
    apply Forall_snoc; [exact Hc|].
    split; [exact spawned_ahead|apply choice_lane].
Qed.

Lemma update_world (g g' : Game.t) (dt : float) (r : FrameRandom) :
  update g dt r = Ok g' -> world_ok g -> world_ok g'.
Proof.
  apply update_invariant.
  - intros g0. apply world_of_view. reflexivity.
  - intros g0. apply world_of_view, update_powerups_lists_view.
  - intros g0. apply update_obstacles_world.
  - intros g0. apply update_powerup_objects_world.
  - intros g0. apply update_letters_world.
  - intros g0 g1. apply update_coins_world.
  - intros g0 g1 E. destruct (update_score_shape _ _ _ E) as [gain ->].
    apply world_of_view. reflexivity.
  - intros g0. apply spawn_world.
  - intros g0 g1 E. apply world_of_view.
    exact (check_achievements_lists_view _ _ E).
Qed.

Lemma handle_menu_action_lists (g : Game.t) (action : string) (draw : nat) :
  lists_view (handle_menu_action g action draw) = lists_view g \/
  lists_view (handle_menu_action g action draw) = ([], [], [], []).
Proof.
  unfold handle_menu_action, handle_upgrade, return_to_main_menu.
  destruct (String.eqb action "start_run"); [right; reflexivity|].
  left.
  repeat match goal with
         | |- context [if String.eqb action ?s then _ else _] =>
             destruct (String.eqb action s)
         end;
    cases; try reflexivity;
    repeat match goal with
           | |- context [Economy.buy_upgrade ?e ?p] =>
               destruct (Economy.buy_upgrade e p) as [[|] ?]
           | |- context [Economy.buy_mystery_box ?e] =>
               destruct (Economy.buy_mystery_box e) as [[|] ?]
           | |- context [Economy.open_mystery_box ?e ?d] =>
               destruct (Economy.open_mystery_box e d) as [? ?]
           end; reflexivity.
Qed.

Lemma handle_input_world (g g' : Game.t) (event : InputEvent)
    (menu_action : option string) (draw : nat) :
  handle_input g event menu_action draw = Ok g' -> world_ok g -> world_ok g'.
Proof.
  unfold handle_input. intros Hi H.
  assert (Hmenu : match menu_action with
                  | Some action =>
                      if String.eqb action "" then Ok g
                      else Ok (handle_menu_action g action draw)
                  | None => Ok g
                  end = Ok g' -> world_ok g').
  { destruct menu_action as [action|]; [destruct (String.eqb action "")|];
      intros [= <-]; auto.
    apply world_of_lists.
    destruct (handle_menu_action_lists g action draw) as [->| ->];
      [exact H|repeat split; constructor]. }
  assert (Hkey : forall key, handle_run_key g key = Ok g' -> world_ok g').
  { intros key. unfold handle_run_key, Dict.subscript.
    destruct key; simpl; try (intros [= <-]; exact H).
    destruct (Dict.get (stats g) "jumps"); simpl; [|discriminate].
    intros [= <-]. exact H. }
  assert (Hcont : world_ok (continue_run_with_key g))
    by (unfold continue_run_with_key; cases; exact H).
  destruct event as [key|]; [destruct key|]; destruct (state g);
    first [ exact (Hmenu Hi)
          | exact (Hkey _ Hi)
          | injection Hi as <-; first [exact H | exact Hcont] ].
Qed.

(** X22: in every state the game can reach, every obstacle, power-up,
    letter and coin on the track is active, has not reached the player
    (its distance is not at or below zero) and is in lane 0, 1 or 2; every
    obstacle is low or high, and a barrier or a train.  Each loop of a frame
    drops what arrived, and the spawns add entities at the maximum
    distance. *)
Theorem track_holds_only_what_is_ahead (g : Game.t) :
  reachable g -> world_ok g.
Proof.
  induction 1 as [|g g' _ IH Hstep]; [repeat split; constructor|].
  destruct Hstep as [g g' event action draw Hi|g g' dt r Hu].
  - exact (handle_input_world _ _ _ _ _ Hi IH).
  - exact (update_world _ _ _ _ Hu IH).
Qed.

Lemma track_holds_only_what_is_ahead_witness :
  let spawning :=
    {| obstacle_draw := Some (2%nat, 1%nat, 1%nat); powerup_draw := None;
       letter_draw := Some 0%nat; season_token_draw := None;
       coin_draw := Some 1%nat |} in
  exists g,
    play Game.init [select "start_run"; Frame 0.016 spawning; tick] = Ok g /\
    List.length (obstacles g) = 1%nat /\
    List.length (letters g) = 1%nat /\
    world_ok g.
Proof.
  intros spawning.
  eexists. split; [vm_compute; reflexivity|].
  split; [reflexivity|]. split; [reflexivity|].
  apply track_holds_only_what_is_ahead.
  apply (play_reachable
           [select "start_run"; Frame 0.016 spawning; tick] Game.init);
    [constructor|vm_compute; reflexivity].
Defined.

End WorldFacts.

(** ** The word hunt of the single-file version *)

Module SingleFileFacts.

Import SingleFileSpec.
Local Open Scope float_scope.

Lemma single_file_for_each_invariant {E : Type} (P : SingleFile.Game -> Prop)
    (body : SingleFile.Game -> E -> SingleFile.Game * E) :
  (forall g e, P g -> P (fst (body g e))) ->
  forall es g, P g -> P (fst (SingleFile.for_each body g es)).
Proof.
  intros Hb. induction es as [|e es IH]; intros g Hg; simpl; [exact Hg|].
  specialize (Hb g e Hg). destruct (body g e) as [g1 e1]. simpl in Hb.
  specialize (IH g1 Hb). destruct (SingleFile.for_each body g1 es) as [g2 es2].
  exact IH.
Qed.

Lemma off_track_stays (progress target : list string) (l : string) :
  ~ (exists rest, target = (progress ++ rest)%list) ->
  (progress ++ [l])%list <> target /\
  ~ (exists rest, target = ((progress ++ [l]) ++ rest)%list).
Proof.
  intros H. split.
  - intros E. apply H. exists [l]. congruence.
  - intros [rest E]. apply H. exists (l :: rest).
    rewrite E, <- app_assoc. reflexivity.
Qed.

Lemma update_letter_off_track (g : SingleFile.Game)
    (letter : LetterCollectible.t) (dt : float) :
  ~ on_track g ->
  ~ on_track (fst (SingleFile.update_letter g letter dt)) /\
  SingleFile.word_hunt (fst (SingleFile.update_letter g letter dt))
  = SingleFile.word_hunt g /\
  SingleFile.coins
    (SingleFile.economy (fst (SingleFile.update_letter g letter dt)))
  = SingleFile.coins (SingleFile.economy g).
Proof.
  unfold on_track. intros H. unfold SingleFile.update_letter.
  destruct (negb _); [auto|]. cbv zeta.
  destruct (_ <=? 0); [|auto].
  destruct (_ =? _)%Z; [|auto]. simpl.
  destruct (off_track_stays _ _ (LetterCollectible.letter letter) H)
    as (Hne & Hoff).
  destruct (list_eq_dec string_dec _ _) as [E|_]; [contradiction|].
  simpl. auto.
Qed.

(** X23: in the single-file version a letter picked up is appended to the
    progress, and the word hunt is completed, with its 500 coins, exactly
    when the progress then equals the word; the progress is cleared only
    then.  So once the progress is not a beginning of the word (a letter
    spawned twice before it was collected is enough), no letter completes
    the word hunt any more: through a whole [update_letters] the progress
    stays off the word and no coin is added. *)
Theorem single_file_word_hunt_can_block (g : SingleFile.Game)
    (letter : LetterCollectible.t) (dt : float) :
  (picked_up g letter dt ->
   let spelled :=
     (SingleFile.word_progress g ++ [LetterCollectible.letter letter])%list in
   let g' := fst (SingleFile.update_letter g letter dt) in
   (spelled = SingleFile.word_hunt g ->
    SingleFile.word_progress g' = [] /\
    SingleFile.coins (SingleFile.economy g')
    = (SingleFile.coins (SingleFile.economy g) + 500)%Z) /\
   (spelled <> SingleFile.word_hunt g ->
    SingleFile.word_progress g' = spelled /\
    SingleFile.coins (SingleFile.economy g')
    = SingleFile.coins (SingleFile.economy g))) /\
  (~ on_track g ->
   ~ on_track (SingleFile.update_letters g dt) /\
   SingleFile.coins (SingleFile.economy (SingleFile.update_letters g dt))
   = SingleFile.coins (SingleFile.economy g)).
Proof.
  split.
  - intros (Ha & Hd & Hl). cbv zeta. unfold SingleFile.update_letter.
    rewrite Ha. simpl negb. cbv iota zeta. simpl LetterCollectible.distance.
    rewrite Hd. simpl LetterCollectible.lane. rewrite Hl, Z.eqb_refl. simpl.
    destruct (list_eq_dec string_dec _ _) as [E|E]; simpl; split; intros E';
      try contradiction; auto.
  - intros H. unfold SingleFile.update_letters.
    pose proof (single_file_for_each_invariant
                  (fun g0 => ~ on_track g0 /\
                             SingleFile.coins (SingleFile.economy g0)
                             = SingleFile.coins (SingleFile.economy g))
                  (fun g l => SingleFile.update_letter g l dt)) as Hloop.
    assert (Hb : forall g0 l,
               ~ on_track g0 /\
               SingleFile.coins (SingleFile.economy g0)
               = SingleFile.coins (SingleFile.economy g) ->
               ~ on_track (fst (SingleFile.update_letter g0 l dt)) /\
               SingleFile.coins
                 (SingleFile.economy (fst (SingleFile.update_letter g0 l dt)))
               = SingleFile.coins (SingleFile.economy g)).
    { intros g0 l (H1 & H2).
      destruct (update_letter_off_track g0 l dt H1) as (H3 & _ & H4).
      split; [exact H3|congruence]. }
    specialize (Hloop Hb (SingleFile.letters g) g (conj H eq_refl)).
    destruct (SingleFile.for_each _ g (SingleFile.letters g)) as [g1 ls].
    exact Hloop.
Qed.

Lemma single_file_word_hunt_can_block_witness :
  let g := SingleFile.update_letters doubled_letter 5 in
  map LetterCollectible.letter (SingleFile.letters doubled_letter)
  = ["H"; "H"] /\
  SingleFile.word_progress g = ["H"; "H"] /\
  ~ on_track g /\
  ~ on_track (SingleFile.update_letters
                (SingleFile.spawn_letter g 1) 5) /\
  SingleFile.coins
    (SingleFile.economy
       (SingleFile.update_letters (SingleFile.spawn_letter g 1) 5)) = 0%Z.
Proof.
  intros g.
  assert (Hoff : ~ on_track g).
  { intros [rest E]. vm_compute in E. discriminate E. }
  split; [reflexivity|]. split; [vm_compute; reflexivity|].
  split; [exact Hoff|].
  assert (Hoff' : ~ on_track (SingleFile.spawn_letter g 1)).
  { intros [rest E]. vm_compute in E. discriminate E. }
  destruct (single_file_word_hunt_can_block (SingleFile.spawn_letter g 1)
              {| LetterCollectible.lane := 1; LetterCollectible.distance := 0;
                 LetterCollectible.letter := "H";
                 LetterCollectible.active := true |} 5) as (_ & H).
  destruct (H Hoff') as (H1 & H2).
  split; [exact H1|]. rewrite H2. vm_compute. reflexivity.
Defined.

End SingleFileFacts.

(** ** Obstacles arriving in a frame (game.py) *)

Module ObstacleFacts.

Import PyFloat Spec Game Invariant Arrival.
Import CollisionFacts FrameFacts InvariantFacts TransitionFacts.
Local Open Scope float_scope.

(** *** One obstacle *)

Lemma tracking_no_crash (calls : Log) :
  Forall (fun e => tracking e = true) calls -> crashes calls = 0%nat.
Proof.
  unfold crashes. induction 1 as [|e l He _ IH]; [reflexivity|].
  simpl. destruct e; simpl in *; try discriminate; try exact IH.
  destruct (String.eqb_spec name "train_honk") as [->|]; [|discriminate].
  simpl. exact IH.
Qed.

Lemma crashes_app (a b : Log) :
  crashes (a ++ b)%list = (crashes a + crashes b)%nat.
Proof. unfold crashes. now rewrite filter_app, length_app. Qed.

(** Following the obstacle's sound changes nothing of the obstacle but
    [honk_played]. *)
Lemma track_obstacle_keeps (g : Game.t) (o : Obstacle.t) :
  exists calls o',
    track_obstacle g o = (emit g calls, o') /\
    Forall (fun e => tracking e = true) calls /\
    Obstacle.lane o' = Obstacle.lane o /\
    Obstacle.height o' = Obstacle.height o /\
    Obstacle.distance o' = Obstacle.distance o /\
    Obstacle.active o' = Obstacle.active o /\
    Obstacle.sound_tag o' = Obstacle.sound_tag o.
Proof.
  unfold track_obstacle.
  destruct (Obstacle.tag o) as [tag|] eqn:Et.
  - destruct (String.eqb (Obstacle.kind o) "train").
    + destruct (_ && _).
      * eexists _, _. rewrite emit_emit. split; [reflexivity|].
        split; [repeat constructor|]. repeat split; auto.
      * eexists _, _. split; [reflexivity|].
        split; [repeat constructor|]. repeat split; auto.
    + eexists _, _. split; [reflexivity|].
      split; [repeat constructor|]. repeat split; auto.
  - exists [], o. rewrite emit_nil. repeat split; auto.
Qed.

(** The body of the loop: the calls that follow the obstacle's sound, then
    [handle_collision] exactly when the obstacle collides. *)
Lemma update_obstacle_shape (g : Game.t) (o : Obstacle.t) (dt : float) :
  exists calls o',
    Forall (fun e => tracking e = true) calls /\
    update_obstacle g o dt
    = (if collides g dt o then handle_collision (emit g calls) o'
       else emit g calls, o') /\
    Obstacle.lane o' = Obstacle.lane o /\
    Obstacle.sound_tag o' = Obstacle.sound_tag o /\
    Obstacle.active o' = stays_ahead g dt o /\
    (Obstacle.active o' = true -> (Obstacle.distance o' <=? 0) = false).
Proof.
  unfold update_obstacle, collides, reaches_player, stays_ahead, avoids.
  destruct (Obstacle.active o) eqn:Ha; simpl negb; cbv iota.
  2:{ exists [], o. rewrite emit_nil. simpl. rewrite Ha.
      repeat split; auto. discriminate. }
  set (o1 := Obstacle.set_distance o _).
  destruct (track_obstacle_keeps g o1)
    as (calls & o2 & -> & Hc & E1 & E2 & E3 & E4 & E5).
  subst o1. simpl in E1, E2, E3, E4, E5. rewrite E3.
  destruct (Obstacle.distance o - speed g * dt <=? 0) eqn:Hd; simpl.
  - unfold obstacle_arrival.
    set (o3 := Obstacle.set_active o2 false).
    assert (Hg1 : exists calls',
               match Obstacle.tag o3 with
               | Some tag => emit (emit g calls) [StopLoop tag]
               | None => emit g calls
               end = emit g calls' /\
               Forall (fun e => tracking e = true) calls').
    { destruct (Obstacle.tag o3).
      - rewrite emit_emit. eexists; split; [reflexivity|].
        apply Forall_app; split; [exact Hc|]. repeat constructor.
      - eauto. }
    destruct Hg1 as (calls' & -> & Hc').
    exists calls', o3. split; [exact Hc'|].
    subst o3. simpl. rewrite E1, E2.
    split; [|repeat split; auto; discriminate].
    destruct (Obstacle.lane o =? Player.lane (player g))%Z; [|reflexivity].
    destruct (String.eqb (Obstacle.height o) "low" && Player.jumping (player g));
      [reflexivity|].
    destruct (String.eqb (Obstacle.height o) "high"
              && Player.rolling (player g)); reflexivity.
  - exists calls, o2. rewrite E4. repeat split; auto.
    intros _. rewrite E3. exact Hd.
Qed.

Lemma update_obstacle_speed (g : Game.t) (o : Obstacle.t) (dt : float) :
  speed (fst (update_obstacle g o dt)) = speed g.
Proof. destruct (update_obstacle_mode g o dt) as ([= _ H] & _). exact H. Qed.

(** A collision with no jetpack and no hoverboard. *)
Lemma handle_collision_unprotected (g : Game.t) (o : Obstacle.t) :
  Player.jetpack (player g) = false ->
  Player.hoverboard_active (player g) = false ->
  state (handle_collision g o) = GAME_OVER /\
  player (handle_collision g o) = player g /\
  speed (handle_collision g o) = speed g /\
  crashes (log (handle_collision g o)) = S (crashes (log g)).
Proof.
  intros Hj Hh. unfold handle_collision. rewrite Hj, Hh. simpl.
  destruct (0 <? Economy.keys (economy g))%Z; simpl;
    (split; [reflexivity|split; [reflexivity|split; [reflexivity|]]]);
    rewrite !crashes_app; unfold crashes; simpl; lia.
Qed.

Lemma collides_same (g g' : Game.t) (dt : float) (o : Obstacle.t) :
  player g' = player g -> speed g' = speed g ->
  collides g' dt o = collides g dt o.
Proof. unfold collides, reaches_player. intros -> ->. reflexivity. Qed.

Lemma stays_ahead_same (g g' : Game.t) (dt : float) (o : Obstacle.t) :
  speed g' = speed g -> stays_ahead g' dt o = stays_ahead g dt o.
Proof. unfold stays_ahead. intros ->. reflexivity. Qed.

(** *** The loop over the obstacles *)

Lemma existsb_same {A : Type} (f f' : A -> bool) (l : list A) :
  (forall x, f x = f' x) -> existsb f l = existsb f' l.
Proof.
  intros H. induction l as [|x l IH]; simpl; [reflexivity|].
  now rewrite H, IH.
Qed.

(** What the loop leaves active: the obstacles still ahead, in order. *)
Lemma obstacles_loop_survivors (dt : float) (os : list Obstacle.t) :
  forall g,
    let os' := snd (for_each (fun g o => update_obstacle g o dt) g os) in
    map Obstacle.sound_tag (filter Obstacle.active os')
    = map Obstacle.sound_tag (filter (stays_ahead g dt) os) /\
    Forall (fun o => Obstacle.active o = true /\
                     (Obstacle.distance o <=? 0) = false)
      (filter Obstacle.active os').
Proof.
  induction os as [|o os IH]; intros g; simpl; [split; constructor|].
  pose proof (update_obstacle_speed g o dt) as Hsp.
  destruct (update_obstacle_shape g o dt)
    as (calls & o' & _ & E & _ & Et & Ea & Hd).
  rewrite E in Hsp |- *. simpl in Hsp.
  set (g1 := if collides g dt o then _ else _) in *. clearbody g1.
  specialize (IH g1). simpl in IH.
  destruct (for_each _ g1 os) as [g2 os2]. simpl in *.
  destruct IH as [IH1 IH2].
  rewrite (filter_ext _ _ (fun x => stays_ahead_same g g1 dt x Hsp)) in IH1.
  rewrite <- Ea.
  destruct (Obstacle.active o') eqn:Eo; simpl.
  - split; [now rewrite Et, IH1|]. constructor; auto.
  - auto.
Qed.

(** With no collision the loop only follows the sounds. *)
Lemma obstacles_loop_clear (dt : float) (os : list Obstacle.t) :
  forall g,
    existsb (collides g dt) os = false ->
    exists calls,
      fst (for_each (fun g o => update_obstacle g o dt) g os) = emit g calls /\
      Forall (fun e => tracking e = true) calls.
Proof.
  induction os as [|o os IH]; intros g; simpl.
  - intros _. exists []. now rewrite emit_nil.
  - intros H. apply orb_false_elim in H as [Ho Hos].
    destruct (update_obstacle_shape g o dt) as (calls & o' & Hc & E & _).
    rewrite E, Ho.
    destruct (IH (emit g calls)) as (calls' & E' & Hc').
    { rewrite <- Hos. apply existsb_same. intros x.
      now apply collides_same. }
    destruct (for_each _ (emit g calls) os) as [g2 os2]. simpl in *.
    exists (calls ++ calls')%list. rewrite E', emit_emit.
    split; [reflexivity|]. apply Forall_app. auto.
Qed.

(** With no jetpack and no hoverboard every collision ends the run and
    plays one crash cue. *)
Lemma obstacles_loop_crashes (dt : float) (os : list Obstacle.t) :
  forall g,
    Player.jetpack (player g) = false ->
    Player.hoverboard_active (player g) = false ->
    let g' := fst (for_each (fun g o => update_obstacle g o dt) g os) in
    player g' = player g /\
    state g' = (if existsb (collides g dt) os then GAME_OVER else state g) /\
    crashes (log g')
    = (crashes (log g) + List.length (filter (collides g dt) os))%nat.
Proof.
  induction os as [|o os IH]; intros g Hj Hh; simpl.
  - repeat split. lia.
  - destruct (update_obstacle_shape g o dt) as (calls & o' & Hc & E & _).
    rewrite E.
    assert (H1 : exists g1,
               (if collides g dt o then handle_collision (emit g calls) o'
                else emit g calls) = g1 /\
               player g1 = player g /\ speed g1 = speed g /\
               state g1 = (if collides g dt o then GAME_OVER else state g) /\
               crashes (log g1)
               = (crashes (log g)
                  + (if collides g dt o then 1 else 0))%nat).
    { eexists. split; [reflexivity|].
      destruct (collides g dt o).
      - destruct (handle_collision_unprotected (emit g calls) o' Hj Hh)
          as (Hs & Hp & Hv & Hcr).
        rewrite Hs, Hp, Hv, Hcr. simpl. rewrite crashes_app.
        rewrite (tracking_no_crash calls Hc). repeat split; try lia.
      - simpl. rewrite crashes_app, (tracking_no_crash calls Hc).
        repeat split; try lia. }
    destruct H1 as (g1 & -> & Hp & Hv & Hs & Hcr).
    specialize (IH g1). rewrite Hp in IH. specialize (IH Hj Hh).
    simpl in IH.
    destruct (for_each _ g1 os) as [g2 os2]. simpl in *.
    destruct IH as (I1 & I2 & I3).
    rewrite (existsb_same _ _ os (fun x => collides_same g g1 dt x Hp Hv)) in I2.
    rewrite (filter_ext _ _ (fun x => collides_same g g1 dt x Hp Hv)) in I3.
    split; [exact I1|]. split.
    + rewrite I2, Hs. destruct (collides g dt o); simpl; [|reflexivity].
      destruct (existsb _ os); reflexivity.
    + rewrite I3, Hcr. destruct (collides g dt o); simpl; lia.
Qed.

(** *** The frame around the loop *)

Lemma state_after_obstacles (g g' : Game.t) (dt : float) (r : FrameRandom) :
  state g = RUNNING ->
  update g dt r = Ok g' ->
  state g' = state (update_obstacles (before_obstacles g dt) dt).
Proof.
  intros Hs Hu. unfold update in Hu. rewrite Hs in Hu. cbv zeta in Hu.
  change (update_powerups (set_player g (Player.update (player g) dt)) dt)
    with (before_obstacles g dt) in Hu.
  set (g3 := update_obstacles (before_obstacles g dt) dt) in *. clearbody g3.
  pose proof (update_powerup_objects_mode_view g3 dt) as [= H4 _ _].
  set (g4 := update_powerup_objects g3 dt) in *. clearbody g4.
  pose proof (update_letters_mode_view g4 dt) as [= H5 _ _].
  set (g5 := update_letters g4 dt) in *. clearbody g5.
  destruct (update_coins g5 dt) as [g6|] eqn:E6; simpl in Hu; [|discriminate].
  pose proof (update_coins_mode_view _ _ _ E6) as [= H6 _ _].
  destruct (update_score g6 dt) as [g7|] eqn:E7; simpl in Hu; [|discriminate].
  pose proof (update_score_mode_view _ _ _ E7) as [= H7 _ _].
  pose proof (spawn_mode_view g7 r) as [= H8 _ _].
  pose proof (check_achievements_mode_view _ _ Hu) as [= H9 _ _].
  congruence.
Qed.

(** C1: in the obstacle loop of a frame, over however many obstacles,
    collision resolution is invoked for an obstacle exactly when it arrives
    in the player's lane and is not avoided (it is avoided when low with
    the player jumping, or high with the player rolling); the obstacles
    left on the track are exactly those still ahead, so an obstacle arrives
    once.  If every obstacle that arrives in the player's
    lane is low with the player jumping, or high with the player rolling,
    the loop only follows the sounds: no collision resolution, the player
    and the state as they were, [RUNNING].  Otherwise, with jetpack and
    hoverboard inactive, the state becomes [GAME_OVER] and one crash cue is
    played for each such arrival.  The state in which a frame of a run
    ends is the state that its obstacle loop leaves. *)
Theorem obstacle_pass_through (g : Game.t) (dt : float) :
  state g = RUNNING ->
  let g' := update_obstacles g dt in
  (forall o : Obstacle.t,
     exists calls o',
       Forall (fun e => tracking e = true) calls /\
       update_obstacle g o dt
       = (if collides g dt o then handle_collision (emit g calls) o'
          else emit g calls, o') /\
       Obstacle.active o' = stays_ahead g dt o) /\
  map Obstacle.sound_tag (obstacles g')
  = map Obstacle.sound_tag (filter (stays_ahead g dt) (obstacles g)) /\
  Forall (fun o => Obstacle.active o = true /\
                   (Obstacle.distance o <=? 0) = false) (obstacles g') /\
  (existsb (collides g dt) (obstacles g) = false ->
   state g' = RUNNING /\
   player g' = player g /\
   exists calls,
     set_obstacles g' (obstacles g) = emit g calls /\
     Forall (fun e => tracking e = true) calls) /\
  (existsb (collides g dt) (obstacles g) = true ->
   Player.jetpack (player g) = false ->
   Player.hoverboard_active (player g) = false ->
   state g' = GAME_OVER /\
   player g' = player g /\
   crashes (log g')
   = (crashes (log g)
      + List.length (filter (collides g dt) (obstacles g)))%nat) /\
  (forall r : FrameRandom,
     reachable g -> delta_ok dt ->
     exists g'',
       update g dt r = Ok g'' /\
       state g'' = state (update_obstacles (before_obstacles g dt) dt)).
Proof.
  intros Hs. cbv zeta. split.
  { intros o.
    destruct (update_obstacle_shape g o dt)
      as (calls & o' & Hc & E & _ & _ & Ea & _).
    exists calls, o'. auto. }
  unfold update_obstacles.
  pose proof (obstacles_loop_survivors dt (obstacles g) g) as Hsv.
  pose proof (obstacles_loop_clear dt (obstacles g) g) as Hcl.
  pose proof (obstacles_loop_crashes dt (obstacles g) g) as Hcr.
  cbv zeta in Hsv, Hcr.
  destruct (for_each _ g (obstacles g)) as [g1 os1]. simpl in *.
  destruct Hsv as [Hsv1 Hsv2].
  split; [exact Hsv1|]. split; [exact Hsv2|].
  split; [|split].
  - intros Hno. destruct (Hcl Hno) as (calls & -> & Hc).
    split; [exact Hs|]. split; [reflexivity|].
    exists calls. split; [|exact Hc]. now destruct g.
  - intros Hyes Hj Hh. destruct (Hcr Hj Hh) as (H1 & H2 & H3).
    rewrite Hyes in H2. auto.
  - intros r Hr Hd.
    destruct (update_returns g dt r (reachable_sound g Hr)
                (reachable_multiplier g Hr) Hd) as [g'' Hu].
    exists g''. split; [exact Hu|].
    exact (state_after_obstacles g g'' dt r Hs Hu).
Qed.

(** A run with two obstacles close to the player: a low barrier in the
    player's lane, which arrives in the next frame, and a train in another
    lane, which does not.  On the ground the run ends with one crash and
    the train stays on the track; after a jump the run goes on. *)
Lemma obstacle_pass_through_witness :
  let low_barrier :=
    {| obstacle_draw := Some (1%nat, 0%nat, 0%nat); powerup_draw := None;
       letter_draw := None; season_token_draw := None; coin_draw := None |} in
  let train :=
    {| obstacle_draw := Some (0%nat, 1%nat, 1%nat); powerup_draw := None;
       letter_draw := None; season_token_draw := None; coin_draw := None |} in
  exists g jumping,
    play Game.init [select "start_run"; Frame 0.016 low_barrier;
                    Frame 0.016 train; Frame 3.98 no_spawn] = Ok g /\
    handle_input g (KEYDOWN K_UP) None 0 = Ok jumping /\
    map Obstacle.sound_tag (obstacles g)
    = [Some "obstacle_1"; Some "obstacle_2"] /\
    state (update_obstacles (before_obstacles g 0.016) 0.016) = GAME_OVER /\
    crashes (log (update_obstacles (before_obstacles g 0.016) 0.016))
    = (crashes (log (before_obstacles g 0.016)) + 1)%nat /\
    map Obstacle.sound_tag
      (obstacles (update_obstacles (before_obstacles g 0.016) 0.016))
    = [Some "obstacle_2"] /\
    state (update_obstacles (before_obstacles jumping 0.016) 0.016)
    = RUNNING /\
    (exists g', update g 0.016 no_spawn = Ok g' /\ state g' = GAME_OVER) /\
    (exists g', update jumping 0.016 no_spawn = Ok g' /\ state g' = RUNNING).
Proof.
  intros low_barrier train.
  eexists _, _. split; [vm_compute; reflexivity|].
  split; [vm_compute; reflexivity|]. split; [reflexivity|].
  match goal with
  | |- state (update_obstacles (before_obstacles ?g _) _) = _ /\ _ =>
      set (G := g)
  end.
  match goal with
  | |- context [update ?j 0.016 no_spawn = _ /\ state _ = RUNNING] =>
      set (J := j)
  end.
  assert (HG : reachable G).
  { apply (play_reachable
             [select "start_run"; Frame 0.016 low_barrier; Frame 0.016 train;
              Frame 3.98 no_spawn] Game.init); [constructor|].
    vm_compute; reflexivity. }
  assert (HJ : reachable J).
  { apply (reachable_step G); [exact HG|].
    apply (step_input _ _ (KEYDOWN K_UP) None 0). vm_compute; reflexivity. }
  assert (Hd : delta_ok 0.016) by (split; vm_compute; reflexivity).
  assert (Hlen : List.length (filter (collides (before_obstacles G 0.016) 0.016)
                                (obstacles (before_obstacles G 0.016)))
                 = 1%nat) by (vm_compute; reflexivity).
  assert (Hst : map Obstacle.sound_tag
                  (filter (stays_ahead (before_obstacles G 0.016) 0.016)
                     (obstacles (before_obstacles G 0.016)))
                = [Some "obstacle_2"]) by (vm_compute; reflexivity).
  destruct (obstacle_pass_through (before_obstacles G 0.016) 0.016)
    as (_ & H1 & _ & _ & H4 & _); [vm_compute; reflexivity|].
  destruct H4 as (H4 & _ & H5); try (vm_compute; reflexivity).
  destruct (obstacle_pass_through (before_obstacles J 0.016) 0.016)
    as (_ & _ & _ & H3 & _); [vm_compute; reflexivity|].
  destruct H3 as (H3 & _); [vm_compute; reflexivity|].
  destruct (obstacle_pass_through G 0.016) as (_ & _ & _ & _ & _ & HfG);
    [vm_compute; reflexivity|].
  destruct (obstacle_pass_through J 0.016) as (_ & _ & _ & _ & _ & HfJ);
    [vm_compute; reflexivity|].
  destruct (HfG no_spawn HG Hd) as (g' & Eg & Sg).
  destruct (HfJ no_spawn HJ Hd) as (j' & Ej & Sj).
  split; [exact H4|]. split; [rewrite H5, Hlen; reflexivity|].
  split; [rewrite H1; exact Hst|]. split; [exact H3|].
  split; [exists g'; split; [exact Eg|congruence]|].
  exists j'. split; [exact Ej|congruence].
Defined.

End ObstacleFacts.

(** ** Coins arriving in a frame (game.py and the single-file version) *)

Module CoinLoopFacts.

Import PyFloat PyFloatFacts DictFacts Spec Game Invariant Arrival.
Import SystemsFacts FrameFacts CoinFacts InvariantFacts.
Local Open Scope float_scope.

(** *** One coin *)

(** What the coin loop reads of the game, and what it counts. *)
Lemma update_coin_shape (g : Game.t) (coin : CoinCollectible.t) (dt : float)
    (n : Z) :
  total_coins g = Some n ->
  exists g' coin',
    update_coin g coin dt = Ok (g', coin') /\
    CoinCollectible.active coin' = on_its_way g dt coin /\
    (CoinCollectible.active coin' = true ->
     (CoinCollectible.distance coin' <=? 0) = false) /\
    total_coins g'
    = Some (n + (if collected g dt coin then 1 else 0))%Z /\
    Economy.coins (economy g')
    = (Economy.coins (economy g)
       + (if collected g dt coin then 1 else 0))%Z /\
    (player g', speed g', active_powerups g')
    = (player g, speed g, active_powerups g).
Proof.
  unfold total_coins, collected, on_its_way, arrives, update_coin,
    collect_coin, Dict.subscript.
  intros Hn.
  destruct (CoinCollectible.active coin) eqn:Ha; simpl.
  2:{ exists g, coin. rewrite Ha, Hn, !Z.add_0_r.
      repeat split; auto. discriminate. }
  destruct (CoinCollectible.distance coin - speed g * dt <=? 0) eqn:Hd; simpl.
  - destruct ((CoinCollectible.lane coin =? Player.lane (player g))%Z
              || Dict.mem (active_powerups g) "magnet"); simpl.
    + rewrite Hn. simpl. eexists _, _. split; [reflexivity|]. simpl.
      rewrite get_set_same. repeat split; auto. discriminate.
    + eexists _, _. split; [reflexivity|]. simpl.
      rewrite Hn, !Z.add_0_r. repeat split; auto. discriminate.
  - eexists _, _. split; [reflexivity|]. simpl.
    rewrite Hn, !Z.add_0_r. repeat split; auto.
Qed.

Lemma collected_same (g g' : Game.t) (dt : float) (coin : CoinCollectible.t) :
  (player g', speed g', active_powerups g')
  = (player g, speed g, active_powerups g) ->
  collected g' dt coin = collected g dt coin.
Proof. unfold collected, arrives. intros [= -> -> ->]. reflexivity. Qed.

Lemma on_its_way_same (g g' : Game.t) (dt : float) (coin : CoinCollectible.t) :
  (player g', speed g', active_powerups g')
  = (player g, speed g, active_powerups g) ->
  on_its_way g' dt coin = on_its_way g dt coin.
Proof. unfold on_its_way, arrives. intros [= _ -> _]. reflexivity. Qed.

(** *** The loop over the coins *)

Lemma coins_loop_counts (dt : float) (cs : list CoinCollectible.t) :
  forall (g : Game.t) (n : Z),
    total_coins g = Some n ->
    exists g' cs',
      update_coins_loop g cs dt = Ok (g', cs') /\
      total_coins g'
      = Some (n + Z.of_nat (List.length (filter (collected g dt) cs)))%Z /\
      Economy.coins (economy g')
      = (Economy.coins (economy g)
         + Z.of_nat (List.length (filter (collected g dt) cs)))%Z /\
      List.length (filter CoinCollectible.active cs')
      = List.length (filter (on_its_way g dt) cs) /\
      Forall (fun c => CoinCollectible.active c = true /\
                       (CoinCollectible.distance c <=? 0) = false)
        (filter CoinCollectible.active cs').
Proof.
  induction cs as [|c cs IH]; intros g n Hn; simpl.
  - exists g, []. rewrite !Z.add_0_r. repeat split; auto.
  - destruct (update_coin_shape g c dt n Hn)
      as (g1 & c1 & E1 & Ha & Hd & Hn1 & He1 & Hv).
    rewrite E1. simpl.
    destruct (IH g1 _ Hn1) as (g2 & cs2 & E2 & Hn2 & He2 & Hl & Hf).
    rewrite E2. simpl. exists g2, (c1 :: cs2). split; [reflexivity|].
    rewrite (filter_ext _ _ (fun x => collected_same g g1 dt x Hv)) in Hn2, He2.
    rewrite (filter_ext _ _ (fun x => on_its_way_same g g1 dt x Hv)) in Hl.
    simpl. rewrite <- Ha.
    split; [|split; [|split]].
    + rewrite Hn2. f_equal. destruct (collected g dt c); cbn [List.length];
      rewrite ?Nat2Z.inj_succ; lia.
    + rewrite He2, He1. destruct (collected g dt c); cbn [List.length];
      rewrite ?Nat2Z.inj_succ; lia.
    + destruct (CoinCollectible.active c1); simpl; congruence.
    + destruct (CoinCollectible.active c1) eqn:Ec; [|exact Hf].
      constructor; auto.
Qed.

(** *** The frame around the loop *)

Lemma before_coins_view (g : Game.t) (dt : float) :
  coin_view (before_coins g dt) = coin_view g.
Proof.
  unfold before_coins, before_obstacles.
  rewrite update_letters_coin_view, update_powerup_objects_coin_view,
    update_obstacles_coin_view, update_powerups_coin_view.
  reflexivity.
Qed.

Lemma check_achievements_stats (g g' : Game.t) :
  check_achievements g = Ok g' -> stats g' = stats g.
Proof.
  unfold check_achievements.
  destruct (AchievementSystem.check _ _) as [[[u a] calls]|]; simpl;
    [|discriminate].
  destruct u as [name|]; [destruct (String.eqb name "")|];
    intros [= <-]; reflexivity.
Qed.

(** What a frame adds to the number of coins collected is what its coin
    loop adds. *)
Lemma frame_counts (g g' : Game.t) (dt : float) (r : FrameRandom) (n : Z) :
  state g = RUNNING ->
  total_coins g = Some n ->
  update g dt r = Ok g' ->
  total_coins g'
  = Some (n + Z.of_nat (List.length
                          (filter (collected (before_coins g dt) dt)
                             (coins g))))%Z.
Proof.
  intros Hs Hn Hu. unfold update in Hu. rewrite Hs in Hu. cbv zeta in Hu.
  change (update_letters
            (update_powerup_objects
               (update_obstacles
                  (update_powerups
                     (set_player g (Player.update (player g) dt)) dt) dt)
               dt) dt)
    with (before_coins g dt) in Hu.
  pose proof (before_coins_view g dt) as V. unfold coin_view in V.
  injection V as Vs Vc _ _.
  set (g5 := before_coins g dt) in *. clearbody g5.
  assert (Hn5 : total_coins g5 = Some n)
    by (unfold total_coins in *; congruence).
  destruct (coins_loop_counts dt (coins g5) g5 n Hn5)
    as (g6 & cs6 & E6 & Hn6 & _).
  unfold update_coins in Hu. rewrite E6 in Hu. simpl in Hu.
  set (g6' := set_coins g6 _) in Hu.
  assert (Hn6' : total_coins g6' = total_coins g6) by reflexivity.
  clearbody g6'.
  destruct (update_score g6' dt) as [g7|] eqn:E7; simpl in Hu; [|discriminate].
  destruct (update_score_shape _ _ _ E7) as [gain ->].
  set (g7 := set_stats _ _) in *.
  assert (V8 : stats (spawn g7 r) = stats g7).
  { pose proof (spawn_keeps g7 r) as V. unfold spawn_view in V. congruence. }
  pose proof (check_achievements_stats _ _ Hu) as V9.
  unfold total_coins in *. rewrite V9, V8. subst g7. simpl.
  rewrite get_set_other by discriminate. rewrite Hn6', Hn6, Vc.
  reflexivity.
Qed.

(** *** The frame of the single-file version *)

(** The stages of the single-file frame before its magnet test leave the
    statistics and the achievements alone, and the multiplier at 1 or 2. *)
Lemma single_file_teardowns (kinds : list string) :
  forall s : SingleFile.Game,
    (SingleFile.multiplier s = 1 \/ SingleFile.multiplier s = 2)%Z ->
    (SingleFile.stats (fold_left SingleFile.teardown kinds s),
     SingleFile.achievement_system (fold_left SingleFile.teardown kinds s))
    = (SingleFile.stats s, SingleFile.achievement_system s) /\
    (SingleFile.multiplier (fold_left SingleFile.teardown kinds s) = 1 \/
     SingleFile.multiplier (fold_left SingleFile.teardown kinds s) = 2)%Z.
Proof.
  induction kinds as [|k kinds IH]; intros s Hm; simpl; [auto|].
  destruct (IH (SingleFile.teardown s k)) as [H1 H2].
  { unfold SingleFile.teardown. cases; simpl; auto. }
  split; [|exact H2]. rewrite H1.
  unfold SingleFile.teardown. cases; reflexivity.
Qed.

Lemma single_file_before_test (s : SingleFile.Game) (dt : float) :
  (SingleFile.multiplier s = 1 \/ SingleFile.multiplier s = 2)%Z ->
  let s4 :=
    SingleFile.update_powerup_objects
      (SingleFile.update_obstacles
         (SingleFile.update_powerups
            (SingleFile.set_player s
               (Player.update (SingleFile.player s) dt)) dt) dt) dt in
  (SingleFile.stats s4, SingleFile.achievement_system s4)
  = (SingleFile.stats s, SingleFile.achievement_system s) /\
  (SingleFile.multiplier s4 = 1 \/ SingleFile.multiplier s4 = 2)%Z.
Proof.
  intros Hm.
  set (s1 := SingleFile.set_player s _).
  assert (H1 : (SingleFile.stats s1, SingleFile.achievement_system s1)
               = (SingleFile.stats s, SingleFile.achievement_system s) /\
               (SingleFile.multiplier s1 = 1 \/
                SingleFile.multiplier s1 = 2)%Z) by (split; [reflexivity|exact Hm]).
  clearbody s1. revert H1.
  set (P := fun s0 : SingleFile.Game =>
              (SingleFile.stats s0, SingleFile.achievement_system s0)
              = (SingleFile.stats s, SingleFile.achievement_system s) /\
              (SingleFile.multiplier s0 = 1 \/
               SingleFile.multiplier s0 = 2)%Z).
  intros H1. change (P s1) in H1. cbv zeta.
  assert (H2 : P (SingleFile.update_powerups s1 dt)).
  { unfold SingleFile.update_powerups.
    destruct (SingleFile.sweep (SingleFile.active_powerups s1) dt)
      as [ledger expired].
    destruct H1 as [V M].
    destruct (single_file_teardowns expired
                (SingleFile.set_active_powerups s1 ledger) M) as [V' M'].
    split; [rewrite V'; exact V|exact M']. }
  set (s2 := SingleFile.update_powerups s1 dt) in *. clearbody s2.
  assert (H3 : P (SingleFile.update_obstacles s2 dt)).
  { unfold SingleFile.update_obstacles.
    pose proof (SingleFileFacts.single_file_for_each_invariant P
                  (fun g o => SingleFile.update_obstacle g o dt)) as Hloop.
    assert (Hb : forall g e,
               P g -> P (fst (SingleFile.update_obstacle g e dt))).
    { intros g e [V M]. unfold P, SingleFile.update_obstacle,
        SingleFile.handle_collision. cases; auto. }
    specialize (Hloop Hb (SingleFile.obstacles s2) s2 H2).
    destruct (SingleFile.for_each _ s2 (SingleFile.obstacles s2)) as [s3 os].
    exact Hloop. }
  set (s3 := SingleFile.update_obstacles s2 dt) in *. clearbody s3.
  unfold SingleFile.update_powerup_objects.
  pose proof (SingleFileFacts.single_file_for_each_invariant P
                (fun g p => SingleFile.update_powerup_object g p dt)) as Hloop.
  assert (Hb : forall g e,
             P g -> P (fst (SingleFile.update_powerup_object g e dt))).
  { intros g e [V M]. unfold P, SingleFile.update_powerup_object,
      SingleFile.activate_powerup. cases; auto. }
  specialize (Hloop Hb (SingleFile.powerups s3) s3 H3).
  destruct (SingleFile.for_each _ s3 (SingleFile.powerups s3)) as [s4 ps].
  exact Hloop.
Qed.

(** The letters touch neither the statistics, the achievements, the
    multiplier nor the ledger. *)
Lemma single_file_letters_keep (s : SingleFile.Game) (dt : float) :
  (SingleFile.stats (SingleFile.update_letters s dt),
   SingleFile.achievement_system (SingleFile.update_letters s dt),
   SingleFile.multiplier (SingleFile.update_letters s dt),
   SingleFile.active_powerups (SingleFile.update_letters s dt))
  = (SingleFile.stats s, SingleFile.achievement_system s,
     SingleFile.multiplier s, SingleFile.active_powerups s).
Proof.
  unfold SingleFile.update_letters.
  pose proof (SingleFileFacts.single_file_for_each_invariant
                (fun s0 =>
                   (SingleFile.stats s0, SingleFile.achievement_system s0,
                    SingleFile.multiplier s0, SingleFile.active_powerups s0)
                   = (SingleFile.stats s, SingleFile.achievement_system s,
                      SingleFile.multiplier s, SingleFile.active_powerups s))
                (fun g l => SingleFile.update_letter g l dt)) as Hloop.
  assert (Hb : forall g e,
             (SingleFile.stats g, SingleFile.achievement_system g,
              SingleFile.multiplier g, SingleFile.active_powerups g)
             = (SingleFile.stats s, SingleFile.achievement_system s,
                SingleFile.multiplier s, SingleFile.active_powerups s) ->
             (SingleFile.stats (fst (SingleFile.update_letter g e dt)),
              SingleFile.achievement_system
                (fst (SingleFile.update_letter g e dt)),
              SingleFile.multiplier (fst (SingleFile.update_letter g e dt)),
              SingleFile.active_powerups
                (fst (SingleFile.update_letter g e dt)))
             = (SingleFile.stats s, SingleFile.achievement_system s,
                SingleFile.multiplier s, SingleFile.active_powerups s)).
  { intros g e V. unfold SingleFile.update_letter. cases; exact V. }
  specialize (Hloop Hb (SingleFile.letters s) s eq_refl).
  destruct (SingleFile.for_each _ s (SingleFile.letters s)) as [s1 ls].
  exact Hloop.
Qed.

Lemma single_file_spawn_keeps (s : SingleFile.Game)
    (r : SingleFile.FrameRandom) :
  (SingleFile.stats (SingleFile.spawn s r),
   SingleFile.achievement_system (SingleFile.spawn s r),
   SingleFile.active_powerups (SingleFile.spawn s r),
   SingleFile.player (SingleFile.spawn s r))
  = (SingleFile.stats s, SingleFile.achievement_system s,
     SingleFile.active_powerups s, SingleFile.player s).
Proof.
  unfold SingleFile.spawn, SingleFile.spawn_obstacle, SingleFile.spawn_powerup,
    SingleFile.spawn_letter, SingleFile.spawn_season_token.
  destruct (SingleFile.obstacle_draw r) as [[[l h] k]|],
    (SingleFile.powerup_draw r) as [[l' k']|],
    (SingleFile.letter_draw r), (SingleFile.season_token_draw r);
    cbv zeta; cases; try reflexivity;
    destruct (SingleFile.word_hunt _); reflexivity.
Qed.

(** One frame of the single-file game collects one coin exactly when a
    magnet is in the ledger at its test, whatever is on the track. *)
Lemma single_file_frame_counts (s : SingleFile.Game) (dt : float)
    (r : SingleFile.FrameRandom) (j c sc : Z) (u1 u2 u3 : bool) :
  SingleFile.in_game s = true ->
  has_stats (SingleFile.stats s) j c sc ->
  has_flags (SingleFile.achievement_system s) u1 u2 u3 ->
  (SingleFile.multiplier s = 1 \/ SingleFile.multiplier s = 2)%Z ->
  delta_ok dt ->
  exists s',
    SingleFile.update s dt r = Ok s' /\
    Dict.get (SingleFile.stats s') "total_coins"
    = Some (c + (if Dict.mem (single_file_ledger s dt) "magnet"
                 then 1 else 0))%Z.
Proof.
  intros Hin (S1 & S2 & S3) Hfl Hm (D1 & D2).
  unfold SingleFile.update, single_file_ledger. rewrite Hin. simpl negb.
  cbv iota zeta.
  destruct (single_file_before_test s dt Hm) as [V4 M4]. cbv zeta in V4, M4.
  set (s4 := SingleFile.update_powerup_objects _ dt) in *. clearbody s4.
  injection V4 as St4 Ac4.
  pose proof (single_file_letters_keep s4 dt) as V5.
  injection V5 as St5 Ac5 Mu5 Le5.
  set (s5 := SingleFile.update_letters s4 dt) in *. clearbody s5.
  assert (Hsc : exists gain,
             SingleFile.update_score s5 dt
             = Ok (SingleFile.set_stats
                     (SingleFile.set_score s5 (SingleFile.score s5 + gain))
                     (Dict.set (SingleFile.stats s5) "score"
                        (SingleFile.score s5 + gain)%Z))).
  { unfold SingleFile.update_score. rewrite Mu5.
    destruct M4 as [->| ->].
    - change (of_int (10 * 1)) with (Ok 10). simpl bind.
      destruct (to_int_finite _ D1) as [gain ->]. simpl. eauto.
    - change (of_int (10 * 2)) with (Ok 20). simpl bind.
      destruct (to_int_finite _ D2) as [gain ->]. simpl. eauto. }
  destruct Hsc as [gain ->]. simpl bind.
  set (s6 := SingleFile.set_stats _ _).
  assert (St6 : SingleFile.stats s6
                = Dict.set (SingleFile.stats s) "score"
                    (SingleFile.score s5 + gain)%Z)
    by (subst s6; simpl; congruence).
  assert (Ac6 : SingleFile.achievement_system s6
                = SingleFile.achievement_system s)
    by (subst s6; simpl; congruence).
  assert (Le6 : SingleFile.active_powerups s6 = SingleFile.active_powerups s4)
    by (subst s6; simpl; congruence).
  clearbody s6.
  pose proof (single_file_spawn_keeps s6 r) as V7.
  injection V7 as St7 Ac7 Le7 _.
  set (s7 := SingleFile.spawn s6 r) in *. clearbody s7.
  rewrite Le7, Le6.
  assert (Hfin : forall s8 : SingleFile.Game,
             SingleFile.achievement_system s8
             = SingleFile.achievement_system s ->
             forall n : Z,
               has_stats (SingleFile.stats s8) j n (SingleFile.score s5 + gain) ->
               exists s',
                 SingleFile.check_achievements s8 = Ok s' /\
                 Dict.get (SingleFile.stats s') "total_coins" = Some n).
  { intros s8 Ac8 n Hst8. unfold SingleFile.check_achievements.
    rewrite <- Ac8 in Hfl.
    destruct (check_by_priority _ _ _ _ _ _ _ _ Hfl Hst8) as [calls ->].
    simpl bind. destruct Hst8 as (_ & T & _).
    destruct (first_qualifying _ _ _ _ _ _) as [name|];
      [destruct (String.eqb name "")|]; eexists; split; try reflexivity;
      exact T. }
  assert (Hst7 : has_stats (SingleFile.stats s7) j c
                   (SingleFile.score s5 + gain)).
  { rewrite St7, St6. unfold has_stats.
    rewrite get_set_same, !get_set_other by discriminate. auto. }
  destruct (Dict.mem (SingleFile.active_powerups s4) "magnet").
  - unfold SingleFile.collect_coin, Dict.subscript. simpl.
    destruct Hst7 as (T1 & T2 & T3). rewrite T2. simpl bind.
    apply Hfin; [simpl; congruence|]. simpl. unfold has_stats.
    rewrite get_set_same, !get_set_other by discriminate. auto.
  - simpl bind. rewrite Z.add_0_r. apply Hfin; [congruence|exact Hst7].
Qed.

(** C3 (amended): in the package (blind_surfers/game.py) the coin loop
    of a frame, over however many coins, collects exactly the coins that
    arrive in the frame and are in the player's lane or find a magnet in
    the ledger: with a magnet every arriving coin, whatever its lane;
    without one the arriving coins of the player's lane and no other.  A
    coin that does not arrive is not collected, magnet or not, and stays on
    the track; an arrived coin leaves it.  A whole frame of a run adds to
    the number of collected coins what its coin loop collects, with the
    lane and the ledger as they are when the loop starts.  The single-file
    version blind_surfers.py has no coin entities: every frame of a run
    collects one coin if a magnet is in the ledger at its test, and none
    otherwise. *)
Theorem coin_collection (g : Game.t) (dt : float) (n : Z) :
  total_coins g = Some n ->
  (exists g',
     update_coins g dt = Ok g' /\
     total_coins g'
     = Some (n + Z.of_nat (List.length
                             (filter (collected g dt) (coins g))))%Z /\
     Economy.coins (economy g')
     = (Economy.coins (economy g)
        + Z.of_nat (List.length (filter (collected g dt) (coins g))))%Z /\
     List.length (coins g')
     = List.length (filter (on_its_way g dt) (coins g)) /\
     Forall (fun c => CoinCollectible.active c = true /\
                      (CoinCollectible.distance c <=? 0) = false)
       (coins g')) /\
  (Dict.mem (active_powerups g) "magnet" = true ->
   filter (collected g dt) (coins g)
   = filter (fun coin => arrives g coin dt) (coins g)) /\
  (Dict.mem (active_powerups g) "magnet" = false ->
   filter (collected g dt) (coins g)
   = filter (fun coin =>
               arrives g coin dt
               && (CoinCollectible.lane coin =? Player.lane (player g))%Z)
       (coins g)) /\
  (forall r : FrameRandom,
     reachable g -> state g = RUNNING -> delta_ok dt ->
     exists g',
       update g dt r = Ok g' /\
       total_coins g'
       = Some (n + Z.of_nat (List.length
                               (filter (collected (before_coins g dt) dt)
                                  (coins g))))%Z) /\
  (forall (s : SingleFile.Game) (r : SingleFile.FrameRandom) (j c sc : Z)
          (u1 u2 u3 : bool),
     SingleFile.in_game s = true ->
     has_stats (SingleFile.stats s) j c sc ->
     has_flags (SingleFile.achievement_system s) u1 u2 u3 ->
     (SingleFile.multiplier s = 1 \/ SingleFile.multiplier s = 2)%Z ->
     delta_ok dt ->
     exists s',
       SingleFile.update s dt r = Ok s' /\
       Dict.get (SingleFile.stats s') "total_coins"
       = Some (c + (if Dict.mem (single_file_ledger s dt) "magnet"
                    then 1 else 0))%Z).
Proof.
  intros Hn. split; [|split; [|split; [|split]]].
  - unfold update_coins.
    destruct (coins_loop_counts dt (coins g) g n Hn)
      as (g1 & cs1 & -> & H1 & H2 & H3 & H4).
    simpl. eexists. split; [reflexivity|]. simpl. auto.
  - intros Hm. apply filter_ext. intros coin. unfold collected.
    rewrite Hm, orb_true_r, andb_true_r. reflexivity.
  - intros Hm. apply filter_ext. intros coin. unfold collected.
    rewrite Hm, orb_false_r. reflexivity.
  - intros r Hr Hs Hd.
    destruct (update_returns g dt r (reachable_sound g Hr)
                (reachable_multiplier g Hr) Hd) as [g' Hu].
    exists g'. split; [exact Hu|].
    exact (frame_counts g g' dt r n Hs Hn Hu).
  - intros s r j c sc u1 u2 u3. apply single_file_frame_counts.
Qed.

(** Two runs with a coin about to arrive in lane 2 and another coin far
    away, the player in lane 1: with a magnet picked up the frame collects
    the coin, without one it does not, and does after a move to lane 2.
    One frame of the single-file version with a magnet collects a coin with
    nothing on the track. *)
Lemma coin_collection_witness :
  let coin_in lane :=
    {| obstacle_draw := None; powerup_draw := None; letter_draw := None;
       season_token_draw := None; coin_draw := Some lane |} in
  let magnet :=
    {| obstacle_draw := None; powerup_draw := Some (1%nat, 2%nat);
       letter_draw := None; season_token_draw := None; coin_draw := None |} in
  let s := SingleFile.activate_powerup (SingleFile.reset_run SingleFile.init)
             magnet_pickup in
  exists g g0 g1,
    play Game.init [select "start_run"; Frame 0.016 magnet;
                    Frame 0.016 (coin_in 2%nat); Frame 3.98 (coin_in 0%nat);
                    Frame 0.016 no_spawn] = Ok g /\
    play Game.init [select "start_run"; Frame 0.016 (coin_in 2%nat);
                    Frame 0.016 no_spawn; Frame 3.98 (coin_in 0%nat)]
    = Ok g0 /\
    handle_input g0 (KEYDOWN K_RIGHT) None 0 = Ok g1 /\
    Dict.mem (active_powerups g) "magnet" = true /\
    Dict.mem (active_powerups g0) "magnet" = false /\
    map CoinCollectible.lane (coins g) = [2; 0]%Z /\
    map CoinCollectible.lane (coins g0) = [2; 0]%Z /\
    Player.lane (player g) = 1%Z /\
    (exists g',
       update_coins (before_coins g 0.016) 0.016 = Ok g' /\
       total_coins g' = Some 1%Z /\ List.length (coins g') = 1%nat) /\
    (exists g', update g 0.016 no_spawn = Ok g' /\ total_coins g' = Some 1%Z) /\
    (exists g', update g0 0.016 no_spawn = Ok g' /\ total_coins g' = Some 0%Z) /\
    (exists g', update g1 0.016 no_spawn = Ok g' /\ total_coins g' = Some 1%Z) /\
    Dict.mem (single_file_ledger s 0.016) "magnet" = true /\
    (exists s',
       SingleFile.update s 0.016 single_file_no_spawn = Ok s' /\
       Dict.get (SingleFile.stats s') "total_coins" = Some 1%Z).
Proof.
  intros coin_in magnet s.
  eexists _, _, _. split; [vm_compute; reflexivity|].
  split; [vm_compute; reflexivity|]. split; [vm_compute; reflexivity|].
  match goal with
  | |- Dict.mem (active_powerups ?a) _ = true /\
       Dict.mem (active_powerups ?b) _ = false /\ _ =>
      set (G := a); set (G0 := b)
  end.
  match goal with
  | |- context [update ?c 0.016 no_spawn = _ /\ total_coins _ = Some 1%Z] =>
      lazymatch c with G => fail | _ => set (G1 := c) end
  end.
  assert (HG : reachable G).
  { apply (play_reachable
             [select "start_run"; Frame 0.016 magnet;
              Frame 0.016 (coin_in 2%nat); Frame 3.98 (coin_in 0%nat);
              Frame 0.016 no_spawn] Game.init); [constructor|].
    vm_compute; reflexivity. }
  assert (HG0 : reachable G0).
  { apply (play_reachable
             [select "start_run"; Frame 0.016 (coin_in 2%nat);
              Frame 0.016 no_spawn; Frame 3.98 (coin_in 0%nat)] Game.init);
      [constructor|].
    vm_compute; reflexivity. }
  assert (HG1 : reachable G1).
  { apply (reachable_step G0); [exact HG0|].
    apply (step_input _ _ (KEYDOWN K_RIGHT) None 0). vm_compute; reflexivity. }
  assert (Hd : delta_ok 0.016) by (split; vm_compute; reflexivity).
  split; [reflexivity|]. split; [reflexivity|]. split; [reflexivity|].
  split; [reflexivity|]. split; [reflexivity|].
  destruct (coin_collection (before_coins G 0.016) 0.016 0)
    as ((g' & E & T & _ & L & _) & _); [vm_compute; reflexivity|].
  split.
  { exists g'. split; [exact E|]. split.
    - rewrite T. vm_compute. reflexivity.
    - rewrite L. vm_compute. reflexivity. }
  destruct (coin_collection G 0.016 0) as (_ & _ & _ & HfG & Hsf);
    [vm_compute; reflexivity|].
  destruct (coin_collection G0 0.016 0) as (_ & _ & _ & HfG0 & _);
    [vm_compute; reflexivity|].
  destruct (coin_collection G1 0.016 0) as (_ & _ & _ & HfG1 & _);
    [vm_compute; reflexivity|].
  destruct (HfG no_spawn HG) as (a & Ea & Ta);
    [vm_compute; reflexivity|exact Hd|].
  destruct (HfG0 no_spawn HG0) as (b & Eb & Tb);
    [vm_compute; reflexivity|exact Hd|].
  destruct (HfG1 no_spawn HG1) as (c & Ec & Tc);
    [vm_compute; reflexivity|exact Hd|].
  split; [exists a; split; [exact Ea|rewrite Ta; vm_compute; reflexivity]|].
  split; [exists b; split; [exact Eb|rewrite Tb; vm_compute; reflexivity]|].
  split; [exists c; split; [exact Ec|rewrite Tc; vm_compute; reflexivity]|].
  destruct (Hsf s single_file_no_spawn 0 0 0 false false false)%Z
    as (s' & Es & Ts); try exact Hd; try (repeat split; fail);
    [left; reflexivity|].
  split; [vm_compute; reflexivity|].
  exists s'. split; [exact Es|]. rewrite Ts. vm_compute. reflexivity.
Defined.

End CoinLoopFacts.
